(** * MongoToMySQLAdapter: the translation engine of [lib/index.js]

    A shallow embedding of the filter translator ([parseMongoQuery] and its
    operator handlers), the [SubQuery] wrapper and the statement builders,
    followed by the properties stated about them.

    Conventions of the embedding.
    - A JavaScript value is a [Value]; an object is the list of its own
      enumerable properties in [for ... in] order, so the order of a list
      is the iteration order of the object it stands for.  Numbers are
      integers ([Z]); strings are byte strings.
    - The arrays [conditions] and [params] that the source mutates are
      passed in and returned.
    - A [throw] is the [Throw] constructor of [result]; [try]/[catch] is a
      match on it.
    - The process-wide plugin list [OperatorPlugins] is an explicit
      argument [plugins].
    - Calls to [Logger] only write to the console and are left out.
    - An [async] method returns the value its promise resolves to, or
      throws what the promise rejects with.

    Limits of the embedding.
    - A [SubQuery] wraps a [MongoQueryBuilder]; the source accepts any
      object with a [toSQL] method.
    - [JSON.stringify] of a bound value is kept symbolic ([PJson]); only
      its use on strings, in error messages, is computed.
    - When a call throws, the partly extended [conditions] and [params]
      arrays are not returned: no caller in the source reads them after a
      throw.  The same holds for what a call has changed in a builder or
      in its argument before it throws.
    - [Value] has no functions, and the prototype of an object is
      [Object.prototype].  A property that is read by name and is not the
      object's own is [undefined], also where the source would find a
      member of a prototype; where that matters the names are listed
      ([Object_prototype_names]) or excluded by a hypothesis.  A call of
      [obj.hasOwnProperty] finds the method of [Object.prototype] unless
      the object has a property of its own under that name, which then
      cannot be called.  The object that [prepareJoinMappings] fills is
      modelled with its prototype, which an alias [__proto__] replaces.
    - What a plugin throws is an error object with a name and a message.

    The definitions up to the section on the values named in the
    properties follow the source function by function.  The definitions
    after it ([first_seen], [case_expression], [recorded_limit],
    [annotate] and the like) are not in the source: they state what the
    properties compare the source with. *)

From Stdlib Require Import String Ascii List ZArith Lia Bool Arith DecimalString.
Import ListNotations.
Local Open Scope string_scope.

Set Implicit Arguments.
Set Warnings "-register-all".

(* ================================================================== *)
(** ** Errors and the result of a computation that may throw *)

Record JsError : Type := mkError { name : string; message : string }.

Inductive result (A : Type) : Type :=
| Ok (a : A)
| Throw (e : JsError).

Arguments Ok {A} a.
Arguments Throw {A} e.

Definition bind {A B : Type} (c : result A) (k : A -> result B) : result B :=
  match c with
  | Ok a => k a
  | Throw e => Throw e
  end.

Notation "x <- c1 ;; c2" := (bind c1 (fun x => c2))
  (at level 61, c1 at next level, right associativity).
Notation "' pat <- c1 ;; c2" := (bind c1 (fun x => match x with pat => c2 end))
  (at level 61, pat pattern, c1 at next level, right associativity).

Definition isOk {A : Type} (r : result A) : bool :=
  match r with Ok _ => true | Throw _ => false end.

(** [for (x of l) { s = f(x, s) }] where the body may throw. *)
Fixpoint forEachM {A St : Type} (f : A -> St -> result St) (l : list A) (s : St)
  : result St :=
  match l with
  | [] => Ok s
  | x :: l' =>
      match f x s with
      | Ok s' => forEachM f l' s'
      | Throw e => Throw e
      end
  end.

(** The same loop over the elements of an array, with their indices
    from [i] on. *)
Fixpoint forEachM_idx {A St : Type} (f : nat -> A -> St -> result St)
  (l : list A) (i : nat) (s : St) : result St :=
  match l with
  | [] => Ok s
  | x :: l' =>
      match f i x s with
      | Ok s' => forEachM_idx f l' (S i) s'
      | Throw e => Throw e
      end
  end.

(** [l.map((x, idx) => f(x, idx))] where [f] reads and writes a state
    (the shared [params] array) and may throw; [i] is the index of the
    head of [l]. *)
Fixpoint mapM_idx {A B St : Type} (f : A -> nat -> St -> result (B * St))
  (l : list A) (i : nat) (s : St) : result (list B * St) :=
  match l with
  | [] => Ok ([], s)
  | x :: l' =>
      match f x i s with
      | Ok (b, s') =>
          match mapM_idx f l' (S i) s' with
          | Ok (bs, s'') => Ok (b :: bs, s'')
          | Throw e => Throw e
          end
      | Throw e => Throw e
      end
  end.

(** [l.map(f)] where the callback may throw. *)
Fixpoint mapM {A B : Type} (f : A -> result B) (l : list A) : result (list B) :=
  match l with
  | [] => Ok []
  | x :: l' => b <- f x ;; bs <- mapM f l' ;; Ok (b :: bs)
  end.

(* ================================================================== *)
(** ** Strings *)

Definition startsWith (s p : string) : bool := String.prefix p s.

(** [l.join(sep)] on an array of strings. *)
Definition join (sep : string) (l : list string) : string := String.concat sep l.

(** Decimal text of an array index and of an integer number. *)
Definition nat_to_string (n : nat) : string := NilZero.string_of_uint (Nat.to_uint n).
Definition Z_to_string (n : Z) : string := NilZero.string_of_int (Z.to_int n).

Definition nonEmpty (s : string) : bool := negb (s =? EmptyString).

(** The double-quote character, as a string. *)
Definition dquote : string := String (ascii_of_nat 34) EmptyString.

Definition hex_digit (n : nat) : ascii :=
  match n with
  | 0 => "0" | 1 => "1" | 2 => "2" | 3 => "3" | 4 => "4" | 5 => "5" | 6 => "6"
  | 7 => "7" | 8 => "8" | 9 => "9" | 10 => "a" | 11 => "b" | 12 => "c"
  | 13 => "d" | 14 => "e" | _ => "f"
  end%char.

(** The backslash character, as a string. *)
Definition backslash : string := String (ascii_of_nat 92) EmptyString.

(** The body of [JSON.stringify] on a string (QuoteJSONString), without
    the enclosing quotes. *)
Fixpoint json_escape (s : string) : string :=
  match s with
  | EmptyString => EmptyString
  | String c s' =>
      let n := nat_of_ascii c in
      (if Nat.eqb n 34 then backslash ++ dquote
       else if Nat.eqb n 92 then backslash ++ backslash
       else if Nat.eqb n 8 then backslash ++ "b"
       else if Nat.eqb n 12 then backslash ++ "f"
       else if Nat.eqb n 10 then backslash ++ "n"
       else if Nat.eqb n 13 then backslash ++ "r"
       else if Nat.eqb n 9 then backslash ++ "t"
       else if Nat.ltb n 32 then
         backslash ++ "u00" ++
         String (hex_digit (n / 16)) (String (hex_digit (n mod 16)) EmptyString)
       else String c EmptyString) ++ json_escape s'
  end.

(** [JSON.stringify(s)] for a string [s]. *)
Definition JSON_stringify_string (s : string) : string :=
  dquote ++ json_escape s ++ dquote.

(** [key.split(".")]: the segments between the dots. *)
Fixpoint split_dot_aux (s : string) (cur : string) : list string :=
  match s with
  | EmptyString => [cur]
  | String c s' =>
      if Ascii.eqb c "."%char then cur :: split_dot_aux s' EmptyString
      else split_dot_aux s' (cur ++ String c EmptyString)
  end.

Definition split_dot (s : string) : list string := split_dot_aux s EmptyString.

(** [key.indexOf('.') !== -1]. *)
Fixpoint has_dot (s : string) : bool :=
  match s with
  | EmptyString => false
  | String c s' => Ascii.eqb c "."%char || has_dot s'
  end.

(** [s.substring(1)]. *)
Definition substring1 (s : string) : string :=
  match s with
  | EmptyString => EmptyString
  | String _ s' => s'
  end.

(** The characters of a string, one string each. *)
Fixpoint chars (s : string) : list string :=
  match s with
  | EmptyString => []
  | String c s' => String c EmptyString :: chars s'
  end.

(* ================================================================== *)
(** ** Values *)

(** A join configuration object [{ tableName, alias, joinType, on }];
    [alias] may be absent. *)
Record JoinConfig : Type := mkJoinConfig {
  join_tableName : string;
  join_alias : option string;
  join_joinType : string;
  join_on : string
}.

(** The fields of a [MongoQueryBuilder] instance, over the type [V] of
    filter values.  [projection] is [null] or an array of column names,
    [limitValue] and [offsetValue] are [null] or a number. *)
Record MongoQueryBuilderOf (V : Type) : Type := mkMongoQueryBuilder {
  tableName : string;
  filter : V;
  projection : option (list string);
  joinConfigs : list JoinConfig;
  sortClause : string;
  limitValue : option Z;
  offsetValue : option Z
}.

(** The fields of a [SubQuery] instance. *)
Record SubQueryOf (V : Type) : Type := mkSubQuery {
  queryBuilder : MongoQueryBuilderOf V;
  cachedSQL : option string
}.

#[local] Unset Elimination Schemes.

Inductive Value : Type :=
| VUndefined
| VNull
| VBool (b : bool)
| VNum (n : Z)
| VStr (s : string)
| VArr (elems : list Value)
| VObj (props : list (string * Value))
| VSubQuery (sq : SubQueryOf Value).

#[local] Set Elimination Schemes.

Definition MongoQueryBuilder : Type := MongoQueryBuilderOf Value.
Definition SubQuery : Type := SubQueryOf Value.

(** A bound parameter: a value as it is, or the text [JSON.stringify]
    gives for it (the serialisation itself is the host's). *)
Inductive param : Type :=
| PVal (v : Value)
| PJson (v : Value).

(** The terminal artifact [{ sql, params }]. *)
Record Statement : Type := mkStatement { sql : string; params : list param }.

(** [l.push(x)] and [l.push(...xs)]. *)
Definition push {A : Type} (l : list A) (x : A) : list A := (l ++ [x])%list.
Definition push_all {A : Type} (l xs : list A) : list A := (l ++ xs)%list.

(** [!!v]. *)
Definition truthy (v : Value) : bool :=
  match v with
  | VUndefined | VNull => false
  | VBool b => b
  | VNum n => negb (Z.eqb n 0)
  | VStr s => nonEmpty s
  | VArr _ | VObj _ | VSubQuery _ => true
  end.

(** [v instanceof SubQuery]. *)
Definition isSubQuery (v : Value) : bool :=
  match v with VSubQuery _ => true | _ => false end.

(** [obj[key]] on the property list of an object; [undefined] when the
    key is absent. *)
Fixpoint lookup (key : string) (props : list (string * Value)) : Value :=
  match props with
  | [] => VUndefined
  | (k, v) :: props' => if k =? key then v else lookup key props'
  end.

(** [obj.hasOwnProperty(key)]. *)
Definition hasOwnProperty (props : list (string * Value)) (key : string) : bool :=
  existsb (fun kv => fst kv =? key) props.

(** The elements of an array with their indices as keys, from index [i]. *)
Fixpoint indexed (l : list Value) (i : nat) : list (string * Value) :=
  match l with
  | [] => []
  | v :: l' => (nat_to_string i, v) :: indexed l' (S i)
  end.

Definition opt_value {A : Type} (f : A -> Value) (o : option A) : Value :=
  match o with Some a => f a | None => VNull end.

Definition JoinConfig_props (j : JoinConfig) : list (string * Value) :=
  ("tableName", VStr (join_tableName j))
  :: match join_alias j with
     | Some a => [("alias", VStr a)]
     | None => []
     end
  ++ [("joinType", VStr (join_joinType j)); ("on", VStr (join_on j))].

(** The own properties of a [MongoQueryBuilder] instance, in the order
    the constructor assigns them. *)
Definition MongoQueryBuilder_props (b : MongoQueryBuilder) : list (string * Value) :=
  [ ("tableName", VStr (tableName b));
    ("filter", filter b);
    ("projection", opt_value (fun l => VArr (map VStr l)) (projection b));
    ("joinConfigs", VArr (map (fun j => VObj (JoinConfig_props j)) (joinConfigs b)));
    ("sortClause", VStr (sortClause b));
    ("limitValue", opt_value VNum (limitValue b));
    ("offsetValue", opt_value VNum (offsetValue b)) ].

(** The own properties of a [SubQuery] instance. *)
Definition SubQuery_props (sq : SubQuery) : list (string * Value) :=
  [ ("queryBuilder", VObj (MongoQueryBuilder_props (queryBuilder sq)));
    ("cachedSQL", opt_value VStr (cachedSQL sq)) ].

(** The properties a [for (key in v)] loop visits, with their values. *)
Definition own_props (v : Value) : list (string * Value) :=
  match v with
  | VObj props => props
  | VArr elems => indexed elems 0
  | VStr s => indexed (map VStr (chars s)) 0
  | VSubQuery sq => SubQuery_props sq
  | VUndefined | VNull | VBool _ | VNum _ => []
  end.

(* ================================================================== *)
(** ** Error classes, operator table, plugins *)

Definition context_text (context : option string) : string :=
  match context with
  | Some c => c
  | None => "undefined"
  end.

(** [new QueryParseError(message, context)]. *)
Definition QueryParseError (msg : string) (context : option string) : JsError :=
  mkError "QueryParseError"
    ("[QueryParseError] " ++ msg ++ " | Context: " ++ context_text context).

(** [new SQLGenerationError(message, context)]. *)
Definition SQLGenerationError (msg : string) (context : option string) : JsError :=
  mkError "SQLGenerationError"
    ("[SQLGenerationError] " ++ msg ++ " | Context: " ++ context_text context).

(** A [TypeError] raised by the runtime; the text is the engine's. *)
Definition TypeError (msg : string) : JsError := mkError "TypeError" msg.

(** [handleError(errMsg, context, ErrorType)]: the error class is built
    with one argument, so its own [context] is [undefined]. *)
Definition handleError {A : Type} (errMsg context : string)
  (ErrorType : string -> option string -> JsError) : result A :=
  Throw (ErrorType (errMsg ++ " | Context: " ++ JSON_stringify_string context) None).

(** [try { body } catch (e) { handler(e) }]. *)
Definition tryCatch {A : Type} (body : result A) (handler : JsError -> result A)
  : result A :=
  match body with
  | Ok a => Ok a
  | Throw e => handler e
  end.

Definition OPERATORS_MYSQL : list (string * string) :=
  [ ("$eq", "="); ("$ne", "<>"); ("$gt", ">"); ("$gte", ">="); ("$lt", "<");
    ("$lte", "<="); ("$in", "IN"); ("$nin", "NOT IN"); ("$and", "AND");
    ("$or", "OR"); ("$not", "NOT"); ("$regex", "REGEXP"); ("$like", "LIKE") ].

(** [OPERATORS_MYSQL[operator]]. *)
Fixpoint table_lookup (key : string) (table : list (string * string)) : option string :=
  match table with
  | [] => None
  | (k, v) :: table' => if k =? key then Some v else table_lookup key table'
  end.

(** An [OperatorPlugin]: the handler receives the arrays [conditions] and
    [params] and may change them in any way, or throw. *)
Record OperatorPlugin : Type := mkOperatorPlugin {
  plugin_operator : string;
  plugin_handler :
    string -> Value -> list string -> list param -> string ->
    result (list string * list param)
}.

Definition OperatorPlugin_apply (this : OperatorPlugin) (field : string)
  (opValue : Value) (conditions : list string) (params : list param)
  (context : string) : result (list string * list param) :=
  plugin_handler this field opValue conditions params context.

(** [registerOperatorPlugin(operator, handler)]. *)
Definition registerOperatorPlugin (OperatorPlugins : list OperatorPlugin)
  (operator : string)
  (handler : string -> Value -> list string -> list param -> string ->
             result (list string * list param)) : list OperatorPlugin :=
  OperatorPlugins ++ [mkOperatorPlugin operator handler].

(* ================================================================== *)
(** ** Projection and join helpers *)

(** Names every plain object inherits from [Object.prototype]. *)
Definition Object_prototype_names : list string :=
  [ "constructor"; "__defineGetter__"; "__defineSetter__"; "hasOwnProperty";
    "__lookupGetter__"; "__lookupSetter__"; "isPrototypeOf";
    "propertyIsEnumerable"; "toString"; "valueOf"; "__proto__";
    "toLocaleString" ].

(** The object [prepareJoinMappings] stores under an alias. *)
Record JoinMapping : Type := mkJoinMapping {
  mapping_tableName : string;
  mapping_joinType : string;
  mapping_on : string;
  mapping_alias : string
}.

(** The object [mappings]: the properties of its own, and its prototype.
    [mappings_proto] is [None] while the prototype is [Object.prototype],
    as for every object literal, and [Some m] once the object [m] has
    taken that place; the prototype of [m] is [Object.prototype]. *)
Record JoinMappings : Type := mkJoinMappings {
  mappings_own : list (string * JoinMapping);
  mappings_proto : option JoinMapping
}.

(** [props[key] = x] on the own properties of an object: the entry is
    replaced where it stands, or added at the end. *)
Fixpoint assign_own {A : Type} (key : string) (x : A) (props : list (string * A))
  : list (string * A) :=
  match props with
  | [] => [(key, x)]
  | (k, v) :: props' =>
      if k =? key then (k, x) :: props' else (k, v) :: assign_own key x props'
  end.

(** [mappings[alias] = m].  The name [__proto__] is an accessor of
    [Object.prototype]: assigning an object to it adds no property and
    makes the object the prototype of [mappings].  Every other name
    becomes, or stays, a property of [mappings] itself. *)
Definition assign_mapping (mappings : JoinMappings) (alias : string) (m : JoinMapping)
  : JoinMappings :=
  if alias =? "__proto__"
  then mkJoinMappings (mappings_own mappings) (Some m)
  else mkJoinMappings (assign_own alias m (mappings_own mappings))
         (mappings_proto mappings).

Definition prepareJoinMappings (joinConfigs : list JoinConfig) : JoinMappings :=
  fold_left
    (fun mappings j =>
       let alias :=
         match join_alias j with
         | Some a => if nonEmpty a then a else join_tableName j
         | None => join_tableName j
         end in
       assign_mapping mappings alias
         (mkJoinMapping (join_tableName j) (join_joinType j) (join_on j) alias))
    joinConfigs (mkJoinMappings [] None).

(** [joinMappings[alias]] is truthy.  A property of [mappings] itself
    holds an object.  Failing that the name is looked up in the
    prototype: in the object that has taken the place of
    [Object.prototype], if any, whose four properties hold strings, and
    then in [Object.prototype], whose members are all truthy. *)
Definition mapping_truthy (joinMappings : JoinMappings) (alias : string) : bool :=
  if existsb (fun kv => fst kv =? alias) (mappings_own joinMappings) then true
  else
    match mappings_proto joinMappings with
    | Some m =>
        if alias =? "tableName" then nonEmpty (mapping_tableName m)
        else if alias =? "joinType" then nonEmpty (mapping_joinType m)
        else if alias =? "on" then nonEmpty (mapping_on m)
        else if alias =? "alias" then nonEmpty (mapping_alias m)
        else existsb (String.eqb alias) Object_prototype_names
    | None => existsb (String.eqb alias) Object_prototype_names
    end.

Definition parseProjectStageWithJoinsOptimized (projectFields : list string)
  (joinMappings : JoinMappings) (mainTableName : string) : string :=
  let fields :=
    map (fun key =>
           if has_dot key then
             let parts := split_dot key in
             let alias := nth 0 parts EmptyString in
             let col := nth 1 parts EmptyString in
             if mapping_truthy joinMappings alias
             then alias ++ "." ++ col ++ " AS " ++ alias ++ "_" ++ col
             else mainTableName ++ "." ++ key ++ " AS " ++ mainTableName ++ "_" ++ key
           else mainTableName ++ "." ++ key ++ " AS " ++ mainTableName ++ "_" ++ key)
        projectFields in
  join ", " fields.

Definition generateJoinClause (joinConfigs : list JoinConfig) : string :=
  join " "
    (map (fun j =>
            let aliasPart :=
              match join_alias j with
              | Some a => if nonEmpty a then " AS " ++ a else EmptyString
              | None => EmptyString
              end in
            " " ++ join_joinType j ++ " " ++ join_tableName j ++ aliasPart
            ++ " ON " ++ join_on j)
         joinConfigs).

(* ================================================================== *)
(** ** The filter translator

    [parseMongoQuery] calls itself on the elements of [$and]/[$or]/[$nor]
    and, through [SubQuery] and the select builder's [toSQL], on the
    filter of a wrapped builder.  The handlers below take that recursive
    call as the argument [parse]; [parseMongoQuery] closes the knot. *)

Section Translator.

Variable plugins : list OperatorPlugin.

Section Handlers.

Variable parse : Value -> list param -> string -> result (string * list param).

(** [MongoQueryBuilder.prototype.toSQL]. *)
Definition MongoQueryBuilder_toSQL_with (this : MongoQueryBuilder) : result Statement :=
  let hasJoins := Nat.ltb 0 (length (joinConfigs this)) in
  let selectClause :=
    match projection this with
    | Some fields =>
        if hasJoins
        then parseProjectStageWithJoinsOptimized fields
               (prepareJoinMappings (joinConfigs this)) (tableName this)
        else join ", " fields
    | None => "*"
    end in
  let sql0 := "SELECT " ++ selectClause ++ " FROM " ++ tableName this in
  let sql1 := if hasJoins then sql0 ++ generateJoinClause (joinConfigs this) else sql0 in
  '(whereClause, params) <- parse (filter this) [] "SELECT" ;;
  let sql2 := if nonEmpty whereClause then sql1 ++ " WHERE " ++ whereClause else sql1 in
  let sql3 := if nonEmpty (sortClause this)
              then sql2 ++ " ORDER BY " ++ sortClause this else sql2 in
  let sql4 :=
    match limitValue this, offsetValue this with
    | Some l, Some o => sql3 ++ " LIMIT " ++ Z_to_string l ++ " OFFSET " ++ Z_to_string o
    | Some l, None => sql3 ++ " LIMIT " ++ Z_to_string l
    | None, Some o => sql3 ++ " LIMIT 18446744073709551615 OFFSET " ++ Z_to_string o
    | None, None => sql3
    end in
  Ok (mkStatement sql4 params).

(** [SubQuery.prototype.toSQL]: the text, and the instance with its cache
    slot as the call leaves it. *)
Definition SubQuery_toSQL_with (this : SubQuery) : result (string * SubQuery) :=
  match cachedSQL this with
  | Some s =>
      if nonEmpty s then Ok (s, this)
      else
        r <- MongoQueryBuilder_toSQL_with (queryBuilder this) ;;
        let c := "(" ++ sql r ++ ")" in
        Ok (c, mkSubQuery (queryBuilder this) (Some c))
  | None =>
      r <- MongoQueryBuilder_toSQL_with (queryBuilder this) ;;
      let c := "(" ++ sql r ++ ")" in
      Ok (c, mkSubQuery (queryBuilder this) (Some c))
  end.

(** [SubQuery.prototype.getParams]. *)
Definition SubQuery_getParams_with (this : SubQuery) : result (list param) :=
  r <- MongoQueryBuilder_toSQL_with (queryBuilder this) ;;
  Ok (params r).

(** [value.map((subQuery, idx) => wrap(parseMongoQuery(subQuery, params,
    label(idx))))] for the value of a logical operator; a value without a
    [map] method makes the call throw. *)
Definition map_parse (value : Value) (label : nat -> string)
  (wrap : string -> string) (params : list param)
  : result (list string * list param) :=
  match value with
  | VArr subQueries =>
      mapM_idx (fun subQuery idx params =>
                  '(cond, params') <- parse subQuery params (label idx) ;;
                  Ok (wrap cond, params'))
               subQueries 0 params
  | VUndefined => Throw (TypeError "Cannot read properties of undefined (reading 'map')")
  | VNull => Throw (TypeError "Cannot read properties of null (reading 'map')")
  | _ => Throw (TypeError "value.map is not a function")
  end.

Definition handleLogicalOperators (operator : string) (value : Value)
  (conditions : list string) (params : list param) (context : string)
  : result (list string * list param) :=
  match value with
  | VArr (_ :: _) =>
      '(subConds, params') <-
        map_parse value
          (fun idx => context ++ "->" ++ operator ++ "[" ++ nat_to_string idx ++ "]")
          (fun cond => "(" ++ cond ++ ")") params ;;
      if operator =? "$nor"
      then Ok (push conditions ("NOT (" ++ join " OR " subConds ++ ")"), params')
      else
        let sqlOperator :=
          match table_lookup operator OPERATORS_MYSQL with
          | Some o => o
          | None => operator
          end in
        Ok (push conditions ("(" ++ join (" " ++ sqlOperator ++ " ") subConds ++ ")"), params')
  | _ =>
      Ok (push conditions (if operator =? "$and" then "1=1" else "1=0"), params)
  end.

(** The callback of [values.map] in the branch of [handleArrayOperators]
    that embeds sub-queries. *)
Definition array_element (v : Value) (params : list param)
  : result (string * list param) :=
  match v with
  | VSubQuery sq =>
      ps <- SubQuery_getParams_with sq ;;
      '(text, _) <- SubQuery_toSQL_with sq ;;
      Ok (text, push_all params ps)
  | _ => Ok ("?", push params (PVal v))
  end.

Definition handleArrayOperators (field : string) (values : Value)
  (operator : string) (conditions : list string) (params : list param)
  (context : string) : result (list string * list param) :=
  match values with
  | VArr ((_ :: _) as vs) =>
      if existsb isSubQuery vs then
        '(subQueries, params') <-
          mapM_idx (fun v (_ : nat) params => array_element v params) vs 0 params ;;
        Ok (push conditions (field ++ " IN (" ++ join ", " subQueries ++ ")"), params')
      else if operator =? "$in" then
        if Nat.eqb (length vs) 0 then Ok (push conditions "1=0", params)
        else
          let placeholders := join ", " (map (fun _ => "?") vs) in
          Ok (push conditions (field ++ " IN (" ++ placeholders ++ ")"),
              push_all params (map PVal vs))
      else if operator =? "$nin" then
        if Nat.eqb (length vs) 0 then Ok (push conditions "1=1", params)
        else
          let placeholders := join ", " (map (fun _ => "?") vs) in
          Ok (push conditions (field ++ " NOT IN (" ++ placeholders ++ ")"),
              push_all params (map PVal vs))
      else if operator =? "$all" then
        let subConds := map (fun _ => "JSON_CONTAINS(" ++ field ++ ", ?)") vs in
        Ok (push conditions ("(" ++ join " AND " subConds ++ ")"),
            push_all params (map PJson vs))
      else Ok (conditions, params)
  | _ =>
      if operator =? "$in" then Ok (push conditions "1=0", params)
      else if operator =? "$nin" then Ok (push conditions "1=1", params)
      else Ok (conditions, params)
  end.

Definition handleOperator (field : string) (opValue : Value) (operator : string)
  (conditions : list string) (params : list param) (context : string)
  : result (list string * list param) :=
  match find (fun plugin => plugin_operator plugin =? operator) plugins with
  | Some plugin => OperatorPlugin_apply plugin field opValue conditions params context
  | None =>
      match opValue with
      | VSubQuery sq =>
          '(subSql, _) <- SubQuery_toSQL_with sq ;;
          ps <- SubQuery_getParams_with sq ;;
          Ok (push conditions (field ++ " IN " ++ subSql), push_all params ps)
      | _ =>
          if operator =? "$exists" then
            Ok (push conditions
                  (field ++ " " ++ (if truthy opValue then "IS NOT NULL" else "IS NULL")),
                params)
          else if operator =? "$size" then
            Ok (push conditions ("JSON_LENGTH(" ++ field ++ ") = ?"), push params (PVal opValue))
          else if operator =? "$elemMatch" then
            Ok (push conditions ("JSON_CONTAINS(" ++ field ++ ", ?)"), push params (PJson opValue))
          else if operator =? "$regex" then
            Ok (push conditions (field ++ " REGEXP ?"), push params (PVal opValue))
          else if operator =? "$like" then
            Ok (push conditions (field ++ " LIKE ?"), push params (PVal opValue))
          else
            match table_lookup operator OPERATORS_MYSQL with
            | None =>
                handleError
                  ("Unsupported operator " ++ dquote ++ operator ++ dquote
                   ++ " for field " ++ dquote ++ field ++ dquote)
                  context SQLGenerationError
            | Some sqlOperator =>
                Ok (push conditions (field ++ " " ++ sqlOperator ++ " ?"),
                    push params (PVal opValue))
            end
      end
  end.

(** The body of the inner loop [for (let op in value)] of
    [parseMongoQuery], for the field [key] and the entry [op] of its
    operator object. *)
Definition parseFieldOperator (context key op : string) (opValue : Value)
  (st : list string * list param) : result (list string * list param) :=
  let '(fieldConds, params) := st in
  if startsWith op "$" then
    match (op =? "$in"), opValue with
    | true, VSubQuery sq =>
        '(subResult, _) <- SubQuery_toSQL_with sq ;;
        ps <- SubQuery_getParams_with sq ;;
        Ok (push fieldConds (key ++ " IN " ++ subResult), push_all params ps)
    | _, _ =>
        if existsb (String.eqb op) ["$in"; "$nin"; "$all"]
        then handleArrayOperators key opValue op fieldConds params context
        else handleOperator key opValue op fieldConds params context
    end
  else Ok (push fieldConds (key ++ " = ?"), push params (PVal opValue)).

(** The body of the loop [for (let key in query)] of [parseMongoQuery],
    with its [try]/[catch]. *)
Definition parseEntry (context key : string) (value : Value)
  (st : list string * list param) : result (list string * list param) :=
  let '(conditions, params) := st in
  tryCatch
    (if startsWith key "$" then
       if key =? "$or" then
         '(conds, params') <-
           map_parse value (fun idx => context ++ "->OR[" ++ nat_to_string idx ++ "]")
             (fun cond => cond) params ;;
         let orConditions :=
           List.filter (fun cond => nonEmpty cond && negb (cond =? "1=1")) conds in
         if Nat.ltb 0 (length orConditions)
         then Ok (push conditions ("(" ++ join " OR " orConditions ++ ")"), params')
         else Ok (push conditions "1=0", params')
       else if key =? "$nor" then
         '(conds, params') <-
           map_parse value (fun idx => context ++ "->NOR[" ++ nat_to_string idx ++ "]")
             (fun cond => cond) params ;;
         let norConditions :=
           List.filter (fun cond => nonEmpty cond && negb (cond =? "1=1")) conds in
         if Nat.ltb 0 (length norConditions)
         then Ok (push conditions ("NOT (" ++ join " OR " norConditions ++ ")"), params')
         else Ok (push conditions "1=1", params')
       else if key =? "$and" then
         '(conds, params') <-
           map_parse value (fun idx => context ++ "->AND[" ++ nat_to_string idx ++ "]")
             (fun cond => cond) params ;;
         let andConditions := List.filter nonEmpty conds in
         if Nat.ltb 0 (length andConditions)
         then Ok (push conditions (join " AND " andConditions), params')
         else Ok (conditions, params')
       else handleLogicalOperators key value conditions params context
     else
       match value with
       | VSubQuery sq =>
           '(subResult, _) <- SubQuery_toSQL_with sq ;;
           ps <- SubQuery_getParams_with sq ;;
           Ok (push conditions (key ++ " IN " ++ subResult), push_all params ps)
       | VObj ops =>
           '(fieldConds, params') <-
             forEachM (fun kv => parseFieldOperator context key (fst kv) (snd kv))
               ops ([], params) ;;
           match fieldConds with
           | [] => Ok (conditions, params')
           | [c] => Ok (push conditions c, params')
           | _ => Ok (push conditions ("(" ++ join " AND " fieldConds ++ ")"), params')
           end
       | _ => Ok (push conditions (key ++ " = ?"), push params (PVal value))
       end)
    (fun e => Throw (QueryParseError (message e) (Some context))).

(** The value [parseMongoQuery] returns once its loop is over. *)
Definition whereClause_of (conditions : list string) : string :=
  match conditions with
  | [] => "1=1"
  | _ => join " AND " conditions
  end.

End Handlers.

(** A recursive call that never happens: the properties of a string and
    of a [SubQuery] instance hold neither a logical operator key nor a
    [SubQuery] (see [parseMongoQuery_for_in] below). *)
Definition parse_unreached (query : Value) (params : list param) (context : string)
  : result (string * list param) :=
  Ok ("1=1", params).

(** [parseMongoQuery(query, params, context)]: the clause, and [params]
    as the call leaves it.  The loop visits the own properties of
    [query]: the entries of an object, the indices of an array or of a
    string, the two fields of a [SubQuery] instance, nothing for the
    other values. *)
Fixpoint parseMongoQuery (query : Value) (params : list param) (context : string)
  {struct query} : result (string * list param) :=
  '(conditions, params') <-
    match query with
    | VObj props =>
        forEachM (fun kv => parseEntry parseMongoQuery context (fst kv) (snd kv))
          props ([], params)
    | VArr elems =>
        forEachM_idx
          (fun idx => parseEntry parseMongoQuery context (nat_to_string idx))
          elems 0 ([], params)
    | VStr _ | VSubQuery _ =>
        forEachM (fun kv => parseEntry parse_unreached context (fst kv) (snd kv))
          (own_props query) ([], params)
    | VUndefined | VNull | VBool _ | VNum _ => Ok ([], params)
    end ;;
  Ok (whereClause_of conditions, params').

Definition MongoQueryBuilder_toSQL : MongoQueryBuilder -> result Statement :=
  MongoQueryBuilder_toSQL_with parseMongoQuery.

Definition SubQuery_toSQL : SubQuery -> result (string * SubQuery) :=
  SubQuery_toSQL_with parseMongoQuery.

Definition SubQuery_getParams : SubQuery -> result (list param) :=
  SubQuery_getParams_with parseMongoQuery.

End Translator.

(** [new MongoQueryBuilder(tableName)]. *)
Definition new_MongoQueryBuilder (tableName : string) : MongoQueryBuilder :=
  mkMongoQueryBuilder tableName (VObj []) None [] EmptyString None None.

(** [new SubQuery(queryBuilder)]. *)
Definition new_SubQuery (queryBuilder : MongoQueryBuilder) : SubQuery :=
  mkSubQuery queryBuilder None.

(* ================================================================== *)
(** ** Property access on values *)

(** The own properties of a value, enumerable or not: arrays and strings
    also own [length]. *)
Definition own_props_all (v : Value) : list (string * Value) :=
  match v with
  | VArr elems => (own_props v ++ [("length", VNum (Z.of_nat (length elems)))])%list
  | VStr s => (own_props v ++ [("length", VNum (Z.of_nat (String.length s)))])%list
  | _ => own_props v
  end.

(** [v.hasOwnProperty(key)], a call of the method the value has under
    that name.  [null] and [undefined] have no properties.  An object
    that has a property of its own named [hasOwnProperty] holds a value
    there that cannot be called; every other value finds the method of
    [Object.prototype]. *)
Definition has_own (v : Value) (key : string) : result bool :=
  match v with
  | VUndefined =>
      Throw (TypeError "Cannot read properties of undefined (reading 'hasOwnProperty')")
  | VNull =>
      Throw (TypeError "Cannot read properties of null (reading 'hasOwnProperty')")
  | VObj props =>
      if hasOwnProperty props "hasOwnProperty"
      then Throw (TypeError "obj.hasOwnProperty is not a function")
      else Ok (hasOwnProperty props key)
  | _ => Ok (hasOwnProperty (own_props_all v) key)
  end.

(** [v[key]] for a key that is not inherited. *)
Definition get_own (v : Value) (key : string) : Value := lookup key (own_props_all v).

(** [v[key]] where [v] may be [null] or [undefined], of which no
    property can be read. *)
Definition get_prop (v : Value) (key : string) : result Value :=
  match v with
  | VUndefined =>
      Throw (TypeError ("Cannot read properties of undefined (reading '" ++ key ++ "')"))
  | VNull =>
      Throw (TypeError ("Cannot read properties of null (reading '" ++ key ++ "')"))
  | _ => Ok (get_own v key)
  end.

(** [Object.keys(v)]. *)
Definition Object_keys (v : Value) : result (list string) :=
  match v with
  | VUndefined | VNull => Throw (TypeError "Cannot convert undefined or null to object")
  | _ => Ok (map fst (own_props v))
  end.

(** [obj[key] = x] on a property list: the entry is replaced where it
    stands, or added at the end. *)
Fixpoint set_prop (key : string) (x : Value) (props : list (string * Value))
  : list (string * Value) :=
  match props with
  | [] => [(key, x)]
  | (k, v) :: props' =>
      if k =? key then (k, x) :: props' else (k, v) :: set_prop key x props'
  end.

(** [String(v)], as a template literal and [Array.prototype.join] apply
    it.  An object answers with [Object.prototype.toString] unless it has
    a property of its own under that name, which is then not callable. *)
Fixpoint ToString (v : Value) : result string :=
  match v with
  | VUndefined => Ok "undefined"
  | VNull => Ok "null"
  | VBool b => Ok (if b then "true" else "false")
  | VNum n => Ok (Z_to_string n)
  | VStr s => Ok s
  | VArr elems =>
      '(parts, _) <-
        mapM_idx (fun e (_ : nat) (_ : unit) =>
                    match e with
                    | VUndefined | VNull => Ok (EmptyString, tt)
                    | _ => s <- ToString e ;; Ok (s, tt)
                    end) elems 0 tt ;;
      Ok (join "," parts)
  | VObj props =>
      if hasOwnProperty props "toString"
      then Throw (TypeError "Cannot convert object to primitive value")
      else Ok "[object Object]"
  | VSubQuery _ => Ok "[object Object]"
  end.

(** [arr.join(sep)] on an array of values. *)
Definition join_values (sep : string) (elems : list Value) : result string :=
  '(parts, _) <-
    mapM_idx (fun e (_ : nat) (_ : unit) =>
                match e with
                | VUndefined | VNull => Ok (EmptyString, tt)
                | _ => s <- ToString e ;; Ok (s, tt)
                end) elems 0 tt ;;
  Ok (join sep parts).

(* ================================================================== *)
(** ** Filter accumulation: [query(queryObj)]

    The method has the same body in [MongoQueryBuilder],
    [MongoUpdateBuilder] and [MongoDeleteBuilder]; [accumulate] is that
    body as a function of [this.filter]. *)

Definition accumulate (filter queryObj : Value) : result Value :=
  keys <- Object_keys filter ;;
  if Nat.eqb (length keys) 0 then Ok queryObj
  else
    let filter' :=
      if negb (truthy (get_own filter "$and"))
      then VObj [("$and", VArr [filter])]
      else filter in
    match filter' with
    | VObj props =>
        match lookup "$and" props with
        | VArr conjuncts => Ok (VObj (set_prop "$and" (VArr (push conjuncts queryObj)) props))
        | _ => Throw (TypeError "this.filter.$and.push is not a function")
        end
    | _ => Throw (TypeError "this.filter.$and.push is not a function")
    end.

(* ================================================================== *)
(** ** The select builder *)

Definition set_filter (this : MongoQueryBuilder) (f : Value) : MongoQueryBuilder :=
  mkMongoQueryBuilder (tableName this) f (projection this) (joinConfigs this)
    (sortClause this) (limitValue this) (offsetValue this).

Definition MongoQueryBuilder_query (this : MongoQueryBuilder) (queryObj : Value)
  : result MongoQueryBuilder :=
  f <- accumulate (filter this) queryObj ;;
  Ok (set_filter this f).

Definition MongoQueryBuilder_project (this : MongoQueryBuilder) (fields : list string)
  : MongoQueryBuilder :=
  mkMongoQueryBuilder (tableName this) (filter this) (Some fields) (joinConfigs this)
    (sortClause this) (limitValue this) (offsetValue this).

Definition MongoQueryBuilder_join (this : MongoQueryBuilder) (joins : list JoinConfig)
  : MongoQueryBuilder :=
  mkMongoQueryBuilder (tableName this) (filter this) (projection this) joins
    (sortClause this) (limitValue this) (offsetValue this).

Definition MongoQueryBuilder_sort (this : MongoQueryBuilder) (sortBy : string)
  : MongoQueryBuilder :=
  mkMongoQueryBuilder (tableName this) (filter this) (projection this) (joinConfigs this)
    sortBy (limitValue this) (offsetValue this).

Definition MongoQueryBuilder_limit (this : MongoQueryBuilder) (limit : Z)
  : MongoQueryBuilder :=
  mkMongoQueryBuilder (tableName this) (filter this) (projection this) (joinConfigs this)
    (sortClause this) (Some limit) (offsetValue this).

Definition MongoQueryBuilder_skip (this : MongoQueryBuilder) (skip : Z)
  : MongoQueryBuilder :=
  mkMongoQueryBuilder (tableName this) (filter this) (projection this) (joinConfigs this)
    (sortClause this) (limitValue this) (Some skip).

(* ================================================================== *)
(** ** The delete and update builders *)

Record MongoDeleteBuilder : Type := mkMongoDeleteBuilder {
  del_tableName : string;
  del_filter : Value;
  singleDelete : bool
}.

(** [new MongoDeleteBuilder(tableName)]. *)
Definition new_MongoDeleteBuilder (tableName : string) : MongoDeleteBuilder :=
  mkMongoDeleteBuilder tableName (VObj []) false.

Definition MongoDeleteBuilder_query (this : MongoDeleteBuilder) (queryObj : Value)
  : result MongoDeleteBuilder :=
  f <- accumulate (del_filter this) queryObj ;;
  Ok (mkMongoDeleteBuilder (del_tableName this) f (singleDelete this)).

Definition MongoDeleteBuilder_single (this : MongoDeleteBuilder) : MongoDeleteBuilder :=
  mkMongoDeleteBuilder (del_tableName this) (del_filter this) true.

(** [dataObj] and [dataArray] are [null] until [update] sets one of
    them. *)
Record MongoUpdateBuilder : Type := mkMongoUpdateBuilder {
  upd_tableName : string;
  idField : string;
  dataObj : option Value;
  dataArray : option (list Value);
  upd_filter : Value;
  singleUpdate : bool
}.

(** [new MongoUpdateBuilder(tableName, idField)]; [idField] defaults to
    ["id"]. *)
Definition new_MongoUpdateBuilder (tableName : string) (idField : option string)
  : MongoUpdateBuilder :=
  mkMongoUpdateBuilder tableName
    (match idField with Some f => f | None => "id" end)
    None None (VObj []) false.

Definition MongoUpdateBuilder_update (this : MongoUpdateBuilder) (updateData : Value)
  : result MongoUpdateBuilder :=
  match updateData with
  | VArr objs =>
      _ <- forEachM
             (fun obj (_ : unit) =>
                has <- has_own obj (idField this) ;;
                if has then Ok tt
                else handleError
                       ("每个更新对象必须包含 '" ++ idField this ++ "' 字段")
                       "MongoUpdateBuilder" SQLGenerationError)
             objs tt ;;
      Ok (mkMongoUpdateBuilder (upd_tableName this) (idField this) None (Some objs)
            (upd_filter this) (singleUpdate this))
  | VObj _ | VSubQuery _ =>
      keys <- Object_keys updateData ;;
      let data :=
        if forallb (fun key => negb (startsWith key "$")) keys
        then VObj [("$set", updateData)]
        else updateData in
      Ok (mkMongoUpdateBuilder (upd_tableName this) (idField this) (Some data) None
            (upd_filter this) (singleUpdate this))
  | _ =>
      handleError "更新数据必须为对象或数组。" "MongoUpdateBuilder" SQLGenerationError
  end.

Definition MongoUpdateBuilder_query (this : MongoUpdateBuilder) (queryObj : Value)
  : result MongoUpdateBuilder :=
  f <- accumulate (upd_filter this) queryObj ;;
  Ok (mkMongoUpdateBuilder (upd_tableName this) (idField this) (dataObj this)
        (dataArray this) f (singleUpdate this)).

Definition MongoUpdateBuilder_single (this : MongoUpdateBuilder) : MongoUpdateBuilder :=
  mkMongoUpdateBuilder (upd_tableName this) (idField this) (dataObj this)
    (dataArray this) (upd_filter this) true.

(** [typeof v === "object"]. *)
Definition typeof_object (v : Value) : bool :=
  match v with
  | VNull | VArr _ | VObj _ | VSubQuery _ => true
  | _ => false
  end.

(** One case of the [switch (op)] over the update operators: the set
    clauses and parameters it adds. *)
Definition update_operator (updateOps : Value) (op : string)
  (st : list string * list param) : result (list string * list param) :=
  let '(setClauses, params) := st in
  if op =? "$set" then
    let set := get_own updateOps "$set" in
    keys <- (if truthy set then Object_keys set else Ok []) ;;
    if Nat.eqb (length keys) 0 then
      handleError "无效的 $set 更新操作: 不能为空" "MongoUpdateBuilder.toSQL"
        SQLGenerationError
    else
      forEachM
        (fun kv st =>
           let '(setClauses, params) := st in
           match snd kv with
           | VUndefined =>
               handleError ("字段 " ++ fst kv ++ " 不能设置为 undefined")
                 "MongoUpdateBuilder.toSQL" SQLGenerationError
           | x => Ok (push setClauses (fst kv ++ " = ?"), push params (PVal x))
           end)
        (own_props set) (setClauses, params)
  else if op =? "$inc" then
    Ok (fold_left
          (fun st kv =>
             (push (fst st) (fst kv ++ " = " ++ fst kv ++ " + ?"),
              push (snd st) (PVal (snd kv))))
          (own_props (get_own updateOps "$inc")) (setClauses, params))
  else if op =? "$unset" then
    if typeof_object (get_own updateOps "$unset") then
      Ok (fold_left (fun cl kv => push cl (fst kv ++ " = NULL"))
            (own_props (get_own updateOps "$unset")) setClauses,
          params)
    else
      handleError
        "无效的 $unset 语法，应为 { field1: '', field2: '' }"
        "MongoUpdateBuilder" SQLGenerationError
  else if op =? "$mul" then
    Ok (fold_left
          (fun st kv =>
             (push (fst st) (fst kv ++ " = " ++ fst kv ++ " * ?"),
              push (snd st) (PVal (snd kv))))
          (own_props (get_own updateOps "$mul")) (setClauses, params))
  else
    handleError ("不支持的更新操作符: " ++ op) "MongoUpdateBuilder" SQLGenerationError.

(** [new Set()] filled with [add] and read back with [Array.from]: the
    keys in the order they were first added. *)
Definition Set_add (set : list string) (key : string) : list string :=
  if existsb (String.eqb key) set then set else push set key.

(** The columns of a bulk update: every key of every row but the
    identity field. *)
Definition bulk_columns (idField : string) (rows : list Value) : list string :=
  fold_left
    (fun set obj =>
       fold_left
         (fun set kv => if negb (fst kv =? idField) then Set_add set (fst kv) else set)
         (own_props obj) set)
    rows [].

(** The callback of [updateColumns.map]: the assignment
    [col = CASE idField WHEN ? THEN ? ... ELSE col END], with an arm for
    each row that answers [true] to [obj.hasOwnProperty(col)]. *)
Definition bulk_setClause (idField : string) (rows : list Value) (col : string)
  : result string :=
  arms <- mapM (fun obj =>
                  has <- has_own obj col ;;
                  Ok (if has then "WHEN ? THEN ?" else EmptyString))
               rows ;;
  let cases := join " " (List.filter (fun x => negb (x =? EmptyString)) arms) in
  Ok (col ++ " = CASE " ++ idField ++ " " ++ cases ++ " ELSE " ++ col ++ " END").

(** The parameters of the [CASE] expressions: the two nested [forEach]
    loops that fill [caseParams]. *)
Definition bulk_caseParams (idField : string) (rows : list Value)
  (updateColumns : list string) : result (list param) :=
  forEachM
    (fun col caseParams =>
       forEachM
         (fun obj caseParams =>
            has <- has_own obj col ;;
            if has
            then
              id <- get_prop obj idField ;;
              x <- get_prop obj col ;;
              Ok (push (push caseParams (PVal id)) (PVal x))
            else Ok caseParams)
         rows caseParams)
    updateColumns [].

Section Builders.

Variable plugins : list OperatorPlugin.

Definition MongoDeleteBuilder_toSQL (this : MongoDeleteBuilder) : result Statement :=
  keys <- Object_keys (del_filter this) ;;
  if Nat.eqb (length keys) 0 then
    handleError "删除操作必须指定查询条件，防止误删除所有记录。"
      "MongoDeleteBuilder" SQLGenerationError
  else
    '(whereClause, params) <- parseMongoQuery plugins (del_filter this) [] "DELETE" ;;
    let sql := "DELETE FROM " ++ del_tableName this ++ " WHERE " ++ whereClause in
    let sql := if singleDelete this then sql ++ " LIMIT 1" else sql in
    Ok (mkStatement sql params).

Definition MongoUpdateBuilder_toSQL (this : MongoUpdateBuilder) : result Statement :=
  keys <- Object_keys (upd_filter this) ;;
  if Nat.eqb (length keys) 0 then
    handleError "更新操作必须指定查询条件，防止误更新所有记录。"
      "MongoUpdateBuilder" SQLGenerationError
  else
    '(sql, params) <-
      match dataObj this, dataArray this with
      | Some updateOps, _ =>
          '(setClauses, params) <-
            forEachM (fun kv => update_operator updateOps (fst kv))
              (own_props updateOps) ([], []) ;;
          if Nat.eqb (length setClauses) 0 then
            handleError "未指定更新字段。" "MongoUpdateBuilder" SQLGenerationError
          else
            let sql := "UPDATE " ++ upd_tableName this ++ " SET " ++ join ", " setClauses in
            '(whereClause, params') <-
              parseMongoQuery plugins (upd_filter this) params "UPDATE" ;;
            Ok (sql ++ " WHERE " ++ whereClause, params')
      | None, Some rows =>
          if Nat.eqb (length rows) 0 then
            handleError "未指定更新对象。" "MongoUpdateBuilder" SQLGenerationError
          else
            let updateColumns := bulk_columns (idField this) rows in
            if Nat.eqb (length updateColumns) 0 then
              handleError "批量更新时，未检测到有效字段。" "MongoUpdateBuilder"
                SQLGenerationError
            else
              setClauses <- mapM (bulk_setClause (idField this) rows) updateColumns ;;
              caseParams <- bulk_caseParams (idField this) rows updateColumns ;;
              ids <- mapM (fun obj => id <- get_prop obj (idField this) ;; Ok (PVal id))
                       rows ;;
              let placeholders := join ", " (map (fun _ => "?") ids) in
              let bulkWhereClause := idField this ++ " IN (" ++ placeholders ++ ")" in
              '(extraCondition, extraParams) <-
                parseMongoQuery plugins (upd_filter this) [] "BULK_UPDATE" ;;
              let bulkWhereClause :=
                if negb (extraCondition =? "1=1")
                then bulkWhereClause ++ " AND (" ++ extraCondition ++ ")"
                else bulkWhereClause in
              Ok ("UPDATE " ++ upd_tableName this ++ " SET " ++ join ", " setClauses
                  ++ " WHERE " ++ bulkWhereClause,
                  (caseParams ++ ids ++ extraParams)%list)
      | None, None =>
          handleError "未指定更新数据。" "MongoUpdateBuilder" SQLGenerationError
      end ;;
    let sql := if singleUpdate this then sql ++ " LIMIT 1" else sql in
    Ok (mkStatement sql params).

End Builders.

(* ================================================================== *)
(** ** The aggregation builder *)

(** [val.substring(1)] when [val] is a string that starts with [$]. *)
Definition strip_dollar (val : Value) : Value :=
  match val with
  | VStr s => if startsWith s "$" then VStr (substring1 s) else val
  | _ => val
  end.

(** One aggregate of a group stage: the select part for the key [key]
    of [groupObj] and its value [operatorObj]. *)
Definition group_aggregate (key : string) (operatorObj : Value) : result string :=
  keys <- Object_keys operatorObj ;;
  match keys with
  | [] => handleError "不支持的聚合操作符: undefined" "parseGroupStage" SQLGenerationError
  | operator :: _ =>
      let operand := get_own operatorObj operator in
      sqlFunc <-
        (if operator =? "$sum" then Ok "SUM"
         else if operator =? "$avg" then Ok "AVG"
         else if operator =? "$min" then Ok "MIN"
         else if operator =? "$max" then Ok "MAX"
         else handleError ("不支持的聚合操作符: " ++ operator) "parseGroupStage"
                SQLGenerationError) ;;
      operandStr <-
        match operand with
        | VStr s => if startsWith s "$" then Ok (substring1 s) else Ok s
        | VUndefined => Ok "NULL"
        | _ => ToString operand
        end ;;
      Ok (sqlFunc ++ "(" ++ operandStr ++ ") AS " ++ key)
  end.

(** [parseGroupStage(groupObj)]: the select, group-by and having
    clauses. *)
Definition parseGroupStage (groupObj : Value) : result (string * string * string) :=
  let _id := get_own groupObj "_id" in
  '(selectParts, groupByParts) <-
    (if truthy _id then
       match _id with
       | VObj _ | VSubQuery _ =>
           fields <- join_values ", " (map (fun kv => strip_dollar (snd kv)) (own_props _id)) ;;
           Ok ([fields], [fields])
       | VStr s =>
           if startsWith s "$"
           then Ok ([substring1 s ++ " AS _id"], [substring1 s])
           else Ok (["'" ++ s ++ "' AS _id"], ["_id"])
       | _ =>
           text <- ToString _id ;;
           Ok (["'" ++ text ++ "' AS _id"], ["_id"])
       end
     else Ok ([], [])) ;;
  selectParts' <-
    forEachM
      (fun kv selectParts =>
         if fst kv =? "_id" then Ok selectParts
         else part <- group_aggregate (fst kv) (snd kv) ;; Ok (push selectParts part))
      (own_props groupObj) selectParts ;;
  Ok (join ", " selectParts', join ", " groupByParts, EmptyString).

(** A pipeline stage: the object with the one key the builder method
    gives it. *)
Inductive Stage : Type :=
| StMatch (query : Value)
| StGroup (groupObj : Value)
| StProject (projection : Value)
| StSort (sortObj : Value)
| StLimit (n : Z)
| StSkip (n : Z)
| StLookup (from localField foreignField as_ : Value)
| StUnwind (field : Value).

Record MongoAggregationBuilder : Type := mkMongoAggregationBuilder {
  agg_tableName : string;
  pipeline : list Stage;
  joinClause : string
}.

(** [new MongoAggregationBuilder(tableName)]. *)
Definition new_MongoAggregationBuilder (tableName : string) : MongoAggregationBuilder :=
  mkMongoAggregationBuilder tableName [] EmptyString.

(** The builder methods [match], [group], [project], [sort], [limit],
    [skip], [lookup] and [unwind]: each appends its stage. *)
Definition add_stage (this : MongoAggregationBuilder) (stage : Stage)
  : MongoAggregationBuilder :=
  mkMongoAggregationBuilder (agg_tableName this) (push (pipeline this) stage)
    (joinClause this).

(** The local variables of [MongoAggregationBuilder.prototype.toSQL],
    with [this.joinClause]; [limitClause] and [offsetClause] are the
    empty string until a stage sets them. *)
Record AggState : Type := mkAggState {
  st_params : list param;
  whereConditions : list string;
  groupClause : string;
  havingClause : string;
  selectClause : string;
  orderClause : string;
  limitClause : option Z;
  offsetClause : option Z;
  comments : list string;
  st_joinClause : string
}.

Section Aggregation.

Variable plugins : list OperatorPlugin.

(** The body of the loop over the pipeline.  A stage whose value is
    falsy matches no branch of the [if]/[else if] chain. *)
Definition aggregation_stage (table : string) (stage : Stage) (s : AggState)
  : result AggState :=
  match stage with
  | StMatch query =>
      if truthy query then
        '(conditionStr, params') <- parseMongoQuery plugins query (st_params s) "$match" ;;
        Ok (mkAggState params'
              (if nonEmpty conditionStr then push (whereConditions s) conditionStr
               else whereConditions s)
              (groupClause s) (havingClause s) (selectClause s) (orderClause s)
              (limitClause s) (offsetClause s) (comments s) (st_joinClause s))
      else Ok s
  | StGroup groupObj =>
      if truthy groupObj then
        '(sel, grp, hav) <- parseGroupStage groupObj ;;
        Ok (mkAggState (st_params s) (whereConditions s) grp hav sel (orderClause s)
              (limitClause s) (offsetClause s) (comments s) (st_joinClause s))
      else Ok s
  | StProject projection =>
      match projection with
      | VArr fields =>
          cols <- join_values ", " fields ;;
          Ok (mkAggState (st_params s) (whereConditions s) (groupClause s) (havingClause s)
                (if selectClause s =? "*" then cols else cols ++ ", " ++ selectClause s)
                (orderClause s) (limitClause s) (offsetClause s) (comments s)
                (st_joinClause s))
      | _ => Ok s
      end
  | StSort sortObj =>
      if truthy sortObj then
        let sortArr :=
          map (fun kv =>
                 fst kv ++ " " ++
                 match snd kv with
                 | VNum n => if Z.eqb n (-1) then "DESC" else "ASC"
                 | _ => "ASC"
                 end)
              (own_props sortObj) in
        Ok (mkAggState (st_params s) (whereConditions s) (groupClause s) (havingClause s)
              (selectClause s) (join ", " sortArr) (limitClause s) (offsetClause s)
              (comments s) (st_joinClause s))
      else Ok s
  | StLimit n =>
      if truthy (VNum n) then
        Ok (mkAggState (st_params s) (whereConditions s) (groupClause s) (havingClause s)
              (selectClause s) (orderClause s) (Some n) (offsetClause s) (comments s)
              (st_joinClause s))
      else Ok s
  | StSkip n =>
      if truthy (VNum n) then
        Ok (mkAggState (st_params s) (whereConditions s) (groupClause s) (havingClause s)
              (selectClause s) (orderClause s) (limitClause s) (Some n) (comments s)
              (st_joinClause s))
      else Ok s
  | StLookup from localField foreignField as_ =>
      from' <- ToString from ;;
      as' <- ToString as_ ;;
      local' <- ToString localField ;;
      foreign' <- ToString foreignField ;;
      Ok (mkAggState (st_params s) (whereConditions s) (groupClause s) (havingClause s)
            (selectClause s) (orderClause s) (limitClause s) (offsetClause s) (comments s)
            (st_joinClause s ++ " LEFT JOIN " ++ from' ++ " AS " ++ as' ++ " ON "
             ++ table ++ "." ++ local' ++ " = " ++ as' ++ "." ++ foreign'))
  | StUnwind field =>
      if truthy field then
        text <- ToString field ;;
        Ok (mkAggState (st_params s) (whereConditions s) (groupClause s) (havingClause s)
              (selectClause s) (orderClause s) (limitClause s) (offsetClause s)
              (push (comments s) ("/* UNWIND(" ++ text ++ ") */")) (st_joinClause s))
      else Ok s
  end.

(** The LIMIT/OFFSET tail of the statement.  A value held by
    [limitClause] or [offsetClause] is truthy, so the tests of the source
    are tests for a value being there. *)
Definition aggregation_paging (limitClause offsetClause : option Z) : string :=
  match limitClause, offsetClause with
  | Some l, Some o => " LIMIT " ++ Z_to_string l ++ " OFFSET " ++ Z_to_string o
  | Some l, None => " LIMIT " ++ Z_to_string l
  | None, Some o => " LIMIT 18446744073709551615 OFFSET " ++ Z_to_string o
  | None, None => EmptyString
  end.

(** The assembly of the statement once the loop is over. *)
Definition aggregation_sql (table : string) (s : AggState) : string :=
  let sql := "SELECT " ++ selectClause s ++ " FROM " ++ table in
  let sql := if nonEmpty (st_joinClause s) then sql ++ st_joinClause s else sql in
  let sql := if Nat.ltb 0 (length (comments s))
             then sql ++ " " ++ join " " (comments s) else sql in
  let sql := if Nat.ltb 0 (length (whereConditions s))
             then sql ++ " WHERE " ++ join " AND " (whereConditions s) else sql in
  let sql := if nonEmpty (groupClause s) then sql ++ " GROUP BY " ++ groupClause s else sql in
  let sql := if nonEmpty (havingClause s) then sql ++ " HAVING " ++ havingClause s else sql in
  let sql := if nonEmpty (orderClause s) then sql ++ " ORDER BY " ++ orderClause s else sql in
  sql ++ aggregation_paging (limitClause s) (offsetClause s).

(** [MongoAggregationBuilder.prototype.toSQL]: the statement, and the
    builder with the join clause the call leaves in it. *)
Definition MongoAggregationBuilder_toSQL (this : MongoAggregationBuilder)
  : result (Statement * MongoAggregationBuilder) :=
  s <- forEachM (aggregation_stage (agg_tableName this)) (pipeline this)
         (mkAggState [] [] EmptyString EmptyString "*" EmptyString None None []
            (joinClause this)) ;;
  Ok (mkStatement (aggregation_sql (agg_tableName this) s) (st_params s),
      mkMongoAggregationBuilder (agg_tableName this) (pipeline this) (st_joinClause s)).

End Aggregation.

(* ================================================================== *)
(** ** The functions [mongoToMySQL] and [mongoToMySQLWithJoinsOptimized] *)

(** The body of the callback of [projectFields.forEach] in
    [parseProjectStageWithJoinsOptimized], for an element of any kind.  A
    string goes the way the function was written for.  An array also has
    an [indexOf] method, which looks for the element ['.'], but no
    [split]; every other value has no [indexOf]. *)
Definition project_key (joinMappings : JoinMappings) (mainTableName : string)
  (key : Value) : result string :=
  match key with
  | VStr s => Ok (parseProjectStageWithJoinsOptimized [s] joinMappings mainTableName)
  | VArr elems =>
      if existsb (fun e => match e with VStr s => s =? "." | _ => false end) elems
      then Throw (TypeError "key.split is not a function")
      else
        text <- ToString key ;;
        Ok (mainTableName ++ "." ++ text ++ " AS " ++ mainTableName ++ "_" ++ text)
  | VUndefined =>
      Throw (TypeError "Cannot read properties of undefined (reading 'indexOf')")
  | VNull => Throw (TypeError "Cannot read properties of null (reading 'indexOf')")
  | _ => Throw (TypeError "key.indexOf is not a function")
  end.

(** [parseProjectStageWithJoinsOptimized(projectFields, ...)] for the
    value found under [$project], whatever it is. *)
Definition parseProjectStage_of_value (projectFields : Value)
  (joinMappings : JoinMappings) (mainTableName : string) : result string :=
  match projectFields with
  | VArr keys =>
      fields <- mapM (project_key joinMappings mainTableName) keys ;;
      Ok (join ", " fields)
  | VUndefined =>
      Throw (TypeError "Cannot read properties of undefined (reading 'forEach')")
  | VNull => Throw (TypeError "Cannot read properties of null (reading 'forEach')")
  | _ => Throw (TypeError "projectFields.forEach is not a function")
  end.

(** [delete v[key]]. *)
Definition delete_prop (key : string) (v : Value) : Value :=
  match v with
  | VObj props => VObj (List.filter (fun kv => negb (fst kv =? key)) props)
  | _ => v
  end.

Section TopLevel.

Variable plugins : list OperatorPlugin.

(** [mongoToMySQL(query, tableName, limit = 10, orderBy = 'id DESC')]; an
    argument that is left out is [None]. *)
Definition mongoToMySQL (query : Value) (tableName : string) (limit : option Z)
  (orderBy : option string) : result Statement :=
  let limit := match limit with Some l => l | None => 10%Z end in
  let orderBy := match orderBy with Some o => o | None => "id DESC" end in
  '(whereClause, params) <- parseMongoQuery plugins query [] "mongoToMySQL" ;;
  Ok (mkStatement
        ("SELECT * FROM " ++ tableName ++ " WHERE " ++ whereClause
         ++ " ORDER BY " ++ orderBy ++ " LIMIT " ++ Z_to_string limit)
        params).

(** [mongoToMySQLWithJoinsOptimized(query, tableName, joinConfigs = [],
    limit = 10, orderBy = 'id DESC')]: the statement, and [query] as the
    call leaves it, the function deleting the [$project] entry it has
    used. *)
Definition mongoToMySQLWithJoinsOptimized (query : Value) (tableName : string)
  (joinConfigs : list JoinConfig) (limit : option Z) (orderBy : option string)
  : result (Statement * Value) :=
  let limit := match limit with Some l => l | None => 10%Z end in
  let orderBy := match orderBy with Some o => o | None => "id DESC" end in
  let joinMappings := prepareJoinMappings joinConfigs in
  match query with
  | VUndefined =>
      Throw (TypeError "Cannot read properties of undefined (reading '$project')")
  | VNull => Throw (TypeError "Cannot read properties of null (reading '$project')")
  | _ =>
      '(selectClause, query') <-
        (if truthy (get_own query "$project")
         then
           sel <- parseProjectStage_of_value (get_own query "$project")
                    joinMappings tableName ;;
           Ok (sel, delete_prop "$project" query)
         else Ok ("*", query)) ;;
      '(whereClause, params) <-
        parseMongoQuery plugins query' [] "mongoToMySQLWithJoinsOptimized" ;;
      let joinClause := generateJoinClause joinConfigs in
      Ok (mkStatement
            ("SELECT " ++ selectClause ++ " FROM " ++ tableName ++ joinClause
             ++ " WHERE " ++ whereClause ++ " ORDER BY " ++ orderBy
             ++ " LIMIT " ++ Z_to_string limit)
            params,
          query')
  end.

End TopLevel.

(* ================================================================== *)
(** ** The insert builder *)

(** The fields of a [MongoInsertBuilder] instance.  [doc] is [null] and
    [docs] the empty array until [insertOne] and [insertMany] set them;
    [upsertEnabled] is read for its truth value, [upsertFields] is [null]
    or the array of the columns to update. *)
Record MongoInsertBuilder : Type := mkMongoInsertBuilder {
  ins_tableName : string;
  doc : Value;
  docs : Value;
  upsertEnabled : Value;
  upsertFields : Value
}.

(** [new MongoInsertBuilder(tableName)]. *)
Definition new_MongoInsertBuilder (tableName : string) : MongoInsertBuilder :=
  mkMongoInsertBuilder tableName VNull (VArr []) (VBool false) VNull.

Definition MongoInsertBuilder_insertOne (this : MongoInsertBuilder) (d : Value)
  : MongoInsertBuilder :=
  mkMongoInsertBuilder (ins_tableName this) d (docs this) (upsertEnabled this)
    (upsertFields this).

Definition MongoInsertBuilder_insertMany (this : MongoInsertBuilder) (ds : Value)
  : MongoInsertBuilder :=
  mkMongoInsertBuilder (ins_tableName this) (doc this) ds (upsertEnabled this)
    (upsertFields this).

(** [upsert(enable = true, fields = null)]: an argument that is
    [undefined] takes its default. *)
Definition MongoInsertBuilder_upsert (this : MongoInsertBuilder) (enable fields : Value)
  : MongoInsertBuilder :=
  mkMongoInsertBuilder (ins_tableName this) (doc this) (docs this)
    (match enable with VUndefined => VBool true | _ => enable end)
    (match fields with VUndefined => VNull | _ => fields end).

(** The text after [ON DUPLICATE KEY UPDATE]:
    [updateFields.map(col => `${col} = VALUES(${col})`).join(", ")] with
    [updateFields = this.upsertFields || keys]. *)
Definition upsert_clause (upsertFields : Value) (keys : list string) : result string :=
  let updateFields := if truthy upsertFields then upsertFields else VArr (map VStr keys) in
  match updateFields with
  | VArr cols =>
      parts <- mapM (fun col => text <- ToString col ;;
                                Ok (text ++ " = VALUES(" ++ text ++ ")")) cols ;;
      Ok (join ", " parts)
  | _ => Throw (TypeError "updateFields.map is not a function")
  end.

(** The statement text with the upsert clause, when upsert is enabled. *)
Definition with_upsert (this : MongoInsertBuilder) (keys : list string) (sql : string)
  : result string :=
  if truthy (upsertEnabled this) then
    updateClause <- upsert_clause (upsertFields this) keys ;;
    Ok (sql ++ " ON DUPLICATE KEY UPDATE " ++ updateClause)
  else Ok sql.

(** [keys.forEach(key => params.push(doc[key]))] for one document of
    [insertMany].  Reading a property of [null] or [undefined] throws.
    Where [doc] lacks the key the source reads what [doc] inherits under
    that name, which is [undefined] unless a prototype has such a member;
    [get_own] reads [undefined] there. *)
Definition row_params (keys : list string) (d : Value) (params : list param)
  : result (list param) :=
  match keys, d with
  | [], _ => Ok params
  | key :: _, VUndefined =>
      Throw (TypeError ("Cannot read properties of undefined (reading '" ++ key ++ "')"))
  | key :: _, VNull =>
      Throw (TypeError ("Cannot read properties of null (reading '" ++ key ++ "')"))
  | _, _ => Ok (fold_left (fun params key => push params (PVal (get_own d key))) keys params)
  end.

(** [MongoInsertBuilder.prototype.toSQL]. *)
Definition MongoInsertBuilder_toSQL (this : MongoInsertBuilder) : result Statement :=
  if truthy (doc this) then
    keys <- Object_keys (doc this) ;;
    let columns := join ", " keys in
    let placeholders := join ", " (map (fun _ => "?") keys) in
    let sql := "INSERT INTO " ++ ins_tableName this ++ " (" ++ columns
               ++ ") VALUES (" ++ placeholders ++ ")" in
    let params := map (fun key => PVal (get_own (doc this) key)) keys in
    sql' <- with_upsert this keys sql ;;
    Ok (mkStatement sql' params)
  else
    match docs this with
    | VArr ((first :: _) as rows) =>
        keys <- Object_keys first ;;
        let columns := join ", " keys in
        let rowPlaceholders := "(" ++ join ", " (map (fun _ => "?") keys) ++ ")" in
        let sql := "INSERT INTO " ++ ins_tableName this ++ " (" ++ columns
                   ++ ") VALUES " ++ join ", " (map (fun _ => rowPlaceholders) rows) in
        params <- forEachM (row_params keys) rows [] ;;
        sql' <- with_upsert this keys sql ;;
        Ok (mkStatement sql' params)
    | _ =>
        handleError "insertMany() 需要至少一个有效的文档。" "MongoInsertBuilder"
          SQLGenerationError
    end.

(* ================================================================== *)
(** ** The class of [example/insert.js]

    It keeps one [MongoInsertBuilder] in [this.table] and uses it for
    every call; a method that is [async] returns its statement, or
    rejects with what it throws. *)

Record crud : Type := mkCrud { table : MongoInsertBuilder }.

(** [new crud(tableName)]. *)
Definition new_crud (tableName : string) : crud :=
  mkCrud (new_MongoInsertBuilder tableName).

(** [upsert(sql, options = {})]: the statement, and the builder [sql] as
    the call leaves it. *)
Definition crud_upsert (sql : MongoInsertBuilder) (options : Value)
  : result (Statement * MongoInsertBuilder) :=
  match options with
  | VNull =>
      Throw (TypeError "Cannot destructure property 'upsert' of 'options' as it is null.")
  | _ =>
      let options := match options with VUndefined => VObj [] | _ => options end in
      let upsert := get_own options "upsert" in
      let fields := get_own options "fields" in
      let sql :=
        if typeof_object options && truthy (get_own options "upsert")
        then MongoInsertBuilder_upsert sql upsert fields
        else sql in
      r <- MongoInsertBuilder_toSQL sql ;;
      Ok (r, sql)
  end.

(** [insertOne(data, options = {})]. *)
Definition crud_insertOne (this : crud) (data options : Value) : result (Statement * crud) :=
  '(r, sql) <- crud_upsert (MongoInsertBuilder_insertOne (table this) data) options ;;
  Ok (r, mkCrud sql).

(* ================================================================== *)
(** ** Induction on values

    [Value] is nested in lists, pairs and the builder record, so its
    induction principle is written by hand: the elements of an array, the
    property values of an object and the filter of a wrapped builder are
    the immediate sub-values. *)

Section ValueInduction.

Variable P : Value -> Prop.

Hypothesis P_undefined : P VUndefined.
Hypothesis P_null : P VNull.
Hypothesis P_bool : forall b, P (VBool b).
Hypothesis P_num : forall n, P (VNum n).
Hypothesis P_str : forall s, P (VStr s).
Hypothesis P_arr : forall elems, Forall P elems -> P (VArr elems).
Hypothesis P_obj : forall props, Forall (fun kv => P (snd kv)) props -> P (VObj props).
Hypothesis P_sub : forall sq, P (filter (queryBuilder sq)) -> P (VSubQuery sq).

Fixpoint Value_ind (v : Value) : P v :=
  match v with
  | VUndefined => P_undefined
  | VNull => P_null
  | VBool b => P_bool b
  | VNum n => P_num n
  | VStr s => P_str s
  | VArr elems =>
      P_arr
        ((fix all (l : list Value) : Forall P l :=
            match l with
            | [] => Forall_nil P
            | x :: l' => Forall_cons x (Value_ind x) (all l')
            end) elems)
  | VObj props =>
      P_obj
        ((fix all (l : list (string * Value)) : Forall (fun kv => P (snd kv)) l :=
            match l with
            | [] => Forall_nil _
            | kv :: l' => Forall_cons kv (Value_ind (snd kv)) (all l')
            end) props)
  | VSubQuery sq => P_sub sq (Value_ind (filter (queryBuilder sq)))
  end.

End ValueInduction.

(* ================================================================== *)
(** ** Values named in the properties *)

(** The errors of the missing-filter guards of [MongoUpdateBuilder] and
    [MongoDeleteBuilder]. *)
Definition missing_filter_update : JsError :=
  SQLGenerationError
    ("更新操作必须指定查询条件，防止误更新所有记录。 | Context: "
     ++ JSON_stringify_string "MongoUpdateBuilder") None.

Definition missing_filter_delete : JsError :=
  SQLGenerationError
    ("删除操作必须指定查询条件，防止误删除所有记录。 | Context: "
     ++ JSON_stringify_string "MongoDeleteBuilder") None.

(** A plugin whose handler adds the one condition [PLUGIN(field)] and
    binds nothing. *)
Definition marker_plugin (operator : string) : OperatorPlugin :=
  mkOperatorPlugin operator
    (fun field opValue conditions params context =>
       Ok (push conditions ("PLUGIN(" ++ field ++ ")"), params)).

(** The condition list a field adds to [conditions] from the conditions
    [fieldConds] of its operator object. *)
Definition field_group (fieldConds : list string) : list string :=
  match fieldConds with
  | [] => []
  | [c] => [c]
  | _ => ["(" ++ join " AND " fieldConds ++ ")"]
  end.

(** The context [parseMongoQuery] gives to the element [idx] of the
    array under the logical key [key]. *)
Definition child_context (context key : string) (idx : nat) : string :=
  context ++ "->"
  ++ (if key =? "$or" then "OR"
      else if key =? "$nor" then "NOR"
      else if key =? "$and" then "AND"
      else key)
  ++ "[" ++ nat_to_string idx ++ "]".

(** The error [handleOperator] throws for an operator it does not
    know. *)
Definition unsupported_operator_error (operator field context : string) : JsError :=
  SQLGenerationError
    (("Unsupported operator " ++ dquote ++ operator ++ dquote ++ " for field "
      ++ dquote ++ field ++ dquote)
     ++ " | Context: " ++ JSON_stringify_string context)
    None.

(** The [TypeError] of the call [value.map(...)] on a value that has no
    such method. *)
Definition no_map_error (value : Value) : JsError :=
  match value with
  | VUndefined => TypeError "Cannot read properties of undefined (reading 'map')"
  | VNull => TypeError "Cannot read properties of null (reading 'map')"
  | _ => TypeError "value.map is not a function"
  end.

(** The value of a field holds the sub-query [sq]: it is [sq], or an
    object in which [sq] is the operand of an operator or an element of
    the array operand of one. *)
Definition holds_subquery (value : Value) (sq : SubQuery) : Prop :=
  value = VSubQuery sq
  \/ exists ops op operand,
       value = VObj ops /\ In (op, operand) ops /\ startsWith op "$" = true
       /\ (operand = VSubQuery sq
           \/ exists vs, operand = VArr vs /\ In (VSubQuery sq) vs).

(** [caught plugins query context e0]: [e0] is an error the [catch]
    block of the frame [parseMongoQuery(query, params, context)] can
    receive.  It comes from a frame below, which has already put its own
    context on it: the frame of a child under a logical key, or the
    frame that translates the filter of a sub-query's builder under the
    context [SELECT].  Or it arises in this frame: the [TypeError] of
    [map] on the value of [$or], [$nor] or [$and] when that is no array,
    the [SQLGenerationError] of [handleOperator] for an operator without
    plugin and without entry in the operator table, or whatever the
    handler of a plugin throws. *)
Inductive caught (plugins : list OperatorPlugin) : Value -> string -> JsError -> Prop :=
| caught_child (query : Value) (context key : string) (children : list Value)
    (j : nat) (child : Value) (e1 : JsError) :
    In (key, VArr children) (own_props query) ->
    startsWith key "$" = true ->
    nth_error children j = Some child ->
    caught plugins child (child_context context key j) e1 ->
    caught plugins query context
      (QueryParseError (message e1) (Some (child_context context key j)))
| caught_subquery (query : Value) (context key : string) (value : Value)
    (sq : SubQuery) (e1 : JsError) :
    In (key, value) (own_props query) ->
    startsWith key "$" = false ->
    holds_subquery value sq ->
    caught plugins (filter (queryBuilder sq)) "SELECT" e1 ->
    caught plugins query context (QueryParseError (message e1) (Some "SELECT"))
| caught_no_map (query : Value) (context key : string) (value : Value) :
    In (key, value) (own_props query) ->
    In key ["$or"; "$nor"; "$and"] ->
    (forall children, value <> VArr children) ->
    caught plugins query context (no_map_error value)
| caught_unsupported (query : Value) (context key : string)
    (ops : list (string * Value)) (op : string) (operand : Value) :
    In (key, VObj ops) (own_props query) ->
    startsWith key "$" = false ->
    In (op, operand) ops ->
    startsWith op "$" = true ->
    find (fun plugin => plugin_operator plugin =? op) plugins = None ->
    table_lookup op OPERATORS_MYSQL = None ->
    caught plugins query context (unsupported_operator_error op key context)
| caught_plugin (query : Value) (context key : string)
    (ops : list (string * Value)) (op : string) (operand : Value)
    (plugin : OperatorPlugin) (fieldConds : list string) (params : list param)
    (e0 : JsError) :
    In (key, VObj ops) (own_props query) ->
    startsWith key "$" = false ->
    In (op, operand) ops ->
    startsWith op "$" = true ->
    find (fun plugin => plugin_operator plugin =? op) plugins = Some plugin ->
    plugin_handler plugin key operand fieldConds params context = Throw e0 ->
    caught plugins query context e0.

(** An error that leaves the frame of [query] under [context] is the
    [QueryParseError] the frame builds from the message of an error it
    has caught and from its own context. *)
Definition wrapped_on (plugins : list OperatorPlugin) (query : Value) : Prop :=
  forall params context e,
    parseMongoQuery plugins query params context = Throw e ->
    exists e0,
      caught plugins query context e0
      /\ e = QueryParseError (message e0) (Some context).

(** The same for the builder a sub-query wraps: its error is the one of
    the frame that translates its filter. *)
Definition builder_wrapped (plugins : list OperatorPlugin) (sq : SubQuery) : Prop :=
  forall e,
    MongoQueryBuilder_toSQL plugins (queryBuilder sq) = Throw e ->
    exists e1,
      caught plugins (filter (queryBuilder sq)) "SELECT" e1
      /\ e = QueryParseError (message e1) (Some "SELECT").

(** [query(A)] then [query(B)] on a builder, for each of the three
    builders that have the method. *)
Definition select_query_twice (this : MongoQueryBuilder) (A B : Value)
  : result MongoQueryBuilder :=
  this' <- MongoQueryBuilder_query this A ;; MongoQueryBuilder_query this' B.

Definition update_query_twice (this : MongoUpdateBuilder) (A B : Value)
  : result MongoUpdateBuilder :=
  this' <- MongoUpdateBuilder_query this A ;; MongoUpdateBuilder_query this' B.

Definition delete_query_twice (this : MongoDeleteBuilder) (A B : Value)
  : result MongoDeleteBuilder :=
  this' <- MongoDeleteBuilder_query this A ;; MongoDeleteBuilder_query this' B.

(** The filter [{$and: [A, B]}]. *)
Definition explicit_and (A B : Value) : Value := VObj [("$and", VArr [A; B])].

(** The limit and the offset a pipeline sets, as the loop of [toSQL]
    records them: the value of the last [$limit] (or [$skip]) stage that
    is not zero. *)
Definition recorded_limit (pipeline : list Stage) (start : option Z) : option Z :=
  fold_left (fun acc stage =>
               match stage with
               | StLimit n => if Z.eqb n 0 then acc else Some n
               | _ => acc
               end) pipeline start.

Definition recorded_skip (pipeline : list Stage) (start : option Z) : option Z :=
  fold_left (fun acc stage =>
               match stage with
               | StSkip n => if Z.eqb n 0 then acc else Some n
               | _ => acc
               end) pipeline start.

(** [s] ends with [tail]. *)
Definition ends_with (s tail : string) : Prop := exists front, s = front ++ tail.

(** The distinct strings of a list, in the order of their first
    occurrence. *)
Fixpoint first_seen (l : list string) : list string :=
  match l with
  | [] => []
  | x :: l' => x :: List.filter (fun y => negb (y =? x)) (first_seen l')
  end.

(** The keys of all rows of a bulk update, row after row, without the
    identity field. *)
Definition non_identity_keys (idField : string) (rows : list Value) : list string :=
  List.filter (fun key => negb (key =? idField))
    (flat_map (fun obj => map fst (own_props obj)) rows).

(** The names of the properties a row has of its own. *)
Definition own_keys (row : Value) : list string := map fst (own_props_all row).

(** The row sets the column [col]: the column is one of its own keys. *)
Definition sets_column (col : string) (row : Value) : bool :=
  existsb (String.eqb col) (own_keys row).

(** The rows that set the column [col]. *)
Definition rows_setting (col : string) (rows : list Value) : list Value :=
  List.filter (sets_column col) rows.

(** A row that can be asked for its own properties: it is neither [null]
    nor [undefined], and no property of its own is named
    [hasOwnProperty]. *)
Definition answers (row : Value) : bool :=
  match row with
  | VUndefined | VNull => false
  | VObj props => negb (existsb (String.eqb "hasOwnProperty") (map fst props))
  | _ => true
  end.

(** The row carries the field: it can be asked, and the field is one of
    its own keys. *)
Definition carries (field : string) (row : Value) : Prop :=
  answers row = true /\ In field (own_keys row).

(** The error of [update] for a row that lacks the identity field. *)
Definition missing_identity (idField : string) : JsError :=
  SQLGenerationError
    (("每个更新对象必须包含 '" ++ idField ++ "' 字段") ++ " | Context: "
     ++ JSON_stringify_string "MongoUpdateBuilder") None.

(** The error of the bulk form for rows that hold nothing but the
    identity field. *)
Definition no_bulk_columns : JsError :=
  SQLGenerationError
    ("批量更新时，未检测到有效字段。 | Context: "
     ++ JSON_stringify_string "MongoUpdateBuilder") None.

(** [col = CASE idField WHEN ? THEN ? ... ELSE col END] with [arms]
    arms. *)
Definition case_expression (idField col : string) (arms : nat) : string :=
  col ++ " = CASE " ++ idField ++ " " ++ join " " (repeat "WHEN ? THEN ?" arms)
  ++ " ELSE " ++ col ++ " END".

(** The (id, value) pairs of the rows that set [col], row after row. *)
Definition case_pairs (idField col : string) (rows : list Value) : list param :=
  flat_map (fun obj => [PVal (get_own obj idField); PVal (get_own obj col)])
    (rows_setting col rows).

(* ================================================================== *)
(** ** The [SubQuery] class with its calls to the wrapped builder counted

    The two methods of [SubQuery] once more, now threading the number
    [calls] of times [this.queryBuilder.toSQL()] has run.  Lemma
    [counted_methods_agree] relates them to [SubQuery_toSQL] and
    [SubQuery_getParams], which the translator uses. *)

Section CountedSubQuery.

Variable plugins : list OperatorPlugin.

Definition SubQuery_toSQL_counted (this : SubQuery) (calls : nat)
  : result (string * SubQuery * nat) :=
  match cachedSQL this with
  | Some s =>
      if nonEmpty s then Ok (s, this, calls)
      else
        r <- MongoQueryBuilder_toSQL plugins (queryBuilder this) ;;
        let c := "(" ++ sql r ++ ")" in
        Ok (c, mkSubQuery (queryBuilder this) (Some c), S calls)
  | None =>
      r <- MongoQueryBuilder_toSQL plugins (queryBuilder this) ;;
      let c := "(" ++ sql r ++ ")" in
      Ok (c, mkSubQuery (queryBuilder this) (Some c), S calls)
  end.

Definition SubQuery_getParams_counted (this : SubQuery) (calls : nat)
  : result (list param * nat) :=
  r <- MongoQueryBuilder_toSQL plugins (queryBuilder this) ;;
  Ok (params r, S calls).





End CountedSubQuery.




(** The number of [?] in a text. *)
Fixpoint count_placeholders (s : string) : nat :=
  match s with
  | EmptyString => 0
  | String c s' => (if Ascii.eqb c "?"%char then 1 else 0) + count_placeholders s'
  end.

(* ================================================================== *)
(** ** Clauses with their parameters in place

    To say which parameter belongs to which placeholder, a clause is
    written once more as a sequence of pieces: literal text, and holes
    that each carry the parameter bound at that place.  [annotate] builds
    the clause of a filter in this form, following the built-in rules of
    the translator (no plugins); [erase] prints a hole as [?] and [holes]
    lists the parameters from left to right. *)

Inductive piece : Type :=
| Lit (s : string)
| Hole (p : param).

Definition fragment : Type := list piece.

Fixpoint erase (f : fragment) : string :=
  match f with
  | [] => EmptyString
  | Lit s :: f' => s ++ erase f'
  | Hole _ :: f' => "?" ++ erase f'
  end.

Fixpoint holes (f : fragment) : list param :=
  match f with
  | [] => []
  | Lit _ :: f' => holes f'
  | Hole p :: f' => p :: holes f'
  end.

(** The fragments of [fs] with [sep] between them. *)
Fixpoint join_fragments (sep : string) (fs : list fragment) : fragment :=
  match fs with
  | [] => []
  | [f] => f
  | f :: fs' => (f ++ Lit sep :: join_fragments sep fs')%list
  end.

(** The conditions that [$or] and [$nor] keep. *)
Definition kept (f : fragment) : bool :=
  nonEmpty (erase f) && negb (erase f =? "1=1").

(** The text of a select statement before its WHERE clause and after
    it. *)
Definition select_head (this : MongoQueryBuilder) : string :=
  let hasJoins := Nat.ltb 0 (length (joinConfigs this)) in
  "SELECT "
  ++ match projection this with
     | Some fields =>
         if hasJoins
         then parseProjectStageWithJoinsOptimized fields
                (prepareJoinMappings (joinConfigs this)) (tableName this)
         else join ", " fields
     | None => "*"
     end
  ++ " FROM " ++ tableName this
  ++ (if hasJoins then generateJoinClause (joinConfigs this) else EmptyString).

Definition select_tail (this : MongoQueryBuilder) : string :=
  (if nonEmpty (sortClause this) then " ORDER BY " ++ sortClause this else EmptyString)
  ++ match limitValue this, offsetValue this with
     | Some l, Some o => " LIMIT " ++ Z_to_string l ++ " OFFSET " ++ Z_to_string o
     | Some l, None => " LIMIT " ++ Z_to_string l
     | None, Some o => " LIMIT 18446744073709551615 OFFSET " ++ Z_to_string o
     | None, None => EmptyString
     end.

Section Annotate.

Variable ann : Value -> fragment.

(** The statement of a select builder. *)
Definition annotate_builder (this : MongoQueryBuilder) : fragment :=
  let w := ann (filter this) in
  (Lit (select_head this)
   :: (if nonEmpty (erase w) then Lit " WHERE " :: w else [])
   ++ [Lit (select_tail this)])%list.

(** A sub-query in its parentheses. *)
Definition annotate_subquery (sq : SubQuery) : fragment :=
  (Lit "(" :: annotate_builder (queryBuilder sq) ++ [Lit ")"])%list.

(** The elements of the array under [$and], [$or], [$nor] or another
    logical key. *)
Definition annotate_children (value : Value) : list fragment :=
  match value with
  | VArr children => map ann children
  | _ => []
  end.

Definition annotate_array_element (v : Value) : fragment :=
  match v with
  | VSubQuery sq => annotate_subquery sq
  | _ => [Hole (PVal v)]
  end.

(** The conditions [$in], [$nin] and [$all] add for a field. *)
Definition annotate_array (field : string) (values : Value) (operator : string)
  : list fragment :=
  match values with
  | VArr ((_ :: _) as vs) =>
      if existsb isSubQuery vs then
        [ (Lit (field ++ " IN (")
           :: join_fragments ", " (map annotate_array_element vs) ++ [Lit ")"])%list ]
      else if operator =? "$in" then
        [ (Lit (field ++ " IN (")
           :: join_fragments ", " (map (fun v => [Hole (PVal v)]) vs) ++ [Lit ")"])%list ]
      else if operator =? "$nin" then
        [ (Lit (field ++ " NOT IN (")
           :: join_fragments ", " (map (fun v => [Hole (PVal v)]) vs) ++ [Lit ")"])%list ]
      else if operator =? "$all" then
        [ (Lit "("
           :: join_fragments " AND "
                (map (fun v => [Lit ("JSON_CONTAINS(" ++ field ++ ", "); Hole (PJson v);
                                Lit ")"]) vs)
           ++ [Lit ")"])%list ]
      else []
  | _ =>
      if operator =? "$in" then [[Lit "1=0"]]
      else if operator =? "$nin" then [[Lit "1=1"]]
      else []
  end.

(** The condition any other operator adds for a field. *)
Definition annotate_operator (field : string) (opValue : Value) (operator : string)
  : list fragment :=
  match opValue with
  | VSubQuery sq => [Lit (field ++ " IN ") :: annotate_subquery sq]
  | _ =>
      if operator =? "$exists" then
        [[Lit (field ++ " " ++ (if truthy opValue then "IS NOT NULL" else "IS NULL"))]]
      else if operator =? "$size" then
        [[Lit ("JSON_LENGTH(" ++ field ++ ") = "); Hole (PVal opValue)]]
      else if operator =? "$elemMatch" then
        [[Lit ("JSON_CONTAINS(" ++ field ++ ", "); Hole (PJson opValue); Lit ")"]]
      else if operator =? "$regex" then
        [[Lit (field ++ " REGEXP "); Hole (PVal opValue)]]
      else if operator =? "$like" then
        [[Lit (field ++ " LIKE "); Hole (PVal opValue)]]
      else
        match table_lookup operator OPERATORS_MYSQL with
        | Some sqlOperator =>
            [[Lit (field ++ " " ++ sqlOperator ++ " "); Hole (PVal opValue)]]
        | None => []
        end
  end.

(** The condition one entry of the object under a field adds. *)
Definition annotate_field_operator (key op : string) (opValue : Value)
  : list fragment :=
  if startsWith op "$" then
    match (op =? "$in"), opValue with
    | true, VSubQuery sq => [Lit (key ++ " IN ") :: annotate_subquery sq]
    | _, _ =>
        if existsb (String.eqb op) ["$in"; "$nin"; "$all"]
        then annotate_array key opValue op
        else annotate_operator key opValue op
    end
  else [[Lit (key ++ " = "); Hole (PVal opValue)]].

(** A fragment in parentheses. *)
Definition parenthesized (f : fragment) : fragment := (Lit "(" :: f ++ [Lit ")"])%list.

(** The conditions one entry of a filter adds. *)
Definition annotate_entry (key : string) (value : Value) : list fragment :=
  if startsWith key "$" then
    if key =? "$or" then
      match List.filter kept (annotate_children value) with
      | [] => [[Lit "1=0"]]
      | fs => [parenthesized (join_fragments " OR " fs)]
      end
    else if key =? "$nor" then
      match List.filter kept (annotate_children value) with
      | [] => [[Lit "1=1"]]
      | fs => [(Lit "NOT (" :: join_fragments " OR " fs ++ [Lit ")"])%list]
      end
    else if key =? "$and" then
      match List.filter (fun f => nonEmpty (erase f)) (annotate_children value) with
      | [] => []
      | fs => [join_fragments " AND " fs]
      end
    else
      match value with
      | VArr (_ :: _) =>
          let sqlOperator :=
            match table_lookup key OPERATORS_MYSQL with
            | Some o => o
            | None => key
            end in
          [parenthesized
             (join_fragments (" " ++ sqlOperator ++ " ")
                (map parenthesized (annotate_children value)))]
      | _ => [[Lit "1=0"]]
      end
  else
    match value with
    | VSubQuery sq => [Lit (key ++ " IN ") :: annotate_subquery sq]
    | VObj ops =>
        match flat_map (fun kv => annotate_field_operator key (fst kv) (snd kv)) ops with
        | [] => []
        | [c] => [c]
        | fieldConds => [parenthesized (join_fragments " AND " fieldConds)]
        end
    | _ => [[Lit (key ++ " = "); Hole (PVal value)]]
    end.

(** The clause of the conditions gathered. *)
Definition annotate_where (conditions : list fragment) : fragment :=
  match conditions with
  | [] => [Lit "1=1"]
  | _ => join_fragments " AND " conditions
  end.

End Annotate.

Fixpoint annotate (query : Value) : fragment :=
  annotate_where
    match query with
    | VObj props =>
        flat_map (fun kv => annotate_entry annotate (fst kv) (snd kv)) props
    | VArr elems =>
        (fix loop (l : list Value) (i : nat) : list fragment :=
           match l with
           | [] => []
           | x :: l' => (annotate_entry annotate (nat_to_string i) x ++ loop l' (S i))%list
           end) elems 0
    | VStr _ | VSubQuery _ =>
        flat_map (fun kv => annotate_entry (fun _ => []) (fst kv) (snd kv))
          (own_props query)
    | VUndefined | VNull | VBool _ | VNum _ => []
    end.

(** [everywhere Q v]: [Q] holds of [v] and of every value below it, the
    elements of an array, the property values of an object and the
    filter of a wrapped builder being the values just below. *)
Definition is_scalar (v : Value) : bool :=
  match v with
  | VArr _ | VObj _ | VSubQuery _ => false
  | _ => true
  end.

Inductive everywhere (Q : Value -> Prop) : Value -> Prop :=
| everywhere_scalar (v : Value) :
    is_scalar v = true -> Q v -> everywhere Q v
| everywhere_arr (elems : list Value) :
    Q (VArr elems) -> Forall (everywhere Q) elems -> everywhere Q (VArr elems)
| everywhere_obj (props : list (string * Value)) :
    Q (VObj props) -> Forall (fun kv => everywhere Q (snd kv)) props ->
    everywhere Q (VObj props)
| everywhere_sub (sq : SubQuery) :
    Q (VSubQuery sq) -> everywhere Q (filter (queryBuilder sq)) ->
    everywhere Q (VSubQuery sq).

(** The cache slot of a [SubQuery] is empty, or holds the text its
    builder compiles to as it stands. *)
Definition fresh_cache (v : Value) : Prop :=
  match v with
  | VSubQuery sq =>
      cachedSQL sq = None
      \/ exists r, MongoQueryBuilder_toSQL [] (queryBuilder sq) = Ok r
                   /\ cachedSQL sq = Some ("(" ++ sql r ++ ")")
  | _ => True
  end.

(** No key of an object holds a [?], and neither does the text a wrapped
    select builder puts around its WHERE clause. *)
Definition clean_names (v : Value) : Prop :=
  match v with
  | VObj props => Forall (fun kv => count_placeholders (fst kv) = 0) props
  | VSubQuery sq =>
      count_placeholders (select_head (queryBuilder sq)) = 0
      /\ count_placeholders (select_tail (queryBuilder sq)) = 0
  | _ => True
  end.

(** The literal pieces of a fragment hold no [?]. *)
Definition clean_fragment (f : fragment) : Prop :=
  Forall (fun p => match p with
                   | Lit s => count_placeholders s = 0
                   | Hole _ => True
                   end) f.

(** The translation of [v] without plugins, when it returns, returns the
    clause [annotate v] with its holes printed as [?], and has appended
    the parameters of the holes, from left to right. *)
Definition aligned_on (v : Value) : Prop :=
  forall params context text params',
    parseMongoQuery [] v params context = Ok (text, params') ->
    text = erase (annotate v) /\ params' = push_all params (holes (annotate v)).

(** The same for the text and the parameters of a [SubQuery]. *)
Definition subquery_aligned (sq : SubQuery) : Prop :=
  forall text sq' ps,
    SubQuery_toSQL [] sq = Ok (text, sq') ->
    SubQuery_getParams [] sq = Ok ps ->
    text = erase (annotate_subquery annotate sq)
    /\ ps = holes (annotate_subquery annotate sq).

(** What a property [Qq] of filters and a property [Qs] of sub-queries
    give for the value of an entry of a filter: the elements of an array
    have [Qq] (they are filters under a logical key), a [SubQuery] has
    [Qs], and so has every [SubQuery] that is an operand, or an element
    of an array operand, of an operator of the object under a field. *)
Definition element_ok (Qs : SubQuery -> Prop) (v : Value) : Prop :=
  match v with
  | VSubQuery sq => Qs sq
  | _ => True
  end.

Definition operand_ok (Qs : SubQuery -> Prop) (v : Value) : Prop :=
  match v with
  | VSubQuery sq => Qs sq
  | VArr vs => Forall (element_ok Qs) vs
  | _ => True
  end.

Definition entry_ok (Qq : Value -> Prop) (Qs : SubQuery -> Prop) (v : Value) : Prop :=
  match v with
  | VArr children => Forall Qq children
  | VSubQuery sq => Qs sq
  | VObj ops =>
      Forall (fun kv => startsWith (fst kv) "$" = true -> operand_ok Qs (snd kv)) ops
  | _ => True
  end.

(** The fragment of a sub-query is clean. *)
Definition subquery_clean (sq : SubQuery) : Prop :=
  clean_fragment (annotate_subquery annotate sq).

(** A step of the translator that, when it returns, has added the
    conditions [fs] and their parameters. *)
Definition adds (r : result (list string * list param)) (conditions : list string)
  (params : list param) (fs : list fragment) : Prop :=
  forall conditions' params',
    r = Ok (conditions', params') ->
    conditions' = push_all conditions (map erase fs)
    /\ params' = push_all params (flat_map holes fs).

(** Both properties at once. *)
Definition both (P Q : Value -> Prop) (v : Value) : Prop := P v /\ Q v.

(* ================================================================== *)
(** ** Relations and values named in the further properties *)

(** Two outcomes of a step of the translator that agree up to the
    parameters [p0] that were already bound when the first run started:
    both return, the same thing, or both throw, the same error if [same]
    holds (the two runs had the same context label). *)
Definition same_outcome {A : Type} (p0 : list param) (same : Prop)
  (r1 r2 : result (A * list param)) : Prop :=
  match r1, r2 with
  | Ok (a1, q1), Ok (a2, q2) => a1 = a2 /\ q1 = (p0 ++ q2)%list
  | Throw e1, Throw e2 => same -> e1 = e2
  | _, _ => False
  end.

(** The translation of [v] without plugins has the same outcome whatever
    the context label, and leaves the parameters [p0] bound before it in
    front of its own. *)
Definition insensitive (p0 : list param) (v : Value) : Prop :=
  forall p c1 c2,
    same_outcome p0 (c1 = c2)
      (parseMongoQuery [] v (p0 ++ p)%list c1) (parseMongoQuery [] v p c2).

(** No condition of the list is the empty string. *)
Definition all_nonEmpty (l : list string) : Prop := Forall (fun c => nonEmpty c = true) l.

(** The chain [new MongoQueryBuilder(tableName).query(query).sort(orderBy)
    .limit(limit).toSQL()]. *)
Definition select_chain (plugins : list OperatorPlugin) (tableName : string)
  (query : Value) (orderBy : string) (limit : Z) : result Statement :=
  b <- MongoQueryBuilder_query (new_MongoQueryBuilder tableName) query ;;
  MongoQueryBuilder_toSQL plugins
    (MongoQueryBuilder_limit (MongoQueryBuilder_sort b orderBy) limit).

(** The select builder on [tableName] with the filter [f] and nothing
    else set. *)
Definition plain_select (tableName : string) (f : Value) : MongoQueryBuilder :=
  set_filter (new_MongoQueryBuilder tableName) f.

(** [key] names a member that every plain object inherits. *)
Definition inherited_name (key : string) : bool :=
  existsb (String.eqb key) Object_prototype_names.

(** A plain object. *)
Definition is_plain_object (v : Value) : bool :=
  match v with VObj _ => true | _ => false end.

(** The columns of the statement of an insert builder: the keys of
    [doc], or of the first element of [docs] when [doc] is not set. *)
Definition insert_keys (this : MongoInsertBuilder) : list string :=
  if truthy (doc this) then map fst (own_props (doc this))
  else match docs this with
       | VArr (first :: _) => map fst (own_props first)
       | _ => []
       end.

(** The parameters one row binds for the columns [keys]. *)
Definition row_values (keys : list string) (d : Value) : list param :=
  map (fun key => PVal (get_own d key)) keys.

(** The group [(?, ..., ?)] of one row. *)
Definition row_placeholders (keys : list string) : string :=
  "(" ++ join ", " (map (fun _ => "?") keys) ++ ")".

(** The sum of a list of numbers. *)
Definition list_total (l : list nat) : nat := fold_right Nat.add 0 l.

(** The aggregation state [s] with [j] in front of its join clause. *)
Definition prefix_join (j : string) (s : AggState) : AggState :=
  mkAggState (st_params s) (whereConditions s) (groupClause s) (havingClause s)
    (selectClause s) (orderClause s) (limitClause s) (offsetClause s) (comments s)
    (j ++ st_joinClause s).

(** The state in which the loop of [MongoAggregationBuilder.toSQL]
    starts, for a builder whose join clause is [j]. *)
Definition initial_state (j : string) : AggState :=
  mkAggState [] [] EmptyString EmptyString "*" EmptyString None None [] j.

Definition is_lookup (stage : Stage) : bool :=
  match stage with StLookup _ _ _ _ => true | _ => false end.

(** The filters of the [$match] stages that the loop translates, in
    pipeline order. *)
Definition match_filters (pipeline : list Stage) : list Value :=
  flat_map (fun stage =>
              match stage with
              | StMatch query => if truthy query then [query] else []
              | _ => []
              end) pipeline.

(** The statement text of [aggregation_sql] before and after the join
    clause. *)
Definition aggregation_head (table : string) (s : AggState) : string :=
  "SELECT " ++ selectClause s ++ " FROM " ++ table.

Definition aggregation_rest (s : AggState) : string :=
  (if Nat.ltb 0 (length (comments s)) then " " ++ join " " (comments s) else EmptyString)
  ++ (if Nat.ltb 0 (length (whereConditions s))
      then " WHERE " ++ join " AND " (whereConditions s) else EmptyString)
  ++ (if nonEmpty (groupClause s) then " GROUP BY " ++ groupClause s else EmptyString)
  ++ (if nonEmpty (havingClause s) then " HAVING " ++ havingClause s else EmptyString)
  ++ (if nonEmpty (orderClause s) then " ORDER BY " ++ orderClause s else EmptyString)
  ++ aggregation_paging (limitClause s) (offsetClause s).

(** The SQL function of an accumulator of [$group], for the four
    accumulators that [parseGroupStage] knows. *)
Definition aggregate_function (operator : string) : option string :=
  if operator =? "$sum" then Some "SUM"
  else if operator =? "$avg" then Some "AVG"
  else if operator =? "$min" then Some "MIN"
  else if operator =? "$max" then Some "MAX"
  else None.

(** An accumulator [key: { operator: '$column' }] of a group stage, as
    the triple of its three names. *)
Definition accumulator_entry (a : string * string * string) : string * Value :=
  let '(key, operator, column) := a in (key, VObj [(operator, VStr ("$" ++ column))]).

(** The select part [FUNC(column) AS key] of an accumulator. *)
Definition accumulator_part (a : string * string * string) : string :=
  let '(key, operator, column) := a in
  match aggregate_function operator with
  | Some func => func ++ "(" ++ column ++ ") AS " ++ key
  | None => EmptyString
  end.

(** The plugin that [handleOperator] finds for [operator]. *)
Definition plugin_for (plugins : list OperatorPlugin) (operator : string)
  : option OperatorPlugin :=
  find (fun plugin => plugin_operator plugin =? operator) plugins.

(** Two registries give the translator the same filter translation, and
    the methods of [SubQuery] the same answers. *)
Definition same_translation (ps1 ps2 : list OperatorPlugin) (v : Value) : Prop :=
  forall params context,
    parseMongoQuery ps1 v params context = parseMongoQuery ps2 v params context.

Definition same_subquery (ps1 ps2 : list OperatorPlugin) (sq : SubQuery) : Prop :=
  SubQuery_toSQL ps1 sq = SubQuery_toSQL ps2 sq
  /\ SubQuery_getParams ps1 sq = SubQuery_getParams ps2 sq.

(** The chain [new MongoQueryBuilder(tableName).query(query)
    .project(fields).join(joinConfigs).sort(orderBy).limit(limit)
    .toSQL()]. *)
Definition select_chain_with_joins (plugins : list OperatorPlugin) (tableName : string)
  (query : Value) (fields : list string) (joins : list JoinConfig) (orderBy : string)
  (limit : Z) : result Statement :=
  b <- MongoQueryBuilder_query (new_MongoQueryBuilder tableName) query ;;
  MongoQueryBuilder_toSQL plugins
    (MongoQueryBuilder_limit
       (MongoQueryBuilder_sort
          (MongoQueryBuilder_join (MongoQueryBuilder_project b fields) joins) orderBy)
       limit).

(** A filter object with the entry [$project: fields] added at its end. *)
Definition with_project (props : list (string * Value)) (fields : list string) : Value :=
  VObj (props ++ [("$project", VArr (map VStr fields))])%list.

(** The name under which the projection refers to a join: its alias, or
    its table name when it has no alias. *)
Definition join_name (j : JoinConfig) : string :=
  match join_alias j with
  | Some a => if nonEmpty a then a else join_tableName j
  | None => join_tableName j
  end.

(** The join whose mapping has taken the place of the prototype of
    [mappings]: the last join named [__proto__]. *)
Definition prototype_join (joins : list JoinConfig) : option JoinConfig :=
  find (fun j => join_name j =? "__proto__") (rev joins).

(** [alias] names a property of the mapping of the join [j] that holds a
    non-empty string; the property [alias] holds the name of the join. *)
Definition mapping_member (j : JoinConfig) (alias : string) : bool :=
  (alias =? "tableName") && nonEmpty (join_tableName j)
  || (alias =? "joinType") && nonEmpty (join_joinType j)
  || (alias =? "on") && nonEmpty (join_on j)
  || (alias =? "alias") && nonEmpty (join_name j).

(** The first segment [alias] of a projected field counts as a join. *)
Definition names_a_join (joins : list JoinConfig) (alias : string) : bool :=
  existsb (fun j => alias =? join_name j) joins
  || inherited_name alias
  || match prototype_join joins with
     | Some j => mapping_member j alias
     | None => false
     end.

(** The set clauses gathered so far hold as many [?] as there are
    parameters bound so far. *)
Definition counted (st : list string * list param) : Prop :=
  list_total (map count_placeholders (fst st)) = length (snd st).

(** The field names of the operand of every update operator hold no
    [?]. *)
Definition clean_update (updateOps : Value) : Prop :=
  forall op,
    Forall (fun kv => count_placeholders (fst kv) = 0) (own_props (get_own updateOps op)).

(** A value that is neither a plain object nor a [SubQuery]: a number, a
    string, a boolean, [null], [undefined] or an array. *)
Definition compared_as_it_is (v : Value) : bool :=
  match v with
  | VObj _ | VSubQuery _ => false
  | _ => true
  end.

(* ================================================================== *)
(** * Properties *)

(** ** The loop of [parseMongoQuery] is the [for ... in] loop *)

Lemma startsWith_index (i : nat) : startsWith (nat_to_string i) "$" = false.
Proof.
  unfold startsWith, nat_to_string.
  destruct (Nat.to_uint i); reflexivity.
Qed.

Lemma forEachM_idx_indexed (St : Type) (g : string -> Value -> St -> result St)
  (l : list Value) (i : nat) (s : St) :
  forEachM_idx (fun idx => g (nat_to_string idx)) l i s
  = forEachM (fun kv => g (fst kv) (snd kv)) (indexed l i) s.
Proof.
  revert i s. induction l as [|x l IH]; intros i s; simpl.
  - reflexivity.
  - destruct (g (nat_to_string i) x s); [apply IH | reflexivity].
Qed.

Lemma forEachM_ext (A St : Type) (f g : A -> St -> result St) (l : list A) (s : St) :
  Forall (fun x => forall s', f x s' = g x s') l ->
  forEachM f l s = forEachM g l s.
Proof.
  intros H. revert s. induction H as [|x l Hx _ IH]; intros s; simpl.
  - reflexivity.
  - rewrite Hx. destruct (g x s); [apply IH | reflexivity].
Qed.

Lemma Forall_indexed_chars (P : string * Value -> Prop) (s : string) :
  (forall i c, P (nat_to_string i, VStr c)) ->
  forall i, Forall P (indexed (map VStr (chars s)) i).
Proof.
  intros HP. induction s as [|c s IH]; intros i; simpl; constructor; auto.
Qed.

(** On the properties of a string or of a [SubQuery] instance the loop
    body makes no recursive call, so the loop of [parseMongoQuery] is the
    same for every kind of value. *)
Lemma parseMongoQuery_for_in (plugins : list OperatorPlugin) (query : Value)
  (params : list param) (context : string) :
  parseMongoQuery plugins query params context
  = ('(conditions, params') <-
       forEachM (fun kv => parseEntry plugins (parseMongoQuery plugins) context
                             (fst kv) (snd kv))
         (own_props query) ([], params) ;;
     Ok (whereClause_of conditions, params')).
Proof.
  destruct query as [| | b | n | s | elems | props | sq]; try reflexivity.
  - (* string *)
    cbn [parseMongoQuery]. f_equal.
    apply forEachM_ext. cbn [own_props].
    apply Forall_indexed_chars. intros i c [conds ps].
    cbn [fst snd]. unfold parseEntry. rewrite startsWith_index. reflexivity.
  - (* array *)
    cbn [parseMongoQuery own_props]. f_equal.
    apply forEachM_idx_indexed.
  - (* SubQuery instance *)
    cbn [parseMongoQuery]. f_equal.
    apply forEachM_ext. cbn [own_props]. unfold SubQuery_props.
    apply Forall_cons; [| apply Forall_cons; [| apply Forall_nil]];
      intros [conds ps]; cbn [fst snd].
    + reflexivity.
    + unfold parseEntry. cbn [startsWith prefix].
      destruct (cachedSQL sq); reflexivity.
Qed.

(* ------------------------------------------------------------------ *)
(** ** From the entries of a value to every value below it

    A property [Qq] of filters that follows, at each value, from [Pre]
    at the value and from [entry_ok] at the values of its properties,
    holds wherever [Pre] holds everywhere. *)

Section Hereditary.

Variable Pre Qq : Value -> Prop.
Variable Qs : SubQuery -> Prop.

Hypothesis subquery_step :
  forall sq, Pre (VSubQuery sq) -> Qq (filter (queryBuilder sq)) -> Qs sq.

Hypothesis value_step :
  forall v, Pre v ->
            Forall (fun kv => entry_ok Qq Qs (snd kv)) (own_props v) -> Qq v.

Lemma everywhere_here (Q : Value -> Prop) (v : Value) : everywhere Q v -> Q v.
Proof. now destruct 1. Qed.

Lemma good_element (v : Value) : everywhere (both Pre Qq) v -> element_ok Qs v.
Proof.
  destruct 1 as [v Hs HQ | | | sq [Hpre _] Hsub]; try exact I.
  - destruct v; try discriminate Hs; exact I.
  - apply subquery_step; [exact Hpre |]. apply (everywhere_here Hsub).
Qed.

Lemma good_operand (v : Value) : everywhere (both Pre Qq) v -> operand_ok Qs v.
Proof.
  destruct 1 as [v Hs HQ | elems _ Helems | | sq [Hpre _] Hsub]; try exact I.
  - destruct v; try discriminate Hs; exact I.
  - cbn [operand_ok]. eapply Forall_impl; [| exact Helems].
    intros x. apply good_element.
  - apply subquery_step; [exact Hpre |]. apply (everywhere_here Hsub).
Qed.

Lemma good_entry (v : Value) : everywhere (both Pre Qq) v -> entry_ok Qq Qs v.
Proof.
  destruct 1 as [v Hs HQ | elems _ Helems | props _ Hprops | sq [Hpre _] Hsub].
  - destruct v; try discriminate Hs; exact I.
  - cbn [entry_ok]. eapply Forall_impl; [| exact Helems].
    intros x Hx. apply (everywhere_here Hx).
  - cbn [entry_ok]. eapply Forall_impl; [| exact Hprops].
    intros kv Hkv _. now apply good_operand.
  - apply subquery_step; [exact Hpre |]. apply (everywhere_here Hsub).
Qed.

Lemma Forall_indexed (R : Value -> Prop) (l : list Value) (i : nat) :
  Forall R l -> Forall (fun kv => R (snd kv)) (indexed l i).
Proof.
  intros H. revert i. induction H; intros i; simpl; constructor; auto.
Qed.

Lemma hereditary (v : Value) : everywhere Pre v -> everywhere (both Pre Qq) v.
Proof.
  induction v as [| | b | n | s | elems IH | props IH | sq IH] using Value_ind;
    intros Hpre.
  1-5: apply everywhere_scalar; [reflexivity |];
       split; [apply (everywhere_here Hpre) |];
       apply value_step; [apply (everywhere_here Hpre) |];
       cbn [own_props]; try constructor.
  - (* string *)
    apply Forall_indexed_chars. intros i c. exact I.
  - (* array *)
    inversion Hpre as [v Hs _ | elems' Hhere Hbelow | |]; subst;
      [discriminate Hs |].
    assert (Hgood : Forall (everywhere (both Pre Qq)) elems).
    { clear Hhere Hpre. induction IH as [|x l Hx _ IHl]; [constructor |].
      inversion Hbelow; subst. constructor; auto. }
    apply everywhere_arr; [| exact Hgood].
    split; [exact Hhere |]. apply value_step; [exact Hhere |].
    cbn [own_props]. apply Forall_indexed.
    eapply Forall_impl; [| exact Hgood]. intros x. apply good_entry.
  - (* object *)
    inversion Hpre as [v Hs _ | | props' Hhere Hbelow |]; subst;
      [discriminate Hs |].
    assert (Hgood : Forall (fun kv => everywhere (both Pre Qq) (snd kv)) props).
    { clear Hhere Hpre. induction IH as [|x l Hx _ IHl]; [constructor |].
      inversion Hbelow; subst. constructor; auto. }
    apply everywhere_obj; [| exact Hgood].
    split; [exact Hhere |]. apply value_step; [exact Hhere |].
    cbn [own_props]. eapply Forall_impl; [| exact Hgood].
    intros kv. apply good_entry.
  - (* SubQuery *)
    inversion Hpre as [v Hs _ | | | sq' Hhere Hbelow]; subst;
      [discriminate Hs |].
    apply everywhere_sub; [| exact (IH Hbelow)].
    split; [exact Hhere |]. apply value_step; [exact Hhere |].
    cbn [own_props]. unfold SubQuery_props.
    constructor; [| constructor; [| constructor]]; cbn [snd].
    + cbn [entry_ok]. unfold MongoQueryBuilder_props.
      repeat (constructor; [intros H; discriminate H |]). constructor.
    + destruct (cachedSQL sq); exact I.
Qed.

End Hereditary.

Lemma everywhere_True (v : Value) : everywhere (fun _ => True) v.
Proof.
  induction v as [| | b | n | s | elems IH | props IH | sq IH] using Value_ind.
  1-5: now apply everywhere_scalar.
  - now apply everywhere_arr.
  - now apply everywhere_obj.
  - now apply everywhere_sub.
Qed.

(* ------------------------------------------------------------------ *)
(** ** Empty sequences (C2) *)



(* ------------------------------------------------------------------ *)
(** ** Plain keys inside a field's object (C10) *)








(* ------------------------------------------------------------------ *)
(** ** The missing-filter guard of Update and Delete (C5) *)

(** C5.  An Update or a Delete builder whose accumulated filter has no
    key throws its missing-filter error from [toSQL], whatever update
    data and flags it holds, and so returns no statement.  That is the
    state of a new builder, and [query] with an object without keys
    leaves it so. *)
Theorem mutation_without_filter_throws (plugins : list OperatorPlugin) :
  (forall this : MongoUpdateBuilder,
      Object_keys (upd_filter this) = Ok [] ->
      MongoUpdateBuilder_toSQL plugins this = Throw missing_filter_update)
  /\ (forall this : MongoDeleteBuilder,
      Object_keys (del_filter this) = Ok [] ->
      MongoDeleteBuilder_toSQL plugins this = Throw missing_filter_delete)
  /\ (forall table idField, Object_keys (upd_filter (new_MongoUpdateBuilder table idField)) = Ok [])
  /\ (forall table, Object_keys (del_filter (new_MongoDeleteBuilder table)) = Ok [])
  /\ (forall this : MongoUpdateBuilder,
      Object_keys (upd_filter this) = Ok [] ->
      exists this', MongoUpdateBuilder_query this (VObj []) = Ok this'
                    /\ Object_keys (upd_filter this') = Ok [])
  /\ (forall this : MongoDeleteBuilder,
      Object_keys (del_filter this) = Ok [] ->
      exists this', MongoDeleteBuilder_query this (VObj []) = Ok this'
                    /\ Object_keys (del_filter this') = Ok []).
Proof.
  repeat split.
  - intros this H. unfold MongoUpdateBuilder_toSQL. rewrite H. reflexivity.
  - intros this H. unfold MongoDeleteBuilder_toSQL. rewrite H. reflexivity.
  - intros this H. unfold MongoUpdateBuilder_query, accumulate. rewrite H.
    eexists. split; reflexivity.
  - intros this H. unfold MongoDeleteBuilder_query, accumulate. rewrite H.
    eexists. split; reflexivity.
Qed.

Lemma mutation_without_filter_throws_witness :
  Object_keys (upd_filter (mkMongoUpdateBuilder "users" "id"
                             (Some (VObj [("$set", VObj [("name", VStr "Error")])]))
                             None (VObj []) false)) = Ok []
  /\ MongoUpdateBuilder_toSQL []
       (mkMongoUpdateBuilder "users" "id"
          (Some (VObj [("$set", VObj [("name", VStr "Error")])]))
          None (VObj []) false)
     = Throw missing_filter_update
  /\ Object_keys (del_filter (new_MongoDeleteBuilder "users")) = Ok []
  /\ MongoDeleteBuilder_toSQL [] (new_MongoDeleteBuilder "users")
     = Throw missing_filter_delete.
Proof.
  split; [reflexivity | split; [| split; [reflexivity |]]].
  - apply (proj1 (mutation_without_filter_throws [])). reflexivity.
  - apply (proj1 (proj2 (mutation_without_filter_throws []))). reflexivity.
Defined.

(* ------------------------------------------------------------------ *)
(** ** Plugins and the built-in handlers (C4) *)

(** C4, as stated, fails: with a plugin registered for [$in], the entry
    [{tags: {$in: [1]}}] is compiled by the array-operator handler; the
    plugin's handler, which would have produced [PLUGIN(tags)], is not
    called. *)
Lemma plugin_for_in_is_bypassed :
  find (fun plugin => plugin_operator plugin =? "$in") [marker_plugin "$in"]
    = Some (marker_plugin "$in")
  /\ plugin_handler (marker_plugin "$in") "tags" (VArr [VNum 1]) [] [] "root"
     = Ok (["PLUGIN(tags)"], [])
  /\ parseFieldOperator [marker_plugin "$in"] (parseMongoQuery [marker_plugin "$in"])
       "root" "tags" "$in" (VArr [VNum 1]) ([], [])
     = Ok (["tags IN (?)"], [PVal (VNum 1)])
  /\ parseMongoQuery [marker_plugin "$in"]
       (VObj [("tags", VObj [("$in", VArr [VNum 1])])]) [] "root"
     = Ok ("tags IN (?)", [PVal (VNum 1)])
  /\ parseFieldOperator [marker_plugin "$in"] (parseMongoQuery [marker_plugin "$in"])
       "root" "tags" "$in" (VArr [VNum 1]) ([], [])
     <> plugin_handler (marker_plugin "$in") "tags" (VArr [VNum 1]) [] [] "root".
Proof.
  do 4 (split; [reflexivity |]).
  intros H. vm_compute in H. discriminate H.
Qed.

(** C4, amended.  For an operator token other than [$in], [$nin] and
    [$all], the first plugin registered for the token handles the entry
    [{field: {token: operand}}]: the inner loop returns what the handler
    returns, and the field contributes the conditions the handler left,
    with the parameters the handler left.  For [$in], [$nin] and [$all]
    the registry is not consulted: the entry compiles as it does with no
    plugin registered. *)
Theorem plugin_takes_priority_except_array_operators
  (plugins : list OperatorPlugin) (plugin : OperatorPlugin)
  (context field token : string) (operand : Value)
  (conditions fieldConds : list string) (params : list param) :
  let parse := parseMongoQuery plugins in
  (startsWith token "$" = true ->
   existsb (String.eqb token) ["$in"; "$nin"; "$all"] = false ->
   find (fun p => plugin_operator p =? token) plugins = Some plugin ->
   parseFieldOperator plugins parse context field token operand (fieldConds, params)
     = plugin_handler plugin field operand fieldConds params context
   /\ (startsWith field "$" = false ->
       forall fieldConds' params',
         plugin_handler plugin field operand [] params context
           = Ok (fieldConds', params') ->
         parseEntry plugins parse context field (VObj [(token, operand)])
           (conditions, params)
         = Ok (push_all conditions (field_group fieldConds'), params')))
  /\ (existsb (String.eqb token) ["$in"; "$nin"; "$all"] = true ->
      parseFieldOperator plugins parse context field token operand (fieldConds, params)
      = parseFieldOperator [] parse context field token operand (fieldConds, params)).
Proof.
  cbv zeta. split.
  - intros Hsigil Harr Hfind.
    assert (Hin : (token =? "$in") = false).
    { cbn [existsb] in Harr. apply orb_false_iff in Harr. tauto. }
    assert (Hstep : forall fc ps,
               parseFieldOperator plugins (parseMongoQuery plugins) context field
                 token operand (fc, ps)
               = plugin_handler plugin field operand fc ps context).
    { intros fc ps. unfold parseFieldOperator. rewrite Hsigil, Hin, Harr.
      unfold handleOperator. rewrite Hfind. reflexivity. }
    split; [apply Hstep |].
    intros Hfield fieldConds' params' Hhandler.
    unfold parseEntry. rewrite Hfield. cbn [forEachM fst snd].
    rewrite Hstep, Hhandler. cbn [bind tryCatch].
    unfold push_all, push, field_group.
    destruct fieldConds' as [|c1 [|c2 cs]]; cbn [tryCatch];
      rewrite ?app_nil_r; reflexivity.
  - intros Harr. unfold parseFieldOperator. rewrite Harr. reflexivity.
Qed.

Lemma plugin_takes_priority_except_array_operators_witness :
  startsWith "$near" "$" = true
  /\ existsb (String.eqb "$near") ["$in"; "$nin"; "$all"] = false
  /\ find (fun p => plugin_operator p =? "$near") [marker_plugin "$in"; marker_plugin "$near"]
     = Some (marker_plugin "$near")
  /\ parseFieldOperator [marker_plugin "$in"; marker_plugin "$near"]
       (parseMongoQuery [marker_plugin "$in"; marker_plugin "$near"])
       "root" "loc" "$near" (VNum 7) (["a = ?"], [PVal (VNum 1)])
     = plugin_handler (marker_plugin "$near") "loc" (VNum 7) ["a = ?"] [PVal (VNum 1)] "root".
Proof.
  assert (H1 : startsWith "$near" "$" = true) by reflexivity.
  assert (H2 : existsb (String.eqb "$near") ["$in"; "$nin"; "$all"] = false) by reflexivity.
  assert (H3 : find (fun p => plugin_operator p =? "$near")
                 [marker_plugin "$in"; marker_plugin "$near"]
               = Some (marker_plugin "$near")) by reflexivity.
  split; [exact H1 | split; [exact H2 | split; [exact H3 |]]].
  exact (proj1 (proj1 (plugin_takes_priority_except_array_operators
                         [marker_plugin "$in"; marker_plugin "$near"]
                         (marker_plugin "$near") "root" "loc" "$near" (VNum 7)
                         [] ["a = ?"] [PVal (VNum 1)]) H1 H2 H3)).
Defined.

(* ------------------------------------------------------------------ *)
(** ** Merging filters by repeated [query] calls (C6) *)

(** C6, as stated, fails.  With [A = {}] the second call sets [B] as the
    filter, not [{$and: [{}, B]}], and the two builders compile to
    different clauses.  With [A = {$and: [{a: 1}], c: 3}] the second call
    appends [B] to the [$and] array of [A], so the conjunct of [B] comes
    before the conjunct [c = ?] of [A], in the clause and in the
    parameters. *)
Lemma query_twice_is_not_always_explicit_and :
  let t := new_MongoQueryBuilder "t" in
  let B := VObj [("b", VNum 2)] in
  let A := VObj [("$and", VArr [VObj [("a", VNum 1)]]); ("c", VNum 3)] in
  select_query_twice t (VObj []) B <> MongoQueryBuilder_query t (explicit_and (VObj []) B)
  /\ (this <- select_query_twice t (VObj []) B ;; MongoQueryBuilder_toSQL [] this)
     = Ok (mkStatement "SELECT * FROM t WHERE b = ?" [PVal (VNum 2)])
  /\ (this <- MongoQueryBuilder_query t (explicit_and (VObj []) B) ;;
      MongoQueryBuilder_toSQL [] this)
     = Ok (mkStatement "SELECT * FROM t WHERE 1=1 AND b = ?" [PVal (VNum 2)])
  /\ select_query_twice t A B <> MongoQueryBuilder_query t (explicit_and A B)
  /\ (this <- select_query_twice t A B ;; MongoQueryBuilder_toSQL [] this)
     = Ok (mkStatement "SELECT * FROM t WHERE a = ? AND b = ? AND c = ?"
             [PVal (VNum 1); PVal (VNum 2); PVal (VNum 3)])
  /\ (this <- MongoQueryBuilder_query t (explicit_and A B) ;;
      MongoQueryBuilder_toSQL [] this)
     = Ok (mkStatement "SELECT * FROM t WHERE a = ? AND c = ? AND b = ?"
             [PVal (VNum 1); PVal (VNum 3); PVal (VNum 2)]).
Proof.
  cbv zeta.
  split; [intros H; vm_compute in H; discriminate H |].
  do 2 (split; [reflexivity |]).
  split; [intros H; vm_compute in H; discriminate H |].
  split; reflexivity.
Qed.

Lemma accumulate_first (filter queryObj : Value) :
  Object_keys filter = Ok [] -> accumulate filter queryObj = Ok queryObj.
Proof. intros H. unfold accumulate. now rewrite H. Qed.

Lemma accumulate_second (A B : Value) (k : string) (ks : list string) :
  Object_keys A = Ok (k :: ks) ->
  truthy (get_own A "$and") = false ->
  accumulate A B = Ok (explicit_and A B).
Proof.
  intros Hkeys Hand. unfold accumulate. rewrite Hkeys, Hand. reflexivity.
Qed.

(** C6, amended.  Let [A] be a filter with at least one key and no
    truthy [$and] entry, and [B] any filter.  On a builder whose filter
    has no key yet, [query(A)] then [query(B)] gives the builder that
    [query({$and: [A, B]})] gives, with the filter [{$and: [A, B]}]; this
    holds for the Select, the Update and the Delete builder.  A later
    [query(C)] appends [C] to that [$and] array.  The filter
    [{$and: [A, B]}] compiles to the non-empty ones of the clauses of
    [A] and [B] joined by AND, the clause of [A] first, and binds the
    parameters of [A] before those of [B]. *)
Theorem query_twice_is_explicit_and (plugins : list OperatorPlugin) (A B : Value)
  (k : string) (ks : list string) :
  Object_keys A = Ok (k :: ks) ->
  truthy (get_own A "$and") = false ->
  (forall this : MongoQueryBuilder,
      Object_keys (filter this) = Ok [] ->
      select_query_twice this A B = MongoQueryBuilder_query this (explicit_and A B)
      /\ select_query_twice this A B = Ok (set_filter this (explicit_and A B)))
  /\ (forall this : MongoUpdateBuilder,
      Object_keys (upd_filter this) = Ok [] ->
      update_query_twice this A B = MongoUpdateBuilder_query this (explicit_and A B)
      /\ exists this', update_query_twice this A B = Ok this'
                       /\ upd_filter this' = explicit_and A B)
  /\ (forall this : MongoDeleteBuilder,
      Object_keys (del_filter this) = Ok [] ->
      delete_query_twice this A B = MongoDeleteBuilder_query this (explicit_and A B)
      /\ exists this', delete_query_twice this A B = Ok this'
                       /\ del_filter this' = explicit_and A B)
  /\ (forall conjuncts C,
      accumulate (VObj [("$and", VArr conjuncts)]) C
      = Ok (VObj [("$and", VArr (push conjuncts C))]))
  /\ (forall params context tA pA tB pB,
      parseMongoQuery plugins A params (context ++ "->AND[0]") = Ok (tA, pA) ->
      parseMongoQuery plugins B pA (context ++ "->AND[1]") = Ok (tB, pB) ->
      parseMongoQuery plugins (explicit_and A B) params context
      = Ok (whereClause_of
              match List.filter nonEmpty [tA; tB] with
              | [] => []
              | cs => [join " AND " cs]
              end, pB)
      /\ (nonEmpty tA = true -> nonEmpty tB = true ->
          parseMongoQuery plugins (explicit_and A B) params context
          = Ok (tA ++ " AND " ++ tB, pB))).
Proof.
  intros Hkeys Hand.
  assert (Hexp : Object_keys (explicit_and A B) = Ok ["$and"]) by reflexivity.
  split; [| split; [| split; [| split]]].
  - intros this H0.
    unfold select_query_twice, MongoQueryBuilder_query.
    rewrite !(@accumulate_first _ _ H0). cbn [bind filter set_filter].
    rewrite (@accumulate_second A B k ks Hkeys Hand). split; reflexivity.
  - intros this H0.
    unfold update_query_twice, MongoUpdateBuilder_query.
    rewrite !(@accumulate_first _ _ H0). cbn [bind upd_filter].
    rewrite (@accumulate_second A B k ks Hkeys Hand). split; [reflexivity |].
    eexists. split; reflexivity.
  - intros this H0.
    unfold delete_query_twice, MongoDeleteBuilder_query.
    rewrite !(@accumulate_first _ _ H0). cbn [bind del_filter].
    rewrite (@accumulate_second A B k ks Hkeys Hand). split; [reflexivity |].
    eexists. split; reflexivity.
  - intros conjuncts C. reflexivity.
  - intros params context tA pA tB pB HA HB.
    assert (Hgen :
      parseMongoQuery plugins (explicit_and A B) params context
      = Ok (whereClause_of
              match List.filter nonEmpty [tA; tB] with
              | [] => []
              | cs => [join " AND " cs]
              end, pB)).
    { unfold explicit_and. cbn [parseMongoQuery forEachM fst snd].
      unfold parseEntry. cbn [startsWith prefix String.eqb Ascii.eqb Bool.eqb].
      cbn [map_parse mapM_idx].
      replace (context ++ "->AND[" ++ nat_to_string 0 ++ "]")
        with (context ++ "->AND[0]") by reflexivity.
      rewrite HA. cbn [bind].
      replace (context ++ "->AND[" ++ nat_to_string 1 ++ "]")
        with (context ++ "->AND[1]") by reflexivity.
      rewrite HB. cbn [bind tryCatch].
      cbn [List.filter].
      destruct (nonEmpty tA), (nonEmpty tB); reflexivity. }
    split; [exact Hgen |].
    intros HtA HtB. rewrite Hgen. cbn [List.filter]. rewrite HtA, HtB. reflexivity.
Qed.

Lemma query_twice_is_explicit_and_witness :
  let A := VObj [("age", VObj [("$gt", VNum 18)])] in
  let B := VObj [("name", VObj [("$like", VStr "%John%")])] in
  Object_keys A = Ok ["age"]
  /\ truthy (get_own A "$and") = false
  /\ Object_keys (filter (new_MongoQueryBuilder "users")) = Ok []
  /\ select_query_twice (new_MongoQueryBuilder "users") A B
     = MongoQueryBuilder_query (new_MongoQueryBuilder "users") (explicit_and A B).
Proof.
  cbv zeta.
  assert (H1 : Object_keys (VObj [("age", VObj [("$gt", VNum 18)])]) = Ok ["age"])
    by reflexivity.
  assert (H2 : truthy (get_own (VObj [("age", VObj [("$gt", VNum 18)])]) "$and") = false)
    by reflexivity.
  assert (H3 : Object_keys (filter (new_MongoQueryBuilder "users")) = Ok [])
    by reflexivity.
  split; [exact H1 | split; [exact H2 | split; [exact H3 |]]].
  exact (proj1 (proj1 (@query_twice_is_explicit_and []
                         (VObj [("age", VObj [("$gt", VNum 18)])])
                         (VObj [("name", VObj [("$like", VStr "%John%")])])
                         "age" [] H1 H2)
                  (new_MongoQueryBuilder "users") H3)).
Defined.

(* ------------------------------------------------------------------ *)
(** ** LIMIT and OFFSET (C7) *)

Lemma append_empty_r (s : string) : s ++ EmptyString = s.
Proof. induction s as [|c s IH]; simpl; [reflexivity | now rewrite IH]. Qed.

(** The select builder tests [limitValue] and [offsetValue] against
    [null]: whatever numbers were set, the statement ends with the
    paging clause the policy asks for. *)
Lemma select_paging (plugins : list OperatorPlugin) (this : MongoQueryBuilder)
  (stmt : Statement) :
  MongoQueryBuilder_toSQL plugins this = Ok stmt ->
  ends_with (sql stmt)
    match limitValue this, offsetValue this with
    | Some l, Some o => " LIMIT " ++ Z_to_string l ++ " OFFSET " ++ Z_to_string o
    | Some l, None => " LIMIT " ++ Z_to_string l
    | None, Some o => " LIMIT 18446744073709551615 OFFSET " ++ Z_to_string o
    | None, None => EmptyString
    end.
Proof.
  unfold MongoQueryBuilder_toSQL, MongoQueryBuilder_toSQL_with.
  destruct (parseMongoQuery plugins (filter this) [] "SELECT") as [[w ps] | e];
    cbn [bind]; [| discriminate].
  intros H. injection H as <-. cbn [sql].
  destruct (limitValue this), (offsetValue this);
    try (eexists; reflexivity).
  eexists. symmetry. apply append_empty_r.
Qed.

(** The loop of the aggregation builder records a limit or a skip only
    when the value is truthy, that is, not zero. *)
Lemma aggregation_records (plugins : list OperatorPlugin) (table : string)
  (pipeline : list Stage) (s0 s : AggState) :
  forEachM (aggregation_stage plugins table) pipeline s0 = Ok s ->
  limitClause s = recorded_limit pipeline (limitClause s0)
  /\ offsetClause s = recorded_skip pipeline (offsetClause s0).
Proof.
  unfold recorded_limit, recorded_skip.
  revert s0. induction pipeline as [|stage pipeline IH]; intros s0; simpl.
  - intros H. injection H as <-. split; reflexivity.
  - destruct (aggregation_stage plugins table stage s0) as [s1 | e] eqn:Hs;
      [| discriminate].
    intros H. destruct (IH _ H) as [Hl Ho]. rewrite Hl, Ho. clear IH H Hl Ho.
    destruct stage; cbn [aggregation_stage] in Hs; unfold bind in Hs;
      repeat match type of Hs with
             | context [if ?b then _ else _] => destruct b eqn:?
             | context [match ?x with _ => _ end] => destruct x eqn:?
             end;
      try discriminate;
      injection Hs as <-; cbn [limitClause offsetClause];
      try (split; reflexivity).
    all: cbn [truthy] in *;
      repeat match goal with
             | H : negb (Z.eqb ?n 0) = _ |- _ =>
                 destruct (Z.eqb n 0); cbn [negb] in H; try discriminate H; clear H
             end;
      split; reflexivity.
Qed.

(** Whenever the aggregation builder returns a statement, it ends with
    the paging clause of the recorded limit and skip. *)
Lemma aggregation_paging_of_pipeline (plugins : list OperatorPlugin)
  (this : MongoAggregationBuilder) (stmt : Statement) (this' : MongoAggregationBuilder) :
  MongoAggregationBuilder_toSQL plugins this = Ok (stmt, this') ->
  ends_with (sql stmt)
    (aggregation_paging (recorded_limit (pipeline this) None)
       (recorded_skip (pipeline this) None)).
Proof.
  unfold MongoAggregationBuilder_toSQL.
  match goal with
  | |- bind ?c _ = _ -> _ => destruct c as [s | e] eqn:Hloop
  end; cbn [bind]; [| discriminate].
  intros H. injection H as <- _. cbn [sql].
  destruct (aggregation_records _ _ _ _ Hloop) as [Hl Ho].
  cbn [limitClause offsetClause] in Hl, Ho. rewrite <- Hl, <- Ho.
  unfold aggregation_sql. eexists. reflexivity.
Qed.

(** C7: the code departs from the claim on the aggregation builder when
    a stage value is zero.  [limit(0).skip(5)] sets a limit, yet the
    statement ends with [LIMIT 18446744073709551615 OFFSET 5]: the limit
    is lost.  [skip(0)] alone sets a skip, yet the statement has neither
    LIMIT nor OFFSET.  On the select builder the same calls give
    [LIMIT 0 OFFSET 5] and [LIMIT 18446744073709551615 OFFSET 0], as the
    claim says. *)
Theorem aggregation_ignores_zero_limit_and_skip :
  let agg := new_MongoAggregationBuilder "orders" in
  let sel := new_MongoQueryBuilder "orders" in
  MongoAggregationBuilder_toSQL [] (add_stage (add_stage agg (StLimit 0)) (StSkip 5))
    = Ok (mkStatement "SELECT * FROM orders LIMIT 18446744073709551615 OFFSET 5" [],
          add_stage (add_stage agg (StLimit 0)) (StSkip 5))
  /\ MongoAggregationBuilder_toSQL [] (add_stage agg (StSkip 0))
    = Ok (mkStatement "SELECT * FROM orders" [], add_stage agg (StSkip 0))
  /\ MongoQueryBuilder_toSQL []
       (MongoQueryBuilder_skip (MongoQueryBuilder_limit sel 0) 5)
    = Ok (mkStatement "SELECT * FROM orders WHERE 1=1 LIMIT 0 OFFSET 5" [])
  /\ MongoQueryBuilder_toSQL [] (MongoQueryBuilder_skip sel 0)
    = Ok (mkStatement
            "SELECT * FROM orders WHERE 1=1 LIMIT 18446744073709551615 OFFSET 0" []).
Proof. cbv zeta. repeat split. Qed.

(* ------------------------------------------------------------------ *)
(** ** The bulk form of Update (C8) *)

Lemma filter_filter_comm (A : Type) (p q : A -> bool) (l : list A) :
  List.filter p (List.filter q l) = List.filter q (List.filter p l).
Proof.
  induction l as [|x l IH]; simpl; [reflexivity |].
  destruct (q x) eqn:Hq, (p x) eqn:Hp; simpl; rewrite ?Hq, ?Hp, IH; reflexivity.
Qed.

Lemma filter_absorb (p : string -> bool) (x : string) (l : list string) :
  p x = false ->
  List.filter p (List.filter (fun y => negb (y =? x)) l) = List.filter p l.
Proof.
  intros Hx. induction l as [|y l IH]; simpl; [reflexivity |].
  destruct (String.eqb_spec y x) as [Heq | Hne]; simpl.
  - subst y. rewrite !Hx. exact IH.
  - destruct (p y); now rewrite IH.
Qed.

Lemma first_seen_filter (p : string -> bool) (l : list string) :
  first_seen (List.filter p l) = List.filter p (first_seen l).
Proof.
  induction l as [|x l IH]; simpl; [reflexivity |].
  destruct (p x) eqn:Hx; simpl; rewrite ?Hx, IH.
  - f_equal. apply filter_filter_comm.
  - symmetry. now apply filter_absorb.
Qed.

Lemma filter_ext_bool (A : Type) (p q : A -> bool) (l : list A) :
  (forall x, p x = q x) -> List.filter p l = List.filter q l.
Proof.
  intros H. induction l as [|x l IH]; simpl; [reflexivity |].
  now rewrite H, IH.
Qed.

Lemma filter_and (A : Type) (p q : A -> bool) (l : list A) :
  List.filter p (List.filter q l) = List.filter (fun x => q x && p x) l.
Proof.
  induction l as [|x l IH]; simpl; [reflexivity |].
  destruct (q x); simpl; [destruct (p x) |]; now rewrite IH.
Qed.

(** Adding keys one by one to a [Set] appends the new ones in the order
    of their first occurrence. *)
Lemma Set_add_all (keys set : list string) :
  fold_left Set_add keys set
  = (set ++ first_seen (List.filter (fun k => negb (existsb (String.eqb k) set)) keys))%list.
Proof.
  revert set. induction keys as [|k keys IH]; intros set; simpl.
  - now rewrite app_nil_r.
  - destruct (existsb (String.eqb k) set) eqn:Hk; simpl.
    + replace (Set_add set k) with set by (unfold Set_add; now rewrite Hk).
      apply IH.
    + replace (Set_add set k) with (set ++ [k])%list
        by (unfold Set_add, push; now rewrite Hk).
      rewrite IH, <- app_assoc. simpl. do 2 f_equal.
      rewrite <- first_seen_filter. f_equal.
      rewrite filter_and. apply filter_ext_bool. intros k'.
      rewrite existsb_app. simpl. now rewrite orb_false_r, negb_orb.
Qed.

Lemma fold_left_cond_add (idField : string) (kvs : list (string * Value))
  (set : list string) :
  fold_left (fun set kv => if negb (fst kv =? idField) then Set_add set (fst kv) else set)
    kvs set
  = fold_left Set_add (List.filter (fun key => negb (key =? idField)) (map fst kvs)) set.
Proof.
  revert set. induction kvs as [|[k v] kvs IH]; intros set; simpl; [reflexivity |].
  destruct (negb (k =? idField)); simpl; apply IH.
Qed.

(** The columns of a bulk update are the distinct keys of the rows other
    than the identity field, in first-seen order. *)
Lemma bulk_columns_first_seen (idField : string) (rows : list Value) :
  bulk_columns idField rows = first_seen (non_identity_keys idField rows).
Proof.
  unfold bulk_columns, non_identity_keys.
  assert (H : forall set,
             fold_left
               (fun set obj =>
                  fold_left
                    (fun set kv =>
                       if negb (fst kv =? idField) then Set_add set (fst kv) else set)
                    (own_props obj) set)
               rows set
             = fold_left Set_add
                 (List.filter (fun key => negb (key =? idField))
                    (flat_map (fun obj => map fst (own_props obj)) rows)) set).
  { induction rows as [|obj rows IH]; intros set; simpl; [reflexivity |].
    rewrite IH, fold_left_cond_add, filter_app, fold_left_app. reflexivity. }
  rewrite H, Set_add_all. simpl. f_equal.
  set (keys := List.filter _ (flat_map _ rows)). clearbody keys.
  induction keys as [|k keys IHk]; simpl; [reflexivity | now rewrite IHk].
Qed.

Lemma hasOwnProperty_keys (props : list (string * Value)) (key : string) :
  hasOwnProperty props key = existsb (String.eqb key) (map fst props).
Proof.
  unfold hasOwnProperty.
  induction props as [|[k v] props IH]; simpl; [reflexivity |].
  now rewrite IH, (String.eqb_sym k key).
Qed.

(** A row that can be asked answers whether it sets the column. *)
Lemma has_own_answers (row : Value) (col : string) :
  answers row = true -> has_own row col = Ok (sets_column col row).
Proof.
  unfold sets_column, own_keys.
  destruct row as [| | b | n | s | elems | props | sq]; cbn [answers has_own];
    try discriminate; intros H; rewrite ?hasOwnProperty_keys; try reflexivity.
  cbn [own_props_all own_props].
  destruct (existsb (String.eqb "hasOwnProperty") (map fst props));
    [discriminate H | reflexivity].
Qed.

(** The call returns on no other row. *)
Lemma has_own_returns (row : Value) (col : string) (b : bool) :
  has_own row col = Ok b -> answers row = true.
Proof.
  destruct row as [| | b' | n | s | elems | props | sq]; cbn [answers has_own];
    try discriminate; try reflexivity.
  rewrite hasOwnProperty_keys.
  destruct (existsb (String.eqb "hasOwnProperty") (map fst props));
    [discriminate | reflexivity].
Qed.

Lemma get_prop_answers (row : Value) (key : string) :
  answers row = true -> get_prop row key = Ok (get_own row key).
Proof. destruct row; cbn [answers get_prop]; try discriminate; reflexivity. Qed.

Lemma mapM_pure (A B : Type) (f : A -> result B) (g : A -> B) (l : list A) :
  Forall (fun x => f x = Ok (g x)) l -> mapM f l = Ok (map g l).
Proof.
  induction 1 as [|x l Hx _ IH]; cbn [mapM map]; [reflexivity |].
  rewrite Hx. cbn [bind]. rewrite IH. reflexivity.
Qed.

Lemma mapM_returns (A B : Type) (f : A -> result B) (l : list A) (bs : list B) :
  mapM f l = Ok bs -> Forall (fun x => exists b, f x = Ok b) l.
Proof.
  revert bs. induction l as [|x l IH]; intros bs; cbn [mapM]; [constructor |].
  destruct (f x) as [b | e] eqn:Hx; cbn [bind]; [| discriminate].
  destruct (mapM f l) as [bs' | e] eqn:Hl; cbn [bind]; [| discriminate].
  intros _. constructor; [now exists b | exact (IH _ eq_refl)].
Qed.

Lemma case_arms (col : string) (rows : list Value) :
  List.filter (fun x => negb (x =? EmptyString))
    (map (fun obj => if sets_column col obj then "WHEN ? THEN ?" else EmptyString) rows)
  = repeat "WHEN ? THEN ?" (length (rows_setting col rows)).
Proof.
  unfold rows_setting.
  induction rows as [|obj rows IH]; simpl; [reflexivity |].
  destruct (sets_column col obj); simpl; now rewrite IH.
Qed.

(** On rows that can be asked, the assignment of a column has one arm
    per row that sets the column. *)
Lemma bulk_setClause_case (idField col : string) (rows : list Value) :
  Forall (fun row => answers row = true) rows ->
  bulk_setClause idField rows col
  = Ok (case_expression idField col (length (rows_setting col rows))).
Proof.
  intros Hrows. unfold bulk_setClause, case_expression.
  rewrite (@mapM_pure _ _ _
             (fun obj => if sets_column col obj then "WHEN ? THEN ?" else EmptyString)).
  - cbn [bind]. now rewrite case_arms.
  - eapply Forall_impl; [| exact Hrows].
    intros row Hrow. cbn beta. now rewrite (@has_own_answers row col Hrow).
Qed.

(** A row that cannot be asked makes the assignment of every column
    throw. *)
Lemma bulk_setClause_returns (idField col : string) (rows : list Value) (s : string) :
  bulk_setClause idField rows col = Ok s -> Forall (fun row => answers row = true) rows.
Proof.
  unfold bulk_setClause.
  match goal with |- bind ?c _ = _ -> _ => destruct c as [arms | e] eqn:Harms end;
    cbn [bind]; [| discriminate].
  intros _. apply mapM_returns in Harms.
  eapply Forall_impl; [| exact Harms].
  intros row [b Hb]. cbn beta in Hb.
  destruct (has_own row col) as [has | e] eqn:Hrow; cbn [bind] in Hb; [| discriminate].
  exact (@has_own_returns _ _ _ Hrow).
Qed.

Lemma bulk_pairs_loop (idField col : string) (rows : list Value)
  (caseParams : list param) :
  Forall (fun row => answers row = true) rows ->
  forEachM
    (fun obj caseParams =>
       has <- has_own obj col ;;
       if has
       then
         id <- get_prop obj idField ;;
         x <- get_prop obj col ;;
         Ok (push (push caseParams (PVal id)) (PVal x))
       else Ok caseParams)
    rows caseParams
  = Ok (caseParams ++ case_pairs idField col rows)%list.
Proof.
  unfold case_pairs, rows_setting.
  intros Hrows. revert caseParams.
  induction Hrows as [|obj rows Hobj _ IH]; intros caseParams; cbn [forEachM].
  - cbn [List.filter flat_map]. now rewrite app_nil_r.
  - rewrite (@has_own_answers obj col Hobj). cbn [bind List.filter].
    destruct (sets_column col obj).
    + rewrite !(@get_prop_answers obj _ Hobj). cbn [bind]. rewrite IH.
      cbn [flat_map]. unfold push. now rewrite <- !app_assoc.
    + apply IH.
Qed.

Lemma bulk_caseParams_pairs (idField : string) (rows : list Value)
  (updateColumns : list string) :
  Forall (fun row => answers row = true) rows ->
  bulk_caseParams idField rows updateColumns
  = Ok (flat_map (fun col => case_pairs idField col rows) updateColumns).
Proof.
  intros Hrows. unfold bulk_caseParams.
  assert (H : forall acc,
             forEachM
               (fun col caseParams =>
                  forEachM
                    (fun obj caseParams =>
                       has <- has_own obj col ;;
                       if has
                       then
                         id <- get_prop obj idField ;;
                         x <- get_prop obj col ;;
                         Ok (push (push caseParams (PVal id)) (PVal x))
                       else Ok caseParams)
                    rows caseParams)
               updateColumns acc
             = Ok (acc ++ flat_map (fun col => case_pairs idField col rows)
                            updateColumns)%list).
  { induction updateColumns as [|col cols IH]; intros acc; cbn [forEachM flat_map].
    - now rewrite app_nil_r.
    - rewrite (@bulk_pairs_loop idField col rows acc Hrows), IH. now rewrite <- app_assoc. }
  now rewrite H.
Qed.

Lemma bulk_ids (idField : string) (rows : list Value) :
  Forall (fun row => answers row = true) rows ->
  mapM (fun obj => id <- get_prop obj idField ;; Ok (PVal id)) rows
  = Ok (map (fun obj => PVal (get_own obj idField)) rows).
Proof.
  intros Hrows. apply mapM_pure.
  eapply Forall_impl; [| exact Hrows].
  intros row Hrow. cbn beta. now rewrite (@get_prop_answers row _ Hrow).
Qed.

Lemma bulk_setClauses_case (idField : string) (rows : list Value) (cols : list string) :
  Forall (fun row => answers row = true) rows ->
  mapM (bulk_setClause idField rows) cols
  = Ok (map (fun col => case_expression idField col (length (rows_setting col rows)))
          cols).
Proof.
  intros Hrows. apply mapM_pure.
  induction cols as [|col cols IH]; constructor; [| exact IH].
  now apply bulk_setClause_case.
Qed.

Lemma map_const_repeat (A : Type) (l : list A) (s : string) :
  map (fun _ => s) l = repeat s (length l).
Proof. induction l as [|x l IH]; simpl; [reflexivity | now rewrite IH]. Qed.

(** A row carries a field exactly when it answers [true] to
    [hasOwnProperty] of the field. *)
Lemma carries_has_own (field : string) (row : Value) :
  carries field row <-> has_own row field = Ok true.
Proof.
  unfold carries. split.
  - intros [Hrow Hin]. rewrite (@has_own_answers row field Hrow). f_equal.
    unfold sets_column. apply existsb_exists. exists field.
    split; [exact Hin | apply String.eqb_refl].
  - intros H. pose proof (@has_own_returns _ _ _ H) as Hrow.
    split; [exact Hrow |].
    rewrite (@has_own_answers row field Hrow) in H. injection H as H.
    unfold sets_column in H. apply existsb_exists in H.
    destruct H as (k & Hin & Hk). apply String.eqb_eq in Hk. now subst k.
Qed.

Lemma carries_answers (field : string) (rows : list Value) :
  Forall (carries field) rows -> Forall (fun row => answers row = true) rows.
Proof. apply Forall_impl. now intros row [H _]. Qed.

(** C8, as stated, fails: rows that carry the identity field do not
    suffice for a statement.  [toSQL] first refuses a builder whose
    filter has no key, so the bulk form needs a filter besides the
    identity restriction; and with a filter it refuses rows that hold
    nothing but the identity field. *)
Lemma bulk_update_needs_filter_and_column :
  let rows := [ VObj [("id", VNum 1); ("name", VStr "Carol")];
                VObj [("id", VNum 2); ("age", VNum 28)] ] in
  let bare := [ VObj [("id", VNum 1)]; VObj [("id", VNum 2)] ] in
  Forall (carries "id") rows
  /\ (b <- MongoUpdateBuilder_update (new_MongoUpdateBuilder "users" None) (VArr rows) ;;
      MongoUpdateBuilder_toSQL [] b)
     = Throw missing_filter_update
  /\ Forall (carries "id") bare
  /\ (b <- MongoUpdateBuilder_query (new_MongoUpdateBuilder "users" None)
             (VObj [("active", VBool true)]) ;;
      b <- MongoUpdateBuilder_update b (VArr bare) ;;
      MongoUpdateBuilder_toSQL [] b)
     = Throw no_bulk_columns.
Proof.
  cbv zeta. unfold carries.
  split; [repeat constructor; cbn; auto |].
  split; [reflexivity |].
  split; [repeat constructor; cbn; auto | reflexivity].
Qed.

(** C8, amended.  The bulk form of [MongoUpdateBuilder.toSQL], for a
    builder that holds a non-empty array of rows, each carrying the
    identity field.  A filter without a key gives the missing-filter
    error, rows without a column besides the identity field give the
    error for that, and an error of the filter's translation is passed
    on.  Otherwise the statement is as the claim says.  The columns are
    the distinct keys of the rows other than the identity field, in
    first-seen order.  Each column gets one assignment
    [col = CASE idField WHEN ? THEN ? ... ELSE col END] with one arm per
    row that sets the column.  The parameters are the (id, value) pairs
    of the rows that set the first column, then those of the next
    column, and so on; then the identity value of every row, for
    [idField IN (?, ...)]; then the parameters of the filter.  The clause
    of the filter is ANDed to the restriction unless it is [1=1]. *)
Theorem bulk_update_form (plugins : list OperatorPlugin) (this : MongoUpdateBuilder)
  (rows : list Value) :
  dataObj this = None ->
  dataArray this = Some rows ->
  rows <> [] ->
  Forall (carries (idField this)) rows ->
  let columns := first_seen (non_identity_keys (idField this) rows) in
  let assignments :=
    map (fun col => case_expression (idField this) col (length (rows_setting col rows)))
      columns in
  let restriction :=
    idField this ++ " IN (" ++ join ", " (repeat "?" (length rows)) ++ ")" in
  let statement whereClause :=
    "UPDATE " ++ upd_tableName this ++ " SET " ++ join ", " assignments
    ++ " WHERE " ++ whereClause in
  (Object_keys (upd_filter this) = Ok [] ->
   MongoUpdateBuilder_toSQL plugins this = Throw missing_filter_update)
  /\ (forall k ks,
      Object_keys (upd_filter this) = Ok (k :: ks) ->
      columns = [] ->
      MongoUpdateBuilder_toSQL plugins this = Throw no_bulk_columns)
  /\ (forall k ks e,
      Object_keys (upd_filter this) = Ok (k :: ks) ->
      columns <> [] ->
      parseMongoQuery plugins (upd_filter this) [] "BULK_UPDATE" = Throw e ->
      MongoUpdateBuilder_toSQL plugins this = Throw e)
  /\ (forall k ks extraCondition extraParams,
      Object_keys (upd_filter this) = Ok (k :: ks) ->
      columns <> [] ->
      parseMongoQuery plugins (upd_filter this) [] "BULK_UPDATE"
        = Ok (extraCondition, extraParams) ->
      let whereClause :=
        if extraCondition =? "1=1" then restriction
        else restriction ++ " AND (" ++ extraCondition ++ ")" in
      MongoUpdateBuilder_toSQL plugins this
      = Ok (mkStatement
              (if singleUpdate this
               then statement whereClause ++ " LIMIT 1" else statement whereClause)
              (push_all
                 (push_all
                    (flat_map (fun col => case_pairs (idField this) col rows) columns)
                    (map (fun obj => PVal (get_own obj (idField this))) rows))
                 extraParams))).
Proof.
  intros Hobj Harr Hrows Hcarry. cbv zeta.
  pose proof (@carries_answers _ _ Hcarry) as Hask.
  assert (Hlen : Nat.eqb (length rows) 0 = false)
    by (destruct rows; [contradiction | reflexivity]).
  split; [| split; [| split]].
  - intros Hkeys. unfold MongoUpdateBuilder_toSQL. rewrite Hkeys. reflexivity.
  - intros k ks Hkeys Hcols. unfold MongoUpdateBuilder_toSQL.
    rewrite Hkeys, Hobj, Harr. cbn [bind length Nat.eqb].
    rewrite Hlen, bulk_columns_first_seen, Hcols. reflexivity.
  - intros k ks e Hkeys Hcols Hparse. unfold MongoUpdateBuilder_toSQL.
    rewrite Hkeys, Hobj, Harr. cbn [bind length Nat.eqb].
    rewrite Hlen, bulk_columns_first_seen.
    destruct (first_seen (non_identity_keys (idField this) rows)) as [|c cols] eqn:Hc;
      [contradiction |].
    cbn [length Nat.eqb].
    rewrite (@bulk_setClauses_case (idField this) rows (c :: cols) Hask).
    rewrite (@bulk_caseParams_pairs (idField this) rows (c :: cols) Hask).
    rewrite (@bulk_ids (idField this) rows Hask).
    cbn [bind]. rewrite Hparse. reflexivity.
  - intros k ks extraCondition extraParams Hkeys Hcols Hparse.
    unfold MongoUpdateBuilder_toSQL.
    rewrite Hkeys, Hobj, Harr. cbn [bind length Nat.eqb].
    rewrite Hlen, bulk_columns_first_seen.
    destruct (first_seen (non_identity_keys (idField this) rows)) as [|c cols] eqn:Hc;
      [contradiction |].
    cbn [length Nat.eqb].
    rewrite (@bulk_setClauses_case (idField this) rows (c :: cols) Hask).
    rewrite (@bulk_caseParams_pairs (idField this) rows (c :: cols) Hask).
    rewrite (@bulk_ids (idField this) rows Hask).
    cbn [bind]. rewrite Hparse. cbn [bind].
    rewrite map_map, map_const_repeat.
    unfold push_all. rewrite <- app_assoc.
    destruct (extraCondition =? "1=1"); reflexivity.
Qed.

Lemma bulk_update_form_witness :
  let rows := [ VObj [("id", VNum 1); ("name", VNull); ("age", VNum 0)];
                VObj [("id", VNum 2); ("age", VNum 28)] ] in
  let this := mkMongoUpdateBuilder "users" "id" None (Some rows)
                (VObj [("active", VBool true)]) false in
  (b <- MongoUpdateBuilder_query (new_MongoUpdateBuilder "users" (Some "id"))
          (VObj [("active", VBool true)]) ;;
   MongoUpdateBuilder_update b (VArr rows)) = Ok this
  /\ rows <> []
  /\ Forall (carries "id") rows
  /\ first_seen (non_identity_keys "id" rows) = ["name"; "age"]
  /\ MongoUpdateBuilder_toSQL [] this
     = Ok (mkStatement
             ("UPDATE users SET name = CASE id WHEN ? THEN ? ELSE name END, "
              ++ "age = CASE id WHEN ? THEN ? WHEN ? THEN ? ELSE age END "
              ++ "WHERE id IN (?, ?) AND (active = ?)")
             [ PVal (VNum 1); PVal VNull;
               PVal (VNum 1); PVal (VNum 0); PVal (VNum 2); PVal (VNum 28);
               PVal (VNum 1); PVal (VNum 2);
               PVal (VBool true) ]).
Proof.
  cbv zeta.
  assert (Hrows : [ VObj [("id", VNum 1); ("name", VNull); ("age", VNum 0)];
                    VObj [("id", VNum 2); ("age", VNum 28)] ] <> [])
    by discriminate.
  assert (Hcarry : Forall (carries "id")
                     [ VObj [("id", VNum 1); ("name", VNull); ("age", VNum 0)];
                       VObj [("id", VNum 2); ("age", VNum 28)] ])
    by (unfold carries; repeat constructor; cbn; auto).
  split; [reflexivity | split; [exact Hrows | split; [exact Hcarry | split;
    [reflexivity |]]]].
  refine (proj2 (proj2 (proj2
            (@bulk_update_form []
               (mkMongoUpdateBuilder "users" "id" None
                  (Some [ VObj [("id", VNum 1); ("name", VNull); ("age", VNum 0)];
                          VObj [("id", VNum 2); ("age", VNum 28)] ])
                  (VObj [("active", VBool true)]) false)
               [ VObj [("id", VNum 1); ("name", VNull); ("age", VNum 0)];
                 VObj [("id", VNum 2); ("age", VNum 28)] ]
               eq_refl eq_refl Hrows Hcarry)))
            "active" [] "active = ?" [PVal (VBool true)] eq_refl _ eq_refl).
  discriminate.
Defined.

(* ------------------------------------------------------------------ *)
(** ** Errors of a nested translation (C9) *)

Lemma forEachM_throw (A St : Type) (f : A -> St -> result St) (l : list A)
  (s : St) (e : JsError) :
  forEachM f l s = Throw e -> exists x s', In x l /\ f x s' = Throw e.
Proof.
  revert s. induction l as [|x l IH]; intros s; simpl; [discriminate |].
  destruct (f x s) as [s' | e'] eqn:Hx.
  - intros H. destruct (IH _ H) as (y & s'' & Hin & Hy). eauto.
  - intros H. injection H as <-. eauto.
Qed.

Lemma mapM_idx_throw (A B St : Type) (f : A -> nat -> St -> result (B * St))
  (l : list A) (i : nat) (s : St) (e : JsError) :
  mapM_idx f l i s = Throw e ->
  exists j x s', nth_error l j = Some x /\ f x (i + j) s' = Throw e.
Proof.
  revert i s. induction l as [|x l IH]; intros i s; simpl; [discriminate |].
  destruct (f x i s) as [[b s'] | e'] eqn:Hx.
  - destruct (mapM_idx f l (S i) s') as [[bs s''] | e''] eqn:Hl; [discriminate |].
    intros H. injection H as <-.
    destruct (IH _ _ Hl) as (j & y & s3 & Hj & Hy).
    exists (S j), y, s3. split; [exact Hj |].
    now replace (i + S j) with (S i + j) by lia.
  - intros H. injection H as <-. exists 0, x, s. split; [reflexivity |].
    now rewrite Nat.add_0_r.
Qed.

Lemma map_parse_throw
  (parse : Value -> list param -> string -> result (string * list param))
  (children : list Value) (label : nat -> string) (wrap : string -> string)
  (params : list param) (e : JsError) :
  map_parse parse (VArr children) label wrap params = Throw e ->
  exists j child params',
    nth_error children j = Some child /\ parse child params' (label j) = Throw e.
Proof.
  unfold map_parse. intros H.
  destruct (mapM_idx_throw _ _ _ _ H) as (j & child & params' & Hj & Hc).
  exists j, child, params'. split; [exact Hj |].
  cbn [Nat.add] in Hc.
  destruct (parse child params' (label j)) as [[c p] | e']; [discriminate |].
  cbn [bind] in Hc. congruence.
Qed.

(** A value is an array or it is not. *)
Lemma classic_array (value : Value) :
  (exists children, value = VArr children) \/ (forall children, value <> VArr children).
Proof. destruct value; first [left; eexists; reflexivity | right; discriminate]. Qed.

(** An entry under a key that starts with [$] and holds an array fails
    only when the frame of one of the children has failed, and then with
    the child's error wrapped once more. *)
Lemma logical_entry_throw (plugins : list OperatorPlugin)
  (parse : Value -> list param -> string -> result (string * list param))
  (context key : string) (children : list Value) (st : list string * list param)
  (e : JsError) :
  startsWith key "$" = true ->
  parseEntry plugins parse context key (VArr children) st = Throw e ->
  exists j child params' e0,
    nth_error children j = Some child
    /\ parse child params' (child_context context key j) = Throw e0
    /\ e = QueryParseError (message e0) (Some context).
Proof.
  destruct st as [conditions params]. intros Hkey H.
  unfold parseEntry in H. rewrite Hkey in H. unfold child_context.
  destruct (key =? "$or") eqn:Hor;
    [| destruct (key =? "$nor") eqn:Hnor;
       [| destruct (key =? "$and") eqn:Hand]].
  1-3: match type of H with
       | tryCatch (bind ?c _) _ = _ => destruct c as [[conds ps] | e'] eqn:Hmap
       end;
       [ cbn [bind tryCatch] in H;
         repeat match type of H with
                | context [if ?b then _ else _] => destruct b
                end; discriminate
       | cbn [bind tryCatch] in H; injection H as <-;
         destruct (map_parse_throw _ _ _ _ _ Hmap) as (j & child & params' & Hj & Hc);
         exists j, child, params', e'; auto ].
  unfold handleLogicalOperators in H.
  destruct children as [|c0 children'].
  - cbn [tryCatch] in H. discriminate.
  - match type of H with
    | tryCatch (bind ?c _) _ = _ => destruct c as [[conds ps] | e'] eqn:Hmap
    end.
    + cbn [bind tryCatch] in H.
      repeat match type of H with
             | context [if ?b then _ else _] => destruct b
             end; discriminate.
    + cbn [bind tryCatch] in H. injection H as <-.
      destruct (map_parse_throw _ _ _ _ _ Hmap) as (j & child & params' & Hj & Hc).
      exists j, child, params', e'; auto.
Qed.

(** Both methods of a sub-query fail only with the error of the wrapped
    builder. *)
Lemma subquery_throw
  (parse : Value -> list param -> string -> result (string * list param))
  (sq : SubQuery) (e : JsError) :
  SubQuery_toSQL_with parse sq = Throw e \/ SubQuery_getParams_with parse sq = Throw e ->
  MongoQueryBuilder_toSQL_with parse (queryBuilder sq) = Throw e.
Proof.
  unfold SubQuery_toSQL_with, SubQuery_getParams_with.
  destruct (MongoQueryBuilder_toSQL_with parse (queryBuilder sq)) as [r | e'];
    cbn [bind].
  - intros [H | H]; [| discriminate H].
    destruct (cachedSQL sq) as [s |]; [destruct (nonEmpty s) |]; discriminate H.
  - intros [H | H]; [| congruence].
    destruct (cachedSQL sq) as [s |]; [destruct (nonEmpty s) |];
      first [discriminate H | congruence].
Qed.

(** The builder fails only with the error of its filter's frame. *)
Lemma builder_throw
  (parse : Value -> list param -> string -> result (string * list param))
  (this : MongoQueryBuilder) (e : JsError) :
  MongoQueryBuilder_toSQL_with parse this = Throw e <->
  parse (filter this) [] "SELECT" = Throw e.
Proof.
  unfold MongoQueryBuilder_toSQL_with.
  destruct (parse (filter this) [] "SELECT") as [[w ps] | e']; cbn [bind]; cbv zeta;
    split; intros H; first [discriminate H | congruence].
Qed.

(** Text and parameters of a sub-query put into a condition. *)
Lemma embed_throw
  (parse : Value -> list param -> string -> result (string * list param))
  (sq : SubQuery) (conditions : list string) (params : list param)
  (cond : string -> string) (e : JsError) :
  ('(subResult, _) <- SubQuery_toSQL_with parse sq ;;
   ps <- SubQuery_getParams_with parse sq ;;
   Ok (push conditions (cond subResult), push_all params ps)) = Throw e ->
  MongoQueryBuilder_toSQL_with parse (queryBuilder sq) = Throw e.
Proof.
  intros H. apply subquery_throw.
  destruct (SubQuery_toSQL_with parse sq) as [[text sq'] | e1]; cbn [bind] in H;
    [| left; congruence].
  destruct (SubQuery_getParams_with parse sq) as [ps | e2]; cbn [bind] in H;
    [discriminate H | right; congruence].
Qed.

(** The elements of an array operand: only a sub-query can fail. *)
Lemma array_elements_throw
  (parse : Value -> list param -> string -> result (string * list param))
  (vs : list Value) (i : nat) (params : list param) (e : JsError) :
  mapM_idx (fun v (_ : nat) params => array_element parse v params) vs i params = Throw e ->
  exists sq, In (VSubQuery sq) vs
             /\ MongoQueryBuilder_toSQL_with parse (queryBuilder sq) = Throw e.
Proof.
  intros H. destruct (mapM_idx_throw _ _ _ _ H) as (j & v & params' & Hj & Hv).
  apply nth_error_In in Hj.
  destruct v as [| | b | n | s | elems | props | sq]; try discriminate Hv.
  exists sq. split; [exact Hj |]. apply subquery_throw.
  cbn [array_element] in Hv.
  destruct (SubQuery_getParams_with parse sq) as [ps | e1]; cbn [bind] in Hv;
    [| right; congruence].
  destruct (SubQuery_toSQL_with parse sq) as [[text sq'] | e2]; cbn [bind] in Hv;
    [discriminate Hv | left; congruence].
Qed.

Section Wrapping.

Variable plugins : list OperatorPlugin.

(** A failing sub-query hands the frame the error of the frame of its
    filter. *)
Lemma caught_from_subquery (query : Value) (context key : string) (value : Value)
  (sq : SubQuery) (e : JsError) :
  In (key, value) (own_props query) ->
  startsWith key "$" = false ->
  holds_subquery value sq ->
  builder_wrapped plugins sq ->
  MongoQueryBuilder_toSQL_with (parseMongoQuery plugins) (queryBuilder sq) = Throw e ->
  caught plugins query context e.
Proof.
  intros Hin Hkey Hholds Hsq H.
  destruct (Hsq e H) as (e1 & Hcaught & ->).
  eapply caught_subquery; eassumption.
Qed.

(** A step of the loop over the object of a field. *)
Lemma parseFieldOperator_caught (query : Value) (context key : string)
  (ops : list (string * Value)) (op : string) (operand : Value)
  (st : list string * list param) (e : JsError) :
  In (key, VObj ops) (own_props query) ->
  startsWith key "$" = false ->
  In (op, operand) ops ->
  (startsWith op "$" = true -> operand_ok (builder_wrapped plugins) operand) ->
  parseFieldOperator plugins (parseMongoQuery plugins) context key op operand st = Throw e ->
  caught plugins query context e.
Proof.
  destruct st as [fieldConds params]. intros Hin Hkey Hop Hok H.
  unfold parseFieldOperator in H.
  destruct (startsWith op "$") eqn:Hdollar; [| discriminate H].
  specialize (Hok eq_refl).
  assert (Hsub : forall sq cond,
             operand = VSubQuery sq ->
             ('(subResult, _) <- SubQuery_toSQL_with (parseMongoQuery plugins) sq ;;
              ps <- SubQuery_getParams_with (parseMongoQuery plugins) sq ;;
              Ok (push fieldConds (cond subResult), push_all params ps)) = Throw e ->
             caught plugins query context e).
  { intros sq cond -> Hthrow. apply embed_throw in Hthrow.
    apply (@caught_from_subquery query context key (VObj ops) sq e Hin Hkey);
      [| exact Hok | exact Hthrow].
    right. exists ops, op, (VSubQuery sq). auto. }
  assert (Hrest :
            (if existsb (String.eqb op) ["$in"; "$nin"; "$all"]
             then handleArrayOperators (parseMongoQuery plugins) key operand op
                    fieldConds params context
             else handleOperator plugins (parseMongoQuery plugins) key operand op
                    fieldConds params context)
            = Throw e ->
            caught plugins query context e).
  { clear H. intros H.
    destruct (existsb (String.eqb op) ["$in"; "$nin"; "$all"]).
    - (* an array operator *)
      unfold handleArrayOperators in H.
      destruct operand as [| | b | n | s | [|v vs] | props | sq];
        try (repeat match type of H with
                    | context [if ?b then _ else _] => destruct b
                    end; discriminate H).
      destruct (existsb isSubQuery (v :: vs)).
      + match type of H with
        | bind ?c _ = _ => destruct c as [[texts ps] | e'] eqn:Hmap
        end; cbn [bind] in H; [discriminate H |].
        injection H as <-.
        destruct (array_elements_throw _ _ _ _ Hmap) as (sq & Hsq & Hthrow).
        apply (@caught_from_subquery query context key (VObj ops) sq e' Hin Hkey);
          [| | exact Hthrow].
        * right. exists ops, op, (VArr (v :: vs)).
          repeat split; auto. right. now exists (v :: vs).
        * cbn [operand_ok] in Hok. rewrite Forall_forall in Hok.
          exact (Hok _ Hsq).
      + repeat match type of H with
               | context [if ?b then _ else _] => destruct b
               end; discriminate H.
    - (* any other operator *)
      unfold handleOperator in H.
      destruct (find (fun plugin => plugin_operator plugin =? op) plugins)
        as [plugin |] eqn:Hplugin.
      + eapply caught_plugin; eassumption.
      + assert (Hplain :
                  (if op =? "$exists" then
                     Ok (push fieldConds
                           (key ++ " "
                            ++ (if truthy operand then "IS NOT NULL" else "IS NULL")),
                         params)
                   else if op =? "$size" then
                     Ok (push fieldConds ("JSON_LENGTH(" ++ key ++ ") = ?"),
                         push params (PVal operand))
                   else if op =? "$elemMatch" then
                     Ok (push fieldConds ("JSON_CONTAINS(" ++ key ++ ", ?)"),
                         push params (PJson operand))
                   else if op =? "$regex" then
                     Ok (push fieldConds (key ++ " REGEXP ?"), push params (PVal operand))
                   else if op =? "$like" then
                     Ok (push fieldConds (key ++ " LIKE ?"), push params (PVal operand))
                   else
                     match table_lookup op OPERATORS_MYSQL with
                     | None =>
                         handleError
                           ("Unsupported operator " ++ dquote ++ op ++ dquote
                            ++ " for field " ++ dquote ++ key ++ dquote)
                           context SQLGenerationError
                     | Some sqlOperator =>
                         Ok (push fieldConds (key ++ " " ++ sqlOperator ++ " ?"),
                             push params (PVal operand))
                     end) = Throw e ->
                  caught plugins query context e).
        { clear H. intros H.
          repeat match type of H with
                 | (if ?b then _ else _) = _ => destruct b; [discriminate H |]
                 end.
          destruct (table_lookup op OPERATORS_MYSQL) as [sqlOperator |] eqn:Htable;
            [discriminate H |].
          unfold handleError in H.
          replace e with (unsupported_operator_error op key context)
            by (unfold unsupported_operator_error; congruence).
          eapply caught_unsupported; eassumption. }
        destruct operand as [| | b | n | s | vs | props | sq];
          first [exact (Hplain H) | exact (Hsub sq _ eq_refl H)]. }
  destruct (op =? "$in"); [| destruct operand; exact (Hrest H)].
  destruct operand as [| | b | n | s | vs | props | sq];
    first [exact (Hrest H) | exact (Hsub sq _ eq_refl H)].
Qed.

(** An entry of the frame: what leaves it has been caught and wrapped. *)
Lemma parseEntry_caught (query : Value) (context key : string) (value : Value)
  (st : list string * list param) (e : JsError) :
  In (key, value) (own_props query) ->
  entry_ok (wrapped_on plugins) (builder_wrapped plugins) value ->
  parseEntry plugins (parseMongoQuery plugins) context key value st = Throw e ->
  exists e0,
    caught plugins query context e0
    /\ e = QueryParseError (message e0) (Some context).
Proof.
  intros Hin Hok H.
  destruct (startsWith key "$") eqn:Hkey.
  - (* a logical key *)
    destruct (classic_array value) as [[children ->] | Hno].
    + destruct (logical_entry_throw _ _ _ _ _ _ Hkey H)
        as (j & child & params' & e0 & Hj & Hchild & ->).
      exists e0. split; [| reflexivity].
      cbn [entry_ok] in Hok. rewrite Forall_forall in Hok.
      destruct (Hok child (nth_error_In _ _ Hj) _ _ _ Hchild) as (e1 & Hcaught & ->).
      eapply caught_child; eassumption.
    + destruct st as [conditions params].
      unfold parseEntry in H. rewrite Hkey in H.
      assert (Hmap : forall label wrap,
                 map_parse (parseMongoQuery plugins) value label wrap params
                 = Throw (no_map_error value)).
      { intros label wrap. destruct value; try reflexivity. now elim (Hno elems). }
      assert (Hlog : handleLogicalOperators (parseMongoQuery plugins) key value
                       conditions params context
                     = Ok (push conditions (if key =? "$and" then "1=1" else "1=0"),
                           params)).
      { unfold handleLogicalOperators. destruct value; try reflexivity.
        now elim (Hno elems). }
      destruct (String.eqb_spec key "$or") as [-> | _];
        [| destruct (String.eqb_spec key "$nor") as [-> | _];
           [| destruct (String.eqb_spec key "$and") as [-> | _]]].
      1-3: rewrite Hmap in H; cbn [bind tryCatch] in H; injection H as <-;
           exists (no_map_error value); split; [| reflexivity];
           (eapply caught_no_map; [exact Hin | cbn; auto | exact Hno]).
      rewrite Hlog in H. discriminate H.
  - (* a field *)
    destruct st as [conditions params].
    unfold parseEntry in H. rewrite Hkey in H.
    destruct value as [| | b | n | s | vs | ops | sq]; try discriminate H.
    + (* the object of a field *)
      match type of H with
      | tryCatch (bind ?c _) _ = _ => destruct c as [[fieldConds ps] | e'] eqn:Hloop
      end; cbn [bind tryCatch] in H.
      * destruct fieldConds as [|c1 [|c2 cs]]; discriminate H.
      * injection H as <-. exists e'. split; [| reflexivity].
        destruct (forEachM_throw _ _ _ Hloop) as ([op operand] & st' & Hop & Hstep).
        cbn [fst snd] in Hstep.
        apply (@parseFieldOperator_caught query context key ops op operand st' e'
                 Hin Hkey Hop); [| exact Hstep].
        cbn [entry_ok] in Hok. rewrite Forall_forall in Hok.
        exact (Hok _ Hop).
    + (* a sub-query *)
      match type of H with
      | tryCatch ?c _ = _ => destruct c as [r | e'] eqn:Hembed
      end; cbn [tryCatch] in H; [discriminate H |].
      injection H as <-. exists e'. split; [| reflexivity].
      apply (@embed_throw (parseMongoQuery plugins) sq conditions params
               (fun t => key ++ " IN " ++ t) e')
        in Hembed.
      apply (@caught_from_subquery query context key (VSubQuery sq) sq e' Hin Hkey);
        [now left | exact Hok | exact Hembed].
Qed.

Lemma wrapped_step (v : Value) :
  Forall (fun kv => entry_ok (wrapped_on plugins) (builder_wrapped plugins) (snd kv))
    (own_props v) ->
  wrapped_on plugins v.
Proof.
  intros Hok params context e H. rewrite parseMongoQuery_for_in in H.
  match type of H with
  | bind ?c _ = _ => destruct c as [[conds ps] | e'] eqn:Hloop
  end; cbn [bind] in H; [discriminate H |].
  injection H as <-.
  destruct (forEachM_throw _ _ _ Hloop) as ([key value] & st' & Hin & Hentry).
  cbn [fst snd] in Hentry.
  apply (@parseEntry_caught v context key value st' e' Hin); [| exact Hentry].
  rewrite Forall_forall in Hok. exact (Hok _ Hin).
Qed.

Lemma wrapped_everywhere (v : Value) : wrapped_on plugins v.
Proof.
  assert (H : everywhere (both (fun _ => True) (wrapped_on plugins)) v).
  { apply (@hereditary (fun _ => True) (wrapped_on plugins) (builder_wrapped plugins)).
    - intros sq _ Hfilter e He.
      apply builder_throw in He. exact (Hfilter _ _ _ He).
    - intros v' _. apply wrapped_step.
    - apply everywhere_True. }
  apply (everywhere_here H).
Qed.

End Wrapping.

(** C9, as stated, fails: for the filter [{$and: [{a: {$foo: 1}}]}] the
    failing call is [handleOperator], which throws a
    [SQLGenerationError]; the frame of the nested filter throws a
    [QueryParseError] with a longer message, and the outer frame throws
    yet another [QueryParseError], with a message longer still. *)
Lemma nested_error_is_rewrapped :
  exists e0 e1 e2,
    handleOperator [] (parseMongoQuery []) "a" (VNum 1) "$foo" [] [] "root->AND[0]"
      = Throw e0
    /\ parseMongoQuery [] (VObj [("a", VObj [("$foo", VNum 1)])]) [] "root->AND[0]"
      = Throw e1
    /\ parseMongoQuery []
         (VObj [("$and", VArr [VObj [("a", VObj [("$foo", VNum 1)])]])]) [] "root"
      = Throw e2
    /\ name e0 = "SQLGenerationError"
    /\ name e2 = "QueryParseError"
    /\ e2 <> e0 /\ e2 <> e1
    /\ message e2 <> message e0 /\ message e2 <> message e1.
Proof.
  do 3 eexists.
  do 5 (split; [reflexivity |]).
  repeat split; intros H; vm_compute in H; discriminate H.
Qed.

(** C9, amended.  An error that leaves [parseMongoQuery] is a
    [QueryParseError] built by the frame it leaves, from the message of
    the error that frame caught and from the frame's own context.  The
    caught error is the error of a frame below, built in the same way
    with the context of that frame (a child under a logical key, or the
    filter of a sub-query's builder under [SELECT]), or it is an error
    that arose in the frame itself: the [SQLGenerationError] for an
    operator that is not supported, the [TypeError] of [map] on a value
    that is no array, or what a plugin threw.  So the message is wrapped
    once by every frame from the one where the error arose to the
    outermost, and the kind of the first error is lost.  When the entry
    of a logical key over an array fails, the caught error is the one
    the frame of a child threw.  The methods of a sub-query and the
    select, delete and update builders pass the translator's error on as
    it is and return no statement. *)
Theorem translation_error_is_wrapped_by_every_frame (plugins : list OperatorPlugin)
  (e : JsError) :
  let parse := parseMongoQuery plugins in
  (forall query params context,
      parse query params context = Throw e ->
      name e = "QueryParseError"
      /\ exists e0,
           caught plugins query context e0
           /\ e = QueryParseError (message e0) (Some context))
  /\ (forall context key children st,
      startsWith key "$" = true ->
      parseEntry plugins parse context key (VArr children) st = Throw e ->
      exists j child params' e0,
        nth_error children j = Some child
        /\ parse child params' (child_context context key j) = Throw e0
        /\ e = QueryParseError (message e0) (Some context))
  /\ (forall sq : SubQuery,
      SubQuery_toSQL plugins sq = Throw e \/ SubQuery_getParams plugins sq = Throw e ->
      parse (filter (queryBuilder sq)) [] "SELECT" = Throw e)
  /\ (forall this : MongoQueryBuilder,
      parse (filter this) [] "SELECT" = Throw e ->
      MongoQueryBuilder_toSQL plugins this = Throw e)
  /\ (forall (this : MongoDeleteBuilder) k ks,
      Object_keys (del_filter this) = Ok (k :: ks) ->
      parse (del_filter this) [] "DELETE" = Throw e ->
      MongoDeleteBuilder_toSQL plugins this = Throw e)
  /\ (forall (this : MongoUpdateBuilder) k ks updateOps setClause setClauses params,
      Object_keys (upd_filter this) = Ok (k :: ks) ->
      dataObj this = Some updateOps ->
      forEachM (fun kv => update_operator updateOps (fst kv)) (own_props updateOps)
        ([], []) = Ok (setClause :: setClauses, params) ->
      parse (upd_filter this) params "UPDATE" = Throw e ->
      MongoUpdateBuilder_toSQL plugins this = Throw e)
  /\ (forall (this : MongoUpdateBuilder) k ks rows,
      Object_keys (upd_filter this) = Ok (k :: ks) ->
      dataObj this = None ->
      dataArray this = Some rows ->
      rows <> [] ->
      Forall (carries (idField this)) rows ->
      first_seen (non_identity_keys (idField this) rows) <> [] ->
      parse (upd_filter this) [] "BULK_UPDATE" = Throw e ->
      MongoUpdateBuilder_toSQL plugins this = Throw e).
Proof.
  cbv zeta. split; [| split; [| split; [| split; [| split; [| split]]]]].
  - intros query params context H.
    destruct (@wrapped_everywhere plugins query params context e H) as (e0 & Hc & ->).
    split; [reflexivity |]. now exists e0.
  - intros context key children st. apply logical_entry_throw.
  - intros sq H. apply builder_throw. now apply subquery_throw.
  - intros this H. now apply builder_throw.
  - intros this k ks Hkeys H. unfold MongoDeleteBuilder_toSQL.
    rewrite Hkeys. cbn [bind length Nat.eqb]. now rewrite H.
  - intros this k ks updateOps setClause setClauses params Hkeys Hobj Hops H.
    unfold MongoUpdateBuilder_toSQL.
    rewrite Hkeys, Hobj. cbn [bind length Nat.eqb]. rewrite Hops. cbn [bind].
    replace (Nat.eqb (length (setClause :: setClauses)) 0) with false by reflexivity.
    now rewrite H.
  - intros this k ks rows Hkeys Hobj Harr Hrows Hcarry Hcols H.
    pose proof (@carries_answers _ _ Hcarry) as Hask.
    unfold MongoUpdateBuilder_toSQL.
    rewrite Hkeys, Hobj, Harr. cbn [bind length Nat.eqb].
    replace (Nat.eqb (length rows) 0) with false
      by (destruct rows; [contradiction | reflexivity]).
    rewrite bulk_columns_first_seen.
    destruct (first_seen (non_identity_keys (idField this) rows)) as [|c cols] eqn:Hc;
      [contradiction |].
    cbn [length Nat.eqb].
    rewrite (@bulk_setClauses_case (idField this) rows (c :: cols) Hask).
    rewrite (@bulk_caseParams_pairs (idField this) rows (c :: cols) Hask).
    rewrite (@bulk_ids (idField this) rows Hask).
    cbn [bind]. now rewrite H.
Qed.

Lemma translation_error_is_wrapped_by_every_frame_witness :
  let query := VObj [("$and", VArr [VObj [("a", VObj [("$foo", VNum 1)])]])] in
  let inner := unsupported_operator_error "$foo" "a" "root->AND[0]" in
  let e1 := QueryParseError (message inner) (Some "root->AND[0]") in
  let e2 := QueryParseError (message e1) (Some "root") in
  parseMongoQuery [] query [] "root" = Throw e2
  /\ name e2 = "QueryParseError"
  /\ exists e0, caught [] query "root" e0 /\ e2 = QueryParseError (message e0) (Some "root").
Proof.
  cbv zeta.
  assert (H : parseMongoQuery []
                (VObj [("$and", VArr [VObj [("a", VObj [("$foo", VNum 1)])]])]) [] "root"
              = Throw (QueryParseError
                         (message (QueryParseError
                                     (message (unsupported_operator_error "$foo" "a"
                                                 "root->AND[0]"))
                                     (Some "root->AND[0]")))
                         (Some "root")))
    by reflexivity.
  split; [exact H |].
  exact (proj1 (translation_error_is_wrapped_by_every_frame [] _) _ _ _ H).
Defined.

(* ------------------------------------------------------------------ *)
(** ** One compilation or two: the [SubQuery] wrapper (C3) *)

Lemma counted_methods_agree (plugins : list OperatorPlugin) (this : SubQuery)
  (calls : nat) :
  SubQuery_toSQL plugins this
    = ('(text, this', _) <- SubQuery_toSQL_counted plugins this calls ;; Ok (text, this'))
  /\ SubQuery_getParams plugins this
    = ('(ps, _) <- SubQuery_getParams_counted plugins this calls ;; Ok ps).
Proof.
  unfold SubQuery_toSQL, SubQuery_toSQL_with, SubQuery_getParams,
    SubQuery_getParams_with, SubQuery_toSQL_counted, SubQuery_getParams_counted,
    MongoQueryBuilder_toSQL.
  split.
  - destruct (cachedSQL this) as [s |]; [destruct (nonEmpty s); [reflexivity |] |];
      destruct (MongoQueryBuilder_toSQL_with (parseMongoQuery plugins) (queryBuilder this));
      reflexivity.
  - destruct (MongoQueryBuilder_toSQL_with (parseMongoQuery plugins) (queryBuilder this));
      reflexivity.
Qed.




(* ------------------------------------------------------------------ *)
(** ** Placeholders and parameters (C1) *)

Lemma append_assoc (a b c : string) : (a ++ b) ++ c = a ++ b ++ c.
Proof. induction a as [|x a IH]; simpl; [reflexivity | now rewrite IH]. Qed.

Lemma count_placeholders_app (a b : string) :
  count_placeholders (a ++ b) = count_placeholders a + count_placeholders b.
Proof. induction a as [|x a IH]; simpl; [reflexivity | rewrite IH; lia]. Qed.

Lemma erase_app (f g : fragment) : erase (f ++ g)%list = erase f ++ erase g.
Proof.
  induction f as [|[s | p] f IH]; simpl; [reflexivity | |]; rewrite IH;
    [now rewrite append_assoc | reflexivity].
Qed.

Lemma holes_app (f g : fragment) : holes (f ++ g)%list = (holes f ++ holes g)%list.
Proof.
  induction f as [|[s | p] f IH]; simpl; [reflexivity | |]; now rewrite IH.
Qed.

Lemma erase_join (sep : string) (fs : list fragment) :
  erase (join_fragments sep fs) = join sep (map erase fs).
Proof.
  induction fs as [|f [|g fs] IH]; [reflexivity | reflexivity |].
  change (join_fragments sep (f :: g :: fs))
    with (f ++ Lit sep :: join_fragments sep (g :: fs))%list.
  rewrite erase_app. cbn [erase]. rewrite IH. reflexivity.
Qed.

Lemma holes_join (sep : string) (fs : list fragment) :
  holes (join_fragments sep fs) = flat_map holes fs.
Proof.
  induction fs as [|f [|g fs] IH]; [reflexivity | simpl; now rewrite app_nil_r |].
  change (join_fragments sep (f :: g :: fs))
    with (f ++ Lit sep :: join_fragments sep (g :: fs))%list.
  rewrite holes_app. cbn [holes]. rewrite IH. reflexivity.
Qed.

Lemma erase_parenthesized (f : fragment) :
  erase (parenthesized f) = "(" ++ erase f ++ ")".
Proof.
  unfold parenthesized. cbn [erase]. rewrite erase_app. cbn [erase].
  now rewrite append_empty_r.
Qed.

Lemma holes_parenthesized (f : fragment) : holes (parenthesized f) = holes f.
Proof.
  unfold parenthesized. cbn [holes]. rewrite holes_app. cbn [holes].
  apply app_nil_r.
Qed.

Lemma clean_fragment_count (f : fragment) :
  clean_fragment f -> count_placeholders (erase f) = length (holes f).
Proof.
  induction 1 as [|[s | p] f Hp _ IH]; simpl; [reflexivity | |].
  - rewrite count_placeholders_app, Hp, IH. reflexivity.
  - rewrite IH. reflexivity.
Qed.

Lemma annotate_for_in (query : Value) :
  annotate query
  = annotate_where
      (flat_map (fun kv => annotate_entry annotate (fst kv) (snd kv)) (own_props query)).
Proof.
  destruct query as [| | b | n | s | elems | props | sq]; try reflexivity.
  - (* string *)
    cbn [annotate own_props]. f_equal.
    generalize 0. induction s as [|c s IH]; intros i; [reflexivity |].
    cbn [chars map indexed flat_map]. rewrite IH. f_equal;
      cbn [fst snd]; unfold annotate_entry; rewrite startsWith_index; reflexivity.
  - (* array *)
    cbn [annotate own_props]. f_equal.
    generalize 0. induction elems as [|x elems IH]; intros i; [reflexivity |].
    cbn [indexed flat_map fst snd]. now rewrite IH.
  - (* SubQuery instance *)
    cbn [annotate own_props]. f_equal. unfold SubQuery_props.
    cbn [flat_map fst snd]. f_equal. f_equal.
    unfold annotate_entry. cbn [startsWith prefix].
    destruct (cachedSQL sq); reflexivity.
Qed.

(** *** The translator returns the annotated clause *)

Lemma holes_none (f : fragment) : count_placeholders (erase f) = 0 -> holes f = [].
Proof.
  destruct f as [|[s | p] f]; [reflexivity | | discriminate].
  induction (Lit s :: f) as [|[s' | p'] g IH]; [reflexivity | |]; cbn [erase holes].
  - rewrite count_placeholders_app. intros H. apply IH. lia.
  - discriminate.
Qed.

Lemma dropped_no_holes (f : fragment) : kept f = false -> holes f = [].
Proof.
  unfold kept, nonEmpty. intros H. apply holes_none.
  destruct (String.eqb_spec (erase f) EmptyString) as [-> | _]; [reflexivity |].
  destruct (String.eqb_spec (erase f) "1=1") as [-> | _]; [reflexivity |].
  discriminate H.
Qed.

Lemma empty_no_holes (f : fragment) : nonEmpty (erase f) = false -> holes f = [].
Proof.
  unfold nonEmpty. intros H. apply holes_none.
  destruct (String.eqb_spec (erase f) EmptyString) as [-> | _];
    [reflexivity | discriminate H].
Qed.

Lemma filter_map_erase (p : string -> bool) (fs : list fragment) :
  List.filter p (map erase fs) = map erase (List.filter (fun f => p (erase f)) fs).
Proof.
  induction fs as [|f fs IH]; simpl; [reflexivity |].
  destruct (p (erase f)); simpl; now rewrite IH.
Qed.

Lemma flat_map_holes_filter (p : fragment -> bool) (fs : list fragment) :
  (forall f, p f = false -> holes f = []) ->
  flat_map holes (List.filter p fs) = flat_map holes fs.
Proof.
  intros H. induction fs as [|f fs IH]; simpl; [reflexivity |].
  destruct (p f) eqn:Hf; simpl; rewrite IH; [reflexivity |].
  now rewrite (H f Hf).
Qed.

(** The statement of a select builder, split around its WHERE clause. *)
Lemma builder_statement (plugins : list OperatorPlugin) (b : MongoQueryBuilder)
  (r : Statement) :
  MongoQueryBuilder_toSQL plugins b = Ok r ->
  exists w,
    parseMongoQuery plugins (filter b) [] "SELECT" = Ok (w, params r)
    /\ sql r = select_head b
               ++ (if nonEmpty w then " WHERE " ++ w else EmptyString)
               ++ select_tail b.
Proof.
  unfold MongoQueryBuilder_toSQL, MongoQueryBuilder_toSQL_with.
  destruct (parseMongoQuery plugins (filter b) [] "SELECT") as [[w ps] | e];
    cbn [bind]; [| discriminate].
  intros H. injection H as <-. exists w. split; [reflexivity |].
  cbn [sql]. unfold select_head, select_tail.
  destruct (Nat.ltb 0 (length (joinConfigs b))), (nonEmpty w),
    (nonEmpty (sortClause b)), (limitValue b), (offsetValue b);
    cbn [append]; rewrite ?append_assoc, ?append_empty_r; cbn [append];
    rewrite ?append_assoc, ?append_empty_r; reflexivity.
Qed.

Lemma builder_aligned (b : MongoQueryBuilder) (r : Statement) :
  aligned_on (filter b) ->
  MongoQueryBuilder_toSQL [] b = Ok r ->
  sql r = erase (annotate_builder annotate b)
  /\ params r = holes (annotate_builder annotate b).
Proof.
  intros Hal Hr. destruct (@builder_statement _ _ _ Hr) as (w & Hw & Hsql).
  destruct (Hal _ _ _ _ Hw) as [-> Hps]. rewrite Hsql, Hps.
  unfold annotate_builder, push_all. cbn [erase holes app].
  rewrite erase_app, holes_app. cbn [erase holes].
  destruct (nonEmpty (erase (annotate (filter b)))) eqn:Hne; cbn [erase holes].
  - rewrite append_empty_r, app_nil_r. split; reflexivity.
  - rewrite append_empty_r. split; [reflexivity |].
    cbn [app]. now rewrite (@empty_no_holes _ Hne).
Qed.

Lemma subquery_aligned_of (sq : SubQuery) :
  fresh_cache (VSubQuery sq) -> aligned_on (filter (queryBuilder sq)) ->
  subquery_aligned sq.
Proof.
  intros Hfresh Hal text sq' ps Ht Hp.
  unfold SubQuery_getParams, SubQuery_getParams_with in Hp.
  fold (MongoQueryBuilder_toSQL []) in Hp.
  destruct (MongoQueryBuilder_toSQL [] (queryBuilder sq)) as [r | e] eqn:Hr;
    cbn [bind] in Hp; [| discriminate].
  injection Hp as <-.
  destruct (@builder_aligned _ _ Hal Hr) as [Hsql Hps].
  assert (Htext : text = "(" ++ sql r ++ ")").
  { unfold SubQuery_toSQL, SubQuery_toSQL_with in Ht.
    fold (MongoQueryBuilder_toSQL []) in Ht. rewrite Hr in Ht. cbn [bind] in Ht.
    cbn [fresh_cache] in Hfresh.
    destruct Hfresh as [Hc | (r' & Hr' & Hc)]; rewrite Hc in Ht.
    - now injection Ht as <- _.
    - rewrite Hr in Hr'. injection Hr' as <-.
      replace (nonEmpty ("(" ++ sql r ++ ")")) with true in Ht by reflexivity.
      now injection Ht as <- _. }
  rewrite Htext, Hsql, Hps. unfold annotate_subquery.
  cbn [erase holes]. rewrite erase_app, holes_app. cbn [erase holes].
  rewrite app_nil_r. split; reflexivity.
Qed.

Ltac norm_str :=
  repeat (progress
            (cbn [erase holes map flat_map app];
             rewrite ?erase_app, ?holes_app, ?erase_join, ?holes_join,
               ?erase_parenthesized, ?holes_parenthesized));
  rewrite ?append_assoc, ?append_empty_r, ?app_nil_r;
  cbn [append].

Ltac adds_done :=
  let H := fresh "H" in
  intros ? ? H; injection H as <- <-; unfold push, push_all;
  split; norm_str; reflexivity.

Lemma array_elements_aligned (vs : list Value) (i : nat) (params : list param)
  (texts : list string) (params' : list param) :
  Forall (element_ok subquery_aligned) vs ->
  mapM_idx (fun v (_ : nat) params => array_element (parseMongoQuery []) v params)
    vs i params = Ok (texts, params') ->
  texts = map erase (map (annotate_array_element annotate) vs)
  /\ params' = push_all params (flat_map holes (map (annotate_array_element annotate) vs)).
Proof.
  intros Hok. revert i params texts params'.
  induction Hok as [|v vs Hv _ IH]; intros i params texts params' H.
  - cbn in H. injection H as <- <-. unfold push_all. now rewrite app_nil_r.
  - cbn [mapM_idx] in H.
    destruct (array_element (parseMongoQuery []) v params) as [[t p1] | e] eqn:Hel;
      [| discriminate].
    destruct (mapM_idx _ vs (S i) p1) as [[ts p2] | e] eqn:Hrest; [| discriminate].
    injection H as <- <-.
    destruct (IH _ _ _ _ Hrest) as [-> ->]. clear IH Hrest.
    assert (Hone : t = erase (annotate_array_element annotate v)
                   /\ p1 = push_all params (holes (annotate_array_element annotate v))).
    { unfold array_element in Hel. destruct v; cbn [annotate_array_element];
        try (injection Hel as <- <-; split; reflexivity).
      fold (SubQuery_getParams []) in Hel. fold (SubQuery_toSQL []) in Hel.
      destruct (SubQuery_getParams [] sq) as [ps | e] eqn:Hp; cbn [bind] in Hel;
        [| discriminate].
      destruct (SubQuery_toSQL [] sq) as [[text sq'] | e] eqn:Ht; cbn [bind] in Hel;
        [| discriminate].
      injection Hel as <- <-.
      destruct (Hv _ _ _ Ht Hp) as [-> ->]. split; reflexivity. }
    destruct Hone as [-> ->]. unfold push_all. cbn [map flat_map].
    split; [reflexivity | now rewrite app_assoc].
Qed.

Lemma map_erase_holes (A : Type) (vs : list A) (h : A -> param) :
  map erase (map (fun v => [Hole (h v)]) vs) = map (fun _ => "?") vs
  /\ flat_map holes (map (fun v => [Hole (h v)]) vs) = map h vs.
Proof.
  induction vs as [|v vs [IH1 IH2]]; [split; reflexivity |].
  cbn [map flat_map holes erase app]. rewrite IH1, IH2. split; reflexivity.
Qed.

Lemma map_json_contains (field : string) (vs : list Value) :
  map erase
    (map (fun v => [Lit ("JSON_CONTAINS(" ++ field ++ ", "); Hole (PJson v); Lit ")"]) vs)
  = map (fun _ => "JSON_CONTAINS(" ++ field ++ ", ?)") vs
  /\ flat_map holes
       (map (fun v => [Lit ("JSON_CONTAINS(" ++ field ++ ", "); Hole (PJson v); Lit ")"]) vs)
     = map PJson vs.
Proof.
  induction vs as [|v vs [IH1 IH2]]; [split; reflexivity |].
  cbn [map flat_map holes erase app]. rewrite IH1, IH2. split; [| reflexivity].
  f_equal. rewrite ?append_assoc. reflexivity.
Qed.

Lemma handleArrayOperators_adds (field : string) (values : Value) (operator : string)
  (conditions : list string) (params : list param) (context : string) :
  operand_ok subquery_aligned values ->
  adds (handleArrayOperators (parseMongoQuery []) field values operator
          conditions params context)
    conditions params (annotate_array annotate field values operator).
Proof.
  intros Hok. unfold handleArrayOperators, annotate_array.
  destruct values as [| | b | n | s | [|v vs] | props | sq];
    try (destruct (operator =? "$in"); [adds_done |];
         destruct (operator =? "$nin"); adds_done).
  set (l := v :: vs) in *. cbn [operand_ok] in Hok.
  assert (Hlen : Nat.eqb (length l) 0 = false) by reflexivity.
  clearbody l. rewrite Hlen.
  destruct (existsb isSubQuery l).
  - intros c' p' H.
    destruct (mapM_idx _ l 0 params) as [[texts p1] | e] eqn:Hmap; cbn [bind] in H;
      [| discriminate].
    injection H as <- <-.
    destruct (array_elements_aligned _ _ Hok Hmap) as [-> ->].
    unfold push, push_all. split; norm_str; reflexivity.
  - destruct (operator =? "$in"); [| destruct (operator =? "$nin");
                                      [| destruct (operator =? "$all")]].
    + intros ? ? H; injection H as <- <-; unfold push, push_all.
      destruct (map_erase_holes l PVal) as [He Hh].
      split; cbn [erase holes map flat_map app];
        rewrite ?erase_app, ?holes_app, ?erase_join, ?holes_join, ?He, ?Hh;
        norm_str; reflexivity.
    + intros ? ? H; injection H as <- <-; unfold push, push_all.
      destruct (map_erase_holes l PVal) as [He Hh].
      split; cbn [erase holes map flat_map app];
        rewrite ?erase_app, ?holes_app, ?erase_join, ?holes_join, ?He, ?Hh;
        norm_str; reflexivity.
    + intros ? ? H; injection H as <- <-; unfold push, push_all.
      destruct (map_json_contains field l) as [He Hh].
      split; cbn [erase holes map flat_map app];
        rewrite ?erase_app, ?holes_app, ?erase_join, ?holes_join, ?He, ?Hh;
        norm_str; reflexivity.
    + adds_done.
Qed.

Lemma embed_subquery_adds (sq : SubQuery) (key : string)
  (conditions : list string) (params : list param) :
  subquery_aligned sq ->
  adds ('(subResult, _) <- SubQuery_toSQL [] sq ;;
        ps <- SubQuery_getParams [] sq ;;
        Ok (push conditions (key ++ " IN " ++ subResult), push_all params ps))
    conditions params [Lit (key ++ " IN ") :: annotate_subquery annotate sq].
Proof.
  intros Hsq c' p' H.
  destruct (SubQuery_toSQL [] sq) as [[text sq'] | e] eqn:Ht; cbn [bind] in H;
    [| discriminate].
  destruct (SubQuery_getParams [] sq) as [ps | e] eqn:Hp; cbn [bind] in H;
    [| discriminate].
  injection H as <- <-. destruct (Hsq _ _ _ Ht Hp) as [-> ->].
  unfold push, push_all. split; norm_str; reflexivity.
Qed.

Lemma handleOperator_adds (field : string) (opValue : Value) (operator : string)
  (conditions : list string) (params : list param) (context : string) :
  operand_ok subquery_aligned opValue ->
  adds (handleOperator [] (parseMongoQuery []) field opValue operator
          conditions params context)
    conditions params (annotate_operator annotate field opValue operator).
Proof.
  intros Hok. unfold handleOperator, annotate_operator. cbn [find].
  destruct opValue as [| | b | n | s | vs | props | sq];
    try (destruct (operator =? "$exists"); [adds_done |];
         destruct (operator =? "$size"); [adds_done |];
         destruct (operator =? "$elemMatch"); [adds_done |];
         destruct (operator =? "$regex"); [adds_done |];
         destruct (operator =? "$like"); [adds_done |];
         destruct (table_lookup operator OPERATORS_MYSQL);
         [adds_done | intros ? ? H; discriminate H]).
  apply embed_subquery_adds. exact Hok.
Qed.

Lemma parseFieldOperator_adds (context key op : string) (opValue : Value)
  (fieldConds : list string) (params : list param) :
  (startsWith op "$" = true -> operand_ok subquery_aligned opValue) ->
  adds (parseFieldOperator [] (parseMongoQuery []) context key op opValue
          (fieldConds, params))
    fieldConds params (annotate_field_operator annotate key op opValue).
Proof.
  intros Hok. unfold parseFieldOperator, annotate_field_operator.
  destruct (startsWith op "$"); [| adds_done].
  specialize (Hok eq_refl).
  assert (Hrest :
    adds (if existsb (String.eqb op) ["$in"; "$nin"; "$all"]
          then handleArrayOperators (parseMongoQuery []) key opValue op
                 fieldConds params context
          else handleOperator [] (parseMongoQuery []) key opValue op
                 fieldConds params context)
      fieldConds params
      (if existsb (String.eqb op) ["$in"; "$nin"; "$all"]
       then annotate_array annotate key opValue op
       else annotate_operator annotate key opValue op)).
  { destruct (existsb (String.eqb op) ["$in"; "$nin"; "$all"]);
      [now apply handleArrayOperators_adds | now apply handleOperator_adds]. }
  destruct (op =? "$in"); [| destruct opValue; exact Hrest].
  destruct opValue; try exact Hrest.
  apply embed_subquery_adds. exact Hok.
Qed.

Lemma forEachM_adds (A : Type)
  (f : A -> list string * list param -> result (list string * list param))
  (g : A -> list fragment) (l : list A) :
  Forall (fun x => forall c p, adds (f x (c, p)) c p (g x)) l ->
  forall c p, adds (forEachM f l (c, p)) c p (flat_map g l).
Proof.
  induction 1 as [|x l Hx _ IH]; intros c p c' p' H.
  - cbn in H. injection H as <- <-. unfold push_all. cbn.
    now rewrite !app_nil_r.
  - cbn [forEachM] in H.
    destruct (f x (c, p)) as [[c1 p1] | e] eqn:Hfx; [| discriminate].
    destruct (Hx _ _ _ _ Hfx) as [-> ->].
    destruct (IH _ _ _ _ H) as [-> ->].
    unfold push_all. cbn [flat_map]. rewrite map_app, flat_map_app.
    now rewrite !app_assoc.
Qed.

Lemma map_parse_aligned (children : list Value) (label : nat -> string)
  (wrap : string -> string) (params : list param)
  (conds : list string) (params' : list param) :
  Forall aligned_on children ->
  map_parse (parseMongoQuery []) (VArr children) label wrap params = Ok (conds, params') ->
  conds = map (fun c => wrap (erase (annotate c))) children
  /\ params' = push_all params (flat_map holes (map annotate children)).
Proof.
  unfold map_parse. intros Hal. generalize 0.
  revert params conds params'.
  induction Hal as [|c cs Hc _ IH]; intros params conds params' i H.
  - cbn in H. injection H as <- <-. unfold push_all. now rewrite app_nil_r.
  - cbn [mapM_idx] in H.
    destruct (parseMongoQuery [] c params (label i)) as [[t p1] | e] eqn:Hp;
      cbn [bind] in H; [| discriminate].
    destruct (mapM_idx _ cs (S i) p1) as [[ts p2] | e] eqn:Hrest; [| discriminate].
    injection H as <- <-.
    destruct (Hc _ _ _ _ Hp) as [-> ->].
    destruct (IH _ _ _ _ Hrest) as [-> ->].
    unfold push_all. cbn [map flat_map]. split; [reflexivity | now rewrite app_assoc].
Qed.

Lemma map_wrap_id (children : list Value) :
  map (fun c => erase (annotate c)) children = map erase (map annotate children).
Proof. now rewrite map_map. Qed.

Lemma map_wrap_parens (children : list Value) :
  map (fun c => "(" ++ erase (annotate c) ++ ")") children
  = map erase (map parenthesized (map annotate children)).
Proof.
  rewrite !map_map. apply map_ext. intros c. now rewrite erase_parenthesized.
Qed.

Lemma flat_map_holes_parens (fs : list fragment) :
  flat_map holes (map parenthesized fs) = flat_map holes fs.
Proof.
  induction fs as [|f fs IH]; [reflexivity |].
  cbn [map flat_map]. now rewrite IH, holes_parenthesized.
Qed.

Lemma adds_tryCatch (body : result (list string * list param))
  (handler : JsError -> result (list string * list param))
  (conditions : list string) (params : list param) (fs : list fragment) :
  (forall e, isOk (handler e) = false) ->
  adds body conditions params fs -> adds (tryCatch body handler) conditions params fs.
Proof.
  intros Hh Hb c' p' H. destruct body as [a | e]; cbn [tryCatch] in H.
  - now apply Hb.
  - specialize (Hh e). rewrite H in Hh. discriminate Hh.
Qed.

Lemma adds_intro (conditions conditions' : list string) (params params' : list param)
  (fs : list fragment) :
  conditions' = push_all conditions (map erase fs) ->
  params' = push_all params (flat_map holes fs) ->
  adds (Ok (conditions', params')) conditions params fs.
Proof. intros -> -> c p H. injection H as <- <-. split; reflexivity. Qed.

Lemma logical_children (value : Value) (label : nat -> string) (wrap : string -> string)
  (params : list param) (conds : list string) (params' : list param) :
  entry_ok aligned_on subquery_aligned value ->
  map_parse (parseMongoQuery []) value label wrap params = Ok (conds, params') ->
  conds = map (fun f => wrap (erase f)) (annotate_children annotate value)
  /\ params' = push_all params (flat_map holes (annotate_children annotate value)).
Proof.
  intros Hok H. destruct value as [| | b | n | s | children | props | sq];
    try discriminate H.
  cbn [entry_ok] in Hok. cbn [annotate_children].
  destruct (map_parse_aligned _ _ _ Hok H) as [-> ->].
  now rewrite map_map.
Qed.

Lemma map_id_erase (fs : list fragment) :
  map (fun f => erase f) fs = map erase fs.
Proof. reflexivity. Qed.

Lemma parseEntry_adds (context key : string) (value : Value)
  (conditions : list string) (params : list param) :
  entry_ok aligned_on subquery_aligned value ->
  adds (parseEntry [] (parseMongoQuery []) context key value (conditions, params))
    conditions params (annotate_entry annotate key value).
Proof.
  intros Hok. unfold parseEntry.
  apply adds_tryCatch; [reflexivity |].
  unfold annotate_entry.
  destruct (startsWith key "$").
  - destruct (key =? "$or") eqn:Hor;
      [| destruct (key =? "$nor") eqn:Hnor; [| destruct (key =? "$and") eqn:Hand]].
    + (* $or *)
      intros c' p' H.
      destruct (map_parse _ value _ _ params) as [[conds p1] | e] eqn:Hmap;
        cbn [bind] in H; [| discriminate].
      destruct (logical_children _ _ _ _ Hok Hmap) as [-> ->].
      rewrite map_id_erase, filter_map_erase in H. fold kept in H.
      change (fun f : fragment => nonEmpty (erase f) && negb (erase f =? "1=1"))
        with kept in H.
      rewrite <- (flat_map_holes_filter kept (annotate_children annotate value)
                    dropped_no_holes) in H.
      destruct (List.filter kept (annotate_children annotate value)) as [|f fs];
        cbn [map length Nat.ltb Nat.leb] in H; revert c' p' H;
        apply adds_intro; unfold push, push_all; norm_str; reflexivity.
    + (* $nor *)
      intros c' p' H.
      destruct (map_parse _ value _ _ params) as [[conds p1] | e] eqn:Hmap;
        cbn [bind] in H; [| discriminate].
      destruct (logical_children _ _ _ _ Hok Hmap) as [-> ->].
      rewrite map_id_erase, filter_map_erase in H.
      change (fun f : fragment => nonEmpty (erase f) && negb (erase f =? "1=1"))
        with kept in H.
      rewrite <- (flat_map_holes_filter kept (annotate_children annotate value)
                    dropped_no_holes) in H.
      destruct (List.filter kept (annotate_children annotate value)) as [|f fs];
        cbn [map length Nat.ltb Nat.leb] in H; revert c' p' H;
        apply adds_intro; unfold push, push_all; norm_str; reflexivity.
    + (* $and *)
      intros c' p' H.
      destruct (map_parse _ value _ _ params) as [[conds p1] | e] eqn:Hmap;
        cbn [bind] in H; [| discriminate].
      destruct (logical_children _ _ _ _ Hok Hmap) as [-> ->].
      rewrite map_id_erase, filter_map_erase in H.
      rewrite <- (flat_map_holes_filter (fun f => nonEmpty (erase f))
                    (annotate_children annotate value) empty_no_holes) in H.
      destruct (List.filter (fun f => nonEmpty (erase f))
                  (annotate_children annotate value)) as [|f fs];
        cbn [map length Nat.ltb Nat.leb] in H; revert c' p' H;
        apply adds_intro; unfold push, push_all; norm_str; reflexivity.
    + (* another key that starts with $ *)
      unfold handleLogicalOperators. rewrite Hnor, Hand.
      destruct value as [| | b | n | s | [|c cs] | props | sq]; try adds_done.
      intros c' p' H.
      destruct (map_parse _ (VArr (c :: cs)) _ _ params) as [[conds p1] | e] eqn:Hmap;
        cbn [bind] in H; [| discriminate].
      destruct (logical_children _ _ _ _ Hok Hmap) as [-> ->].
      cbv beta in H. revert c' p' H.
      set (fs := annotate_children annotate (VArr (c :: cs))).
      assert (Hw : map (fun f => "(" ++ erase f ++ ")") fs = map erase (map parenthesized fs)).
      { rewrite map_map. apply map_ext. intros f. now rewrite erase_parenthesized. }
      rewrite Hw. clearbody fs.
      apply adds_intro; unfold push, push_all; norm_str;
        rewrite ?flat_map_holes_parens; reflexivity.
  - destruct value as [| | b | n | s | vs | ops | sq]; try adds_done.
    + (* an object of operators *)
      intros c' p' H.
      destruct (forEachM _ ops ([], params)) as [[fieldConds p1] | e] eqn:Hloop;
        cbn [bind] in H; [| discriminate].
      assert (Hops : Forall (fun kv : string * Value =>
                               forall c p,
                                 adds (parseFieldOperator [] (parseMongoQuery []) context key
                                         (fst kv) (snd kv) (c, p))
                                   c p
                                   (annotate_field_operator annotate key (fst kv) (snd kv)))
                       ops).
      { cbn [entry_ok] in Hok. eapply Forall_impl; [| exact Hok].
        intros kv Hkv c p. now apply parseFieldOperator_adds. }
      destruct (forEachM_adds _ _ Hops _ _ Hloop) as [-> ->].
      set (fcs := flat_map _ ops) in *. clearbody fcs.
      unfold push_all in H. cbn [app] in H.
      destruct fcs as [|f1 [|f2 fcs]]; cbn [map] in H; revert c' p' H;
        apply adds_intro; unfold push, push_all; norm_str; reflexivity.
    + (* a SubQuery *)
      apply embed_subquery_adds. exact Hok.
Qed.

Lemma aligned_step (v : Value) :
  Forall (fun kv => entry_ok aligned_on subquery_aligned (snd kv)) (own_props v) ->
  aligned_on v.
Proof.
  intros Hok params context text params' H.
  rewrite parseMongoQuery_for_in in H. rewrite annotate_for_in.
  destruct (forEachM _ (own_props v) ([], params)) as [[conds p1] | e] eqn:Hloop;
    cbn [bind] in H; [| discriminate].
  injection H as <- <-.
  assert (Hentries :
    Forall (fun kv : string * Value =>
              forall c p,
                adds (parseEntry [] (parseMongoQuery []) context (fst kv) (snd kv) (c, p))
                  c p (annotate_entry annotate (fst kv) (snd kv)))
      (own_props v)).
  { eapply Forall_impl; [| exact Hok]. intros kv Hkv c p. now apply parseEntry_adds. }
  destruct (forEachM_adds _ _ Hentries _ _ Hloop) as [-> ->].
  set (fs := flat_map _ (own_props v)). clearbody fs.
  unfold push_all. cbn [app].
  destruct fs as [|f fs]; [split; reflexivity |].
  unfold whereClause_of, annotate_where. cbn [map].
  rewrite erase_join, holes_join. split; reflexivity.
Qed.

(** Where the caches are fresh everywhere, the translation is aligned
    everywhere. *)
Lemma aligned_everywhere (v : Value) :
  everywhere fresh_cache v -> aligned_on v.
Proof.
  intros H.
  assert (Hgood : everywhere (both fresh_cache aligned_on) v).
  { apply (@hereditary fresh_cache aligned_on subquery_aligned).
    - intros sq. apply subquery_aligned_of.
    - intros v' _. apply aligned_step.
    - exact H. }
  apply (everywhere_here Hgood).
Qed.

(** *** The literal text of the annotated clause *)

Lemma clean_app (f g : fragment) :
  clean_fragment f -> clean_fragment g -> clean_fragment (f ++ g)%list.
Proof. unfold clean_fragment. intros. now apply Forall_app. Qed.

Lemma clean_join (sep : string) (fs : list fragment) :
  count_placeholders sep = 0 -> Forall clean_fragment fs ->
  clean_fragment (join_fragments sep fs).
Proof.
  intros Hsep H. induction H as [|f fs Hf Hfs IH]; [constructor |].
  destruct fs as [|g fs]; [exact Hf |].
  change (join_fragments sep (f :: g :: fs))
    with (f ++ Lit sep :: join_fragments sep (g :: fs))%list.
  apply clean_app; [exact Hf |]. constructor; [exact Hsep | exact IH].
Qed.

Lemma clean_parenthesized (f : fragment) :
  clean_fragment f -> clean_fragment (parenthesized f).
Proof.
  intros H. unfold parenthesized. constructor; [reflexivity |].
  apply clean_app; [exact H |]. constructor; [reflexivity | constructor].
Qed.

Lemma clean_lit (s : string) : count_placeholders s = 0 -> clean_fragment [Lit s].
Proof. intros H. constructor; [exact H | constructor]. Qed.

Lemma clean_lit_hole (s : string) (p : param) :
  count_placeholders s = 0 -> clean_fragment [Lit s; Hole p].
Proof. intros H. constructor; [exact H |]. constructor; [exact I | constructor]. Qed.

Lemma count_digits (d : Decimal.uint) :
  count_placeholders (NilEmpty.string_of_uint d) = 0.
Proof. induction d; simpl; auto. Qed.

Lemma count_index (i : nat) : count_placeholders (nat_to_string i) = 0.
Proof.
  unfold nat_to_string, NilZero.string_of_uint.
  destruct (Nat.to_uint i) eqn:H; try reflexivity; rewrite <- H at 1;
    rewrite H; apply count_digits.
Qed.

Lemma table_lookup_clean (operator sqlOperator : string) :
  table_lookup operator OPERATORS_MYSQL = Some sqlOperator ->
  count_placeholders sqlOperator = 0.
Proof.
  unfold OPERATORS_MYSQL. cbn [table_lookup].
  repeat match goal with
         | |- (if ?b then _ else _) = _ -> _ =>
             destruct b; [intros H; injection H as <-; reflexivity |]
         end.
  discriminate.
Qed.

Ltac clean_tac :=
  repeat first
    [ progress (rewrite ?count_placeholders_app)
    | match goal with
      | H : count_placeholders ?k = 0 |- context [count_placeholders ?k] => rewrite H
      end ];
  cbn [count_placeholders Ascii.eqb Bool.eqb Nat.add]; try reflexivity.

Lemma Forall_map_clean (A : Type) (g : A -> fragment) (l : list A) :
  (forall x, In x l -> clean_fragment (g x)) -> Forall clean_fragment (map g l).
Proof.
  intros H. induction l as [|x l IH]; [constructor |].
  cbn [map]. constructor; [apply H; now left | apply IH].
  intros y Hy. apply H. now right.
Qed.

Lemma Forall_filter (A : Type) (P : A -> Prop) (p : A -> bool) (l : list A) :
  Forall P l -> Forall P (List.filter p l).
Proof.
  induction 1 as [|x l Hx _ IH]; [constructor |].
  cbn [List.filter]. destruct (p x); [constructor |]; assumption.
Qed.

Lemma Forall_flat_map (A B : Type) (P : B -> Prop) (g : A -> list B) (l : list A) :
  Forall (fun x => Forall P (g x)) l -> Forall P (flat_map g l).
Proof.
  induction 1 as [|x l Hx _ IH]; [constructor |].
  cbn [flat_map]. now apply Forall_app.
Qed.

Lemma subquery_clean_of (sq : SubQuery) :
  clean_names (VSubQuery sq) -> clean_fragment (annotate (filter (queryBuilder sq))) ->
  subquery_clean sq.
Proof.
  intros [Hhead Htail] Hw. unfold subquery_clean, annotate_subquery, annotate_builder.
  constructor; [reflexivity |]. apply clean_app; [| now apply clean_lit].
  constructor; [exact Hhead |]. apply clean_app; [| now apply clean_lit].
  destruct (nonEmpty _); [| constructor].
  constructor; [reflexivity | exact Hw].
Qed.

Lemma annotate_array_element_clean (v : Value) :
  element_ok subquery_clean v -> clean_fragment (annotate_array_element annotate v).
Proof.
  destruct v; cbn [element_ok annotate_array_element]; intros H;
    try (constructor; [exact I | constructor]).
  exact H.
Qed.

Lemma annotate_array_clean (field : string) (values : Value) (operator : string) :
  count_placeholders field = 0 ->
  operand_ok subquery_clean values ->
  Forall clean_fragment (annotate_array annotate field values operator).
Proof.
  intros Hf Hok. unfold annotate_array.
  destruct values as [| | b | n | s | [|v vs] | props | sq].
  1-6,8-9: destruct (operator =? "$in"); [repeat constructor |];
           destruct (operator =? "$nin"); repeat constructor.
  set (l := v :: vs) in *. clearbody l. cbn [operand_ok] in Hok.
  assert (Hlist : forall (s : string) (g : Value -> fragment),
             count_placeholders s = 0 ->
             (forall x, In x l -> clean_fragment (g x)) ->
             Forall clean_fragment
               [(Lit s :: join_fragments ", " (map g l) ++ [Lit ")"])%list]).
  { intros s g Hs Hg. apply Forall_cons; [| apply Forall_nil].
    apply Forall_cons; [exact Hs |].
    apply clean_app; [| now apply clean_lit].
    apply clean_join; [reflexivity |]. now apply Forall_map_clean. }
  destruct (existsb isSubQuery l);
    [| destruct (operator =? "$in");
       [| destruct (operator =? "$nin"); [| destruct (operator =? "$all")]]].
  - apply Hlist; [clean_tac |].
    intros x Hx. apply annotate_array_element_clean.
    rewrite Forall_forall in Hok. now apply Hok.
  - apply Hlist; [clean_tac |].
    intros x _. apply Forall_cons; [exact I | apply Forall_nil].
  - apply Hlist; [clean_tac |].
    intros x _. apply Forall_cons; [exact I | apply Forall_nil].
  - apply Forall_cons; [| apply Forall_nil].
    apply Forall_cons; [reflexivity |].
    apply clean_app; [| now apply clean_lit].
    apply clean_join; [reflexivity |]. apply Forall_map_clean.
    intros x _. apply Forall_cons; [cbn beta iota; clean_tac |].
    apply Forall_cons; [exact I |]. now apply clean_lit.
  - apply Forall_nil.
Qed.

Lemma in_subquery_clean (key : string) (sq : SubQuery) :
  count_placeholders key = 0 -> subquery_clean sq ->
  Forall clean_fragment [Lit (key ++ " IN ") :: annotate_subquery annotate sq].
Proof.
  intros Hk Hsq. constructor; [| constructor].
  constructor; [clean_tac | exact Hsq].
Qed.

Lemma annotate_operator_clean (field : string) (opValue : Value) (operator : string) :
  count_placeholders field = 0 ->
  operand_ok subquery_clean opValue ->
  Forall clean_fragment (annotate_operator annotate field opValue operator).
Proof.
  intros Hf Hok. unfold annotate_operator.
  destruct opValue as [| | b | n | s | vs | props | sq];
    try (destruct (operator =? "$exists");
         [constructor; [| constructor]; apply clean_lit;
          destruct (truthy _); clean_tac |];
         destruct (operator =? "$size");
         [constructor; [| constructor]; apply clean_lit_hole; clean_tac |];
         destruct (operator =? "$elemMatch");
         [constructor; [| constructor];
          constructor; [clean_tac |]; constructor; [exact I |]; now apply clean_lit |];
         destruct (operator =? "$regex");
         [constructor; [| constructor]; apply clean_lit_hole; clean_tac |];
         destruct (operator =? "$like");
         [constructor; [| constructor]; apply clean_lit_hole; clean_tac |];
         destruct (table_lookup operator OPERATORS_MYSQL) as [o |] eqn:Ho;
         [| constructor];
         constructor; [| constructor]; apply clean_lit_hole;
         pose proof (table_lookup_clean _ Ho); clean_tac).
  now apply in_subquery_clean.
Qed.

Lemma annotate_field_operator_clean (key op : string) (opValue : Value) :
  count_placeholders key = 0 ->
  (startsWith op "$" = true -> operand_ok subquery_clean opValue) ->
  Forall clean_fragment (annotate_field_operator annotate key op opValue).
Proof.
  intros Hk Hok. unfold annotate_field_operator.
  destruct (startsWith op "$");
    [| constructor; [| constructor]; apply clean_lit_hole; clean_tac].
  specialize (Hok eq_refl).
  assert (Hrest :
    Forall clean_fragment
      (if existsb (String.eqb op) ["$in"; "$nin"; "$all"]
       then annotate_array annotate key opValue op
       else annotate_operator annotate key opValue op)).
  { destruct (existsb _ _);
      [now apply annotate_array_clean | now apply annotate_operator_clean]. }
  destruct (op =? "$in"); [| destruct opValue; exact Hrest].
  destruct opValue; try exact Hrest.
  now apply in_subquery_clean.
Qed.

Lemma annotate_children_clean (value : Value) :
  entry_ok (fun v => clean_fragment (annotate v)) subquery_clean value ->
  Forall clean_fragment (annotate_children annotate value).
Proof.
  destruct value; cbn [annotate_children entry_ok]; intros H; try constructor.
  apply Forall_map_clean. rewrite Forall_forall in H. exact H.
Qed.

Lemma annotate_entry_clean (key : string) (value : Value) :
  count_placeholders key = 0 ->
  entry_ok (fun v => clean_fragment (annotate v)) subquery_clean value ->
  Forall clean_fragment (annotate_entry annotate key value).
Proof.
  intros Hk Hok. unfold annotate_entry.
  pose proof (annotate_children_clean _ Hok) as Hch.
  destruct (startsWith key "$").
  - destruct (key =? "$or"); [| destruct (key =? "$nor"); [| destruct (key =? "$and")]].
    + pose proof (Forall_filter kept Hch) as Hk'.
      destruct (List.filter kept _) as [|f fs]; [repeat constructor |].
      constructor; [| constructor]. apply clean_parenthesized.
      now apply clean_join.
    + pose proof (Forall_filter kept Hch) as Hk'.
      destruct (List.filter kept _) as [|f fs]; [repeat constructor |].
      constructor; [| constructor]. constructor; [reflexivity |].
      apply clean_app; [| now apply clean_lit]. now apply clean_join.
    + pose proof (Forall_filter (fun f => nonEmpty (erase f)) Hch) as Hk'.
      destruct (List.filter _ _) as [|f fs]; [constructor |].
      constructor; [| constructor]. now apply clean_join.
    + destruct value as [| | b | n | s | [|c cs] | props | sq].
      1-6,8-9: repeat constructor.
      apply Forall_cons; [| apply Forall_nil].
      apply clean_parenthesized. apply clean_join.
      * destruct (table_lookup key OPERATORS_MYSQL) as [o |] eqn:Ho;
          [pose proof (table_lookup_clean _ Ho) |]; clean_tac.
      * apply Forall_map_clean. intros f Hf. apply clean_parenthesized.
        rewrite Forall_forall in Hch. now apply Hch.
  - destruct value as [| | b | n | s | vs | ops | sq].
    1-6: apply Forall_cons; [| apply Forall_nil]; apply clean_lit_hole; clean_tac.
    + cbn [entry_ok] in Hok.
      assert (Hfc : Forall clean_fragment
                      (flat_map (fun kv => annotate_field_operator annotate key
                                             (fst kv) (snd kv)) ops)).
      { apply Forall_flat_map. eapply Forall_impl; [| exact Hok].
        intros kv Hkv. now apply annotate_field_operator_clean. }
      destruct (flat_map _ ops) as [|f1 [|f2 fcs]]; [constructor | exact Hfc |].
      constructor; [| constructor]. apply clean_parenthesized.
      now apply clean_join.
    + now apply in_subquery_clean.
Qed.

Lemma indexed_keys_clean (l : list Value) (i : nat) :
  Forall (fun kv => count_placeholders (fst kv) = 0) (indexed l i).
Proof.
  revert i. induction l as [|x l IH]; intros i; cbn [indexed]; constructor;
    [apply count_index | apply IH].
Qed.

Lemma own_props_keys_clean (v : Value) :
  clean_names v -> Forall (fun kv => count_placeholders (fst kv) = 0) (own_props v).
Proof.
  destruct v as [| | b | n | s | elems | props | sq]; cbn [own_props clean_names];
    intros H; try apply indexed_keys_clean; try exact H; try constructor.
  - reflexivity.
  - constructor; [reflexivity | constructor].
Qed.

Lemma clean_step (v : Value) :
  clean_names v ->
  Forall (fun kv => entry_ok (fun v => clean_fragment (annotate v)) subquery_clean (snd kv))
    (own_props v) ->
  clean_fragment (annotate v).
Proof.
  intros Hnames Hok. rewrite annotate_for_in.
  assert (Hfs : Forall clean_fragment
                  (flat_map (fun kv => annotate_entry annotate (fst kv) (snd kv))
                     (own_props v))).
  { apply Forall_flat_map.
    pose proof (own_props_keys_clean _ Hnames) as Hkeys.
    induction Hok as [|kv l Hkv _ IH]; [constructor |].
    inversion Hkeys; subst. constructor; [now apply annotate_entry_clean | now apply IH]. }
  unfold annotate_where.
  destruct (flat_map _ (own_props v)) as [|f fs]; [now apply clean_lit |].
  now apply clean_join.
Qed.

Lemma clean_everywhere (v : Value) :
  everywhere clean_names v -> clean_fragment (annotate v).
Proof.
  intros H.
  assert (Hgood : everywhere
                    (both clean_names (fun v => clean_fragment (annotate v))) v).
  { apply (@hereditary clean_names (fun v => clean_fragment (annotate v)) subquery_clean).
    - intros sq. apply subquery_clean_of.
    - intros v'. apply clean_step.
    - exact H. }
  apply (everywhere_here Hgood).
Qed.

(** C1, as stated, fails in two ways.  A key is copied into the clause
    as it is, so the filter [{"a?": 1}] gives the text [a? = ?], with two
    [?] and one parameter.  And a [SubQuery] whose builder was given one
    more filter after its text was cached contributes the cached text,
    with one placeholder, and two parameters. *)
Lemma placeholder_count_can_differ :
  let b := mkMongoQueryBuilder "orders"
             (VObj [("$and", VArr [VObj [("amount", VObj [("$gt", VNum 100)])];
                                   VObj [("status", VStr "paid")]])])
             (Some ["user_id"]) [] EmptyString None None in
  let stale := mkSubQuery b (Some "(SELECT user_id FROM orders WHERE amount > ?)") in
  parseMongoQuery [] (VObj [("a?", VNum 1)]) [] "root"
    = Ok ("a? = ?", [PVal (VNum 1)])
  /\ count_placeholders "a? = ?" <> length [PVal (VNum 1)]
  /\ parseMongoQuery [] (VObj [("id", VSubQuery stale)]) [] "root"
    = Ok ("id IN (SELECT user_id FROM orders WHERE amount > ?)",
          [PVal (VNum 100); PVal (VStr "paid")])
  /\ count_placeholders "id IN (SELECT user_id FROM orders WHERE amount > ?)"
     <> length [PVal (VNum 100); PVal (VStr "paid")].
Proof.
  cbv zeta. split; [reflexivity |]. split; [discriminate |].
  split; [reflexivity | discriminate].
Qed.

(** C1, amended.  Take a filter in which the cache slot of every
    [SubQuery] is empty or holds the text its builder compiles to as it
    stands, and translate it without plugins.  When the translation
    returns, its text is the clause [annotate query] with every hole
    printed as [?], and the parameters it has appended to [params] are
    the parameters of the holes, from left to right: each parameter
    stands in the list where its placeholder stands in the text.  If
    moreover no object key of the filter and no text that a wrapped
    builder puts around its WHERE clause holds a [?], the number of [?]
    in the text is the number of parameters appended. *)
Theorem placeholders_match_params (query : Value) (params : list param)
  (context text : string) (params' : list param) :
  everywhere fresh_cache query ->
  parseMongoQuery [] query params context = Ok (text, params') ->
  text = erase (annotate query)
  /\ params' = push_all params (holes (annotate query))
  /\ (everywhere clean_names query ->
      count_placeholders text = length (holes (annotate query))).
Proof.
  intros Hfresh H.
  destruct (aligned_everywhere Hfresh _ _ H) as [-> ->].
  split; [reflexivity | split; [reflexivity |]].
  intros Hclean. apply clean_fragment_count. now apply clean_everywhere.
Qed.

Lemma placeholders_match_params_witness :
  let sub := mkMongoQueryBuilder "orders" (VObj [("amount", VObj [("$gt", VNum 100)])])
               (Some ["user_id"]) [] EmptyString (Some 50%Z) None in
  let query :=
    VObj [ ("age", VObj [("$gte", VNum 18); ("$lt", VNum 65)]);
           ("$or", VArr [ VObj [("role", VObj [("$in", VArr [VStr "admin"; VStr "staff"])])];
                          VObj [];
                          VObj [("id", VSubQuery (new_SubQuery sub))] ]) ] in
  let text :=
    "(age >= ? AND age < ?) AND (role IN (?, ?) OR "
    ++ "id IN (SELECT user_id FROM orders WHERE amount > ? LIMIT 50))" in
  let added := [ PVal (VNum 18); PVal (VNum 65); PVal (VStr "admin"); PVal (VStr "staff");
                 PVal (VNum 100) ] in
  everywhere fresh_cache query
  /\ everywhere clean_names query
  /\ parseMongoQuery [] query [PVal (VNum 7)] "root" = Ok (text, PVal (VNum 7) :: added)
  /\ text = erase (annotate query)
  /\ PVal (VNum 7) :: added = push_all [PVal (VNum 7)] (holes (annotate query))
  /\ count_placeholders text = length (holes (annotate query)).
Proof.
  cbv zeta.
  set (sub := mkMongoQueryBuilder "orders" (VObj [("amount", VObj [("$gt", VNum 100)])])
                (Some ["user_id"]) [] EmptyString (Some 50%Z) None).
  set (query :=
    VObj [ ("age", VObj [("$gte", VNum 18); ("$lt", VNum 65)]);
           ("$or", VArr [ VObj [("role", VObj [("$in", VArr [VStr "admin"; VStr "staff"])])];
                          VObj [];
                          VObj [("id", VSubQuery (new_SubQuery sub))] ]) ]).
  assert (Hall : forall Q : Value -> Prop,
             (forall v, is_scalar v = true -> Q v) ->
             (forall l, Q (VArr l)) ->
             (forall l, Forall (fun kv => count_placeholders (fst kv) = 0) l -> Q (VObj l)) ->
             Q (VSubQuery (new_SubQuery sub)) ->
             everywhere Q query).
  { intros Q Hs Ha Ho Hq.
    assert (Sc : forall v, is_scalar v = true -> everywhere Q v)
      by (intros v Hv; apply everywhere_scalar; [exact Hv | now apply Hs]).
    repeat first
      [ apply Sc; reflexivity
      | apply everywhere_obj; [apply Ho; repeat constructor |]
      | apply everywhere_arr; [apply Ha |]
      | apply everywhere_sub; [exact Hq |]
      | apply Forall_nil
      | apply Forall_cons ]. }
  assert (Hfresh : everywhere fresh_cache query).
  { apply Hall.
    - intros v Hv. destruct v; try discriminate Hv; exact I.
    - intros l. exact I.
    - intros l _. exact I.
    - left. reflexivity. }
  assert (Hclean : everywhere clean_names query).
  { apply Hall.
    - intros v Hv. destruct v; try discriminate Hv; exact I.
    - intros l. exact I.
    - intros l Hl. exact Hl.
    - split; reflexivity. }
  assert (Hrun : parseMongoQuery [] query [PVal (VNum 7)] "root"
                 = Ok ("(age >= ? AND age < ?) AND (role IN (?, ?) OR "
                       ++ "id IN (SELECT user_id FROM orders WHERE amount > ? LIMIT 50))",
                       [ PVal (VNum 7); PVal (VNum 18); PVal (VNum 65);
                         PVal (VStr "admin"); PVal (VStr "staff"); PVal (VNum 100) ]))
    by reflexivity.
  split; [exact Hfresh | split; [exact Hclean | split; [exact Hrun |]]].
  destruct (@placeholders_match_params query [PVal (VNum 7)] "root" _ _ Hfresh Hrun)
    as (H1 & H2 & H3).
  split; [exact H1 | split; [exact H2 | exact (H3 Hclean)]].
Defined.

(* ================================================================== *)
(** * Further properties

    Properties of the code read off the source: of the translator as a
    whole, of the functions [mongoToMySQL] and
    [mongoToMySQLWithJoinsOptimized], and of the update, delete, insert
    and aggregation builders. *)

(* ------------------------------------------------------------------ *)
(** ** The context label and the parameters bound so far *)

Lemma same_bind (A B : Type) (p0 : list param) (same : Prop)
  (r1 r2 : result (A * list param))
  (k1 k2 : A * list param -> result (B * list param)) :
  same_outcome p0 same r1 r2 ->
  (forall a q, same_outcome p0 same (k1 (a, (p0 ++ q)%list)) (k2 (a, q))) ->
  same_outcome p0 same (bind r1 k1) (bind r2 k2).
Proof.
  intros H Hk.
  destruct r1 as [[a1 q1] | e1], r2 as [[a2 q2] | e2]; cbn [same_outcome bind] in *;
    try contradiction; [| exact H].
  destruct H as [-> ->]. apply Hk.
Qed.

Lemma same_tryCatch (A : Type) (p0 : list param) (same : Prop)
  (r1 r2 : result (A * list param)) (h1 h2 : JsError -> JsError) :
  (same -> forall e, h1 e = h2 e) ->
  same_outcome p0 same r1 r2 ->
  same_outcome p0 same
    (tryCatch r1 (fun e => Throw (h1 e))) (tryCatch r2 (fun e => Throw (h2 e))).
Proof.
  intros Hh.
  destruct r1 as [[a1 q1] | e1], r2 as [[a2 q2] | e2]; cbn [same_outcome tryCatch];
    auto.
  intros H Hs. rewrite (H Hs). now apply Hh.
Qed.

Lemma same_refl_bind (B C : Type) (p0 : list param) (same : Prop) (r : result C)
  (k1 k2 : C -> result (B * list param)) :
  (forall c, same_outcome p0 same (k1 c) (k2 c)) ->
  same_outcome p0 same (bind r k1) (bind r k2).
Proof. intros H. destruct r as [c | e]; cbn [bind]; [apply H | now intros _]. Qed.

Ltac same_leaf :=
  cbn [same_outcome]; unfold push, push_all, handleError;
  repeat match goal with
         | |- context [if ?b then _ else _] => destruct b
         end;
  cbn [same_outcome];
  first [ split; [reflexivity | rewrite <- ?app_assoc; reflexivity]
        | let H := fresh "H" in intros H; try rewrite H; reflexivity ].

Lemma map_parse_same (p0 : list param) (same : Prop) (value : Value)
  (label1 label2 : nat -> string) (wrap : string -> string) (p : list param) :
  (same -> forall i, label1 i = label2 i) ->
  entry_ok (insensitive p0) (fun _ => True) value ->
  same_outcome p0 same
    (map_parse (parseMongoQuery []) value label1 wrap (p0 ++ p)%list)
    (map_parse (parseMongoQuery []) value label2 wrap p).
Proof.
  intros Hlab Hok. destruct value as [| | b | n | s | children | props | sq];
    cbn [map_parse]; try (now intros _).
  cbn [entry_ok] in Hok. generalize 0 as i. revert p.
  induction Hok as [|child children Hc _ IH]; intros p i; cbn [mapM_idx].
  - cbn [same_outcome]. split; reflexivity.
  - specialize (Hc p (label1 i) (label2 i)).
    destruct (parseMongoQuery [] child (p0 ++ p)%list (label1 i)) as [[t1 q1] | e1],
             (parseMongoQuery [] child p (label2 i)) as [[t2 q2] | e2];
      cbn [same_outcome bind] in *; try contradiction;
      [| intros Hs; apply Hc; now apply Hlab].
    destruct Hc as [-> ->]. specialize (IH q2 (S i)).
    destruct (mapM_idx _ children (S i) (p0 ++ q2)%list) as [[ts1 r1] | e1],
             (mapM_idx _ children (S i) q2) as [[ts2 r2] | e2];
      cbn [same_outcome] in *; try contradiction; [| exact IH].
    destruct IH as [-> ->]. split; reflexivity.
Qed.

Lemma array_elements_same (p0 : list param) (same : Prop) (vs : list Value) (i : nat)
  (p : list param) :
  same_outcome p0 same
    (mapM_idx (fun v (_ : nat) params => array_element (parseMongoQuery []) v params)
       vs i (p0 ++ p)%list)
    (mapM_idx (fun v (_ : nat) params => array_element (parseMongoQuery []) v params)
       vs i p).
Proof.
  revert i p. induction vs as [|v vs IH]; intros i p; cbn [mapM_idx].
  - cbn [same_outcome]. split; reflexivity.
  - assert (Hv : same_outcome p0 same
                   (array_element (parseMongoQuery []) v (p0 ++ p)%list)
                   (array_element (parseMongoQuery []) v p)).
    { unfold array_element. destruct v; try same_leaf.
      apply same_refl_bind. intros ps. apply same_refl_bind. intros [text sq'].
      same_leaf. }
    destruct (array_element (parseMongoQuery []) v (p0 ++ p)%list) as [[t1 q1] | e1],
             (array_element (parseMongoQuery []) v p) as [[t2 q2] | e2];
      cbn [same_outcome] in *; try contradiction; [| exact Hv].
    destruct Hv as [-> ->]. specialize (IH (S i) q2).
    destruct (mapM_idx _ vs (S i) (p0 ++ q2)%list) as [[ts1 r1] | e1],
             (mapM_idx _ vs (S i) q2) as [[ts2 r2] | e2];
      cbn [same_outcome] in *; try contradiction; [| exact IH].
    destruct IH as [-> ->]. split; reflexivity.
Qed.

Lemma handleArrayOperators_same (p0 : list param) (same : Prop) (field : string)
  (values : Value) (operator : string) (conditions : list string) (p : list param)
  (c1 c2 : string) :
  same_outcome p0 same
    (handleArrayOperators (parseMongoQuery []) field values operator conditions
       (p0 ++ p)%list c1)
    (handleArrayOperators (parseMongoQuery []) field values operator conditions p c2).
Proof.
  unfold handleArrayOperators.
  destruct values as [| | b | n | s | [|v vs] | props | sq]; try same_leaf.
  destruct (existsb isSubQuery (v :: vs)).
  - apply same_bind; [apply array_elements_same |].
    intros a q. same_leaf.
  - same_leaf.
Qed.

Lemma embed_same (p0 : list param) (same : Prop) (sq : SubQuery)
  (conditions : list string) (text : string -> string) (p : list param) :
  same_outcome p0 same
    ('(subSql, _) <- SubQuery_toSQL_with (parseMongoQuery []) sq ;;
     ps <- SubQuery_getParams_with (parseMongoQuery []) sq ;;
     Ok (push conditions (text subSql), push_all (p0 ++ p)%list ps))
    ('(subSql, _) <- SubQuery_toSQL_with (parseMongoQuery []) sq ;;
     ps <- SubQuery_getParams_with (parseMongoQuery []) sq ;;
     Ok (push conditions (text subSql), push_all p ps)).
Proof.
  apply same_refl_bind. intros [subSql sq']. apply same_refl_bind. intros ps.
  same_leaf.
Qed.

Lemma handleOperator_same (p0 : list param) (field : string) (opValue : Value)
  (operator : string) (conditions : list string) (p : list param) (c1 c2 : string) :
  same_outcome p0 (c1 = c2)
    (handleOperator [] (parseMongoQuery []) field opValue operator conditions
       (p0 ++ p)%list c1)
    (handleOperator [] (parseMongoQuery []) field opValue operator conditions p c2).
Proof.
  unfold handleOperator. cbn [find].
  destruct opValue as [| | b | n | s | vs | props | sq];
    try (apply (@embed_same p0 (c1 = c2) sq conditions
                  (fun subSql => field ++ " IN " ++ subSql)));
    destruct (table_lookup operator OPERATORS_MYSQL); same_leaf.
Qed.

Lemma parseFieldOperator_same (p0 : list param) (c1 c2 key op : string) (opValue : Value)
  (fieldConds : list string) (p : list param) :
  same_outcome p0 (c1 = c2)
    (parseFieldOperator [] (parseMongoQuery []) c1 key op opValue
       (fieldConds, (p0 ++ p)%list))
    (parseFieldOperator [] (parseMongoQuery []) c2 key op opValue (fieldConds, p)).
Proof.
  unfold parseFieldOperator.
  destruct (startsWith op "$"); [| same_leaf].
  destruct (op =? "$in") eqn:Hin, opValue as [| | b | n | s | vs | props | sq];
    try (apply (@embed_same p0 (c1 = c2) sq fieldConds
                  (fun subResult => key ++ " IN " ++ subResult)));
    destruct (existsb (String.eqb op) ["$in"; "$nin"; "$all"]);
    first [apply handleArrayOperators_same | apply handleOperator_same].
Qed.

Lemma forEachM_same (A B : Type) (p0 : list param) (same : Prop)
  (f1 f2 : A -> B * list param -> result (B * list param)) (l : list A) :
  Forall (fun x => forall b q,
              same_outcome p0 same (f1 x (b, (p0 ++ q)%list)) (f2 x (b, q))) l ->
  forall b q,
    same_outcome p0 same (forEachM f1 l (b, (p0 ++ q)%list)) (forEachM f2 l (b, q)).
Proof.
  induction 1 as [|x l Hx _ IH]; intros b q; cbn [forEachM].
  - cbn [same_outcome]. split; reflexivity.
  - specialize (Hx b q).
    destruct (f1 x (b, (p0 ++ q)%list)) as [[b1 q1] | e1], (f2 x (b, q)) as [[b2 q2] | e2];
      cbn [same_outcome] in *; try contradiction; [| exact Hx].
    destruct Hx as [-> ->]. apply IH.
Qed.

Lemma parseEntry_same (p0 : list param) (c1 c2 key : string) (value : Value)
  (conditions : list string) (p : list param) :
  entry_ok (insensitive p0) (fun _ => True) value ->
  same_outcome p0 (c1 = c2)
    (parseEntry [] (parseMongoQuery []) c1 key value (conditions, (p0 ++ p)%list))
    (parseEntry [] (parseMongoQuery []) c2 key value (conditions, p)).
Proof.
  intros Hok. unfold parseEntry.
  apply (@same_tryCatch _ p0 (c1 = c2) _ _
           (fun e => QueryParseError (message e) (Some c1))
           (fun e => QueryParseError (message e) (Some c2)));
    [now intros -> |].
  assert (Hlab : forall tag : string,
             c1 = c2 ->
             forall i, c1 ++ tag ++ nat_to_string i ++ "]"
                       = c2 ++ tag ++ nat_to_string i ++ "]")
    by now intros tag ->.
  destruct (startsWith key "$").
  - destruct (key =? "$or");
      [apply same_bind;
       [apply map_parse_same; [apply (Hlab "->OR[") | exact Hok] | intros a q; same_leaf] |].
    destruct (key =? "$nor");
      [apply same_bind;
       [apply map_parse_same; [apply (Hlab "->NOR[") | exact Hok] | intros a q; same_leaf] |].
    destruct (key =? "$and");
      [apply same_bind;
       [apply map_parse_same; [apply (Hlab "->AND[") | exact Hok] | intros a q; same_leaf] |].
    unfold handleLogicalOperators.
    destruct value as [| | b | n | s | [|v vs] | props | sq]; try same_leaf.
    apply same_bind; [| intros a q; same_leaf].
    apply map_parse_same; [| exact Hok]. now intros ->.
  - destruct value as [| | b | n | s | vs | props | sq]; try same_leaf.
    + apply same_bind.
      * apply (@forEachM_same _ _ p0 (c1 = c2)
                 (fun kv => parseFieldOperator [] (parseMongoQuery []) c1 key (fst kv) (snd kv))
                 (fun kv => parseFieldOperator [] (parseMongoQuery []) c2 key (fst kv) (snd kv))).
        apply Forall_forall. intros kv _ b q. apply parseFieldOperator_same.
      * intros [|c [|c' cs]] q; same_leaf.
    + apply (@embed_same p0 (c1 = c2) sq conditions
               (fun subResult => key ++ " IN " ++ subResult)).
Qed.

Lemma insensitive_step (p0 : list param) (v : Value) :
  Forall (fun kv => entry_ok (insensitive p0) (fun _ => True) (snd kv)) (own_props v) ->
  insensitive p0 v.
Proof.
  intros Hok p c1 c2. rewrite !parseMongoQuery_for_in.
  apply same_bind.
  - apply (@forEachM_same _ _ p0 (c1 = c2)
             (fun kv => parseEntry [] (parseMongoQuery []) c1 (fst kv) (snd kv))
             (fun kv => parseEntry [] (parseMongoQuery []) c2 (fst kv) (snd kv))).
    eapply Forall_impl; [| exact Hok]. intros kv Hkv b q. now apply parseEntry_same.
  - intros a q. same_leaf.
Qed.

Lemma insensitive_everywhere (p0 : list param) (v : Value) : insensitive p0 v.
Proof.
  assert (H : everywhere (both (fun _ => True) (insensitive p0)) v).
  { apply (@hereditary (fun _ => True) (insensitive p0) (fun _ => True)).
    - intros sq _ _. exact I.
    - intros v' _. apply insensitive_step.
    - apply everywhere_True. }
  apply (everywhere_here H).
Qed.

Lemma translation_any_context (query : Value) (params : list param) (c1 c2 : string)
  (r : string * list param) :
  parseMongoQuery [] query params c1 = Ok r -> parseMongoQuery [] query params c2 = Ok r.
Proof.
  pose proof (@insensitive_everywhere [] query params c1 c2) as H.
  cbn [app] in H. intros Hr. rewrite Hr in H. destruct r as [t q].
  destruct (parseMongoQuery [] query params c2) as [[t2 q2] | e2];
    cbn [same_outcome] in H; [| contradiction].
  now destruct H as [-> ->].
Qed.

Lemma translation_frame (query : Value) (p0 p : list param) (context : string) :
  parseMongoQuery [] query (p0 ++ p)%list context
  = match parseMongoQuery [] query p context with
    | Ok (text, q) => Ok (text, (p0 ++ q)%list)
    | Throw e => Throw e
    end.
Proof.
  pose proof (@insensitive_everywhere p0 query p context context) as H.
  destruct (parseMongoQuery [] query (p0 ++ p)%list context) as [[t1 q1] | e1],
           (parseMongoQuery [] query p context) as [[t2 q2] | e2];
    cbn [same_outcome] in H; try contradiction.
  - now destruct H as [-> ->].
  - now rewrite (H eq_refl).
Qed.

(** X1.  Without plugins the context label of a translation only names
    the place of an error: if the translation returns under one label it
    returns the same clause and the same parameters under any other, and
    if it throws under one label it throws under any other. *)
Theorem context_label_only_names_errors (query : Value) (params : list param)
  (c1 c2 : string) :
  (forall r, parseMongoQuery [] query params c1 = Ok r ->
             parseMongoQuery [] query params c2 = Ok r)
  /\ (forall e, parseMongoQuery [] query params c1 = Throw e ->
                exists e', parseMongoQuery [] query params c2 = Throw e').
Proof.
  pose proof (@insensitive_everywhere [] query params c1 c2) as H.
  cbn [app] in H.
  destruct (parseMongoQuery [] query params c1) as [[t1 q1] | e1],
           (parseMongoQuery [] query params c2) as [[t2 q2] | e2];
    cbn [same_outcome] in H; try contradiction.
  - destruct H as [-> ->]. split; [intros r Hr; exact Hr | intros e He; discriminate He].
  - split; [intros r Hr; discriminate Hr | intros e _; now exists e2].
Qed.

(** X2.  Without plugins the translator reads nothing of the parameters
    that are already bound when it starts: translating with [p0] in
    front of [p] gives the clause that translating with [p] alone gives,
    and the same parameters with [p0] in front; an error is the same
    error. *)
Theorem params_bound_so_far_are_kept (query : Value) (p0 p : list param)
  (context : string) :
  parseMongoQuery [] query (p0 ++ p)%list context
  = match parseMongoQuery [] query p context with
    | Ok (text, q) => Ok (text, (p0 ++ q)%list)
    | Throw e => Throw e
    end.
Proof.
  pose proof (@insensitive_everywhere p0 query p context context) as H.
  destruct (parseMongoQuery [] query (p0 ++ p)%list context) as [[t1 q1] | e1],
           (parseMongoQuery [] query p context) as [[t2 q2] | e2];
    cbn [same_outcome] in H; try contradiction.
  - now destruct H as [-> ->].
  - now rewrite (H eq_refl).
Qed.

(* ------------------------------------------------------------------ *)
(** ** The clause is never the empty string *)

Lemma nonEmpty_app_r (s t : string) : nonEmpty t = true -> nonEmpty (s ++ t) = true.
Proof.
  destruct t as [|c t]; [discriminate |]. intros _.
  destruct s as [|d s]; reflexivity.
Qed.

Lemma nonEmpty_app_l (s t : string) : nonEmpty s = true -> nonEmpty (s ++ t) = true.
Proof. destruct s as [|c s]; [discriminate | reflexivity]. Qed.

Lemma nonEmpty_join (sep c : string) (cs : list string) :
  nonEmpty c = true -> nonEmpty (join sep (c :: cs)) = true.
Proof.
  intros Hc. destruct cs as [|c' cs]; [exact Hc |].
  change (join sep (c :: c' :: cs)) with (c ++ sep ++ join sep (c' :: cs)).
  now apply nonEmpty_app_l.
Qed.

Lemma Forall_push (A : Type) (P : A -> Prop) (l : list A) (x : A) :
  Forall P l -> P x -> Forall P (push l x).
Proof. intros Hl Hx. apply Forall_app. split; [exact Hl | now constructor]. Qed.

Ltac ne_str :=
  repeat first
    [ reflexivity
    | apply nonEmpty_app_r
    | match goal with
      | |- nonEmpty (if ?b then _ else _) = true => destruct b
      end ].

Ltac ne_step :=
  match goal with
  | H : Ok _ = Ok _ |- _ => injection H as <- <-
  | H : Throw _ = Ok _ |- _ => discriminate H
  | H : handleError _ _ _ = Ok _ |- _ => discriminate H
  | H : (if ?b then _ else _) = Ok _ |- _ => destruct b
  | H : match ?o with Some _ => _ | None => _ end = Ok _ |- _ => destruct o
  end.

Ltac ne_leaf :=
  repeat ne_step;
  first [ assumption | apply Forall_push; [assumption | solve [ne_str]] ].

Lemma handleArrayOperators_nonEmpty
  (parse : Value -> list param -> string -> result (string * list param))
  (field : string) (values : Value) (operator : string) (conditions : list string)
  (params : list param) (context : string) (conditions' : list string)
  (params' : list param) :
  all_nonEmpty conditions ->
  handleArrayOperators parse field values operator conditions params context
  = Ok (conditions', params') ->
  all_nonEmpty conditions'.
Proof.
  unfold all_nonEmpty, handleArrayOperators. intros Hc H.
  destruct values as [| | b | n | s | [|v vs] | props | sq]; try ne_leaf.
  destruct (existsb isSubQuery (v :: vs)); [| ne_leaf].
  destruct (mapM_idx _ (v :: vs) 0 params) as [[subQueries q] | e]; cbn [bind] in H;
    ne_leaf.
Qed.

Lemma embed_nonEmpty
  (parse : Value -> list param -> string -> result (string * list param))
  (sq : SubQuery) (field : string) (conditions : list string) (params : list param)
  (conditions' : list string) (params' : list param) :
  all_nonEmpty conditions ->
  ('(subSql, _) <- SubQuery_toSQL_with parse sq ;;
   ps <- SubQuery_getParams_with parse sq ;;
   Ok (push conditions (field ++ " IN " ++ subSql), push_all params ps))
  = Ok (conditions', params') ->
  all_nonEmpty conditions'.
Proof.
  unfold all_nonEmpty. intros Hc H.
  destruct (SubQuery_toSQL_with parse sq) as [[subSql sq'] | e]; cbn [bind] in H;
    [| discriminate H].
  destruct (SubQuery_getParams_with parse sq) as [ps | e]; cbn [bind] in H; ne_leaf.
Qed.

Lemma handleOperator_nonEmpty
  (parse : Value -> list param -> string -> result (string * list param))
  (field : string) (opValue : Value) (operator : string) (conditions : list string)
  (params : list param) (context : string) (conditions' : list string)
  (params' : list param) :
  all_nonEmpty conditions ->
  handleOperator [] parse field opValue operator conditions params context
  = Ok (conditions', params') ->
  all_nonEmpty conditions'.
Proof.
  unfold handleOperator. cbn [find]. intros Hc H.
  destruct opValue as [| | b | n | s | vs | props | sq];
    [ unfold all_nonEmpty in *; ne_leaf .. | ];
    [ unfold all_nonEmpty in *; ne_leaf .. | ].
  all: eapply embed_nonEmpty; eassumption.
Qed.

Lemma parseFieldOperator_nonEmpty
  (parse : Value -> list param -> string -> result (string * list param))
  (context key op : string) (opValue : Value) (fieldConds : list string)
  (params : list param) (fieldConds' : list string) (params' : list param) :
  all_nonEmpty fieldConds ->
  parseFieldOperator [] parse context key op opValue (fieldConds, params)
  = Ok (fieldConds', params') ->
  all_nonEmpty fieldConds'.
Proof.
  unfold parseFieldOperator. intros Hc.
  destruct (startsWith op "$"); [| intros H; unfold all_nonEmpty in *; ne_leaf].
  destruct (op =? "$in"), opValue as [| | b | n | s | vs | props | sq];
    try (intros H; eapply embed_nonEmpty; eassumption);
    destruct (existsb (String.eqb op) ["$in"; "$nin"; "$all"]); intros H;
    first [ eapply handleArrayOperators_nonEmpty; eassumption
          | eapply handleOperator_nonEmpty; eassumption ].
Qed.

Lemma forEachM_invariant (A St : Type) (Inv : St -> Prop)
  (f : A -> St -> result St) (l : list A) :
  (forall x s s', Inv s -> f x s = Ok s' -> Inv s') ->
  forall s s', Inv s -> forEachM f l s = Ok s' -> Inv s'.
Proof.
  intros Hf. induction l as [|x l IH]; intros s s' Hs H; cbn [forEachM] in H.
  - now injection H as <-.
  - destruct (f x s) as [s1 | e] eqn:Hx; [| discriminate H].
    eapply IH; [| exact H]. eapply Hf; eassumption.
Qed.

Lemma filter_nonEmpty_all (conds : list string) : all_nonEmpty (List.filter nonEmpty conds).
Proof.
  apply Forall_forall. intros c Hc. now apply filter_In in Hc.
Qed.

Lemma filter_kept_all (conds : list string) :
  all_nonEmpty (List.filter (fun cond => nonEmpty cond && negb (cond =? "1=1")) conds).
Proof.
  apply Forall_forall. intros c Hc. apply filter_In in Hc.
  destruct Hc as [_ Hc]. now apply andb_prop in Hc.
Qed.

Lemma parseEntry_nonEmpty
  (parse : Value -> list param -> string -> result (string * list param))
  (context key : string) (value : Value) (conditions : list string)
  (params : list param) (conditions' : list string) (params' : list param) :
  all_nonEmpty conditions ->
  parseEntry [] parse context key value (conditions, params) = Ok (conditions', params') ->
  all_nonEmpty conditions'.
Proof.
  unfold parseEntry. intros Hc H.
  match type of H with tryCatch ?body _ = _ => destruct body as [[cs ps] | e] eqn:Hb end;
    cbn [tryCatch] in H; [| discriminate H].
  injection H as <- <-. clear -Hc Hb. unfold all_nonEmpty in *.
  destruct (startsWith key "$").
  - destruct (key =? "$or").
    { destruct (map_parse _ _ _ _ _) as [[conds q] | e]; cbn [bind] in Hb;
        [| discriminate Hb].
      pose proof (filter_kept_all conds) as Hk.
      destruct (List.filter _ conds) as [|c cs'] eqn:Hf; cbn [length Nat.ltb Nat.leb] in Hb;
        injection Hb as <- <-; apply Forall_push; try assumption; ne_str. }
    destruct (key =? "$nor").
    { destruct (map_parse _ _ _ _ _) as [[conds q] | e]; cbn [bind] in Hb; ne_leaf. }
    destruct (key =? "$and").
    { destruct (map_parse _ _ _ _ _) as [[conds q] | e]; cbn [bind] in Hb;
        [| discriminate Hb].
      pose proof (filter_nonEmpty_all conds) as Hk.
      destruct (List.filter nonEmpty conds) as [|c cs'] eqn:Hf;
        cbn [length Nat.ltb Nat.leb] in Hb; injection Hb as <- <-; [assumption |].
      apply Forall_push; [assumption |]. apply (@nonEmpty_join " AND " c cs').
      now inversion Hk. }
    unfold handleLogicalOperators in Hb.
    destruct value as [| | b | n | s | [|v vs] | props | sq]; try ne_leaf.
    destruct (map_parse _ _ _ _ _) as [[conds q] | e]; cbn [bind] in Hb; ne_leaf.
  - destruct value as [| | b | n | s | vs | props | sq]; try ne_leaf.
    + destruct (forEachM _ props ([], params)) as [[fieldConds q] | e] eqn:Hloop;
        cbn [bind] in Hb; [| discriminate Hb].
      assert (Hfc : all_nonEmpty (fst (fieldConds, q))).
      { eapply (@forEachM_invariant _ _ (fun st => all_nonEmpty (fst st)));
          [| | exact Hloop].
        - intros kv [fc0 q0] [fc1 q1] Hst Hkv. cbn [fst] in *.
          eapply parseFieldOperator_nonEmpty; eassumption.
        - constructor. }
      cbn [fst] in Hfc.
      destruct fieldConds as [|c [|c' cs']]; [ne_leaf | | ne_leaf].
      injection Hb as <- <-. apply Forall_push; [assumption |]. now inversion Hfc.
    + eapply embed_nonEmpty; eassumption.
Qed.

Lemma clause_nonEmpty (query : Value) (params : list param) (context text : string)
  (params' : list param) :
  parseMongoQuery [] query params context = Ok (text, params') -> nonEmpty text = true.
Proof.
  rewrite parseMongoQuery_for_in. intros H.
  destruct (forEachM _ (own_props query) ([], params)) as [[conditions q] | e] eqn:Hloop;
    cbn [bind] in H; [| discriminate H].
  injection H as <- <-.
  assert (Hc : all_nonEmpty (fst (conditions, q))).
  { eapply (@forEachM_invariant _ _ (fun st => all_nonEmpty (fst st)));
      [| | exact Hloop].
    - intros kv [c0 q0] [c1 q1] Hst Hkv. cbn [fst] in *.
      eapply parseEntry_nonEmpty; eassumption.
    - constructor. }
  cbn [fst] in Hc.
  destruct conditions as [|c cs]; [reflexivity |].
  unfold whereClause_of. apply (@nonEmpty_join " AND " c cs). now inversion Hc.
Qed.

(** X3.  Without plugins the translator never returns the empty string
    as a clause: a filter that adds no condition gives [1=1].  So the test
    [if (whereClause)] of the select builder always passes, and every
    statement it builds has a WHERE clause. *)
Theorem clause_is_never_empty :
  (forall query params context text params',
      parseMongoQuery [] query params context = Ok (text, params') ->
      text <> EmptyString)
  /\ (forall (b : MongoQueryBuilder) (r : Statement),
      MongoQueryBuilder_toSQL [] b = Ok r ->
      exists w,
        parseMongoQuery [] (filter b) [] "SELECT" = Ok (w, params r)
        /\ sql r = select_head b ++ " WHERE " ++ w ++ select_tail b).
Proof.
  split.
  - intros query params context text params' H Hempty.
    apply clause_nonEmpty in H. rewrite Hempty in H. discriminate H.
  - intros b r Hr. destruct (@builder_statement _ _ _ Hr) as (w & Hw & Hsql).
    exists w. split; [exact Hw |].
    rewrite Hsql. now rewrite (clause_nonEmpty _ _ _ Hw).
Qed.

(* ------------------------------------------------------------------ *)
(** ** [mongoToMySQL] and the select builder *)

Lemma plain_select_statement (t : string) (f : Value) :
  MongoQueryBuilder_toSQL [] (plain_select t f)
  = ('(w, ps) <- parseMongoQuery [] f [] "SELECT" ;;
     Ok (mkStatement ("SELECT * FROM " ++ t ++ " WHERE " ++ w) ps)).
Proof.
  unfold MongoQueryBuilder_toSQL, MongoQueryBuilder_toSQL_with, plain_select.
  cbn [set_filter new_MongoQueryBuilder filter projection joinConfigs tableName
       sortClause limitValue offsetValue length Nat.ltb Nat.leb nonEmpty String.eqb negb].
  destruct (parseMongoQuery [] f [] "SELECT") as [[w ps] | e] eqn:Hw; cbn [bind];
    [| reflexivity].
  rewrite (clause_nonEmpty _ _ _ Hw). cbn [append].
  rewrite ?append_assoc, ?append_empty_r. cbn [append]. reflexivity.
Qed.

(** X4.  [mongoToMySQL(query, tableName, limit, orderBy)], translated
    without plugins, returns a statement exactly when the chain
    [new MongoQueryBuilder(tableName).query(query).sort(orderBy)
    .limit(limit).toSQL()] returns it, where [limit] is 10 and [orderBy]
    is [id DESC] when left out, provided [orderBy] is not the empty
    string. *)
Theorem mongoToMySQL_is_a_select_chain (query : Value) (t : string)
  (limit : option Z) (orderBy : option string) (r : Statement) :
  let l := match limit with Some l => l | None => 10%Z end in
  let o := match orderBy with Some o => o | None => "id DESC" end in
  nonEmpty o = true ->
  (mongoToMySQL [] query t limit orderBy = Ok r <-> select_chain [] t query o l = Ok r).
Proof.
  intros l o Ho.
  assert (Hchain :
    select_chain [] t query o l
    = ('(w, ps) <- parseMongoQuery [] query [] "SELECT" ;;
       Ok (mkStatement ("SELECT * FROM " ++ t ++ " WHERE " ++ w ++ " ORDER BY " ++ o
                        ++ " LIMIT " ++ Z_to_string l) ps))).
  { unfold select_chain, MongoQueryBuilder_query.
    rewrite (@accumulate_first (filter (new_MongoQueryBuilder t)) query eq_refl).
    cbn [bind].
    unfold MongoQueryBuilder_toSQL, MongoQueryBuilder_toSQL_with.
    cbn [MongoQueryBuilder_limit MongoQueryBuilder_sort set_filter new_MongoQueryBuilder
         filter projection joinConfigs tableName sortClause limitValue offsetValue
         length Nat.ltb Nat.leb].
    destruct (parseMongoQuery [] query [] "SELECT") as [[w ps] | e] eqn:Hw; cbn [bind];
      [| reflexivity].
    rewrite (clause_nonEmpty _ _ _ Hw), Ho. cbn [append].
    rewrite ?append_assoc, ?append_empty_r. cbn [append]. reflexivity. }
  rewrite Hchain. unfold mongoToMySQL. fold l o.
  pose proof (@insensitive_everywhere [] query [] "mongoToMySQL" "SELECT") as H.
  cbn [app] in H.
  destruct (parseMongoQuery [] query [] "mongoToMySQL") as [[w1 p1] | e1],
           (parseMongoQuery [] query [] "SELECT") as [[w2 p2] | e2];
    cbn [same_outcome bind] in *; try contradiction.
  - destruct H as [-> ->]. reflexivity.
  - split; intros Hr; discriminate Hr.
Qed.

Lemma mongoToMySQL_is_a_select_chain_witness :
  nonEmpty "id DESC" = true
  /\ (mongoToMySQL [] (VObj [("age", VObj [("$gt", VNum 18)])]) "users" None None
      = Ok (mkStatement "SELECT * FROM users WHERE age > ? ORDER BY id DESC LIMIT 10"
              [PVal (VNum 18)])
      <-> select_chain [] "users" (VObj [("age", VObj [("$gt", VNum 18)])]) "id DESC" 10
          = Ok (mkStatement "SELECT * FROM users WHERE age > ? ORDER BY id DESC LIMIT 10"
                  [PVal (VNum 18)])).
Proof.
  split; [reflexivity |].
  exact (@mongoToMySQL_is_a_select_chain (VObj [("age", VObj [("$gt", VNum 18)])])
           "users" None None
           (mkStatement "SELECT * FROM users WHERE age > ? ORDER BY id DESC LIMIT 10"
              [PVal (VNum 18)])
           eq_refl).
Defined.

(* ------------------------------------------------------------------ *)
(** ** The WHERE clause of the delete and update builders *)

(** X5.  A statement of the delete builder, built without plugins,
    restricts by the clause, and binds the parameters, that the select
    builder gives for the same filter on the same table: it is
    [DELETE FROM t WHERE w], followed by [ LIMIT 1] after [single()],
    where the select statement is [SELECT * FROM t WHERE w]. *)
Theorem delete_restricts_as_select_does (this : MongoDeleteBuilder) (r : Statement) :
  MongoDeleteBuilder_toSQL [] this = Ok r ->
  exists w,
    MongoQueryBuilder_toSQL [] (plain_select (del_tableName this) (del_filter this))
    = Ok (mkStatement ("SELECT * FROM " ++ del_tableName this ++ " WHERE " ++ w) (params r))
    /\ sql r = "DELETE FROM " ++ del_tableName this ++ " WHERE " ++ w
               ++ (if singleDelete this then " LIMIT 1" else EmptyString).
Proof.
  unfold MongoDeleteBuilder_toSQL. rewrite plain_select_statement.
  destruct (Object_keys (del_filter this)) as [keys | e]; cbn [bind]; [| discriminate].
  destruct (Nat.eqb (length keys) 0); [discriminate |].
  pose proof (@insensitive_everywhere [] (del_filter this) [] "DELETE" "SELECT") as H.
  cbn [app] in H.
  destruct (parseMongoQuery [] (del_filter this) [] "DELETE") as [[w1 p1] | e1],
           (parseMongoQuery [] (del_filter this) [] "SELECT") as [[w2 p2] | e2];
    cbn [same_outcome bind] in *; try contradiction; [| discriminate].
  destruct H as [-> ->]. intros Hr. injection Hr as <-. exists w2. cbn [sql params].
  split; [reflexivity |].
  destruct (singleDelete this); rewrite ?append_assoc, ?append_empty_r; reflexivity.
Qed.

Lemma delete_restricts_as_select_does_witness :
  exists w,
    MongoQueryBuilder_toSQL []
      (plain_select "users" (VObj [("status", VStr "gone"); ("age", VObj [("$lt", VNum 5)])]))
    = Ok (mkStatement ("SELECT * FROM " ++ "users" ++ " WHERE " ++ w)
            [PVal (VStr "gone"); PVal (VNum 5)])
    /\ "DELETE FROM users WHERE status = ? AND age < ? LIMIT 1"
       = "DELETE FROM " ++ "users" ++ " WHERE " ++ w ++ " LIMIT 1".
Proof.
  exact (@delete_restricts_as_select_does
           (mkMongoDeleteBuilder "users"
              (VObj [("status", VStr "gone"); ("age", VObj [("$lt", VNum 5)])]) true)
           (mkStatement "DELETE FROM users WHERE status = ? AND age < ? LIMIT 1"
              [PVal (VStr "gone"); PVal (VNum 5)])
           eq_refl).
Defined.

(** X6.  A statement the update builder builds, without plugins, from
    an operator object binds the parameters of its SET clauses first and
    then exactly the parameters that the select builder binds for the
    same filter, and restricts by the same clause [w]: it is
    [UPDATE t SET <clauses> WHERE w], followed by [ LIMIT 1] after
    [single()]. *)
Theorem update_binds_set_values_then_filter (this : MongoUpdateBuilder)
  (updateOps : Value) (r : Statement) :
  dataObj this = Some updateOps ->
  MongoUpdateBuilder_toSQL [] this = Ok r ->
  exists setClauses setParams w pw,
    forEachM (fun kv => update_operator updateOps (fst kv)) (own_props updateOps) ([], [])
    = Ok (setClauses, setParams)
    /\ MongoQueryBuilder_toSQL [] (plain_select (upd_tableName this) (upd_filter this))
       = Ok (mkStatement ("SELECT * FROM " ++ upd_tableName this ++ " WHERE " ++ w) pw)
    /\ sql r = "UPDATE " ++ upd_tableName this ++ " SET " ++ join ", " setClauses
               ++ " WHERE " ++ w
               ++ (if singleUpdate this then " LIMIT 1" else EmptyString)
    /\ params r = (setParams ++ pw)%list.
Proof.
  intros Hdata. unfold MongoUpdateBuilder_toSQL. rewrite plain_select_statement, Hdata.
  destruct (Object_keys (upd_filter this)) as [keys | e]; cbn [bind]; [| discriminate].
  destruct (Nat.eqb (length keys) 0); [discriminate |].
  destruct (forEachM _ (own_props updateOps) ([], [])) as [[setClauses setParams] | e];
    cbn [bind]; [| discriminate].
  destruct (Nat.eqb (length setClauses) 0); [discriminate |].
  pose proof (@insensitive_everywhere setParams (upd_filter this) [] "UPDATE" "SELECT") as H.
  rewrite app_nil_r in H.
  destruct (parseMongoQuery [] (upd_filter this) setParams "UPDATE") as [[w1 p1] | e1],
           (parseMongoQuery [] (upd_filter this) [] "SELECT") as [[w2 p2] | e2];
    cbn [same_outcome bind] in *; try contradiction; [| discriminate].
  destruct H as [-> ->]. intros Hr. injection Hr as <-.
  exists setClauses, setParams, w2, p2. cbn [sql params].
  do 2 (split; [reflexivity |]). split; [| reflexivity].
  destruct (singleUpdate this); rewrite ?append_assoc, ?append_empty_r; reflexivity.
Qed.

Lemma update_binds_set_values_then_filter_witness :
  let ops := VObj [("$set", VObj [("name", VStr "x")]); ("$inc", VObj [("n", VNum 1)])] in
  let this := mkMongoUpdateBuilder "users" "id" (Some ops) None
                (VObj [("age", VObj [("$gt", VNum 18)])]) false in
  dataObj this = Some ops
  /\ MongoUpdateBuilder_toSQL [] this
     = Ok (mkStatement "UPDATE users SET name = ?, n = n + ? WHERE age > ?"
             [PVal (VStr "x"); PVal (VNum 1); PVal (VNum 18)])
  /\ exists setClauses setParams w pw,
       forEachM (fun kv => update_operator ops (fst kv)) (own_props ops) ([], [])
       = Ok (setClauses, setParams)
       /\ MongoQueryBuilder_toSQL [] (plain_select "users" (upd_filter this))
          = Ok (mkStatement ("SELECT * FROM " ++ "users" ++ " WHERE " ++ w) pw)
       /\ "UPDATE users SET name = ?, n = n + ? WHERE age > ?"
          = "UPDATE " ++ "users" ++ " SET " ++ join ", " setClauses ++ " WHERE " ++ w
            ++ EmptyString
       /\ [PVal (VStr "x"); PVal (VNum 1); PVal (VNum 18)] = (setParams ++ pw)%list.
Proof.
  cbv zeta. split; [reflexivity |]. split; [reflexivity |].
  exact (@update_binds_set_values_then_filter
           (mkMongoUpdateBuilder "users" "id"
              (Some (VObj [("$set", VObj [("name", VStr "x")]);
                           ("$inc", VObj [("n", VNum 1)])]))
              None (VObj [("age", VObj [("$gt", VNum 18)])]) false)
           (VObj [("$set", VObj [("name", VStr "x")]); ("$inc", VObj [("n", VNum 1)])])
           (mkStatement "UPDATE users SET name = ?, n = n + ? WHERE age > ?"
              [PVal (VStr "x"); PVal (VNum 1); PVal (VNum 18)])
           eq_refl eq_refl).
Defined.

(* ------------------------------------------------------------------ *)
(** ** An update with a plain object *)

Lemma set_fields_loop (fields : list (string * Value)) (setClauses : list string)
  (params : list param) :
  Forall (fun kv => snd kv <> VUndefined) fields ->
  forEachM
    (fun kv (st : list string * list param) =>
       let '(setClauses, params) := st in
       match snd kv with
       | VUndefined =>
           handleError ("字段 " ++ fst kv ++ " 不能设置为 undefined")
             "MongoUpdateBuilder.toSQL" SQLGenerationError
       | x => Ok (push setClauses (fst kv ++ " = ?"), push params (PVal x))
       end)
    fields (setClauses, params)
  = Ok (push_all setClauses (map (fun kv => fst kv ++ " = ?") fields),
        push_all params (map (fun kv => PVal (snd kv)) fields)).
Proof.
  intros H. revert setClauses params.
  induction H as [|[k v] fields Hv _ IH]; intros setClauses params; cbn [forEachM map].
  - unfold push_all. now rewrite !app_nil_r.
  - cbn [fst snd] in *. unfold push, push_all in *.
    destruct v; try (now elim Hv); rewrite IH, <- !app_assoc; reflexivity.
Qed.

(** X7.  [update(obj)] with a plain object [obj], none of whose keys
    starts with [$], is [update({$set: obj})].  When [obj] has at least
    one field and sets none to [undefined], and the filter has a key and
    translates, without plugins, to the clause [w] with the parameters
    [pw], the statement is [UPDATE t SET k1 = ?, ..., kn = ? WHERE w]
    (followed by [ LIMIT 1] after [single()]) and binds the values of
    [obj], in the order of its keys, before [pw]. *)
Theorem update_with_plain_object (this : MongoUpdateBuilder)
  (fields : list (string * Value)) (k : string) (ks : list string) (w : string)
  (pw : list param) :
  fields <> [] ->
  Forall (fun kv => startsWith (fst kv) "$" = false /\ snd kv <> VUndefined) fields ->
  Object_keys (upd_filter this) = Ok (k :: ks) ->
  parseMongoQuery [] (upd_filter this) [] "UPDATE" = Ok (w, pw) ->
  MongoUpdateBuilder_update this (VObj fields)
  = MongoUpdateBuilder_update this (VObj [("$set", VObj fields)])
  /\ (this' <- MongoUpdateBuilder_update this (VObj fields) ;;
      MongoUpdateBuilder_toSQL [] this')
     = Ok (mkStatement
             ("UPDATE " ++ upd_tableName this ++ " SET "
              ++ join ", " (map (fun kv => fst kv ++ " = ?") fields)
              ++ " WHERE " ++ w
              ++ (if singleUpdate this then " LIMIT 1" else EmptyString))
             (push_all (map (fun kv => PVal (snd kv)) fields) pw)).
Proof.
  intros Hne Hfields Hkeys Hw.
  assert (Hplain : forallb (fun key => negb (startsWith key "$")) (map fst fields) = true).
  { clear -Hfields. induction Hfields as [|kv l [Hk _] _ IH]; [reflexivity |].
    cbn [map forallb]. now rewrite Hk, IH. }
  assert (Hup : MongoUpdateBuilder_update this (VObj fields)
                = Ok (mkMongoUpdateBuilder (upd_tableName this) (idField this)
                        (Some (VObj [("$set", VObj fields)])) None
                        (upd_filter this) (singleUpdate this))).
  { unfold MongoUpdateBuilder_update. cbn [Object_keys own_props bind]. now rewrite Hplain. }
  split; [rewrite Hup; reflexivity |].
  rewrite Hup. cbn [bind]. unfold MongoUpdateBuilder_toSQL.
  cbn [upd_filter dataObj dataArray upd_tableName singleUpdate].
  rewrite Hkeys. cbn [bind length Nat.eqb own_props forEachM fst].
  unfold update_operator at 1. cbn [String.eqb Ascii.eqb Bool.eqb get_own own_props_all
                                     own_props lookup truthy Object_keys bind].
  destruct fields as [|kv0 fields0] eqn:Hf; [now elim Hne |]. rewrite <- Hf in *.
  assert (Hlen : Nat.eqb (length (map fst fields)) 0 = false) by now rewrite Hf.
  rewrite Hlen.
  rewrite set_fields_loop
    by (eapply Forall_impl; [| exact Hfields]; now intros kv [_ Hv]).
  unfold push_all. cbn [app bind].
  assert (Hlen' : Nat.eqb (length (map (fun kv => fst kv ++ " = ?") fields)) 0 = false)
    by now rewrite Hf.
  rewrite Hlen'.
  rewrite <- (app_nil_r (map (fun kv => PVal (snd kv)) fields)) at 1.
  rewrite translation_frame, Hw. cbn [bind].
  destruct (singleUpdate this); rewrite ?append_assoc, ?append_empty_r; reflexivity.
Qed.

Lemma update_with_plain_object_witness :
  let this := mkMongoUpdateBuilder "users" "id" None None (VObj [("id", VNum 5)]) true in
  let fields := [("name", VStr "x"); ("age", VNum 3)] in
  fields <> []
  /\ Forall (fun kv => startsWith (fst kv) "$" = false /\ snd kv <> VUndefined) fields
  /\ Object_keys (upd_filter this) = Ok ["id"]
  /\ parseMongoQuery [] (upd_filter this) [] "UPDATE" = Ok ("id = ?", [PVal (VNum 5)])
  /\ (this' <- MongoUpdateBuilder_update this (VObj fields) ;;
      MongoUpdateBuilder_toSQL [] this')
     = Ok (mkStatement "UPDATE users SET name = ?, age = ? WHERE id = ? LIMIT 1"
             [PVal (VStr "x"); PVal (VNum 3); PVal (VNum 5)]).
Proof.
  cbv zeta.
  assert (H1 : [("name", VStr "x"); ("age", VNum 3)] <> []) by discriminate.
  assert (H2 : Forall (fun kv => startsWith (fst kv) "$" = false /\ snd kv <> VUndefined)
                 [("name", VStr "x"); ("age", VNum 3)])
    by (repeat constructor; discriminate).
  split; [exact H1 | split; [exact H2 |]]. split; [reflexivity |]. split; [reflexivity |].
  exact (proj2 (@update_with_plain_object
                  (mkMongoUpdateBuilder "users" "id" None None (VObj [("id", VNum 5)]) true)
                  [("name", VStr "x"); ("age", VNum 3)] "id" [] "id = ?" [PVal (VNum 5)]
                  H1 H2 eq_refl eq_refl)).
Defined.

(* ------------------------------------------------------------------ *)
(** ** [single()] *)

(** X8.  On a delete or an update builder that is not yet single,
    [single()] changes the outcome of [toSQL] in one way only: a
    statement gets [ LIMIT 1] at its end.  Its parameters, and the error
    when [toSQL] throws, are the same. *)
Theorem single_appends_limit_1 (plugins : list OperatorPlugin) :
  (forall this : MongoDeleteBuilder,
      singleDelete this = false ->
      MongoDeleteBuilder_toSQL plugins (MongoDeleteBuilder_single this)
      = (r <- MongoDeleteBuilder_toSQL plugins this ;;
         Ok (mkStatement (sql r ++ " LIMIT 1") (params r))))
  /\ (forall this : MongoUpdateBuilder,
      singleUpdate this = false ->
      MongoUpdateBuilder_toSQL plugins (MongoUpdateBuilder_single this)
      = (r <- MongoUpdateBuilder_toSQL plugins this ;;
         Ok (mkStatement (sql r ++ " LIMIT 1") (params r)))).
Proof.
  split.
  - intros [t f s] Hs. cbn [singleDelete] in Hs. subst s.
    unfold MongoDeleteBuilder_toSQL, MongoDeleteBuilder_single.
    cbn [del_filter del_tableName singleDelete].
    destruct (Object_keys f) as [keys | e]; cbn [bind]; [| reflexivity].
    destruct (Nat.eqb (length keys) 0); [reflexivity |].
    destruct (parseMongoQuery plugins f [] "DELETE") as [[w ps] | e]; reflexivity.
  - intros [t i o a f s] Hs. cbn [singleUpdate] in Hs. subst s.
    unfold MongoUpdateBuilder_toSQL, MongoUpdateBuilder_single.
    cbn [upd_filter upd_tableName singleUpdate dataObj dataArray idField].
    destruct (Object_keys f) as [keys | e]; cbn [bind]; [| reflexivity].
    destruct (Nat.eqb (length keys) 0); [reflexivity |].
    match goal with
    | |- bind ?c _ = bind (bind ?c _) _ => destruct c as [[s ps] | e]; reflexivity
    end.
Qed.

Lemma single_appends_limit_1_witness :
  singleDelete (mkMongoDeleteBuilder "users" (VObj [("id", VNum 5)]) false) = false
  /\ MongoDeleteBuilder_toSQL []
       (MongoDeleteBuilder_single (mkMongoDeleteBuilder "users" (VObj [("id", VNum 5)]) false))
     = (r <- MongoDeleteBuilder_toSQL []
               (mkMongoDeleteBuilder "users" (VObj [("id", VNum 5)]) false) ;;
        Ok (mkStatement (sql r ++ " LIMIT 1") (params r))).
Proof.
  split; [reflexivity |].
  exact (proj1 (single_appends_limit_1 [])
           (mkMongoDeleteBuilder "users" (VObj [("id", VNum 5)]) false) eq_refl).
Defined.

(* ------------------------------------------------------------------ *)
(** ** The insert builder *)

Lemma lookup_unique (props : list (string * Value)) :
  NoDup (map fst props) ->
  map (fun key => PVal (lookup key props)) (map fst props)
  = map (fun kv => PVal (snd kv)) props.
Proof.
  induction props as [|[k v] props IH]; intros Hnd; [reflexivity |].
  cbn [map fst snd lookup] in *. inversion Hnd as [|? ? Hk Hrest]; subst.
  rewrite String.eqb_refl. f_equal. rewrite <- (IH Hrest).
  apply map_ext_in. intros key Hin.
  destruct (String.eqb_spec k key) as [-> | _]; [now elim Hk | reflexivity].
Qed.

Lemma map_const_map (A B C : Type) (c : C) (f : A -> B) (l : list A) :
  map (fun _ => c) (map f l) = map (fun _ => c) l.
Proof. induction l as [|x l IH]; simpl; [reflexivity | now rewrite IH]. Qed.

(** X9.  [insertOne(doc)] with a plain object decides the statement
    alone, whatever [insertMany] was given: without upsert it is
    [INSERT INTO t (k1, ..., kn) VALUES (?, ..., ?)] with one placeholder
    per key, and its parameters are the values of [doc] in the order of
    its keys.  An object without keys gives [INSERT INTO t () VALUES ()]
    and no parameter. *)
Theorem insert_one_statement (this : MongoInsertBuilder) (props : list (string * Value)) :
  doc this = VObj props ->
  NoDup (map fst props) ->
  truthy (upsertEnabled this) = false ->
  MongoInsertBuilder_toSQL this
  = Ok (mkStatement
          ("INSERT INTO " ++ ins_tableName this ++ " (" ++ join ", " (map fst props)
           ++ ") VALUES (" ++ join ", " (map (fun _ => "?") props) ++ ")")
          (map (fun kv => PVal (snd kv)) props)).
Proof.
  intros Hdoc Hnd Hup. unfold MongoInsertBuilder_toSQL, with_upsert.
  rewrite Hdoc, Hup. cbn [truthy Object_keys own_props bind].
  unfold get_own. cbn [own_props_all own_props].
  now rewrite map_const_map, lookup_unique.
Qed.

Lemma insert_one_statement_witness :
  let this := MongoInsertBuilder_insertMany
                (MongoInsertBuilder_insertOne (new_MongoInsertBuilder "users")
                   (VObj [("name", VStr "a"); ("age", VNum 4)]))
                (VArr [VObj [("other", VNum 1)]]) in
  doc this = VObj [("name", VStr "a"); ("age", VNum 4)]
  /\ NoDup ["name"; "age"]
  /\ truthy (upsertEnabled this) = false
  /\ MongoInsertBuilder_toSQL this
     = Ok (mkStatement "INSERT INTO users (name, age) VALUES (?, ?)"
             [PVal (VStr "a"); PVal (VNum 4)]).
Proof.
  cbv zeta.
  assert (Hnd : NoDup (map fst [("name", VStr "a"); ("age", VNum 4)])).
  { cbn [map fst]. repeat constructor; cbn [In]; intuition discriminate. }
  split; [reflexivity | split; [exact Hnd | split; [reflexivity |]]].
  exact (@insert_one_statement
           (MongoInsertBuilder_insertMany
              (MongoInsertBuilder_insertOne (new_MongoInsertBuilder "users")
                 (VObj [("name", VStr "a"); ("age", VNum 4)]))
              (VArr [VObj [("other", VNum 1)]]))
           [("name", VStr "a"); ("age", VNum 4)] eq_refl Hnd eq_refl).
Defined.

Lemma row_params_values (keys : list string) (d : Value) (params : list param) :
  is_plain_object d = true ->
  row_params keys d params = Ok (push_all params (row_values keys d)).
Proof.
  destruct d; try discriminate. intros _. unfold row_params, row_values, push_all.
  destruct keys as [|key keys]; [now rewrite app_nil_r |].
  f_equal. generalize (key :: keys) as l. intros l. revert params.
  induction l as [|x l IH]; intros params; cbn [fold_left map].
  - now rewrite app_nil_r.
  - rewrite IH. unfold push. now rewrite <- app_assoc.
Qed.

Lemma rows_params_values (keys : list string) (rows : list Value) (params : list param) :
  Forall (fun d => is_plain_object d = true) rows ->
  forEachM (row_params keys) rows params
  = Ok (push_all params (flat_map (row_values keys) rows)).
Proof.
  intros H. revert params.
  induction H as [|d rows Hd _ IH]; intros params; cbn [forEachM flat_map].
  - unfold push_all. now rewrite app_nil_r.
  - rewrite (@row_params_values keys d params Hd). cbn [forEachM]. rewrite IH.
    unfold push_all. now rewrite <- app_assoc.
Qed.

(** X10.  [insertMany(docs)] with a non-empty array of plain objects,
    when [insertOne] has set no document: the columns are the keys of the
    first object alone.  Without upsert the statement is
    [INSERT INTO t (k1, ..., kn) VALUES (?, ..., ?), ..., (?, ..., ?)]
    with one group per object, and every object binds, in the order of
    those keys, what it holds under each of them: [undefined] for a key
    it lacks, nothing for a key of its own that the first object lacks.
    (The keys are taken not to be names of members that objects inherit,
    such as [toString].) *)
Theorem insert_many_statement (this : MongoInsertBuilder)
  (first : list (string * Value)) (rest : list Value) :
  truthy (doc this) = false ->
  docs this = VArr (VObj first :: rest) ->
  Forall (fun d => is_plain_object d = true) rest ->
  Forall (fun key => inherited_name key = false) (map fst first) ->
  truthy (upsertEnabled this) = false ->
  MongoInsertBuilder_toSQL this
  = Ok (mkStatement
          ("INSERT INTO " ++ ins_tableName this ++ " (" ++ join ", " (map fst first)
           ++ ") VALUES "
           ++ join ", " (map (fun _ => row_placeholders (map fst first)) (VObj first :: rest)))
          (flat_map (row_values (map fst first)) (VObj first :: rest))).
Proof.
  intros Hdoc Hdocs Hrest _ Hup. unfold MongoInsertBuilder_toSQL, with_upsert.
  rewrite Hdoc, Hdocs, Hup. cbn [Object_keys own_props bind].
  rewrite rows_params_values by (constructor; [reflexivity | exact Hrest]).
  reflexivity.
Qed.

Lemma insert_many_statement_witness :
  let this := MongoInsertBuilder_insertMany (new_MongoInsertBuilder "users")
                (VArr [ VObj [("name", VStr "a"); ("age", VNum 4)];
                        VObj [("age", VNum 5); ("city", VStr "x")] ]) in
  truthy (doc this) = false
  /\ Forall (fun d => is_plain_object d = true) [VObj [("age", VNum 5); ("city", VStr "x")]]
  /\ Forall (fun key => inherited_name key = false) ["name"; "age"]
  /\ MongoInsertBuilder_toSQL this
     = Ok (mkStatement "INSERT INTO users (name, age) VALUES (?, ?), (?, ?)"
             [PVal (VStr "a"); PVal (VNum 4); PVal VUndefined; PVal (VNum 5)]).
Proof.
  cbv zeta.
  assert (H1 : Forall (fun d => is_plain_object d = true)
                 [VObj [("age", VNum 5); ("city", VStr "x")]])
    by (repeat constructor).
  assert (H2 : Forall (fun key => inherited_name key = false)
                 (map fst [("name", VStr "a"); ("age", VNum 4)]))
    by (repeat constructor).
  split; [reflexivity | split; [exact H1 | split; [exact H2 |]]].
  exact (@insert_many_statement
           (MongoInsertBuilder_insertMany (new_MongoInsertBuilder "users")
              (VArr [ VObj [("name", VStr "a"); ("age", VNum 4)];
                      VObj [("age", VNum 5); ("city", VStr "x")] ]))
           [("name", VStr "a"); ("age", VNum 4)]
           [VObj [("age", VNum 5); ("city", VStr "x")]]
           eq_refl eq_refl H1 H2 eq_refl).
Defined.

Lemma mapM_values_clause (cols : list string) :
  mapM (fun col => text <- ToString col ;; Ok (text ++ " = VALUES(" ++ text ++ ")"))
    (map VStr cols)
  = Ok (map (fun c => c ++ " = VALUES(" ++ c ++ ")") cols).
Proof.
  induction cols as [|c cols IH]; [reflexivity |].
  cbn [map mapM ToString bind]. now rewrite IH.
Qed.

Lemma upsert_clause_of_columns (cols keys : list string) :
  upsert_clause (VArr (map VStr cols)) keys
  = Ok (join ", " (map (fun c => c ++ " = VALUES(" ++ c ++ ")") cols)).
Proof. unfold upsert_clause. cbn [truthy]. now rewrite mapM_values_clause. Qed.

Lemma upsert_clause_default (keys : list string) :
  upsert_clause VNull keys
  = Ok (join ", " (map (fun c => c ++ " = VALUES(" ++ c ++ ")") keys)).
Proof. unfold upsert_clause. cbn [truthy]. now rewrite mapM_values_clause. Qed.

Lemma insert_statement_shape (this : MongoInsertBuilder) (r : Statement) :
  MongoInsertBuilder_toSQL this = Ok r ->
  exists sql0,
    with_upsert this (insert_keys this) sql0 = Ok (sql r)
    /\ forall enabled fields,
         MongoInsertBuilder_toSQL
           (mkMongoInsertBuilder (ins_tableName this) (doc this) (docs this) enabled fields)
         = (sql' <- with_upsert
                      (mkMongoInsertBuilder (ins_tableName this) (doc this) (docs this)
                         enabled fields)
                      (insert_keys this) sql0 ;;
            Ok (mkStatement sql' (params r))).
Proof.
  unfold MongoInsertBuilder_toSQL, insert_keys. cbn [doc docs ins_tableName].
  destruct (truthy (doc this)).
  - destruct (doc this); try discriminate; cbn [Object_keys bind];
      match goal with
      | |- bind (with_upsert _ _ ?s) _ = _ -> _ =>
          destruct (with_upsert this _ s) as [sql' | e] eqn:Hu; cbn [bind];
          [| discriminate]; intros H; injection H as <-; exists s;
          split; [exact Hu | reflexivity]
      end.
  - destruct (docs this) as [| | b | n | s | [|first rows] | props | sq]; try discriminate.
    destruct first; try discriminate; cbn [Object_keys bind];
      match goal with
      | |- bind ?loop _ = _ -> _ =>
          destruct loop as [ps | e]; cbn [bind]; [| discriminate]
      end;
      match goal with
      | |- bind (with_upsert _ _ ?s) _ = _ -> _ =>
          destruct (with_upsert this _ s) as [sql' | e] eqn:Hu; cbn [bind];
          [| discriminate]; intros H; injection H as <-; exists s;
          split; [exact Hu | reflexivity]
      end.
Qed.

(** X11.  [upsert(enable, fields)] changes a statement of the insert
    builder in one way only: with [enable] left out or truthy, the text
    gets [ ON DUPLICATE KEY UPDATE c1 = VALUES(c1), ..., cn = VALUES(cn)]
    at its end, where [c1 ... cn] is the array [fields], or the columns
    of the statement when [fields] is left out or [null]; the parameters
    stay as they are.  An empty array [fields] is not replaced by the
    columns: the statement then ends with [ ON DUPLICATE KEY UPDATE ]. *)
Theorem upsert_appends_its_clause (this : MongoInsertBuilder) (enable : Value)
  (r : Statement) :
  truthy (upsertEnabled this) = false ->
  MongoInsertBuilder_toSQL this = Ok r ->
  enable = VUndefined \/ truthy enable = true ->
  (forall cols,
      MongoInsertBuilder_toSQL (MongoInsertBuilder_upsert this enable (VArr (map VStr cols)))
      = Ok (mkStatement
              (sql r ++ " ON DUPLICATE KEY UPDATE "
               ++ join ", " (map (fun c => c ++ " = VALUES(" ++ c ++ ")") cols))
              (params r)))
  /\ (forall fields,
      fields = VUndefined \/ fields = VNull ->
      MongoInsertBuilder_toSQL (MongoInsertBuilder_upsert this enable fields)
      = Ok (mkStatement
              (sql r ++ " ON DUPLICATE KEY UPDATE "
               ++ join ", " (map (fun c => c ++ " = VALUES(" ++ c ++ ")") (insert_keys this)))
              (params r))).
Proof.
  intros Hoff Hr Hen.
  destruct (@insert_statement_shape _ _ Hr) as (sql0 & Hsql & Hany).
  unfold with_upsert in Hsql. rewrite Hoff in Hsql. injection Hsql as <-.
  assert (Hon : truthy (match enable with VUndefined => VBool true | _ => enable end) = true).
  { destruct Hen as [-> | Hen]; [reflexivity |]. now destruct enable. }
  unfold MongoInsertBuilder_upsert. split.
  - intros cols. rewrite Hany. unfold with_upsert. cbn [upsertEnabled upsertFields].
    rewrite Hon. destruct cols as [|c cols]; cbn [map];
      [reflexivity |].
    change (VArr (VStr c :: map VStr cols)) with (VArr (map VStr (c :: cols))).
    now rewrite upsert_clause_of_columns.
  - intros fields Hf. rewrite Hany. unfold with_upsert. cbn [upsertEnabled upsertFields].
    rewrite Hon. destruct Hf as [-> | ->]; now rewrite upsert_clause_default.
Qed.

Lemma upsert_appends_its_clause_witness :
  let this := MongoInsertBuilder_insertOne (new_MongoInsertBuilder "test")
                (VObj [("name", VStr "test"); ("age", VNum 4); ("day", VNum 123)]) in
  truthy (upsertEnabled this) = false
  /\ MongoInsertBuilder_toSQL this
     = Ok (mkStatement "INSERT INTO test (name, age, day) VALUES (?, ?, ?)"
             [PVal (VStr "test"); PVal (VNum 4); PVal (VNum 123)])
  /\ MongoInsertBuilder_toSQL
       (MongoInsertBuilder_upsert this (VBool true) (VArr (map VStr ["age"])))
     = Ok (mkStatement
             ("INSERT INTO test (name, age, day) VALUES (?, ?, ?)"
              ++ " ON DUPLICATE KEY UPDATE "
              ++ join ", " (map (fun c => c ++ " = VALUES(" ++ c ++ ")") ["age"]))
             [PVal (VStr "test"); PVal (VNum 4); PVal (VNum 123)]).
Proof.
  cbv zeta. split; [reflexivity |]. split; [reflexivity |].
  exact (proj1 (@upsert_appends_its_clause
                  (MongoInsertBuilder_insertOne (new_MongoInsertBuilder "test")
                     (VObj [("name", VStr "test"); ("age", VNum 4); ("day", VNum 123)]))
                  (VBool true)
                  (mkStatement "INSERT INTO test (name, age, day) VALUES (?, ?, ?)"
                     [PVal (VStr "test"); PVal (VNum 4); PVal (VNum 123)])
                  eq_refl eq_refl (or_intror eq_refl))
           ["age"]).
Defined.

(** X12.  An insert builder on which [insertOne] has set no truthy
    document and [insertMany] no non-empty array throws from [toSQL] the
    [SQLGenerationError] that names [insertMany]: so does a new builder,
    and so does a builder after [insertOne(null)] or [insertOne(0)]. *)
Theorem insert_without_document_throws (this : MongoInsertBuilder) :
  truthy (doc this) = false ->
  (forall first rest, docs this <> VArr (first :: rest)) ->
  MongoInsertBuilder_toSQL this
  = Throw (SQLGenerationError
             ("insertMany() 需要至少一个有效的文档。 | Context: "
              ++ JSON_stringify_string "MongoInsertBuilder") None).
Proof.
  intros Hdoc Hdocs. unfold MongoInsertBuilder_toSQL. rewrite Hdoc.
  destruct (docs this) as [| | b | n | s | [|first rest] | props | sq]; try reflexivity.
  now elim (Hdocs first rest).
Qed.

Lemma insert_without_document_throws_witness :
  let this := MongoInsertBuilder_insertOne (new_MongoInsertBuilder "users") (VNum 0) in
  truthy (doc this) = false
  /\ (forall first rest, docs this <> VArr (first :: rest))
  /\ isOk (MongoInsertBuilder_toSQL this) = false.
Proof.
  cbv zeta.
  assert (H : forall first rest,
             docs (MongoInsertBuilder_insertOne (new_MongoInsertBuilder "users") (VNum 0))
             <> VArr (first :: rest)) by (intros first rest; discriminate).
  split; [reflexivity | split; [exact H |]].
  rewrite (@insert_without_document_throws
             (MongoInsertBuilder_insertOne (new_MongoInsertBuilder "users") (VNum 0))
             eq_refl H).
  reflexivity.
Defined.

Lemma Ok_inj (A : Type) (a b : A) : Ok a = Ok b -> a = b.
Proof. now intros [= ->]. Qed.

Lemma count_join (sep : string) (l : list string) :
  count_placeholders sep = 0 ->
  count_placeholders (join sep l) = list_total (map count_placeholders l).
Proof.
  intros Hsep. induction l as [|x [|y l] IH]; [reflexivity | simpl; lia |].
  change (join sep (x :: y :: l)) with (x ++ sep ++ join sep (y :: l)).
  rewrite !count_placeholders_app, Hsep, IH. reflexivity.
Qed.

Lemma sum_clean (l : list string) :
  Forall (fun k => count_placeholders k = 0) l -> list_total (map count_placeholders l) = 0.
Proof. induction 1 as [|x l Hx _ IH]; simpl; [reflexivity | now rewrite Hx, IH]. Qed.

Lemma sum_const (A : Type) (s : string) (l : list A) :
  list_total (map count_placeholders (map (fun _ => s) l)) = length l * count_placeholders s.
Proof. induction l as [|x l IH]; simpl; [reflexivity | now rewrite IH]. Qed.

Lemma count_row_placeholders (keys : list string) :
  count_placeholders (row_placeholders keys) = length keys.
Proof.
  unfold row_placeholders. rewrite !count_placeholders_app, count_join by reflexivity.
  rewrite sum_const. simpl. lia.
Qed.

Lemma row_params_length (keys : list string) (d : Value) (params params' : list param) :
  row_params keys d params = Ok params' ->
  length params' = length params + length keys.
Proof.
  unfold row_params.
  assert (Hfold : forall l ps,
             length (fold_left (fun params key => push params (PVal (get_own d key))) l ps)
             = length ps + length l).
  { induction l as [|x l IH]; intros ps; cbn [fold_left length]; [lia |].
    rewrite IH. unfold push. rewrite length_app. simpl. lia. }
  destruct keys as [|key keys]; [intros H; injection H as <-; simpl; lia |].
  destruct d; try discriminate; intros H; injection H as <-;
    apply (Hfold (key :: keys)).
Qed.

Lemma rows_params_length (keys : list string) (rows : list Value)
  (params params' : list param) :
  forEachM (row_params keys) rows params = Ok params' ->
  length params' = length params + length rows * length keys.
Proof.
  revert params. induction rows as [|d rows IH]; intros params; cbn [forEachM].
  - intros H. injection H as <-. simpl. lia.
  - destruct (row_params keys d params) as [ps | e] eqn:Hd; [| discriminate].
    intros H. rewrite (IH _ H), (row_params_length _ _ _ Hd). simpl. lia.
Qed.

(** X13.  In a statement of the insert builder without upsert the
    number of [?] is the number of parameters, provided neither the table
    name nor a column name holds a [?]: one per column for [insertOne],
    one per column and row for [insertMany]. *)
Theorem insert_placeholders_match_params (this : MongoInsertBuilder) (r : Statement) :
  MongoInsertBuilder_toSQL this = Ok r ->
  truthy (upsertEnabled this) = false ->
  count_placeholders (ins_tableName this) = 0 ->
  Forall (fun k => count_placeholders k = 0) (insert_keys this) ->
  count_placeholders (sql r) = length (params r).
Proof.
  unfold MongoInsertBuilder_toSQL, insert_keys, with_upsert. intros H Hoff Ht Hk.
  rewrite Hoff in H. destruct (truthy (doc this)).
  - destruct (Object_keys (doc this)) as [keys | e] eqn:Hkeys; cbn [bind] in H;
      [| discriminate H].
    assert (keys = map fst (own_props (doc this))) as ->.
    { destruct (doc this); try discriminate Hkeys; now injection Hkeys as <-. }
    apply Ok_inj in H. rewrite <- H. cbn [sql params].
    rewrite !count_placeholders_app, !count_join by reflexivity.
    rewrite Ht, (sum_clean Hk), sum_const, !length_map. simpl. lia.
  - destruct (docs this) as [| | b | n | s | [|first rows] | props | sq];
      try discriminate H.
    destruct (Object_keys first) as [keys | e] eqn:Hkeys; cbn [bind] in H;
      [| discriminate H].
    assert (keys = map fst (own_props first)) as ->.
    { destruct first; try discriminate Hkeys; now injection Hkeys as <-. }
    destruct (forEachM _ (first :: rows) []) as [ps | e] eqn:Hloop; cbn [bind] in H;
      [| discriminate H].
    apply Ok_inj in H. rewrite <- H. cbn [sql params].
    rewrite (rows_params_length _ _ _ Hloop).
    rewrite !count_placeholders_app, !count_join by reflexivity.
    rewrite Ht, (sum_clean Hk).
    change (fun _ : Value => "(" ++ join ", " (map (fun _ : string => "?")
                                                  (map fst (own_props first))) ++ ")")
      with (fun _ : Value => row_placeholders (map fst (own_props first))).
    rewrite sum_const, count_row_placeholders. simpl. lia.
Qed.

Lemma insert_placeholders_match_params_witness :
  let this := MongoInsertBuilder_insertMany (new_MongoInsertBuilder "users")
                (VArr [ VObj [("name", VStr "a"); ("age", VNum 4)];
                        VObj [("age", VNum 5); ("city", VStr "x")];
                        VNum 7 ]) in
  let r := mkStatement "INSERT INTO users (name, age) VALUES (?, ?), (?, ?), (?, ?)"
             [PVal (VStr "a"); PVal (VNum 4); PVal VUndefined; PVal (VNum 5);
              PVal VUndefined; PVal VUndefined] in
  MongoInsertBuilder_toSQL this = Ok r
  /\ truthy (upsertEnabled this) = false
  /\ count_placeholders (ins_tableName this) = 0
  /\ Forall (fun k => count_placeholders k = 0) (insert_keys this)
  /\ count_placeholders (sql r) = length (params r).
Proof.
  cbv zeta.
  assert (Hk : Forall (fun k => count_placeholders k = 0)
                 (insert_keys
                    (MongoInsertBuilder_insertMany (new_MongoInsertBuilder "users")
                       (VArr [ VObj [("name", VStr "a"); ("age", VNum 4)];
                               VObj [("age", VNum 5); ("city", VStr "x")];
                               VNum 7 ]))))
    by (repeat constructor).
  split; [reflexivity | split; [reflexivity | split; [reflexivity | split; [exact Hk |]]]].
  exact (@insert_placeholders_match_params
           (MongoInsertBuilder_insertMany (new_MongoInsertBuilder "users")
              (VArr [ VObj [("name", VStr "a"); ("age", VNum 4)];
                      VObj [("age", VNum 5); ("city", VStr "x")];
                      VNum 7 ]))
           (mkStatement "INSERT INTO users (name, age) VALUES (?, ?), (?, ?), (?, ?)"
              [PVal (VStr "a"); PVal (VNum 4); PVal VUndefined; PVal (VNum 5);
               PVal VUndefined; PVal VUndefined])
           eq_refl eq_refl eq_refl Hk).
Defined.

(* ------------------------------------------------------------------ *)
(** ** The class of [example/insert.js] *)

Lemma upsert_enabled_statement (b : MongoInsertBuilder) (r : Statement) :
  MongoInsertBuilder_toSQL b = Ok r ->
  truthy (upsertEnabled b) = true ->
  exists front clause, sql r = front ++ " ON DUPLICATE KEY UPDATE " ++ clause.
Proof.
  intros Hr Hon. destruct (@insert_statement_shape _ _ Hr) as (sql0 & Hsql & _).
  unfold with_upsert in Hsql. rewrite Hon in Hsql.
  destruct (upsert_clause (upsertFields b) (insert_keys b)) as [c | e]; cbn [bind] in Hsql;
    [| discriminate Hsql].
  apply Ok_inj in Hsql. now exists sql0, c.
Qed.

(** X14.  The class [crud] keeps one insert builder for all its calls,
    and [upsert] is only ever switched on.  Once a call of [insertOne]
    has passed an options object with a truthy [upsert], the builder has
    upsert enabled; every later [insertOne] that asks for no upsert (no
    options, or options whose [upsert] is falsy) leaves the upsert
    settings as they are, and its statement still has the
    [ON DUPLICATE KEY UPDATE] clause. *)
Theorem crud_upsert_option_sticks (this : crud) (d1 o1 : Value) (r1 : Statement)
  (this1 : crud) :
  crud_insertOne this d1 o1 = Ok (r1, this1) ->
  typeof_object o1 = true ->
  truthy (get_own o1 "upsert") = true ->
  truthy (upsertEnabled (table this1)) = true
  /\ forall d2 o2 r2 this2,
       truthy (get_own o2 "upsert") = false ->
       crud_insertOne this1 d2 o2 = Ok (r2, this2) ->
       upsertEnabled (table this2) = upsertEnabled (table this1)
       /\ upsertFields (table this2) = upsertFields (table this1)
       /\ exists front clause, sql r2 = front ++ " ON DUPLICATE KEY UPDATE " ++ clause.
Proof.
  intros H1 Hobj Hup.
  assert (Hon : truthy (upsertEnabled (table this1)) = true).
  { unfold crud_insertOne, crud_upsert in H1.
    destruct o1; try discriminate Hobj; try discriminate H1;
      rewrite Hobj, Hup in H1; cbn [andb] in H1;
      match type of H1 with
      | bind (bind ?c _) _ = _ => destruct c as [r | e]; cbn [bind] in H1;
                                  [| discriminate H1]
      end;
      apply Ok_inj in H1; injection H1 as _ <-;
      cbn [table MongoInsertBuilder_upsert upsertEnabled];
      match goal with
      | |- truthy (match ?u with VUndefined => _ | _ => _ end) = true =>
          destruct u; try discriminate Hup; first [reflexivity | exact Hup]
      end. }
  split; [exact Hon |].
  intros d2 o2 r2 this2 Hno H2. unfold crud_insertOne, crud_upsert in H2.
  assert (Hb : exists r,
             MongoInsertBuilder_toSQL (MongoInsertBuilder_insertOne (table this1) d2) = Ok r
             /\ r2 = r
             /\ this2 = mkCrud (MongoInsertBuilder_insertOne (table this1) d2)).
  { destruct o2; try discriminate H2;
      try (rewrite Hno in H2); rewrite ?andb_false_r in H2;
      match type of H2 with
      | bind (bind ?c _) _ = _ => destruct c as [r | e]; cbn [bind] in H2;
                                  [| discriminate H2]
      end;
      apply Ok_inj in H2; injection H2 as <- <-; exists r; repeat split. }
  destruct Hb as (r & Hr & -> & ->). cbn [table MongoInsertBuilder_insertOne
                                          upsertEnabled upsertFields].
  do 2 (split; [reflexivity |]).
  apply (upsert_enabled_statement _ Hr). exact Hon.
Qed.

Lemma crud_upsert_option_sticks_witness :
  let d1 := VObj [("name", VStr "test"); ("age", VNum 4)] in
  let o1 := VObj [("upsert", VBool true); ("fields", VArr [VStr "age"])] in
  let d2 := VObj [("name", VStr "next")] in
  exists r1 this1 r2 this2,
    crud_insertOne (new_crud "test") d1 o1 = Ok (r1, this1)
    /\ typeof_object o1 = true
    /\ truthy (get_own o1 "upsert") = true
    /\ truthy (get_own VUndefined "upsert") = false
    /\ crud_insertOne this1 d2 VUndefined = Ok (r2, this2)
    /\ sql r2 = "INSERT INTO test (name) VALUES (?) ON DUPLICATE KEY UPDATE age = VALUES(age)"
    /\ exists front clause, sql r2 = front ++ " ON DUPLICATE KEY UPDATE " ++ clause.
Proof.
  cbv zeta. do 4 eexists.
  split; [reflexivity |]. split; [reflexivity |]. split; [reflexivity |].
  split; [reflexivity |]. split; [reflexivity |]. split; [reflexivity |].
  refine (proj2 (proj2 (proj2 (@crud_upsert_option_sticks (new_crud "test")
                   (VObj [("name", VStr "test"); ("age", VNum 4)])
                   (VObj [("upsert", VBool true); ("fields", VArr [VStr "age"])])
                   _ _ eq_refl eq_refl eq_refl)
                 (VObj [("name", VStr "next")]) VUndefined _ _ eq_refl eq_refl))).
Defined.

(* ------------------------------------------------------------------ *)
(** ** The aggregation builder: [$lookup] and [$match] *)

Lemma aggregation_sql_split (table : string) (s : AggState) :
  aggregation_sql table s
  = aggregation_head table s ++ st_joinClause s ++ aggregation_rest s.
Proof.
  unfold aggregation_sql, aggregation_head, aggregation_rest.
  destruct (st_joinClause s) as [|c j] eqn:Hj; cbn [nonEmpty String.eqb negb];
    destruct (Nat.ltb 0 (length (comments s))),
             (Nat.ltb 0 (length (whereConditions s))),
             (nonEmpty (groupClause s)), (nonEmpty (havingClause s)),
             (nonEmpty (orderClause s));
    rewrite ?append_assoc, ?append_empty_r; cbn [append];
    rewrite ?append_assoc, ?append_empty_r; reflexivity.
Qed.

Ltac destruct_result c :=
  match type of c with
  | result (_ * _ * _) => destruct c as [[[? ?] ?] | ?]
  | result (_ * _) => destruct c as [[? ?] | ?]
  | _ => destruct c as [? | ?]
  end.

Ltac agg_step :=
  match goal with
  | |- context [if ?b then _ else _] => destruct b
  | |- context [match ?v with VArr _ => _ | _ => _ end] => destruct v
  | |- context [bind ?c _] =>
      lazymatch c with
      | bind _ _ => fail
      | Ok _ => fail
      | Throw _ => fail
      | _ => destruct_result c
      end
  end.

Lemma aggregation_stage_prefix (plugins : list OperatorPlugin) (table j : string)
  (stage : Stage) (s : AggState) :
  aggregation_stage plugins table stage (prefix_join j s)
  = (s' <- aggregation_stage plugins table stage s ;; Ok (prefix_join j s')).
Proof.
  destruct stage; unfold aggregation_stage, prefix_join;
    cbn [st_params whereConditions groupClause havingClause selectClause orderClause
         limitClause offsetClause comments st_joinClause];
    repeat (cbn [bind]; agg_step);
    cbn [bind st_params whereConditions groupClause havingClause selectClause orderClause
         limitClause offsetClause comments st_joinClause];
    rewrite ?append_assoc; reflexivity.
Qed.

Lemma pipeline_prefix (plugins : list OperatorPlugin) (table j : string)
  (pipeline : list Stage) (s : AggState) :
  forEachM (aggregation_stage plugins table) pipeline (prefix_join j s)
  = (s' <- forEachM (aggregation_stage plugins table) pipeline s ;; Ok (prefix_join j s')).
Proof.
  revert s. induction pipeline as [|stage pipeline IH]; intros s; cbn [forEachM bind];
    [reflexivity |].
  rewrite aggregation_stage_prefix.
  destruct (aggregation_stage plugins table stage s) as [s' | e]; cbn [bind];
    [apply IH | reflexivity].
Qed.

Lemma stage_join_grows (plugins : list OperatorPlugin) (table : string) (stage : Stage)
  (s s' : AggState) :
  aggregation_stage plugins table stage s = Ok s' ->
  (nonEmpty (st_joinClause s) = true \/ is_lookup stage = true) ->
  nonEmpty (st_joinClause s') = true.
Proof.
  destruct stage; unfold aggregation_stage; cbn [is_lookup];
    repeat (cbn [bind]; agg_step);
    try discriminate;
    intros H; apply Ok_inj in H; rewrite <- H; cbn [st_joinClause];
    try (intros [Hj | Hl]; [exact Hj | discriminate Hl]).
  intros _. apply nonEmpty_app_r. reflexivity.
Qed.

Lemma pipeline_join_grows (plugins : list OperatorPlugin) (table : string)
  (pipeline : list Stage) (s s' : AggState) :
  forEachM (aggregation_stage plugins table) pipeline s = Ok s' ->
  (nonEmpty (st_joinClause s) = true \/ existsb is_lookup pipeline = true) ->
  nonEmpty (st_joinClause s') = true.
Proof.
  revert s. induction pipeline as [|stage pipeline IH]; intros s; cbn [forEachM existsb].
  - intros H [Hj | Hl]; [| discriminate Hl]. apply Ok_inj in H. now rewrite <- H.
  - destruct (aggregation_stage plugins table stage s) as [s1 | e] eqn:Hs; [| discriminate].
    intros H Hor. apply (IH _ H).
    destruct (is_lookup stage) eqn:Hl.
    + left. apply (stage_join_grows _ _ _ _ Hs). now right.
    + cbn [orb] in Hor. destruct Hor as [Hj | Hp]; [| now right].
      left. apply (stage_join_grows _ _ _ _ Hs). now left.
Qed.

(** X15.  [toSQL] of the aggregation builder adds the JOIN text of its
    [$lookup] stages to the builder's own [joinClause] and leaves it
    there, so a second call adds it once more.  For a new builder with
    the pipeline [stages]: if the first [toSQL] returns the statement
    [head ++ J ++ rest], where [J] is the join clause the call leaves in
    the builder, then the second [toSQL] returns [head ++ J ++ J ++ rest]
    with the same parameters and leaves [J ++ J]; and [J] is not empty
    when the pipeline has a [$lookup] stage. *)
Theorem lookup_joins_pile_up (plugins : list OperatorPlugin) (t : string)
  (stages : list Stage) (r : Statement) (this' : MongoAggregationBuilder) :
  MongoAggregationBuilder_toSQL plugins (mkMongoAggregationBuilder t stages EmptyString)
  = Ok (r, this') ->
  exists head rest,
    sql r = head ++ joinClause this' ++ rest
    /\ MongoAggregationBuilder_toSQL plugins this'
       = Ok (mkStatement (head ++ (joinClause this' ++ joinClause this') ++ rest) (params r),
             mkMongoAggregationBuilder t stages (joinClause this' ++ joinClause this'))
    /\ (existsb is_lookup stages = true -> joinClause this' <> EmptyString).
Proof.
  unfold MongoAggregationBuilder_toSQL. cbn [agg_tableName pipeline joinClause].
  fold (initial_state EmptyString).
  destruct (forEachM (aggregation_stage plugins t) stages (initial_state EmptyString))
    as [s | e] eqn:Hs; cbn [bind]; [| discriminate].
  intros H. apply Ok_inj in H. injection H as <- <-.
  cbn [sql params joinClause agg_tableName pipeline].
  exists (aggregation_head t s), (aggregation_rest s).
  split; [apply aggregation_sql_split |]. split.
  - fold (initial_state (st_joinClause s)).
    replace (initial_state (st_joinClause s))
      with (prefix_join (st_joinClause s) (initial_state EmptyString))
      by (unfold prefix_join, initial_state; cbn; now rewrite append_empty_r).
    rewrite pipeline_prefix, Hs. cbn [bind].
    rewrite aggregation_sql_split. reflexivity.
  - intros Hl Hempty.
    assert (Hne : nonEmpty (st_joinClause s) = true)
      by (apply (pipeline_join_grows _ _ _ _ Hs); now right).
    rewrite Hempty in Hne. discriminate Hne.
Qed.

Lemma lookup_joins_pile_up_witness :
  let stages := [ StMatch (VObj [("status", VStr "paid")]);
                    StLookup (VStr "users") (VStr "user_id") (VStr "id") (VStr "u") ] in
  let J := " LEFT JOIN users AS u ON orders.user_id = u.id" in
  let r := mkStatement ("SELECT * FROM orders" ++ J ++ " WHERE status = ?")
             [PVal (VStr "paid")] in
  let this' := mkMongoAggregationBuilder "orders" stages J in
  MongoAggregationBuilder_toSQL [] (mkMongoAggregationBuilder "orders" stages EmptyString)
  = Ok (r, this')
  /\ MongoAggregationBuilder_toSQL [] this'
     = Ok (mkStatement ("SELECT * FROM orders" ++ J ++ J ++ " WHERE status = ?")
             [PVal (VStr "paid")],
           mkMongoAggregationBuilder "orders" stages (J ++ J))
  /\ exists head rest,
       sql r = head ++ joinClause this' ++ rest
       /\ MongoAggregationBuilder_toSQL [] this'
          = Ok (mkStatement (head ++ (joinClause this' ++ joinClause this') ++ rest)
                  (params r),
                mkMongoAggregationBuilder "orders" stages
                  (joinClause this' ++ joinClause this'))
       /\ (existsb is_lookup stages = true -> joinClause this' <> EmptyString).
Proof.
  cbv zeta. split; [reflexivity |]. split; [reflexivity |].
  exact (@lookup_joins_pile_up [] "orders"
           [ StMatch (VObj [("status", VStr "paid")]);
             StLookup (VStr "users") (VStr "user_id") (VStr "id") (VStr "u") ]
           _ _ eq_refl).
Defined.

Lemma stage_params (table : string) (stage : Stage) (s s' : AggState) :
  aggregation_stage [] table stage s = Ok s' ->
  exists ws,
    Forall2 (fun query wp => parseMongoQuery [] query [] "$match" = Ok wp)
      (match_filters [stage]) ws
    /\ whereConditions s' = push_all (whereConditions s) (map fst ws)
    /\ st_params s' = push_all (st_params s) (concat (map snd ws)).
Proof.
  assert (Hnone : forall s0 : AggState,
             exists ws : list (string * list param),
               Forall2 (fun query wp => parseMongoQuery [] query [] "$match" = Ok wp) [] ws
               /\ whereConditions s0 = push_all (whereConditions s0) (map fst ws)
               /\ st_params s0 = push_all (st_params s0) (concat (map snd ws))).
  { intros s0. exists []. unfold push_all. cbn [map concat].
    rewrite !app_nil_r. repeat split. constructor. }
  destruct stage as [query | groupObj | proj | sortObj | n | n
                    | from localField foreignField as_ | field];
    unfold aggregation_stage, match_filters; cbn [flat_map app].
  - (* $match *)
    destruct (truthy query); [| intros H; apply Ok_inj in H; subst s'; apply Hnone].
    rewrite <- (app_nil_r (st_params s)) at 1. rewrite translation_frame.
    destruct (parseMongoQuery [] query [] "$match") as [[w pw] | e] eqn:Hq; cbn [bind];
      [| discriminate].
    rewrite (clause_nonEmpty _ _ _ Hq).
    intros H. apply Ok_inj in H. subst s'. cbn [whereConditions st_params].
    exists [(w, pw)]. cbn [map concat fst snd]. unfold push_all, push.
    rewrite !app_nil_r.
    split; [constructor; [exact Hq | constructor] | split; reflexivity].
  - destruct (truthy groupObj); [| intros H; apply Ok_inj in H; subst s'; apply Hnone].
    destruct (parseGroupStage groupObj) as [[[sel grp] hav] | e]; cbn [bind];
      [| discriminate].
    intros H. apply Ok_inj in H. subst s'. apply (Hnone s).
  - destruct proj as [| | b | n | str | elems | props | sq];
      try (intros H; apply Ok_inj in H; subst s'; apply Hnone).
    destruct (join_values ", " elems) as [cols | e]; cbn [bind]; [| discriminate].
    intros H. apply Ok_inj in H. subst s'. apply (Hnone s).
  - destruct (truthy sortObj); intros H; apply Ok_inj in H; subst s'; apply (Hnone s).
  - destruct (truthy (VNum n)); intros H; apply Ok_inj in H; subst s'; apply (Hnone s).
  - destruct (truthy (VNum n)); intros H; apply Ok_inj in H; subst s'; apply (Hnone s).
  - destruct (ToString from) as [a | e]; cbn [bind]; [| discriminate].
    destruct (ToString as_) as [b | e]; cbn [bind]; [| discriminate].
    destruct (ToString localField) as [c | e]; cbn [bind]; [| discriminate].
    destruct (ToString foreignField) as [d | e]; cbn [bind]; [| discriminate].
    intros H. apply Ok_inj in H. subst s'. apply (Hnone s).
  - destruct (truthy field); [| intros H; apply Ok_inj in H; subst s'; apply Hnone].
    destruct (ToString field) as [a | e]; cbn [bind]; [| discriminate].
    intros H. apply Ok_inj in H. subst s'. apply (Hnone s).
Qed.

Lemma pipeline_params (table : string) (stages : list Stage) (s s' : AggState) :
  forEachM (aggregation_stage [] table) stages s = Ok s' ->
  exists ws,
    Forall2 (fun query wp => parseMongoQuery [] query [] "$match" = Ok wp)
      (match_filters stages) ws
    /\ whereConditions s' = push_all (whereConditions s) (map fst ws)
    /\ st_params s' = push_all (st_params s) (concat (map snd ws)).
Proof.
  revert s. induction stages as [|stage stages IH]; intros s; cbn [forEachM].
  - intros H. apply Ok_inj in H. subst s'. exists []. unfold push_all.
    cbn [map concat]. rewrite !app_nil_r. repeat split. constructor.
  - destruct (aggregation_stage [] table stage s) as [s1 | e] eqn:Hs; [| discriminate].
    intros H. destruct (stage_params _ _ _ Hs) as (ws1 & Hf1 & Hw1 & Hp1).
    destruct (IH _ H) as (ws2 & Hf2 & Hw2 & Hp2).
    exists (ws1 ++ ws2)%list. split; [| split].
    + unfold match_filters in *. cbn [flat_map] in *. rewrite app_nil_r in Hf1.
      apply Forall2_app; [exact Hf1 | exact Hf2].
    + rewrite Hw2, Hw1. unfold push_all. now rewrite map_app, app_assoc.
    + rewrite Hp2, Hp1. unfold push_all. now rewrite map_app, concat_app, app_assoc.
Qed.

(** X16.  The parameters of an aggregation statement, built without
    plugins, are those of its [$match] stages and of no other stage: each
    [$match] filter binds exactly the parameters it binds when it is
    translated on its own, and these lists follow each other in pipeline
    order.  The conditions of the WHERE clause are the clauses of these
    filters, in the same order, in the state [s] in which the loop over
    the pipeline ends and from which the statement is put together; a
    pipeline without [$match] has no WHERE clause and no parameter. *)
Theorem aggregation_binds_match_params (this : MongoAggregationBuilder) (r : Statement)
  (this' : MongoAggregationBuilder) :
  MongoAggregationBuilder_toSQL [] this = Ok (r, this') ->
  exists (ws : list (string * list param)) (s : AggState),
    Forall2 (fun query wp => parseMongoQuery [] query [] "$match" = Ok wp)
      (match_filters (pipeline this)) ws
    /\ forEachM (aggregation_stage [] (agg_tableName this)) (pipeline this)
         (initial_state (joinClause this)) = Ok s
    /\ params r = concat (map snd ws)
    /\ whereConditions s = map fst ws
    /\ sql r = aggregation_head (agg_tableName this) s ++ st_joinClause s
               ++ aggregation_rest s.
Proof.
  unfold MongoAggregationBuilder_toSQL. fold (initial_state (joinClause this)).
  destruct (forEachM _ (pipeline this) _) as [s | e] eqn:Hs; cbn [bind]; [| discriminate].
  intros H. apply Ok_inj in H. injection H as <- _.
  destruct (pipeline_params _ _ _ Hs) as (ws & Hf & Hw & Hp).
  exists ws, s. cbn [sql params whereConditions st_params initial_state] in *.
  unfold push_all in *. cbn [app] in *.
  repeat split; try assumption. apply aggregation_sql_split.
Qed.

Lemma aggregation_binds_match_params_witness :
  let this := mkMongoAggregationBuilder "orders"
                [ StMatch (VObj [("status", VStr "paid")]);
                  StSort (VObj [("total", VNum (-1))]);
                  StMatch (VObj [("total", VObj [("$gt", VNum 100)])]);
                  StLimit 5 ] EmptyString in
  let r := mkStatement
             "SELECT * FROM orders WHERE status = ? AND total > ? ORDER BY total DESC LIMIT 5"
             [PVal (VStr "paid"); PVal (VNum 100)] in
  MongoAggregationBuilder_toSQL [] this = Ok (r, this)
  /\ exists (ws : list (string * list param)) (s : AggState),
       Forall2 (fun query wp => parseMongoQuery [] query [] "$match" = Ok wp)
         (match_filters (pipeline this)) ws
       /\ forEachM (aggregation_stage [] (agg_tableName this)) (pipeline this)
            (initial_state (joinClause this)) = Ok s
       /\ params r = concat (map snd ws)
       /\ whereConditions s = map fst ws
       /\ sql r = aggregation_head (agg_tableName this) s ++ st_joinClause s
                  ++ aggregation_rest s.
Proof.
  cbv zeta. split; [reflexivity |].
  exact (@aggregation_binds_match_params
           (mkMongoAggregationBuilder "orders"
              [ StMatch (VObj [("status", VStr "paid")]);
                StSort (VObj [("total", VNum (-1))]);
                StMatch (VObj [("total", VObj [("$gt", VNum 100)])]);
                StLimit 5 ] EmptyString)
           _ _ eq_refl).
Defined.

(* ------------------------------------------------------------------ *)
(** ** The group stage *)

Lemma prefix_empty (s : string) : prefix EmptyString s = true.
Proof. destruct s; reflexivity. Qed.

Lemma group_aggregate_supported (key operator column func : string) :
  aggregate_function operator = Some func ->
  group_aggregate key (VObj [(operator, VStr ("$" ++ column))])
  = Ok (func ++ "(" ++ column ++ ") AS " ++ key).
Proof.
  unfold aggregate_function, group_aggregate.
  cbn [Object_keys own_props map fst bind get_own own_props_all lookup].
  rewrite String.eqb_refl.
  destruct (operator =? "$sum"); [intros [= <-]; cbn; rewrite prefix_empty; reflexivity |].
  destruct (operator =? "$avg"); [intros [= <-]; cbn; rewrite prefix_empty; reflexivity |].
  destruct (operator =? "$min"); [intros [= <-]; cbn; rewrite prefix_empty; reflexivity |].
  destruct (operator =? "$max"); [intros [= <-]; cbn; rewrite prefix_empty; reflexivity | discriminate].
Qed.

Lemma group_accumulators_loop (accs : list (string * string * string))
  (selectParts : list string) :
  Forall (fun a => fst (fst a) <> "_id" /\ aggregate_function (snd (fst a)) <> None) accs ->
  forEachM
    (fun kv selectParts =>
       if fst kv =? "_id" then Ok selectParts
       else part <- group_aggregate (fst kv) (snd kv) ;; Ok (push selectParts part))
    (map accumulator_entry accs) selectParts
  = Ok (push_all selectParts (map accumulator_part accs)).
Proof.
  intros H. revert selectParts.
  induction H as [|[[key operator] column] accs [Hk Hop] _ IH]; intros selectParts;
    cbn [map forEachM].
  - unfold push_all. now rewrite app_nil_r.
  - cbn [fst snd accumulator_entry accumulator_part] in *.
    destruct (String.eqb_spec key "_id") as [-> | _]; [now elim Hk |].
    destruct (aggregate_function operator) as [func |] eqn:Hf; [| now elim Hop].
    rewrite (@group_aggregate_supported key operator column func Hf). cbn [bind].
    rewrite IH. unfold push, push_all. now rewrite <- app_assoc.
Qed.

(** X17.  A group stage [{ _id: '$f', k1: { op1: '$c1' }, ... }] whose
    accumulators are among [$sum], [$avg], [$min] and [$max] selects
    [f AS _id, FUNC1(c1) AS k1, ...] and groups by [f]; it never gives a
    HAVING clause.  An accumulator object whose first operator is any
    other one makes [parseGroupStage] throw a [SQLGenerationError] that
    names the operator. *)
Theorem group_stage_by_field (f : string) (accs : list (string * string * string)) :
  Forall (fun a => fst (fst a) <> "_id" /\ aggregate_function (snd (fst a)) <> None) accs ->
  parseGroupStage (VObj (("_id", VStr ("$" ++ f)) :: map accumulator_entry accs))
  = Ok (join ", " ((f ++ " AS _id") :: map accumulator_part accs), f, EmptyString)
  /\ forall key operator operand others,
       aggregate_function operator = None ->
       group_aggregate key (VObj ((operator, operand) :: others))
       = Throw (SQLGenerationError
                  ("不支持的聚合操作符: " ++ operator ++ " | Context: "
                   ++ JSON_stringify_string "parseGroupStage") None).
Proof.
  intros Haccs. split.
  - unfold parseGroupStage.
    cbn [get_own own_props_all own_props lookup String.eqb Ascii.eqb Bool.eqb truthy
         nonEmpty append negb bind forEachM fst snd].
    unfold startsWith. cbn [prefix]. rewrite prefix_empty.
    destruct (ascii_dec "$" "$") as [_ | Hn]; [| now elim Hn].
    cbn [substring1 bind String.eqb Ascii.eqb Bool.eqb].
    rewrite (group_accumulators_loop _ Haccs). cbn [bind]. reflexivity.
  - intros key operator operand others Hop. unfold aggregate_function in Hop.
    unfold group_aggregate. cbn [Object_keys own_props map fst bind].
    destruct (operator =? "$sum"); [discriminate Hop |].
    destruct (operator =? "$avg"); [discriminate Hop |].
    destruct (operator =? "$min"); [discriminate Hop |].
    destruct (operator =? "$max"); [discriminate Hop |].
    reflexivity.
Qed.

Lemma group_stage_by_field_witness :
  let accs := [("total", "$sum", "amount"); ("latest", "$max", "created_at")] in
  Forall (fun a => fst (fst a) <> "_id" /\ aggregate_function (snd (fst a)) <> None) accs
  /\ parseGroupStage
       (VObj [ ("_id", VStr "$customer_id");
               ("total", VObj [("$sum", VStr "$amount")]);
               ("latest", VObj [("$max", VStr "$created_at")]) ])
     = Ok ("customer_id AS _id, SUM(amount) AS total, MAX(created_at) AS latest",
           "customer_id", EmptyString).
Proof.
  cbv zeta.
  assert (H : Forall (fun a : string * string * string =>
                        fst (fst a) <> "_id" /\ aggregate_function (snd (fst a)) <> None)
                [("total", "$sum", "amount"); ("latest", "$max", "created_at")])
    by (repeat constructor; discriminate).
  split; [exact H |].
  exact (proj1 (@group_stage_by_field "customer_id"
                  [("total", "$sum", "amount"); ("latest", "$max", "created_at")] H)).
Defined.

(* ------------------------------------------------------------------ *)
(** ** Logical keys: children without conditions, and other [$] keys *)

Lemma empty_filter_clause (plugins : list OperatorPlugin) (child : Value)
  (params : list param) (context : string) :
  own_props child = [] ->
  parseMongoQuery plugins child params context = Ok ("1=1", params).
Proof. intros H. rewrite parseMongoQuery_for_in, H. reflexivity. Qed.

Lemma empty_children_clauses (plugins : list OperatorPlugin) (children : list Value)
  (label : nat -> string) (i : nat) (params : list param) :
  Forall (fun child => own_props child = []) children ->
  mapM_idx (fun subQuery idx params =>
              '(cond, params') <- parseMongoQuery plugins subQuery params (label idx) ;;
              Ok (cond, params'))
    children i params
  = Ok (map (fun _ => "1=1") children, params).
Proof.
  intros H. revert i. induction H as [|child children Hc _ IH]; intros i;
    cbn [mapM_idx map]; [reflexivity |].
  rewrite (empty_filter_clause _ _ _ _ Hc). cbn [bind]. now rewrite IH.
Qed.

Lemma filter_trivial (A : Type) (l : list A) :
  List.filter (fun cond => nonEmpty cond && negb (cond =? "1=1")) (map (fun _ => "1=1") l)
  = [].
Proof. induction l as [|x l IH]; [reflexivity | exact IH]. Qed.

(** X18.  When none of the children under [$or] or [$nor] adds a
    condition (each is an empty object, an empty array, [null], a number:
    a value without properties of its own), the key is treated as with
    the empty array, however many children there are: [$or] gives [1=0]
    and [$nor] gives [1=1], and no parameter is bound. *)
Theorem logical_key_drops_empty_children (plugins : list OperatorPlugin)
  (children : list Value) (params : list param) (context : string) :
  Forall (fun child => own_props child = []) children ->
  parseMongoQuery plugins (VObj [("$or", VArr children)]) params context
  = Ok ("1=0", params)
  /\ parseMongoQuery plugins (VObj [("$nor", VArr children)]) params context
     = Ok ("1=1", params).
Proof.
  intros H. split; cbn [parseMongoQuery forEachM fst snd]; unfold parseEntry;
    cbn [startsWith prefix String.eqb Ascii.eqb Bool.eqb map_parse];
    rewrite (empty_children_clauses plugins _ 0 params H); cbn [bind];
    rewrite filter_trivial; reflexivity.
Qed.

Lemma logical_key_drops_empty_children_witness :
  Forall (fun child => own_props child = []) [VObj []; VNull; VArr []]
  /\ parseMongoQuery [] (VObj [("$or", VArr [VObj []; VNull; VArr []])]) [] "root"
     = Ok ("1=0", []).
Proof.
  assert (H : Forall (fun child => own_props child = []) [VObj []; VNull; VArr []])
    by (repeat constructor).
  split; [exact H |].
  exact (proj1 (@logical_key_drops_empty_children [] [VObj []; VNull; VArr []] []
                  "root" H)).
Defined.

(** X19.  A key of a filter that starts with [$] and is none of [$or],
    [$nor] and [$and] is never refused as an unsupported operator.  With
    a value that is not a non-empty array it gives the condition [1=0].
    With an array of one child it gives the clause of the child in two
    pairs of parentheses, and the operator does not appear at all:
    [{$not: [A]}] gives [((A))].  With two children it gives
    [((A) OP (B))], where [OP] is the entry of the operator table for the
    key, or the key itself as it is written when the table has none. *)
Theorem other_dollar_key_is_never_refused (plugins : list OperatorPlugin) (key : string)
  (params : list param) (context : string) :
  startsWith key "$" = true ->
  key <> "$or" -> key <> "$nor" -> key <> "$and" ->
  (forall value,
      (forall child rest, value <> VArr (child :: rest)) ->
      parseMongoQuery plugins (VObj [(key, value)]) params context = Ok ("1=0", params))
  /\ (forall A tA pA,
      parseMongoQuery plugins A params (context ++ "->" ++ key ++ "[0]") = Ok (tA, pA) ->
      parseMongoQuery plugins (VObj [(key, VArr [A])]) params context
      = Ok ("((" ++ tA ++ "))", pA))
  /\ (forall A B tA pA tB pB,
      parseMongoQuery plugins A params (context ++ "->" ++ key ++ "[0]") = Ok (tA, pA) ->
      parseMongoQuery plugins B pA (context ++ "->" ++ key ++ "[1]") = Ok (tB, pB) ->
      parseMongoQuery plugins (VObj [(key, VArr [A; B])]) params context
      = Ok ("((" ++ tA ++ ") "
            ++ match table_lookup key OPERATORS_MYSQL with
               | Some sqlOperator => sqlOperator
               | None => key
               end
            ++ " (" ++ tB ++ "))", pB)).
Proof.
  intros Hd Hor Hnor Hand.
  assert (Hentry : forall value conditions p,
             parseEntry plugins (parseMongoQuery plugins) context key value (conditions, p)
             = tryCatch (handleLogicalOperators (parseMongoQuery plugins) key value
                           conditions p context)
                 (fun e => Throw (QueryParseError (message e) (Some context)))).
  { intros value conditions p. unfold parseEntry. rewrite Hd.
    destruct (String.eqb_spec key "$or") as [-> | _]; [now elim Hor |].
    destruct (String.eqb_spec key "$nor") as [-> | _]; [now elim Hnor |].
    destruct (String.eqb_spec key "$and") as [-> | _]; [now elim Hand |].
    reflexivity. }
  assert (Hk1 : (key =? "$nor") = false) by now apply String.eqb_neq.
  assert (Hk2 : (key =? "$and") = false) by now apply String.eqb_neq.
  split; [| split].
  - intros value Hv. cbn [parseMongoQuery forEachM fst snd]. rewrite Hentry.
    unfold handleLogicalOperators. rewrite Hk2.
    destruct value as [| | b | n | s | [|child rest] | props | sq]; try reflexivity.
    now elim (Hv child rest).
  - intros A tA pA HA. cbn [parseMongoQuery forEachM fst snd]. rewrite Hentry.
    unfold handleLogicalOperators. cbn [map_parse mapM_idx].
    replace (context ++ "->" ++ key ++ "[" ++ nat_to_string 0 ++ "]")
      with (context ++ "->" ++ key ++ "[0]") by reflexivity.
    rewrite HA. cbn [bind]. rewrite Hk1. unfold join.
    cbn [tryCatch String.concat whereClause_of push app].
    rewrite ?append_assoc. cbn [append]. rewrite ?append_assoc. reflexivity.
  - intros A B tA pA tB pB HA HB. cbn [parseMongoQuery forEachM fst snd]. rewrite Hentry.
    unfold handleLogicalOperators. cbn [map_parse mapM_idx].
    replace (context ++ "->" ++ key ++ "[" ++ nat_to_string 0 ++ "]")
      with (context ++ "->" ++ key ++ "[0]") by reflexivity.
    rewrite HA. cbn [bind].
    replace (context ++ "->" ++ key ++ "[" ++ nat_to_string 1 ++ "]")
      with (context ++ "->" ++ key ++ "[1]") by reflexivity.
    rewrite HB. cbn [bind]. rewrite Hk1. unfold join.
    cbn [tryCatch String.concat whereClause_of push app].
    rewrite ?append_assoc. cbn [append]. rewrite ?append_assoc. reflexivity.
Qed.

Lemma other_dollar_key_is_never_refused_witness :
  startsWith "$not" "$" = true
  /\ "$not" <> "$or" /\ "$not" <> "$nor" /\ "$not" <> "$and"
  /\ parseMongoQuery [] (VObj [("$not", VObj [("a", VNum 1)])]) [] "root" = Ok ("1=0", [])
  /\ parseMongoQuery [] (VObj [("$not", VArr [VObj [("a", VNum 1)]])]) [] "root"
     = Ok ("((" ++ "a = ?" ++ "))", [PVal (VNum 1)]).
Proof.
  assert (H1 : "$not" <> "$or") by discriminate.
  assert (H2 : "$not" <> "$nor") by discriminate.
  assert (H3 : "$not" <> "$and") by discriminate.
  pose proof (@other_dollar_key_is_never_refused [] "$not" [] "root" eq_refl H1 H2 H3)
    as (Ha & Hb & _).
  split; [reflexivity |]. split; [exact H1 |]. split; [exact H2 |]. split; [exact H3 |].
  split.
  - apply Ha. intros child rest. discriminate.
  - apply (Hb (VObj [("a", VNum 1)]) "a = ?" [PVal (VNum 1)]). reflexivity.
Defined.

(* ------------------------------------------------------------------ *)
(** ** Registering a second plugin for an operator *)

Lemma mapM_idx_ext (A B St : Type) (f g : A -> nat -> St -> result (B * St))
  (l : list A) (i : nat) (s : St) :
  Forall (fun x => forall j s', f x j s' = g x j s') l ->
  mapM_idx f l i s = mapM_idx g l i s.
Proof.
  intros H. revert i s. induction H as [|x l Hx _ IH]; intros i s; cbn [mapM_idx];
    [reflexivity |].
  rewrite Hx. destruct (g x i s) as [[b s'] | e]; [| reflexivity]. now rewrite IH.
Qed.

Section SamePlugins.

Variables ps1 ps2 : list OperatorPlugin.

Hypothesis same_plugins : forall operator, plugin_for ps1 operator = plugin_for ps2 operator.

Lemma same_subquery_step (sq : SubQuery) :
  same_translation ps1 ps2 (filter (queryBuilder sq)) -> same_subquery ps1 ps2 sq.
Proof.
  intros H. unfold same_subquery, SubQuery_toSQL, SubQuery_getParams,
              SubQuery_toSQL_with, SubQuery_getParams_with, MongoQueryBuilder_toSQL_with.
  rewrite !H. split; reflexivity.
Qed.

Lemma same_embed (sq : SubQuery) (conditions : list string) (params : list param)
  (text : string -> string) :
  same_subquery ps1 ps2 sq ->
  ('(subSql, _) <- SubQuery_toSQL_with (parseMongoQuery ps1) sq ;;
   ps <- SubQuery_getParams_with (parseMongoQuery ps1) sq ;;
   Ok (push conditions (text subSql), push_all params ps))
  = ('(subSql, _) <- SubQuery_toSQL_with (parseMongoQuery ps2) sq ;;
     ps <- SubQuery_getParams_with (parseMongoQuery ps2) sq ;;
     Ok (push conditions (text subSql), push_all params ps)).
Proof.
  intros [Ht Hp]. unfold SubQuery_toSQL, SubQuery_getParams in *. now rewrite Ht, Hp.
Qed.

Lemma same_array_operators (field : string) (values : Value) (operator : string)
  (conditions : list string) (params : list param) (context : string) :
  operand_ok (same_subquery ps1 ps2) values ->
  handleArrayOperators (parseMongoQuery ps1) field values operator conditions params context
  = handleArrayOperators (parseMongoQuery ps2) field values operator conditions params
      context.
Proof.
  intros Hok. unfold handleArrayOperators.
  destruct values as [| | b | n | s | [|v vs] | props | sq]; try reflexivity.
  cbn [operand_ok] in Hok.
  destruct (existsb isSubQuery (v :: vs)); [| reflexivity].
  f_equal. apply mapM_idx_ext. eapply Forall_impl; [| exact Hok].
  intros x Hx j p. unfold array_element.
  destruct x; try reflexivity. cbn [element_ok] in Hx. destruct Hx as [Ht Hp].
  unfold SubQuery_toSQL, SubQuery_getParams in *. now rewrite Ht, Hp.
Qed.

Lemma same_operator (field : string) (opValue : Value) (operator : string)
  (conditions : list string) (params : list param) (context : string) :
  operand_ok (same_subquery ps1 ps2) opValue ->
  handleOperator ps1 (parseMongoQuery ps1) field opValue operator conditions params context
  = handleOperator ps2 (parseMongoQuery ps2) field opValue operator conditions params
      context.
Proof.
  intros Hok. unfold handleOperator.
  fold (plugin_for ps1 operator). fold (plugin_for ps2 operator). rewrite same_plugins.
  destruct (plugin_for ps2 operator); [reflexivity |].
  destruct opValue; try reflexivity.
  apply (@same_embed sq conditions params (fun subSql => field ++ " IN " ++ subSql)).
  exact Hok.
Qed.

Lemma same_field_operator (context key op : string) (opValue : Value)
  (st : list string * list param) :
  (startsWith op "$" = true -> operand_ok (same_subquery ps1 ps2) opValue) ->
  parseFieldOperator ps1 (parseMongoQuery ps1) context key op opValue st
  = parseFieldOperator ps2 (parseMongoQuery ps2) context key op opValue st.
Proof.
  intros Hok. unfold parseFieldOperator. destruct st as [fieldConds params].
  destruct (startsWith op "$"); [| reflexivity]. specialize (Hok eq_refl).
  destruct (op =? "$in"), opValue;
    try (apply (@same_embed sq fieldConds params (fun subResult => key ++ " IN " ++ subResult));
         exact Hok);
    destruct (existsb (String.eqb op) ["$in"; "$nin"; "$all"]);
    first [now apply same_array_operators | now apply same_operator].
Qed.

Lemma same_map_parse (value : Value) (label : nat -> string) (wrap : string -> string)
  (params : list param) :
  entry_ok (same_translation ps1 ps2) (same_subquery ps1 ps2) value ->
  map_parse (parseMongoQuery ps1) value label wrap params
  = map_parse (parseMongoQuery ps2) value label wrap params.
Proof.
  intros Hok. destruct value; try reflexivity. cbn [entry_ok] in Hok.
  unfold map_parse. apply mapM_idx_ext. eapply Forall_impl; [| exact Hok].
  intros child Hc j p. now rewrite Hc.
Qed.

Lemma same_entry (context key : string) (value : Value) (st : list string * list param) :
  entry_ok (same_translation ps1 ps2) (same_subquery ps1 ps2) value ->
  parseEntry ps1 (parseMongoQuery ps1) context key value st
  = parseEntry ps2 (parseMongoQuery ps2) context key value st.
Proof.
  intros Hok. unfold parseEntry. destruct st as [conditions params]. f_equal.
  destruct (startsWith key "$").
  - unfold handleLogicalOperators.
    assert (Hmp := fun label wrap p => @same_map_parse value label wrap p Hok).
    rewrite !Hmp. reflexivity.
  - destruct value; try reflexivity.
    + f_equal. apply forEachM_ext. cbn [entry_ok] in Hok.
      eapply Forall_impl; [| exact Hok]. intros kv Hkv st'.
      now apply same_field_operator.
    + apply (@same_embed sq conditions params (fun subResult => key ++ " IN " ++ subResult)).
      exact Hok.
Qed.

Lemma same_translation_step (v : Value) :
  Forall (fun kv => entry_ok (same_translation ps1 ps2) (same_subquery ps1 ps2) (snd kv))
    (own_props v) ->
  same_translation ps1 ps2 v.
Proof.
  intros Hok params context. rewrite !parseMongoQuery_for_in. f_equal.
  apply forEachM_ext. eapply Forall_impl; [| exact Hok].
  intros kv Hkv st. now apply same_entry.
Qed.

Lemma same_translation_everywhere (v : Value) : same_translation ps1 ps2 v.
Proof.
  assert (H : everywhere (both (fun _ => True) (same_translation ps1 ps2)) v).
  { apply (@hereditary (fun _ => True) (same_translation ps1 ps2)
             (same_subquery ps1 ps2)).
    - intros sq _. apply same_subquery_step.
    - intros v' _. apply same_translation_step.
    - apply everywhere_True. }
  apply (everywhere_here H).
Qed.

End SamePlugins.

Lemma find_push (A : Type) (f : A -> bool) (l : list A) (x y : A) :
  find f l = Some x -> find f (l ++ [y])%list = Some x.
Proof.
  induction l as [|z l IH]; cbn [find app]; [discriminate |].
  destruct (f z); [trivial | exact IH].
Qed.

Lemma find_push_other (A : Type) (f : A -> bool) (l : list A) (y : A) :
  f y = false -> find f (l ++ [y])%list = find f l.
Proof.
  intros Hy. induction l as [|z l IH]; cbn [find app]; [now rewrite Hy |].
  destruct (f z); [reflexivity | exact IH].
Qed.

(** X20.  [registerOperatorPlugin] adds its plugin at the end of the
    registry and [handleOperator] takes the first plugin it finds for an
    operator: a plugin registered for an operator that already has one
    is never called.  Registering it changes the translation of no
    filter. *)
Theorem second_plugin_for_an_operator_is_ignored (plugins : list OperatorPlugin)
  (operator : string)
  (handler : string -> Value -> list string -> list param -> string ->
             result (list string * list param))
  (first : OperatorPlugin) :
  plugin_for plugins operator = Some first ->
  forall query params context,
    parseMongoQuery (registerOperatorPlugin plugins operator handler) query params context
    = parseMongoQuery plugins query params context.
Proof.
  intros Hfirst query. apply same_translation_everywhere.
  intros op. unfold plugin_for, registerOperatorPlugin in *.
  destruct (String.eqb_spec operator op) as [<- | Hne].
  - rewrite Hfirst. now apply find_push.
  - apply find_push_other. cbn [plugin_operator]. now apply String.eqb_neq.
Qed.

Lemma second_plugin_for_an_operator_is_ignored_witness :
  let plugins := registerOperatorPlugin [] "$near" (plugin_handler (marker_plugin "$near")) in
  let handler := fun (field : string) (opValue : Value) (conditions : list string)
                     (params : list param) (context : string) =>
                   Ok (push conditions ("OTHER(" ++ field ++ ")"), params) in
  plugin_for plugins "$near" = Some (marker_plugin "$near")
  /\ parseMongoQuery (registerOperatorPlugin plugins "$near" handler)
       (VObj [("loc", VObj [("$near", VNum 1)])]) [] "root"
     = Ok ("PLUGIN(loc)", []).
Proof.
  cbv zeta. split; [reflexivity |].
  rewrite (@second_plugin_for_an_operator_is_ignored
             (registerOperatorPlugin [] "$near" (plugin_handler (marker_plugin "$near")))
             "$near"
             (fun field opValue conditions params context =>
                Ok (push conditions ("OTHER(" ++ field ++ ")"), params))
             (marker_plugin "$near") eq_refl).
  reflexivity.
Defined.

(* ------------------------------------------------------------------ *)
(** ** [mongoToMySQLWithJoinsOptimized] *)

Lemma lookup_deleted (key : string) (props : list (string * Value)) :
  lookup key (List.filter (fun kv => negb (fst kv =? key)) props) = VUndefined.
Proof.
  induction props as [|[k v] props IH]; [reflexivity |].
  cbn [List.filter fst]. destruct (k =? key) eqn:Hk; cbn [negb]; [exact IH |].
  cbn [lookup]. now rewrite Hk.
Qed.

(** X21.  [mongoToMySQLWithJoinsOptimized] uses a truthy [$project]
    entry of the filter object for the select list only, and deletes it
    from the object it was given: the WHERE clause is that of the other
    entries, the object the caller holds has no [$project] entry after
    the call, and passing it again gives the same statement with [*] as
    its select list. *)
Theorem joins_function_consumes_the_projection (plugins : list OperatorPlugin)
  (props : list (string * Value)) (t : string) (joins : list JoinConfig)
  (limit : option Z) (orderBy : option string) (r : Statement) (query' : Value) :
  truthy (lookup "$project" props) = true ->
  mongoToMySQLWithJoinsOptimized plugins (VObj props) t joins limit orderBy
  = Ok (r, query') ->
  query' = VObj (List.filter (fun kv => negb (fst kv =? "$project")) props)
  /\ get_own query' "$project" = VUndefined
  /\ exists selectClause rest,
       sql r = "SELECT " ++ selectClause ++ rest
       /\ parseProjectStage_of_value (lookup "$project" props)
            (prepareJoinMappings joins) t = Ok selectClause
       /\ mongoToMySQLWithJoinsOptimized plugins query' t joins limit orderBy
          = Ok (mkStatement ("SELECT " ++ "*" ++ rest) (params r), query').
Proof.
  intros Hp H. unfold mongoToMySQLWithJoinsOptimized at 1 in H. unfold get_own in H.
  cbn [own_props_all own_props delete_prop] in H. rewrite Hp in H.
  destruct (parseProjectStage_of_value _ _ _) as [sel | e]; cbn [bind] in H;
    [| discriminate H].
  set (q' := List.filter (fun kv => negb (fst kv =? "$project")) props) in *.
  destruct (parseMongoQuery plugins (VObj q') [] "mongoToMySQLWithJoinsOptimized")
    as [[w ps] | e] eqn:Hw; cbn [bind] in H; [| discriminate H].
  apply Ok_inj in H. injection H as <- <-. cbn [sql params].
  assert (Hgone : lookup "$project" q' = VUndefined) by apply lookup_deleted.
  split; [reflexivity |]. split; [exact Hgone |].
  exists sel. eexists. split; [reflexivity |]. split; [reflexivity |].
  unfold mongoToMySQLWithJoinsOptimized, get_own.
  cbn [own_props_all own_props]. rewrite Hgone. cbn [truthy bind]. rewrite Hw.
  reflexivity.
Qed.

Lemma joins_function_consumes_the_projection_witness :
  let props := [("age", VObj [("$gt", VNum 18)]); ("$project", VArr [VStr "name"])] in
  let r := mkStatement
             "SELECT users.name AS users_name FROM users WHERE age > ? ORDER BY id DESC LIMIT 10"
             [PVal (VNum 18)] in
  let query' := VObj [("age", VObj [("$gt", VNum 18)])] in
  truthy (lookup "$project" props) = true
  /\ mongoToMySQLWithJoinsOptimized [] (VObj props) "users" [] None None = Ok (r, query')
  /\ mongoToMySQLWithJoinsOptimized [] query' "users" [] None None
     = Ok (mkStatement "SELECT * FROM users WHERE age > ? ORDER BY id DESC LIMIT 10"
             [PVal (VNum 18)], query')
  /\ get_own query' "$project" = VUndefined.
Proof.
  cbv zeta. split; [reflexivity |]. split; [reflexivity |]. split; [reflexivity |].
  exact (proj1 (proj2 (@joins_function_consumes_the_projection []
                         [("age", VObj [("$gt", VNum 18)]); ("$project", VArr [VStr "name"])]
                         "users" [] None None _ _ eq_refl eq_refl))).
Defined.

Lemma lookup_absent_app (key : string) (props : list (string * Value)) (v : Value) :
  hasOwnProperty props key = false -> lookup key (props ++ [(key, v)])%list = v.
Proof.
  unfold hasOwnProperty. induction props as [|[k x] props IH]; cbn [existsb app lookup fst].
  - intros _. now rewrite String.eqb_refl.
  - destruct (k =? key); [discriminate | exact IH].
Qed.

Lemma delete_absent_app (key : string) (props : list (string * Value)) (v : Value) :
  hasOwnProperty props key = false ->
  List.filter (fun kv => negb (fst kv =? key)) (props ++ [(key, v)])%list = props.
Proof.
  unfold hasOwnProperty.
  induction props as [|[k x] props IH]; cbn [existsb app List.filter fst].
  - intros _. now rewrite String.eqb_refl.
  - destruct (k =? key); [discriminate |]. cbn [negb]. intros H. now rewrite (IH H).
Qed.

Lemma project_strings (fields : list string) (joinMappings : JoinMappings) (main : string) :
  parseProjectStage_of_value (VArr (map VStr fields)) joinMappings main
  = Ok (parseProjectStageWithJoinsOptimized fields joinMappings main).
Proof.
  unfold parseProjectStage_of_value.
  assert (H : mapM (project_key joinMappings main) (map VStr fields)
              = Ok (map (fun s => parseProjectStageWithJoinsOptimized [s] joinMappings main)
                      fields)).
  { induction fields as [|s fields IH]; [reflexivity |].
    cbn [map mapM project_key bind]. now rewrite IH. }
  rewrite H. cbn [bind]. reflexivity.
Qed.

(** X22.  With at least one join, [mongoToMySQLWithJoinsOptimized]
    given a filter object that ends with [$project: fields], translated
    without plugins, returns a statement exactly when the chain
    [new MongoQueryBuilder(t).query(filter).project(fields).join(joins)
    .sort(orderBy).limit(limit).toSQL()] returns it, [filter] being the
    object without the [$project] entry, provided [orderBy] is not the
    empty string. *)
Theorem joins_function_is_a_select_chain (props : list (string * Value))
  (fields : list string) (t : string) (joins : list JoinConfig) (limit : Z)
  (orderBy : string) (r : Statement) :
  hasOwnProperty props "$project" = false ->
  joins <> [] ->
  nonEmpty orderBy = true ->
  (mongoToMySQLWithJoinsOptimized [] (with_project props fields) t joins
     (Some limit) (Some orderBy) = Ok (r, VObj props)
   <-> select_chain_with_joins [] t (VObj props) fields joins orderBy limit = Ok r).
Proof.
  intros Hno Hj Ho.
  assert (Hchain :
    select_chain_with_joins [] t (VObj props) fields joins orderBy limit
    = ('(w, ps) <- parseMongoQuery [] (VObj props) [] "SELECT" ;;
       Ok (mkStatement
             ("SELECT "
              ++ parseProjectStageWithJoinsOptimized fields (prepareJoinMappings joins) t
              ++ " FROM " ++ t ++ generateJoinClause joins ++ " WHERE " ++ w
              ++ " ORDER BY " ++ orderBy ++ " LIMIT " ++ Z_to_string limit) ps))).
  { unfold select_chain_with_joins, MongoQueryBuilder_query.
    rewrite (@accumulate_first (filter (new_MongoQueryBuilder t)) (VObj props) eq_refl).
    cbn [bind].
    unfold MongoQueryBuilder_toSQL, MongoQueryBuilder_toSQL_with.
    cbn [MongoQueryBuilder_limit MongoQueryBuilder_sort MongoQueryBuilder_join
         MongoQueryBuilder_project set_filter new_MongoQueryBuilder
         filter projection joinConfigs tableName sortClause limitValue offsetValue].
    destruct joins as [|j joins]; [now elim Hj |].
    cbn [length Nat.ltb Nat.leb].
    destruct (parseMongoQuery [] (VObj props) [] "SELECT") as [[w ps] | e] eqn:Hw;
      cbn [bind]; [| reflexivity].
    rewrite (clause_nonEmpty _ _ _ Hw), Ho.
    rewrite ?append_assoc. cbn [append]. rewrite ?append_assoc. reflexivity. }
  rewrite Hchain. unfold mongoToMySQLWithJoinsOptimized, with_project, get_own.
  cbn [own_props_all own_props delete_prop].
  rewrite (lookup_absent_app _ _ _ Hno). cbn [truthy].
  rewrite project_strings. cbn [bind]. rewrite (delete_absent_app _ _ _ Hno).
  pose proof (@insensitive_everywhere [] (VObj props) []
                "mongoToMySQLWithJoinsOptimized" "SELECT") as H.
  cbn [app] in H.
  destruct (parseMongoQuery [] (VObj props) [] "mongoToMySQLWithJoinsOptimized")
    as [[w1 p1] | e1],
    (parseMongoQuery [] (VObj props) [] "SELECT") as [[w2 p2] | e2];
    cbn [same_outcome bind] in *; try contradiction.
  - destruct H as [-> ->]. split; intros Hr; apply Ok_inj in Hr.
    + injection Hr as <-. reflexivity.
    + now rewrite <- Hr.
  - split; intros Hr; discriminate Hr.
Qed.

Lemma joins_function_is_a_select_chain_witness :
  let props := [("age", VObj [("$gt", VNum 18)])] in
  let joins := [mkJoinConfig "orders" (Some "o") "LEFT JOIN" "users.id = o.user_id"] in
  let r := mkStatement
             ("SELECT users.name AS users_name, o.total AS o_total FROM users"
              ++ " LEFT JOIN orders AS o ON users.id = o.user_id"
              ++ " WHERE age > ? ORDER BY id DESC LIMIT 20")
             [PVal (VNum 18)] in
  hasOwnProperty props "$project" = false
  /\ joins <> []
  /\ nonEmpty "id DESC" = true
  /\ mongoToMySQLWithJoinsOptimized [] (with_project props ["name"; "o.total"]) "users" joins
       (Some 20%Z) (Some "id DESC") = Ok (r, VObj props)
  /\ select_chain_with_joins [] "users" (VObj props) ["name"; "o.total"] joins "id DESC" 20
     = Ok r.
Proof.
  cbv zeta.
  assert (Hj : [mkJoinConfig "orders" (Some "o") "LEFT JOIN" "users.id = o.user_id"] <> [])
    by discriminate.
  split; [reflexivity | split; [exact Hj | split; [reflexivity | split; [reflexivity |]]]].
  exact (proj1 (@joins_function_is_a_select_chain
                  [("age", VObj [("$gt", VNum 18)])] ["name"; "o.total"] "users"
                  [mkJoinConfig "orders" (Some "o") "LEFT JOIN" "users.id = o.user_id"]
                  20%Z "id DESC" _ eq_refl Hj eq_refl)
           eq_refl).
Defined.

(* ------------------------------------------------------------------ *)
(** ** The select list of a projection with joins *)

Lemma has_dot_app (a s : string) : has_dot (a ++ String "." s) = true.
Proof.
  induction a as [|c a IH]; cbn [append has_dot]; [reflexivity |].
  rewrite IH. apply orb_true_r.
Qed.

Lemma split_dot_aux_segment (a s cur : string) :
  has_dot a = false -> split_dot_aux (a ++ s) cur = split_dot_aux s (cur ++ a).
Proof.
  revert cur. induction a as [|c a IH]; intros cur; cbn [append has_dot split_dot_aux].
  - intros _. now rewrite append_empty_r.
  - intros H. apply orb_false_elim in H. destruct H as [Hc Ha]. rewrite Hc.
    rewrite (IH _ Ha), append_assoc. reflexivity.
Qed.

Lemma split_dot_two (alias col more : string) :
  has_dot alias = false -> has_dot col = false ->
  more = EmptyString \/ startsWith more "." = true ->
  exists rest, split_dot (alias ++ "." ++ col ++ more) = alias :: col :: rest.
Proof.
  intros Ha Hc Hmore. unfold split_dot.
  rewrite (@split_dot_aux_segment alias _ EmptyString Ha).
  cbn [append split_dot_aux Ascii.eqb Bool.eqb].
  rewrite (@split_dot_aux_segment col _ EmptyString Hc). cbn [append].
  destruct Hmore as [-> | Hm].
  - exists []. reflexivity.
  - destruct more as [|c more]; [discriminate Hm |].
    unfold startsWith in Hm. cbn [prefix] in Hm.
    destruct (ascii_dec "." c) as [<- | _]; [| discriminate Hm].
    cbn [split_dot_aux Ascii.eqb Bool.eqb]. eexists. reflexivity.
Qed.

Lemma existsb_mapped (A B : Type) (p : B -> bool) (f : A -> B) (l : list A) :
  existsb p (map f l) = existsb (fun x => p (f x)) l.
Proof. induction l as [|x l IH]; simpl; [reflexivity | now rewrite IH]. Qed.

Lemma assign_own_keys (A : Type) (key alias : string) (x : A)
  (props : list (string * A)) :
  existsb (fun kv => fst kv =? alias) (assign_own key x props)
  = existsb (fun kv => fst kv =? alias) props || (key =? alias).
Proof.
  induction props as [|[k v] props IH]; cbn [assign_own existsb fst].
  - now rewrite orb_false_r.
  - destruct (String.eqb_spec k key) as [-> | Hne]; cbn [existsb fst].
    + destruct (key =? alias); [reflexivity | now rewrite orb_false_r].
    + rewrite IH. now rewrite orb_assoc.
Qed.

(** The properties of [mappings] after the loop of
    [prepareJoinMappings] has run over [joins]: those it had, and the
    names of the joins other than [__proto__]. *)
Lemma mappings_own_names (joins : list JoinConfig) (start : JoinMappings)
  (alias : string) :
  existsb (fun kv => fst kv =? alias)
    (mappings_own
       (fold_left
          (fun mappings j =>
             assign_mapping mappings (join_name j)
               (mkJoinMapping (join_tableName j) (join_joinType j) (join_on j)
                  (join_name j)))
          joins start))
  = existsb (fun kv => fst kv =? alias) (mappings_own start)
    || existsb (fun j => (join_name j =? alias) && negb (join_name j =? "__proto__")) joins.
Proof.
  revert start. induction joins as [|j joins IH]; intros start; cbn [fold_left existsb].
  - now rewrite orb_false_r.
  - rewrite IH. unfold assign_mapping.
    destruct (join_name j =? "__proto__"); cbn [mappings_own negb].
    + now rewrite andb_false_r.
    + rewrite assign_own_keys, andb_true_r. now rewrite orb_assoc.
Qed.

(** Its prototype: the mapping of the last join named [__proto__], if
    there is one. *)
Lemma mappings_proto_last (joins : list JoinConfig) (start : JoinMappings) :
  mappings_proto
    (fold_left
       (fun mappings j =>
          assign_mapping mappings (join_name j)
            (mkJoinMapping (join_tableName j) (join_joinType j) (join_on j)
               (join_name j)))
       joins start)
  = match prototype_join joins with
    | Some j =>
        Some (mkJoinMapping (join_tableName j) (join_joinType j) (join_on j)
                (join_name j))
    | None => mappings_proto start
    end.
Proof.
  unfold prototype_join.
  revert start. induction joins as [|j joins IH] using rev_ind; intros start;
    [reflexivity |].
  rewrite fold_left_app, rev_app_distr. cbn [fold_left rev app find].
  unfold assign_mapping at 1.
  destruct (join_name j =? "__proto__"); cbn [mappings_proto]; [reflexivity | apply IH].
Qed.

Lemma prototype_join_name (joins : list JoinConfig) (j : JoinConfig) :
  prototype_join joins = Some j -> join_name j = "__proto__".
Proof.
  unfold prototype_join. intros H. apply find_some in H.
  now apply String.eqb_eq.
Qed.

(** [joinMappings[alias]] is truthy exactly for the names of
    [names_a_join]. *)
Lemma mapping_truthy_names (joins : list JoinConfig) (alias : string) :
  mapping_truthy (prepareJoinMappings joins) alias = names_a_join joins alias.
Proof.
  unfold mapping_truthy, prepareJoinMappings, names_a_join.
  change (fun mappings j =>
            let alias0 :=
              match join_alias j with
              | Some a => if nonEmpty a then a else join_tableName j
              | None => join_tableName j
              end in
            assign_mapping mappings alias0
              (mkJoinMapping (join_tableName j) (join_joinType j) (join_on j) alias0))
    with (fun mappings j =>
            assign_mapping mappings (join_name j)
              (mkJoinMapping (join_tableName j) (join_joinType j) (join_on j)
                 (join_name j))).
  rewrite mappings_own_names, mappings_proto_last. cbn [mappings_own existsb orb].
  destruct (String.eqb_spec alias "__proto__") as [-> | Hne].
  - (* the name of the accessor itself *)
    replace (existsb (fun j => (join_name j =? "__proto__")
                               && negb (join_name j =? "__proto__")) joins)
      with false
      by (symmetry; induction joins as [|j joins IH]; cbn [existsb];
          [reflexivity | rewrite IH; now destruct (join_name j =? "__proto__")]).
    rewrite orb_true_r. cbn [orb].
    destruct (prototype_join joins); reflexivity.
  - replace (existsb (fun j => (join_name j =? alias)
                               && negb (join_name j =? "__proto__")) joins)
      with (existsb (fun j => alias =? join_name j) joins).
    2:{ induction joins as [|j joins IH]; cbn [existsb]; [reflexivity |].
        rewrite IH. f_equal. rewrite (String.eqb_sym alias).
        destruct (String.eqb_spec (join_name j) alias) as [-> | _]; [| reflexivity].
        apply String.eqb_neq in Hne. now rewrite Hne. }
    destruct (existsb (fun j => alias =? join_name j) joins); [reflexivity |].
    cbn [orb]. unfold mapping_member.
    destruct (prototype_join joins) as [j |] eqn:Hj;
      [| now rewrite orb_false_r].
    cbn [mapping_tableName mapping_joinType mapping_on mapping_alias].
    rewrite (prototype_join_name _ Hj).
    destruct (String.eqb_spec alias "tableName") as [-> | _];
      [cbn; now destruct (nonEmpty (join_tableName j)) |].
    destruct (String.eqb_spec alias "joinType") as [-> | _];
      [cbn; now destruct (nonEmpty (join_joinType j)) |].
    destruct (String.eqb_spec alias "on") as [-> | _];
      [cbn; now destruct (nonEmpty (join_on j)) |].
    destruct (String.eqb_spec alias "alias") as [-> | _]; [reflexivity |].
    cbn [andb orb]. unfold inherited_name. now rewrite orb_false_r.
Qed.

(** X23.  In a projection with joins a field [alias.col], with or
    without further segments [.more], is taken from a join when
    [mappings[alias]] is truthy; it then becomes [alias.col AS alias_col],
    and the further segments are dropped.  That is so when the first
    segment is the name of a join: its alias, or its table name when it
    has no alias.  It is also so for a name under which objects inherit a
    member, such as [constructor] or [toString], although no join has it.
    And a join named [__proto__] adds no name of its own but puts its
    mapping in the place of the prototype, so that after it the names
    [tableName], [joinType], [on] and [alias] count as joins too, each
    when the last such join holds a non-empty string there.  In every
    other case the whole field is qualified by the main table:
    [main.field AS main_field]. *)
Theorem projection_of_a_dotted_field (joins : list JoinConfig)
  (main alias col more : string) :
  has_dot alias = false -> has_dot col = false ->
  more = EmptyString \/ startsWith more "." = true ->
  parseProjectStageWithJoinsOptimized [alias ++ "." ++ col ++ more]
    (prepareJoinMappings joins) main
  = (if names_a_join joins alias
     then alias ++ "." ++ col ++ " AS " ++ alias ++ "_" ++ col
     else main ++ "." ++ (alias ++ "." ++ col ++ more)
          ++ " AS " ++ main ++ "_" ++ (alias ++ "." ++ col ++ more)).
Proof.
  intros Ha Hc Hmore. unfold parseProjectStageWithJoinsOptimized. cbn [map].
  destruct (@split_dot_two alias col more Ha Hc Hmore) as (rest & ->).
  cbn [append]. rewrite has_dot_app.
  cbn [nth]. rewrite mapping_truthy_names. reflexivity.
Qed.

Lemma projection_of_a_dotted_field_witness :
  let joins := [mkJoinConfig "orders" (Some "o") "LEFT JOIN" "users.id = o.user_id";
                mkJoinConfig "profiles" None "INNER JOIN" "users.id = profiles.user_id"] in
  let shadowing :=
    (joins ++ [mkJoinConfig "archive" (Some "__proto__") "" "1 = 1"])%list in
  has_dot "o" = false /\ has_dot "total" = false
  /\ startsWith ".net.eur" "." = true
  /\ parseProjectStageWithJoinsOptimized ["o.total.net.eur"] (prepareJoinMappings joins)
       "users"
     = "o.total AS o_total"
  /\ parseProjectStageWithJoinsOptimized ["profiles.bio"] (prepareJoinMappings joins) "users"
     = "profiles.bio AS profiles_bio"
  /\ parseProjectStageWithJoinsOptimized ["toString.x"] (prepareJoinMappings joins) "users"
     = "toString.x AS toString_x"
  /\ parseProjectStageWithJoinsOptimized ["address.city"] (prepareJoinMappings joins) "users"
     = "users.address.city AS users_address.city"
  /\ parseProjectStageWithJoinsOptimized ["tableName.x"] (prepareJoinMappings joins) "users"
     = "users.tableName.x AS users_tableName.x"
  /\ parseProjectStageWithJoinsOptimized ["tableName.x"] (prepareJoinMappings shadowing)
       "users"
     = "tableName.x AS tableName_x"
  /\ parseProjectStageWithJoinsOptimized ["joinType.x"] (prepareJoinMappings shadowing)
       "users"
     = "users.joinType.x AS users_joinType.x".
Proof.
  cbv zeta. split; [reflexivity |]. split; [reflexivity |]. split; [reflexivity |].
  split; [| repeat split].
  exact (@projection_of_a_dotted_field
           [mkJoinConfig "orders" (Some "o") "LEFT JOIN" "users.id = o.user_id";
            mkJoinConfig "profiles" None "INNER JOIN" "users.id = profiles.user_id"]
           "users" "o" "total" ".net.eur" eq_refl eq_refl (or_intror eq_refl)).
Defined.

(* ------------------------------------------------------------------ *)
(** ** Operands that are a [SubQuery], and operands that are no array *)

(** X24.  A [SubQuery] among the operands always compiles to [IN],
    whatever the operator says.  An array operand that holds a [SubQuery]
    gives the same condition [field IN (...)] and the same parameters
    under [$nin] and [$all] as under [$in].  A [SubQuery] as the operand
    of any operator that has no plugin, other than [$nin] and [$all],
    gives what it gives under [$in]: [field IN (subquery)], which is also
    what a [SubQuery] gives as the value of the field itself.  Under
    [$nin] and [$all] a [SubQuery] operand is no array: [$nin] gives [1=1]
    and [$all] no condition at all. *)
Theorem subquery_operand_compiles_to_IN (plugins : list OperatorPlugin) (field : string)
  (params : list param) (context : string) :
  (forall vs operator,
      existsb isSubQuery vs = true ->
      operator = "$nin" \/ operator = "$all" ->
      parseMongoQuery plugins (VObj [(field, VObj [(operator, VArr vs)])]) params context
      = parseMongoQuery plugins (VObj [(field, VObj [("$in", VArr vs)])]) params context)
  /\ (forall sq operator,
      startsWith operator "$" = true ->
      operator <> "$nin" -> operator <> "$all" ->
      plugin_for plugins operator = None ->
      parseMongoQuery plugins (VObj [(field, VObj [(operator, VSubQuery sq)])]) params
        context
      = parseMongoQuery plugins (VObj [(field, VObj [("$in", VSubQuery sq)])]) params
          context)
  /\ (forall sq,
      startsWith field "$" = false ->
      parseMongoQuery plugins (VObj [(field, VSubQuery sq)]) params context
      = parseMongoQuery plugins (VObj [(field, VObj [("$in", VSubQuery sq)])]) params
          context)
  /\ (forall sq,
      startsWith field "$" = false ->
      parseMongoQuery plugins (VObj [(field, VObj [("$nin", VSubQuery sq)])]) params context
      = Ok ("1=1", params)
      /\ parseMongoQuery plugins (VObj [(field, VObj [("$all", VSubQuery sq)])]) params
           context
         = Ok ("1=1", params)).
Proof.
  split; [| split; [| split]].
  - intros vs operator Hsub Hop. cbn [parseMongoQuery forEachM fst snd].
    unfold parseEntry. destruct (startsWith field "$"); [reflexivity |].
    cbn [forEachM fst snd]. unfold parseFieldOperator.
    destruct Hop as [-> | ->]; cbn [startsWith prefix String.eqb Ascii.eqb Bool.eqb existsb orb];
      unfold handleArrayOperators; destruct vs as [|v vs]; try discriminate Hsub;
      rewrite Hsub; reflexivity.
  - intros sq operator Hd Hnin Hall Hnone. cbn [parseMongoQuery forEachM fst snd].
    unfold parseEntry. destruct (startsWith field "$"); [reflexivity |].
    cbn [forEachM fst snd]. unfold parseFieldOperator. rewrite Hd.
    cbn [startsWith prefix String.eqb Ascii.eqb Bool.eqb].
    destruct (String.eqb_spec operator "$in") as [-> | Hin]; [reflexivity |].
    cbn [existsb]. apply String.eqb_neq in Hin, Hnin, Hall.
    rewrite Hin, Hnin, Hall. cbn [orb].
    unfold handleOperator. fold (plugin_for plugins operator). rewrite Hnone.
    reflexivity.
  - intros sq Hf. cbn [parseMongoQuery forEachM fst snd]. unfold parseEntry. rewrite Hf.
    cbn [forEachM fst snd]. unfold parseFieldOperator.
    cbn [startsWith prefix String.eqb Ascii.eqb Bool.eqb].
    destruct (SubQuery_toSQL_with (parseMongoQuery plugins) sq) as [[text sq'] | e];
      cbn [bind]; [| reflexivity].
    destruct (SubQuery_getParams_with (parseMongoQuery plugins) sq) as [ps | e];
      reflexivity.
  - intros sq Hf. split; cbn [parseMongoQuery forEachM fst snd]; unfold parseEntry;
      rewrite Hf; reflexivity.
Qed.

Lemma subquery_operand_compiles_to_IN_witness :
  let sub := new_SubQuery
               (MongoQueryBuilder_project
                  (plain_select "orders" (VObj [("total", VObj [("$gt", VNum 100)])]))
                  ["user_id"]) in
  existsb isSubQuery [VSubQuery sub; VNum 7] = true
  /\ parseMongoQuery [] (VObj [("id", VObj [("$nin", VArr [VSubQuery sub; VNum 7])])]) []
       "root"
     = Ok ("id IN ((SELECT user_id FROM orders WHERE total > ?), ?)",
           [PVal (VNum 100); PVal (VNum 7)])
  /\ parseMongoQuery [] (VObj [("id", VObj [("$nin", VArr [VSubQuery sub; VNum 7])])]) []
       "root"
     = parseMongoQuery [] (VObj [("id", VObj [("$in", VArr [VSubQuery sub; VNum 7])])]) []
         "root".
Proof.
  cbv zeta. split; [reflexivity |]. split; [reflexivity |].
  exact (proj1 (@subquery_operand_compiles_to_IN [] "id" [] "root")
           [VSubQuery
              (new_SubQuery
                 (MongoQueryBuilder_project
                    (plain_select "orders" (VObj [("total", VObj [("$gt", VNum 100)])]))
                    ["user_id"]));
            VNum 7]
           "$nin" eq_refl (or_introl eq_refl)).
Defined.

(** X25.  An array operator whose operand is no array, or the empty
    array, never throws.  For a field [f] (a key that does not start with
    [$]) and an operand that is no [SubQuery]: [{f: {$in: x}}] gives
    [1=0], [{f: {$nin: x}}] gives [1=1], and [{f: {$all: x}}] adds no
    condition, so that the filter gives [1=1]; no parameter is bound.
    This holds with any plugins, also with one registered for the
    operator. *)
Theorem array_operator_without_an_array (plugins : list OperatorPlugin) (field : string)
  (operand : Value) (params : list param) (context : string) :
  startsWith field "$" = false ->
  (forall v vs, operand <> VArr (v :: vs)) ->
  isSubQuery operand = false ->
  parseMongoQuery plugins (VObj [(field, VObj [("$in", operand)])]) params context
  = Ok ("1=0", params)
  /\ parseMongoQuery plugins (VObj [(field, VObj [("$nin", operand)])]) params context
     = Ok ("1=1", params)
  /\ parseMongoQuery plugins (VObj [(field, VObj [("$all", operand)])]) params context
     = Ok ("1=1", params).
Proof.
  intros Hf Harr Hsub.
  repeat split; cbn [parseMongoQuery forEachM fst snd]; unfold parseEntry; rewrite Hf;
    destruct operand as [| | b | n | s | [|v vs] | props | sq];
    try discriminate Hsub; try reflexivity; now elim (Harr v vs).
Qed.

Lemma array_operator_without_an_array_witness :
  startsWith "tags" "$" = false
  /\ (forall v vs, VStr "red" <> VArr (v :: vs))
  /\ isSubQuery (VStr "red") = false
  /\ parseMongoQuery [] (VObj [("tags", VObj [("$all", VStr "red")])]) [] "root"
     = Ok ("1=1", []).
Proof.
  assert (H : forall v vs, VStr "red" <> VArr (v :: vs)) by discriminate.
  split; [reflexivity | split; [exact H | split; [reflexivity |]]].
  exact (proj2 (proj2 (@array_operator_without_an_array [] "tags" (VStr "red") [] "root"
                         eq_refl H eq_refl))).
Defined.

(** X26.  The keys [$or], [$nor] and [$and] call [map] on their value:
    with a value that is no array the translation throws, and what the
    caller gets is a [QueryParseError] with the context of the filter,
    where any other key that starts with [$] gives [1=0]. *)
Theorem logical_key_needs_an_array (plugins : list OperatorPlugin) (key : string)
  (value : Value) (params : list param) (context : string) :
  key = "$or" \/ key = "$nor" \/ key = "$and" ->
  (forall children, value <> VArr children) ->
  exists msg,
    parseMongoQuery plugins (VObj [(key, value)]) params context
    = Throw (QueryParseError msg (Some context)).
Proof.
  intros Hkey Harr.
  destruct Hkey as [-> | [-> | ->]]; cbn [parseMongoQuery forEachM fst snd];
    unfold parseEntry; cbn [startsWith prefix String.eqb Ascii.eqb Bool.eqb];
    destruct value as [| | b | n | s | children | props | sq];
    try (now elim (Harr children)); cbn [map_parse bind tryCatch message];
    eexists; reflexivity.
Qed.

Lemma logical_key_needs_an_array_witness :
  exists msg,
    parseMongoQuery [] (VObj [("$or", VObj [("a", VNum 1)])]) [] "root"
    = Throw (QueryParseError msg (Some "root")).
Proof.
  assert (H : forall children, VObj [("a", VNum 1)] <> VArr children) by discriminate.
  exact (@logical_key_needs_an_array [] "$or" (VObj [("a", VNum 1)]) [] "root"
           (or_introl eq_refl) H).
Defined.

(* ------------------------------------------------------------------ *)
(** ** What [update] accepts *)

Lemma bulk_rows_loop (idField : string) (rows : list Value) :
  forEachM
    (fun obj (_ : unit) =>
       has <- has_own obj idField ;;
       if has then Ok tt
       else handleError ("每个更新对象必须包含 '" ++ idField ++ "' 字段")
              "MongoUpdateBuilder" SQLGenerationError)
    rows tt
  = Ok tt
  <-> Forall (carries idField) rows.
Proof.
  induction rows as [|row rows IH]; cbn [forEachM].
  - split; [constructor | reflexivity].
  - pose proof (carries_has_own idField row) as Hrow.
    destruct (has_own row idField) as [[|] | e]; cbn [bind].
    + rewrite IH. split; [intros H; constructor; [now apply Hrow | exact H]
                         | now inversion 1].
    + split; [discriminate |]. inversion 1 as [|? ? Hc _]; subst.
      apply Hrow in Hc. discriminate Hc.
    + split; [discriminate |]. inversion 1 as [|? ? Hc _]; subst.
      apply Hrow in Hc. discriminate Hc.
Qed.

(** The loop stops at the first row that does not carry the field, with
    the error of that row. *)
Lemma bulk_rows_loop_stops (idField : string) (before after : list Value) (row : Value)
  (e : JsError) :
  Forall (carries idField) before ->
  (has <- has_own row idField ;;
   if has then Ok tt
   else handleError ("每个更新对象必须包含 '" ++ idField ++ "' 字段")
          "MongoUpdateBuilder" SQLGenerationError) = Throw e ->
  forEachM
    (fun obj (_ : unit) =>
       has <- has_own obj idField ;;
       if has then Ok tt
       else handleError ("每个更新对象必须包含 '" ++ idField ++ "' 字段")
              "MongoUpdateBuilder" SQLGenerationError)
    (before ++ row :: after) tt
  = Throw e.
Proof.
  intros Hbefore Hrow.
  induction Hbefore as [|obj before Hobj _ IH]; cbn [app forEachM].
  - now rewrite Hrow.
  - apply carries_has_own in Hobj. rewrite Hobj. cbn [bind]. exact IH.
Qed.

(** X27.  [update] checks the rows of a bulk update when it is called,
    not when the statement is built: [update(rows)] returns exactly when
    every row carries the identity field, that is, the row is neither
    [null] nor [undefined], has no property of its own named
    [hasOwnProperty], and has the identity field as a property of its
    own; the builder then holds the rows and no operator object.  The
    first row that does not carry the field decides the error: the
    [SQLGenerationError] that names the field when the row can be asked
    and lacks it, a [TypeError] when the row cannot be asked.  In general
    a call of [update] that returns leaves the builder with either an
    operator object or rows, never both, whatever an earlier call had
    set, and with its table, identity field, filter and [single] flag as
    they were. *)
Theorem update_checks_rows_at_once (this : MongoUpdateBuilder) :
  (forall rows this',
      MongoUpdateBuilder_update this (VArr rows) = Ok this'
      <-> Forall (carries (idField this)) rows
          /\ this' = mkMongoUpdateBuilder (upd_tableName this) (idField this) None
                       (Some rows) (upd_filter this) (singleUpdate this))
  /\ (forall before row after,
      Forall (carries (idField this)) before ->
      answers row = true ->
      ~ In (idField this) (own_keys row) ->
      MongoUpdateBuilder_update this (VArr (before ++ row :: after))
      = Throw (missing_identity (idField this)))
  /\ (forall before row after,
      Forall (carries (idField this)) before ->
      answers row = false ->
      exists text,
        MongoUpdateBuilder_update this (VArr (before ++ row :: after))
        = Throw (TypeError text))
  /\ (forall updateData this',
      MongoUpdateBuilder_update this updateData = Ok this' ->
      (dataObj this' = None <-> dataArray this' <> None)
      /\ upd_tableName this' = upd_tableName this
      /\ idField this' = idField this
      /\ upd_filter this' = upd_filter this
      /\ singleUpdate this' = singleUpdate this).
Proof.
  split; [| split; [| split]].
  - intros rows this'. unfold MongoUpdateBuilder_update.
    pose proof (bulk_rows_loop (idField this) rows) as Hloop.
    destruct (forEachM _ rows tt) as [[] | e]; cbn [bind].
    + split.
      * intros H. apply Ok_inj in H. split; [now apply Hloop | now symmetry].
      * intros [_ ->]. reflexivity.
    + split; [discriminate |]. intros [Hall _]. apply Hloop in Hall. discriminate Hall.
  - intros before row after Hbefore Hask Hlacks. unfold MongoUpdateBuilder_update.
    rewrite (@bulk_rows_loop_stops (idField this) before after row
               (missing_identity (idField this)) Hbefore); [reflexivity |].
    rewrite (@has_own_answers row (idField this) Hask).
    replace (sets_column (idField this) row) with false; [reflexivity |].
    symmetry. apply not_true_is_false. intros Hsets. apply Hlacks.
    unfold sets_column in Hsets. apply existsb_exists in Hsets.
    destruct Hsets as (k & Hin & Hk). apply String.eqb_eq in Hk. now subst k.
  - intros before row after Hbefore Hask. unfold MongoUpdateBuilder_update.
    assert (Hrow : exists text, has_own row (idField this) = Throw (TypeError text)).
    { destruct row as [| | b | n | s | elems | props | sq]; cbn [answers] in Hask;
        try discriminate Hask; cbn [has_own]; eauto.
      rewrite hasOwnProperty_keys.
      destruct (existsb (String.eqb "hasOwnProperty") (map fst props));
        [eauto | discriminate Hask]. }
    destruct Hrow as [text Hrow]. exists text.
    rewrite (@bulk_rows_loop_stops (idField this) before after row (TypeError text)
               Hbefore); [reflexivity |].
    now rewrite Hrow.
  - intros updateData this'. unfold MongoUpdateBuilder_update.
    destruct updateData as [| | b | n | s | rows | props | sq]; try discriminate.
    + destruct (forEachM _ rows tt) as [[] | e]; cbn [bind]; [| discriminate].
      intros H. apply Ok_inj in H. subst this'.
      cbn [dataObj dataArray upd_tableName idField upd_filter singleUpdate].
      repeat split; first [discriminate | intros; reflexivity].
    + cbn [Object_keys bind]. intros H. apply Ok_inj in H. subst this'.
      cbn [dataObj dataArray upd_tableName idField upd_filter singleUpdate].
      repeat split; first [discriminate | intros H; now elim H].
    + cbn [Object_keys bind]. intros H. apply Ok_inj in H. subst this'.
      cbn [dataObj dataArray upd_tableName idField upd_filter singleUpdate].
      repeat split; first [discriminate | intros H; now elim H].
Qed.

Lemma update_checks_rows_at_once_witness :
  let this := new_MongoUpdateBuilder "users" None in
  let rows := [VObj [("id", VNum 1); ("name", VStr "a")]; VObj [("id", VNum 2)]] in
  let shadowed := VObj [("id", VNum 3); ("hasOwnProperty", VNum 1)] in
  Forall (carries (idField this)) rows
  /\ MongoUpdateBuilder_update this (VArr rows)
     = Ok (mkMongoUpdateBuilder "users" "id" None (Some rows) (VObj []) false)
  /\ answers shadowed = false
  /\ exists text,
       MongoUpdateBuilder_update this (VArr (rows ++ [shadowed]))
       = Throw (TypeError text).
Proof.
  cbv zeta.
  assert (H : Forall (carries (idField (new_MongoUpdateBuilder "users" None)))
                [VObj [("id", VNum 1); ("name", VStr "a")]; VObj [("id", VNum 2)]])
    by (unfold carries; repeat constructor; cbn; auto).
  split; [exact H |]. split; [| split; [reflexivity |]].
  - exact (proj2 (proj1 (@update_checks_rows_at_once
                            (new_MongoUpdateBuilder "users" None))
                    [VObj [("id", VNum 1); ("name", VStr "a")]; VObj [("id", VNum 2)]]
                    (mkMongoUpdateBuilder "users" "id" None
                       (Some [VObj [("id", VNum 1); ("name", VStr "a")];
                              VObj [("id", VNum 2)]])
                       (VObj []) false))
             (conj H eq_refl)).
  - exact (proj1 (proj2 (proj2 (@update_checks_rows_at_once
                                  (new_MongoUpdateBuilder "users" None))))
             [VObj [("id", VNum 1); ("name", VStr "a")]; VObj [("id", VNum 2)]]
             (VObj [("id", VNum 3); ("hasOwnProperty", VNum 1)]) [] H eq_refl).
Defined.

(* ------------------------------------------------------------------ *)
(** ** Placeholders and parameters of whole statements *)

Lemma clause_count (f : Value) (context w : string) (ps : list param) :
  everywhere fresh_cache f -> everywhere clean_names f ->
  parseMongoQuery [] f [] context = Ok (w, ps) ->
  count_placeholders w = length ps.
Proof.
  intros Hfresh Hclean H.
  destruct (aligned_everywhere Hfresh _ _ H) as [-> ->]. unfold push_all. cbn [app].
  apply clean_fragment_count. now apply clean_everywhere.
Qed.

Lemma count_Z (n : Z) : count_placeholders (Z_to_string n) = 0.
Proof.
  unfold Z_to_string, NilZero.string_of_int.
  destruct (Z.to_int n) as [d | d]; unfold NilZero.string_of_uint.
  - destruct d; try reflexivity; apply (count_digits (_ _)).
  - cbn [count_placeholders Ascii.eqb Bool.eqb].
    destruct d; try reflexivity; apply (count_digits (_ _)).
Qed.

Lemma sum_push (l : list string) (x : string) :
  list_total (map count_placeholders (push l x))
  = list_total (map count_placeholders l) + count_placeholders x.
Proof.
  unfold push. induction l as [|y l IH]; simpl; [lia | rewrite IH; lia].
Qed.

Lemma fold_left_invariant (A St : Type) (Inv : St -> Prop) (P : A -> Prop)
  (f : St -> A -> St) (l : list A) :
  Forall P l ->
  (forall x s, P x -> Inv s -> Inv (f s x)) ->
  forall s, Inv s -> Inv (fold_left f l s).
Proof.
  intros Hl Hf. induction Hl as [|x l Hx _ IH]; intros s Hs; cbn [fold_left];
    [exact Hs |].
  apply IH. now apply Hf.
Qed.

Lemma forEachM_invariant_on (A St : Type) (Inv : St -> Prop) (P : A -> Prop)
  (f : A -> St -> result St) (l : list A) :
  Forall P l ->
  (forall x s s', P x -> Inv s -> f x s = Ok s' -> Inv s') ->
  forall s s', Inv s -> forEachM f l s = Ok s' -> Inv s'.
Proof.
  intros Hl Hf. induction Hl as [|x l Hx _ IH]; intros s s' Hs H; cbn [forEachM] in H.
  - apply Ok_inj in H. now subst s'.
  - destruct (f x s) as [s1 | e] eqn:Hfx; [| discriminate H].
    eapply IH; [| exact H]. eapply Hf; eassumption.
Qed.

Lemma counted_push_bound (st : list string * list param) (text : string) (p : param) :
  count_placeholders text = 1 -> counted st ->
  counted (push (fst st) text, push (snd st) p).
Proof.
  unfold counted. cbn [fst snd]. intros Ht Hst. rewrite sum_push, Ht, Hst.
  unfold push. rewrite length_app. simpl. lia.
Qed.

Lemma update_operator_counted (updateOps : Value) (op : string)
  (st st' : list string * list param) :
  clean_update updateOps ->
  counted st -> update_operator updateOps op st = Ok st' -> counted st'.
Proof.
  intros Hclean Hst. unfold update_operator. destruct st as [setClauses params].
  destruct (op =? "$set").
  { destruct (if truthy (get_own updateOps "$set") then _ else _) as [keys | e];
      cbn [bind]; [| discriminate].
    destruct (Nat.eqb (length keys) 0); [discriminate |].
    apply (@forEachM_invariant_on _ _ counted
             (fun kv => count_placeholders (fst kv) = 0) _ _ (Hclean "$set"));
      [| exact Hst].
    intros [k v] [cl ps] s' Hk Hs. cbn [fst snd] in *.
    destruct v; try discriminate; intros H; apply Ok_inj in H; subst s';
      apply (@counted_push_bound (cl, ps)); try exact Hs;
      rewrite count_placeholders_app, Hk; reflexivity. }
  destruct (op =? "$inc").
  { intros H. apply Ok_inj in H. subst st'.
    apply (@fold_left_invariant _ _ counted
             (fun kv => count_placeholders (fst kv) = 0) _ _ (Hclean "$inc"));
      [| exact Hst].
    intros [k v] s Hk Hs. cbn [fst snd] in *. apply counted_push_bound; [| exact Hs].
    rewrite !count_placeholders_app, Hk. reflexivity. }
  destruct (op =? "$unset").
  { destruct (typeof_object (get_own updateOps "$unset")); [| discriminate].
    intros H. apply Ok_inj in H. subst st'. unfold counted in *. cbn [fst snd] in *.
    rewrite <- Hst.
    apply (@fold_left_invariant _ _
             (fun cl => list_total (map count_placeholders cl)
                        = list_total (map count_placeholders setClauses))
             (fun kv => count_placeholders (fst kv) = 0) _ _ (Hclean "$unset"));
      [| reflexivity].
    intros [k v] cl Hk Hcl. cbn [fst] in *.
    rewrite sum_push, count_placeholders_app, Hk, Hcl. simpl. lia. }
  destruct (op =? "$mul"); [| discriminate].
  intros H. apply Ok_inj in H. subst st'.
  apply (@fold_left_invariant _ _ counted
           (fun kv => count_placeholders (fst kv) = 0) _ _ (Hclean "$mul"));
    [| exact Hst].
  intros [k v] s Hk Hs. cbn [fst snd] in *. apply counted_push_bound; [| exact Hs].
  rewrite !count_placeholders_app, Hk. reflexivity.
Qed.

(** X28.  In a whole statement, built without plugins, the number of
    [?] is the number of parameters: for the select builder, for
    [mongoToMySQL], for the delete builder and for an update with an
    operator object.  This holds when the cache of every [SubQuery] of
    the filter is fresh, and when no [?] stands in a name that goes into
    the text as it is: the keys of the filter, the table name, the
    projection, joins and sort clause of the select builder and of the
    builders wrapped in a [SubQuery], the [orderBy] of [mongoToMySQL],
    the field names of the update. *)
Theorem statement_placeholders_match_params (f : Value) :
  everywhere fresh_cache f -> everywhere clean_names f ->
  (forall (b : MongoQueryBuilder) (r : Statement),
      filter b = f ->
      count_placeholders (select_head b) = 0 ->
      count_placeholders (select_tail b) = 0 ->
      MongoQueryBuilder_toSQL [] b = Ok r ->
      count_placeholders (sql r) = length (params r))
  /\ (forall t limit orderBy (r : Statement),
      count_placeholders t = 0 ->
      count_placeholders match orderBy with Some o => o | None => "id DESC" end = 0 ->
      mongoToMySQL [] f t limit orderBy = Ok r ->
      count_placeholders (sql r) = length (params r))
  /\ (forall (this : MongoDeleteBuilder) (r : Statement),
      del_filter this = f ->
      count_placeholders (del_tableName this) = 0 ->
      MongoDeleteBuilder_toSQL [] this = Ok r ->
      count_placeholders (sql r) = length (params r))
  /\ (forall (this : MongoUpdateBuilder) (updateOps : Value) (r : Statement),
      upd_filter this = f ->
      dataObj this = Some updateOps ->
      clean_update updateOps ->
      count_placeholders (upd_tableName this) = 0 ->
      MongoUpdateBuilder_toSQL [] this = Ok r ->
      count_placeholders (sql r) = length (params r)).
Proof.
  intros Hfresh Hclean. split; [| split; [| split]].
  - intros b r <- Hhead Htail Hr.
    destruct (@builder_statement _ _ _ Hr) as (w & Hw & Hsql).
    rewrite Hsql, (clause_nonEmpty _ _ _ Hw), !count_placeholders_app, Hhead, Htail.
    rewrite (@clause_count _ _ _ _ Hfresh Hclean Hw). simpl. lia.
  - intros t limit orderBy r Ht Ho. unfold mongoToMySQL.
    destruct (parseMongoQuery [] f [] "mongoToMySQL") as [[w ps] | e] eqn:Hw; cbn [bind];
      [| discriminate].
    intros Hr. apply Ok_inj in Hr. rewrite <- Hr. cbn [sql params].
    rewrite !count_placeholders_app, Ht, Ho, count_Z, (@clause_count _ _ _ _ Hfresh Hclean Hw).
    simpl. lia.
  - intros this r <- Ht. unfold MongoDeleteBuilder_toSQL.
    destruct (Object_keys (del_filter this)) as [keys | e]; cbn [bind]; [| discriminate].
    destruct (Nat.eqb (length keys) 0); [discriminate |].
    destruct (parseMongoQuery [] (del_filter this) [] "DELETE") as [[w ps] | e] eqn:Hw;
      cbn [bind]; [| discriminate].
    intros Hr. apply Ok_inj in Hr. rewrite <- Hr. cbn [sql params].
    destruct (singleDelete this);
      rewrite !count_placeholders_app, Ht, (@clause_count _ _ _ _ Hfresh Hclean Hw); simpl; lia.
  - intros this updateOps r <- Hdata Hops Ht. unfold MongoUpdateBuilder_toSQL.
    rewrite Hdata.
    destruct (Object_keys (upd_filter this)) as [keys | e]; cbn [bind]; [| discriminate].
    destruct (Nat.eqb (length keys) 0); [discriminate |].
    destruct (forEachM _ (own_props updateOps) ([], [])) as [[setClauses setParams] | e]
      eqn:Hloop; cbn [bind]; [| discriminate].
    destruct (Nat.eqb (length setClauses) 0); [discriminate |].
    rewrite <- (app_nil_r setParams) at 1. rewrite translation_frame.
    destruct (parseMongoQuery [] (upd_filter this) [] "UPDATE") as [[w ps] | e] eqn:Hw;
      cbn [bind]; [| discriminate].
    assert (Hset : counted (setClauses, setParams)).
    { apply (@forEachM_invariant _ _ counted _ _
               (fun kv st st' Hst H => @update_operator_counted updateOps (fst kv) st st'
                                         Hops Hst H)
               ([], []) _ eq_refl Hloop). }
    unfold counted in Hset. cbn [fst snd] in Hset.
    intros Hr. apply Ok_inj in Hr. rewrite <- Hr. cbn [sql params].
    destruct (singleUpdate this);
      rewrite !count_placeholders_app, Ht, count_join, Hset,
        (@clause_count _ _ _ _ Hfresh Hclean Hw), length_app by reflexivity; simpl; lia.
Qed.

Lemma statement_placeholders_match_params_witness :
  let f := VObj [("age", VObj [("$gte", VNum 18); ("$lt", VNum 65)]);
                 ("role", VObj [("$in", VArr [VStr "admin"; VStr "staff"])])] in
  let this := mkMongoUpdateBuilder "users" "id"
                (Some (VObj [("$set", VObj [("name", VStr "x")]);
                             ("$unset", VObj [("tmp", VStr "")]);
                             ("$inc", VObj [("n", VNum 1)])]))
                None f true in
  let r := mkStatement
             ("UPDATE users SET name = ?, tmp = NULL, n = n + ? "
              ++ "WHERE (age >= ? AND age < ?) AND role IN (?, ?) LIMIT 1")
             [PVal (VStr "x"); PVal (VNum 1); PVal (VNum 18); PVal (VNum 65);
              PVal (VStr "admin"); PVal (VStr "staff")] in
  everywhere fresh_cache f /\ everywhere clean_names f
  /\ MongoUpdateBuilder_toSQL [] this = Ok r
  /\ count_placeholders (sql r) = length (params r).
Proof.
  cbv zeta.
  set (f := VObj [("age", VObj [("$gte", VNum 18); ("$lt", VNum 65)]);
                  ("role", VObj [("$in", VArr [VStr "admin"; VStr "staff"])])]).
  assert (Hall : forall Q : Value -> Prop,
             (forall v, is_scalar v = true -> Q v) ->
             (forall l, Q (VArr l)) ->
             (forall l, Forall (fun kv => count_placeholders (fst kv) = 0) l -> Q (VObj l)) ->
             everywhere Q f).
  { intros Q Hs Ha Ho.
    assert (Sc : forall v, is_scalar v = true -> everywhere Q v)
      by (intros v Hv; apply everywhere_scalar; [exact Hv | now apply Hs]).
    repeat first
      [ apply Sc; reflexivity
      | apply everywhere_obj; [apply Ho; repeat constructor |]
      | apply everywhere_arr; [apply Ha |]
      | apply Forall_nil
      | apply Forall_cons ]. }
  assert (Hfresh : everywhere fresh_cache f).
  { apply Hall.
    - intros v Hv. destruct v; try discriminate Hv; exact I.
    - intros l. exact I.
    - intros l _. exact I. }
  assert (Hclean : everywhere clean_names f).
  { apply Hall.
    - intros v Hv. destruct v; try discriminate Hv; exact I.
    - intros l. exact I.
    - intros l Hl. exact Hl. }
  assert (Hops : clean_update
                   (VObj [("$set", VObj [("name", VStr "x")]);
                          ("$unset", VObj [("tmp", VStr "")]);
                          ("$inc", VObj [("n", VNum 1)])])).
  { intros op. unfold get_own. cbn [own_props_all own_props lookup].
    destruct ("$set" =? op); [repeat constructor |].
    destruct ("$unset" =? op); [repeat constructor |].
    destruct ("$inc" =? op); repeat constructor. }
  split; [exact Hfresh | split; [exact Hclean | split; [reflexivity |]]].
  exact (proj2 (proj2 (proj2 (@statement_placeholders_match_params f Hfresh Hclean)))
           (mkMongoUpdateBuilder "users" "id"
              (Some (VObj [("$set", VObj [("name", VStr "x")]);
                           ("$unset", VObj [("tmp", VStr "")]);
                           ("$inc", VObj [("n", VNum 1)])]))
              None f true)
           _ _ eq_refl eq_refl Hops eq_refl eq_refl).
Defined.

Lemma count_repeat (s : string) (n : nat) :
  list_total (map count_placeholders (repeat s n)) = n * count_placeholders s.
Proof. induction n as [|n IH]; simpl; [reflexivity | now rewrite IH]. Qed.

Lemma count_case_expression (idField col : string) (arms : nat) :
  count_placeholders idField = 0 -> count_placeholders col = 0 ->
  count_placeholders (case_expression idField col arms) = 2 * arms.
Proof.
  intros Hid Hcol. unfold case_expression.
  rewrite !count_placeholders_app, count_join, count_repeat, Hid, Hcol by reflexivity.
  simpl. lia.
Qed.

Lemma length_case_pairs (idField col : string) (rows : list Value) :
  length (case_pairs idField col rows) = 2 * length (rows_setting col rows).
Proof.
  unfold case_pairs. induction (rows_setting col rows) as [|obj l IH]; simpl;
    [reflexivity | rewrite IH; lia].
Qed.

Lemma bulk_assignments_count (idField : string) (rows : list Value) (cols : list string) :
  count_placeholders idField = 0 ->
  Forall (fun col => count_placeholders col = 0) cols ->
  list_total
    (map count_placeholders
       (map (fun col => case_expression idField col (length (rows_setting col rows)))
          cols))
  = length (flat_map (fun col => case_pairs idField col rows) cols).
Proof.
  intros Hid Hcols.
  induction Hcols as [|col cols Hcol _ IH]; [reflexivity |].
  cbn [map list_total fold_right flat_map].
  fold (list_total
          (map count_placeholders
             (map (fun col => case_expression idField col (length (rows_setting col rows)))
                cols))).
  rewrite length_app, <- IH, length_case_pairs.
  now rewrite (@count_case_expression idField col _ Hid Hcol).
Qed.

(** X29.  In a bulk update statement, built without plugins, the
    number of [?] is the number of parameters: two for every arm of every
    [CASE], one for every row in [IN (...)], and those of the filter.
    This holds when the cache of every [SubQuery] of the filter is fresh
    and no [?] stands in the table name, the identity field, a column
    name or a key of the filter. *)
Theorem bulk_update_placeholders_match_params (this : MongoUpdateBuilder)
  (rows : list Value) (r : Statement) :
  dataObj this = None ->
  dataArray this = Some rows ->
  everywhere fresh_cache (upd_filter this) ->
  everywhere clean_names (upd_filter this) ->
  count_placeholders (upd_tableName this) = 0 ->
  count_placeholders (idField this) = 0 ->
  Forall (fun col => count_placeholders col = 0) (bulk_columns (idField this) rows) ->
  MongoUpdateBuilder_toSQL [] this = Ok r ->
  count_placeholders (sql r) = length (params r).
Proof.
  intros Hobj Harr Hfresh Hclean Ht Hid Hcols. unfold MongoUpdateBuilder_toSQL.
  rewrite Hobj, Harr.
  destruct (Object_keys (upd_filter this)) as [keys | e]; cbn [bind]; [| discriminate].
  destruct (Nat.eqb (length keys) 0); [discriminate |].
  destruct (Nat.eqb (length rows) 0); [discriminate |].
  destruct (bulk_columns (idField this) rows) as [|c cols] eqn:Hc; [discriminate |].
  cbn [length Nat.eqb].
  destruct (mapM (bulk_setClause (idField this) rows) (c :: cols))
    as [setClauses | e] eqn:Hassign; cbn [bind]; [| discriminate].
  assert (Hask : Forall (fun row => answers row = true) rows).
  { cbn [mapM] in Hassign.
    destruct (bulk_setClause (idField this) rows c) as [s | e] eqn:Hs;
      [| discriminate Hassign].
    exact (@bulk_setClause_returns _ _ _ _ Hs). }
  rewrite (@bulk_setClauses_case (idField this) rows (c :: cols) Hask) in Hassign.
  apply Ok_inj in Hassign. subst setClauses.
  rewrite (@bulk_caseParams_pairs (idField this) rows (c :: cols) Hask).
  rewrite (@bulk_ids (idField this) rows Hask). cbn [bind].
  destruct (parseMongoQuery [] (upd_filter this) [] "BULK_UPDATE") as [[w ps] | e] eqn:Hw;
    cbn [bind]; [| discriminate].
  pose proof (@clause_count _ _ _ _ Hfresh Hclean Hw) as Hcount.
  pose proof (@bulk_assignments_count (idField this) rows _ Hid Hcols) as Hset.
  intros Hr. apply Ok_inj in Hr. rewrite <- Hr. cbn [sql params].
  rewrite !length_app, length_map, <- Hset, <- Hcount.
  destruct (String.eqb_spec w "1=1") as [-> | _]; cbn [negb];
    destruct (singleUpdate this);
    rewrite !count_placeholders_app, !count_join, Ht, Hid, map_const_map, sum_const
      by reflexivity;
    simpl; lia.
Qed.

Lemma bulk_update_placeholders_match_params_witness :
  let rows := [ VObj [("id", VNum 1); ("name", VStr "a")];
                VObj [("id", VNum 2); ("name", VStr "b"); ("age", VNum 3)] ] in
  let this := mkMongoUpdateBuilder "users" "id" None (Some rows)
                (VObj [("active", VBool true)]) false in
  let r := mkStatement
             ("UPDATE users SET name = CASE id WHEN ? THEN ? WHEN ? THEN ? ELSE name END, "
              ++ "age = CASE id WHEN ? THEN ? ELSE age END "
              ++ "WHERE id IN (?, ?) AND (active = ?)")
             [PVal (VNum 1); PVal (VStr "a"); PVal (VNum 2); PVal (VStr "b");
              PVal (VNum 2); PVal (VNum 3); PVal (VNum 1); PVal (VNum 2);
              PVal (VBool true)] in
  MongoUpdateBuilder_toSQL [] this = Ok r
  /\ count_placeholders (sql r) = length (params r).
Proof.
  cbv zeta. split; [reflexivity |].
  assert (Hfresh : everywhere fresh_cache (VObj [("active", VBool true)])).
  { apply everywhere_obj; [exact I |].
    repeat constructor. }
  assert (Hclean : everywhere clean_names (VObj [("active", VBool true)])).
  { apply everywhere_obj; [repeat constructor |].
    repeat constructor. }
  assert (Hcols : Forall (fun col => count_placeholders col = 0)
                    (bulk_columns "id"
                       [ VObj [("id", VNum 1); ("name", VStr "a")];
                         VObj [("id", VNum 2); ("name", VStr "b"); ("age", VNum 3)] ]))
    by (repeat constructor).
  exact (@bulk_update_placeholders_match_params
           (mkMongoUpdateBuilder "users" "id" None
              (Some [ VObj [("id", VNum 1); ("name", VStr "a")];
                      VObj [("id", VNum 2); ("name", VStr "b"); ("age", VNum 3)] ])
              (VObj [("active", VBool true)]) false)
           _ _ eq_refl eq_refl Hfresh Hclean eq_refl eq_refl Hcols eq_refl).
Defined.

(* ------------------------------------------------------------------ *)
(** ** Fields compared with a value *)

Lemma plain_fields_loop (plugins : list OperatorPlugin) (context : string)
  (props : list (string * Value)) (conditions : list string) (params : list param) :
  Forall (fun kv => startsWith (fst kv) "$" = false /\ compared_as_it_is (snd kv) = true)
    props ->
  forEachM (fun kv => parseEntry plugins (parseMongoQuery plugins) context (fst kv) (snd kv))
    props (conditions, params)
  = Ok (push_all conditions (map (fun kv => fst kv ++ " = ?") props),
        push_all params (map (fun kv => PVal (snd kv)) props)).
Proof.
  intros H. revert conditions params.
  induction H as [|[k v] props [Hk Hv] _ IH]; intros conditions params;
    cbn [forEachM map].
  - unfold push_all. now rewrite !app_nil_r.
  - cbn [fst snd] in *. unfold parseEntry at 1. rewrite Hk.
    destruct v; try discriminate Hv; cbn [tryCatch]; rewrite IH;
      unfold push, push_all; rewrite <- !app_assoc; reflexivity.
Qed.

(** X30.  A filter whose keys do not start with [$] and whose values
    are numbers, strings, booleans, [null], [undefined] or arrays compiles
    to [k1 = ? AND ... AND kn = ?], in the order of the keys, and binds
    each value as it is ([1=1] and no parameter for the object without
    keys).  A [null] is not turned into [IS NULL], nor an array into
    [IN]: each is the one parameter of its [=].  This holds with any
    plugins. *)
Theorem plain_fields_compile_to_equalities (plugins : list OperatorPlugin)
  (props : list (string * Value)) (params : list param) (context : string) :
  Forall (fun kv => startsWith (fst kv) "$" = false /\ compared_as_it_is (snd kv) = true)
    props ->
  parseMongoQuery plugins (VObj props) params context
  = Ok (match props with
        | [] => "1=1"
        | _ => join " AND " (map (fun kv => fst kv ++ " = ?") props)
        end,
        push_all params (map (fun kv => PVal (snd kv)) props)).
Proof.
  intros H. cbn [parseMongoQuery]. rewrite (plain_fields_loop plugins context [] params H).
  cbn [bind]. unfold push_all. cbn [app]. destruct props; reflexivity.
Qed.

Lemma plain_fields_compile_to_equalities_witness :
  let props := [("status", VStr "paid"); ("deleted_at", VNull);
                ("tags", VArr [VStr "a"; VStr "b"])] in
  Forall (fun kv => startsWith (fst kv) "$" = false /\ compared_as_it_is (snd kv) = true)
    props
  /\ parseMongoQuery [] (VObj props) [] "root"
     = Ok ("status = ? AND deleted_at = ? AND tags = ?",
           [PVal (VStr "paid"); PVal VNull; PVal (VArr [VStr "a"; VStr "b"])]).
Proof.
  cbv zeta.
  assert (H : Forall (fun kv : string * Value =>
                        startsWith (fst kv) "$" = false
                        /\ compared_as_it_is (snd kv) = true)
                [("status", VStr "paid"); ("deleted_at", VNull);
                 ("tags", VArr [VStr "a"; VStr "b"])])
    by (repeat constructor).
  split; [exact H |].
  exact (@plain_fields_compile_to_equalities []
           [("status", VStr "paid"); ("deleted_at", VNull);
            ("tags", VArr [VStr "a"; VStr "b"])] [] "root" H).
Defined.
